(* ===== verification/_CoqProject ===== *)
-Q . S2P
Prelude.v
GF256.v
ReedSolomon.v
QrMatrix.v
JsText.v
Amounts.v
Numbers.v
Locale.v
Dates.v
Bytes.v
ConvertBits.v
Bech32.v
Mnemonic.v
Quiz.v
Keys.v
ReceiveQr.v
Wif.v
Tx.v
Coins.v
TxProofs.v
TxTheorems.v
Utf8.v
Json.v
Vault.v
Background.v
System.v
Frame.v
Worker.v
Monotone.v
Requests.v
Popup.v
Protocol.v
PopupProofs.v
Endpoints.v
Bridge.v
Store.v
WalletStorage.v
WalletProofs.v
Api.v
MobileRoutes.v
Pages.v
PagesProofs.v
HomeScreen.v
Setup.v
Send.v
SendProofs.v
P2P.v
P2PProofs.v
Settings.v
Watch.v
PopupLists.v
Tickets.v
Market.v
MarketProofs.v
MarketList.v
CustomFetch.v
ApiClient.v
Explorer.v
ExplorerPages.v
DexWallet.v
DexLedger.v
DexTrade.v
SwapTab.v
Issuance.v
Presale.v
Toast.v
BlockStream.v
QrCode.v
QrDecode.v
QrProofs.v
QrSymbol.v
QrTheorems.v
