(* ===== verification/Prelude.v ===== *)
(** * GarudaChain wallets and website: verification library

    GarudaChain is a Bitcoin-derived chain with a browser extension wallet
    (src/extension), a mobile wallet (src/mobile) and a website (src/website),
    written in TypeScript. This library models their code as Rocq functions and
    proves what it does. The wallets share one design: a phrase of 24 words is
    hashed into secp256k1 and ML-DSA-87 keys, keys into Bech32 and Bech32m
    addresses, unspent outputs are selected and signed into segwit transactions and
    sent to the node's HTTP API. The extension keeps its accounts in an encrypted
    vault behind a background worker that answers pages and its popup; the mobile
    application keeps them in the device's stores behind its pages.

    ** Conventions

    A JavaScript string is the list of its UTF-16 units ([jsstr]), an integer is a
    [Z] with the 32-bit conversion of the bitwise operators written out ([int32]),
    a number that may have a fraction is an IEEE double with exact rounding
    (Amounts.v). An exception is [None], a value of a sum, or the right side of a
    monad. Packages, the browser and the platform are class arguments ([Crypto],
    [VaultCrypto], [KV]) with their documented laws ([CryptoLaws],
    [VaultCryptoLaws],
    [KVLaws]) and a concrete instance each, so every theorem with such laws is
    also applied at an instance. Random bytes and orders, replies of servers, the
    clock and the time zone are arguments, and so is the digit grouping of the
    messages of orders.

    ** Parts

    - Language: Prelude.v (operators, lists, tactics), JsText.v (text), Utf8.v
      (UTF-8, Base64), Amounts.v (doubles, [parseFloat]), Numbers.v (printing of
      numbers), Locale.v ([toLocaleString] for id-ID), Dates.v (ISO dates), Json.v
      ([JSON.parse], [JSON.stringify]), Bytes.v (hexadecimal, CompactSize, little
      endian).
    - Keys and transactions, src/mobile/utils/wallet-crypto.ts and
      src/extension/src/crypto/wallet.ts: ConvertBits.v, Bech32.v, Mnemonic.v,
      Keys.v, Wif.v, Tx.v, Coins.v, with proofs in TxProofs.v and TxTheorems.v.
    - QR codes, src/mobile/utils/qrcode.ts: GF256.v, ReedSolomon.v, QrMatrix.v,
      QrCode.v; QrDecode.v is a reader written from the standard, QrProofs.v,
      QrSymbol.v and QrTheorems.v relate the two.
    - Extension: Vault.v (src/extension/src/store/vault.ts), Background.v
      (src/extension/src/background/index.ts) as processes with atomic sections,
      System.v (interleaving of events and a Hoare logic for it), Frame.v,
      Worker.v and Monotone.v (invariants and relations that hold along runs),
      Requests.v (single requests), Protocol.v (the types of the replies, and what
      an approval refers to), Bridge.v (src/extension/src/inpage/index.ts and
      content/index.ts).
    - Popup of the extension, src/extension/src/popup: Popup.v has its pages as
      programs of messages to the worker, [play] runs one against the worker of
      Background.v, PopupProofs.v has the theorems on the two together. ReceiveQr.v
      is the code the receive page draws, Quiz.v the quiz on the recovery phrase,
      which the mobile application shares, PopupLists.v the address book, the
      notifications and the page of an asset.
    - Server, src/api/main.go: the table of its routes, in Endpoints.v, and which
      requests of the extension (Endpoints.v) and of the mobile client
      (MobileRoutes.v) it serves; the handlers of searches, blocks and transactions
      (Explorer.v, ExplorerPages.v), of the exchange's ledger (DexLedger.v) and of
      presale purchases (Presale.v), with the node they call as an argument, and
      the entry it makes of a transfer (Watch.v).
    - Mobile application, src/mobile: Store.v (stores, network, clock and the
      monad [IO]), WalletStorage.v and WalletProofs.v (utils/wallet-storage.ts),
      Api.v (utils/garuda-api.ts), Pages.v and PagesProofs.v (pages that create,
      import, open and unlock wallets), Setup.v (the five pages of the set-up on the
      router's stack, with context/WalletSetupContext.tsx), HomeScreen.v
      (BerandaScreen of app/beranda.tsx, its calls in any order), Send.v and
      SendProofs.v (app/kirim.tsx and the swap forms of app/beranda.tsx), P2P.v and
      P2PProofs.v (utils/p2p-storage.ts, app/p2p-chat.tsx), Market.v, MarketProofs.v
      and MarketList.v (app/p2p-order.tsx, app/p2p-buat-iklan.tsx, the market list
      of app/beranda.tsx), Settings.v (app/keamanan.tsx, app/buku-alamat.tsx),
      Watch.v (app/pantau-alamat.tsx, app/notifikasi.tsx), Tickets.v
      (app/admin-login.tsx, app/admin-obrolan.tsx), SwapTab.v (TabSwap of
      app/beranda.tsx, with getAssetPrice of utils/garuda-api.ts).
    - Website, src/website/src: CustomFetch.v (lib/api-client/custom-fetch.ts),
      ApiClient.v (lib/api-client/generated/api.ts), Explorer.v
      (components/SearchBox.tsx), ExplorerPages.v (pages/BlockDetail.tsx,
      pages/TransactionDetail.tsx), Issuance.v (pages/PenerbitanSaham.tsx,
      hooks/use-wallet.ts), Presale.v (pages/IPOSaham.tsx), Toast.v
      (hooks/use-toast.ts), BlockStream.v (hooks/use-block-stream.ts).
    - Exchange, src/dex-archive/dex/src: DexWallet.v (useDexWallet and the deposit
      dialog of pages/DEX.tsx, in a monad [D] over the browser's storage and a
      server that is an argument), DexLedger.v (that server), DexTrade.v (SwapPage
      and the order list of pages/DEX.tsx, components/dex/OrderForm.tsx).

    ** What is shown

    Transactions: what the builders return parses as the requested transaction, with
    signatures of the BIP-143 digests; payments conserve value. Addresses and
    exported keys are read back by decoders written from the standards. QR symbols
    of up to 106 bytes are read back by a conforming reader, and the encoder is
    total. The vault, JSON documents and stored orders are read back. Worker: no
    approval runs twice, what was shown is what an approval executes, replies have
    the type their request promises, an unlocked session always has its lock timer,
    pages are told addresses only when connected. Popup and worker together: a
    created wallet has a checked phrase and is stored, unlocking and sending end in
    the state the page shows. Mobile storage refines list operations; the set-up
    reaches its last page only with a checked phrase; unlocking accepts what was
    set; new accounts keep the numbering; the home screen shows the stored wallet
    whatever order its calls settle in; every request of the client has a route.
    Settings, the address book and the support chat keep what they are given, when
    their calls do not overlap. Orders: the
    deadline of the escrow is exact and stored orders stay consistent under every
    sequence of actions. Amounts: rounding to units is exact below 2^51. Watched
    addresses are what is stored under every order of imports and deletions; the
    swap tab ends with the rate of its pair when answers keep their order. Website:
    decoded replies, one toast, one connection; queries that share a cache key send
    the same request, a search reaches the server unchanged and opens the page of
    what the node knows, the issuing wizard submits only what it checked. Exchange:
    a browser returns to the trading account it was given, the two tokens of a swap
    stay different. Theorems of kind error state where the code departs from what
    it means to do, among them a block page that cannot show a block, notifications
    without amounts, deposits that stay hidden, withdrawals without an owner, and a
    presale purchase that is announced whether or not it was paid.

    ** Fuel and bounds

    The JSON parser has twice the length of its text as fuel, which [need_bound]
    shows to be enough for every printed document; digits take one step for each bit of the
    value ([digits_fuel]); the search of a year starts at a lower bound and needs
    at most 40 steps for the years 1970 to 9999; the shortest decimal of a double
    is searched up to 17 digits, and round trips assume that it was found
    ([printable], decidable). Password stretching runs its 100,000 rounds as
    written.

    ** Not modelled

    The rendering of pages (src/mobile/app, src/extension/src/popup,
    src/website/src/pages, components): layout of what the modelled functions
    return; of the block and transaction pages what is drawn, and when it throws, is
    modelled. The pages of the mobile application that only display
    (detail-aset.tsx, terima.tsx, beli.tsx, profil.tsx).
    src/extension/src/utils/*-mobile.ts and src/extension-old are copies or older
    versions of modelled files. Of the exchange, its charts, order book and
    portfolio views; of the generated API client, the hooks that pass the options to
    the query library. The C++ node (src/node), the other handlers of the Go server
    and the indexer (src/api, src/indexer) and the miner are other programs behind
    the API. Unicode case tables and the date formats of the device's language are
    data of the platform, and arguments where they matter. *)

From Stdlib Require Export ZArith Lia Bool.
From Stdlib Require Import Ascii.
From Stdlib Require String.
Export String.StringSyntax.
From stdpp Require Export base option numbers list_numbers list.
From stdpp Require Import tactics.

Local Open Scope Z_scope.

(** ** JavaScript numbers under the bitwise operators

    The bitwise operators of JavaScript convert their operands with
    [ToInt32] and give a signed 32-bit result. *)

Definition int32 (z : Z) : Z := (z + 2 ^ 31) mod 2 ^ 32 - 2 ^ 31.

Definition js_and (a b : Z) : Z := Z.land (int32 a) (int32 b).
Definition js_or (a b : Z) : Z := Z.lor (int32 a) (int32 b).
Definition js_xor (a b : Z) : Z := Z.lxor (int32 a) (int32 b).
Definition js_shl (a n : Z) : Z := int32 (Z.shiftl (int32 a) (n mod 32)).
Definition js_sar (a n : Z) : Z := Z.shiftr (int32 a) (n mod 32).

(** A store into a [Uint8Array] keeps the value modulo 256. *)
Definition uint8 (z : Z) : Z := z mod 256.

Declare Scope js_scope.
Delimit Scope js_scope with js.
Infix "&." := js_and (at level 41, left associativity) : js_scope.
Infix "|." := js_or (at level 43, left associativity) : js_scope.
Infix "^." := js_xor (at level 42, left associativity) : js_scope.
Infix "<<." := js_shl (at level 40, left associativity) : js_scope.
Infix ">>." := js_sar (at level 40, left associativity) : js_scope.
Global Open Scope js_scope.

(** A JavaScript string is its list of UTF-16 code units. *)
Abbreviation jsstr := (list Z) (only parsing).

Definition code_unit (a : ascii) : Z := Z.of_N (N_of_ascii a).
Definition js (s : String.string) : jsstr := map code_unit (String.list_ascii_of_string s).
Arguments js s%_string_scope.

(** A byte, and the list of bytes a [Uint8Array] holds. *)
Definition byte_ok (b : Z) : Prop := 0 <= b < 256.
Abbreviation bytes_ok := (Forall byte_ok).

Create HintDb garuda discriminated.

(** ** Automation *)

Ltac invert H := inversion H; subst; clear H.

Ltac split_and_all := repeat match goal with |- _ /\ _ => split end.

(** [bits i] proves an equation of integers bit by bit. *)
Ltac bitwise i := apply Z.bits_inj'; intros i ?Hi;
  repeat (rewrite Z.lxor_spec || rewrite Z.land_spec || rewrite Z.lor_spec).

(** Decide the boolean integer tests of the goal. *)
Ltac zbool :=
  repeat match goal with
  | |- context [?a =? ?b] => destruct (Z.eqb_spec a b)
  | |- context [?a <=? ?b] => destruct (Z.leb_spec a b)
  | |- context [?a <? ?b] => destruct (Z.ltb_spec a b)
  end.

(** ** Lemmas on 32-bit arithmetic *)

Lemma int32_small z : - 2 ^ 31 <= z < 2 ^ 31 -> int32 z = z.
Proof. intros H. unfold int32. rewrite Z.mod_small; lia. Qed.

Lemma int32_range z : - 2 ^ 31 <= int32 z < 2 ^ 31.
Proof. unfold int32. pose proof (Z.mod_pos_bound (z + 2 ^ 31) (2 ^ 32)). lia. Qed.

Lemma js_xor_small a b :
  0 <= a < 2 ^ 31 -> 0 <= b < 2 ^ 31 -> a ^. b = Z.lxor a b.
Proof. intros. unfold js_xor. rewrite !int32_small by lia. done. Qed.

Lemma js_and_small a b :
  0 <= a < 2 ^ 31 -> 0 <= b < 2 ^ 31 -> a &. b = Z.land a b.
Proof. intros. unfold js_and. rewrite !int32_small by lia. done. Qed.

Lemma js_or_small a b :
  0 <= a < 2 ^ 31 -> 0 <= b < 2 ^ 31 -> a |. b = Z.lor a b.
Proof. intros. unfold js_or. rewrite !int32_small by lia. done. Qed.

Lemma js_sar_small a n :
  0 <= a < 2 ^ 31 -> 0 <= n < 32 -> a >>. n = Z.shiftr a n.
Proof. intros. unfold js_sar. rewrite int32_small by lia. by rewrite Z.mod_small. Qed.

Lemma js_shl_small a n :
  0 <= a -> 0 <= n < 32 -> a * 2 ^ n < 2 ^ 31 -> a <<. n = a * 2 ^ n.
Proof.
  intros Ha Hn Hlt. assert (0 < 2 ^ n) by (apply Z.pow_pos_nonneg; lia).
  unfold js_shl. rewrite (int32_small a) by nia.
  rewrite Z.mod_small, Z.shiftl_mul_pow2 by lia. apply int32_small. nia.
Qed.

Lemma uint8_small b : byte_ok b -> uint8 b = b.
Proof. intros H. by apply Z.mod_small. Qed.

Lemma uint8_ok b : byte_ok (uint8 b).
Proof. apply Z.mod_pos_bound. lia. Qed.

Lemma lxor_bound k a b :
  0 <= k -> 0 <= a < 2 ^ k -> 0 <= b < 2 ^ k -> 0 <= Z.lxor a b < 2 ^ k.
Proof.
  intros Hk [Ha Ha'] [Hb Hb']. split; [apply Z.lxor_nonneg; lia|].
  assert (0 < 2 ^ k) by (apply Z.pow_pos_nonneg; lia).
  rewrite <- (Z.mod_small a (2 ^ k)), <- (Z.mod_small b (2 ^ k)) by lia.
  rewrite <- !Z.land_ones by lia.
  assert (Z.lxor (Z.land a (Z.ones k)) (Z.land b (Z.ones k))
          = Z.land (Z.lxor a b) (Z.ones k)) as ->.
  { bitwise i. destruct (Z.testbit a i), (Z.testbit b i), (Z.testbit (Z.ones k) i); done. }
  rewrite Z.land_ones by lia. apply Z.mod_pos_bound. lia.
Qed.

Lemma lxor_byte a b : byte_ok a -> byte_ok b -> byte_ok (Z.lxor a b).
Proof. intros. by apply (lxor_bound 8). Qed.

Lemma js_xor_byte a b : byte_ok a -> byte_ok b -> a ^. b = Z.lxor a b.
Proof. unfold byte_ok. intros. apply js_xor_small; lia. Qed.

#[export] Hint Resolve lxor_byte uint8_ok : garuda.

Lemma testbit_high k a i : 0 <= k -> 0 <= a < 2 ^ k -> k <= i -> Z.testbit a i = false.
Proof.
  intros Hk Ha Hi. rewrite <- (Z.mod_small a (2 ^ k)) by lia.
  by apply Z.mod_pow2_bits_high.
Qed.

(** Two integers that share their bits below [k] are equal modulo [2 ^ k]. *)
Lemma land_ones_mod a k : 0 <= k -> Z.land a (2 ^ k - 1) = a mod 2 ^ k.
Proof.
  intros. replace (2 ^ k - 1) with (Z.ones k) by (rewrite Z.ones_equiv; lia).
  by apply Z.land_ones.
Qed.

(** ** Lists read by position *)

Lemma list_eq_total (l1 l2 : list Z) :
  length l1 = length l2 ->
  (forall i, (i < length l1)%nat -> l1 !!! i = l2 !!! i) -> l1 = l2.
Proof.
  intros Hlen H. apply list_eq_same_length with (length l1); [done..|].
  intros i x y Hi Hx Hy. specialize (H i Hi).
  by rewrite (list_lookup_total_correct _ _ _ Hx), (list_lookup_total_correct _ _ _ Hy) in H.
Qed.

Lemma lookup_total_map_seq (f : nat -> Z) n i :
  (i < n)%nat -> map f (seq 0 n) !!! i = f i.
Proof.
  intros Hi. apply list_lookup_total_correct.
  by rewrite list_lookup_fmap, lookup_seq_lt.
Qed.

Lemma Forall_lookup_total (P : Z -> Prop) l i :
  Forall P l -> (i < length l)%nat -> P (l !!! i).
Proof.
  intros H Hi. rewrite Forall_lookup in H. eapply H.
  by apply list_lookup_lookup_total_lt.
Qed.

Lemma lookup_total_app (l k : list Z) i :
  (l ++ k) !!! i = if decide (i < length l)%nat then l !!! i else k !!! (i - length l)%nat.
Proof.
  case_decide; [by apply lookup_total_app_l | apply lookup_total_app_r; lia].
Qed.

Lemma lookup_total_map (f : Z -> Z) l i :
  (i < length l)%nat -> map f l !!! i = f (l !!! i).
Proof.
  intros Hi. apply list_lookup_total_correct. rewrite list_lookup_fmap.
  by rewrite (list_lookup_lookup_total_lt l i Hi).
Qed.

Lemma lookup_total_zip_with (f : Z -> Z -> Z) l k i :
  (i < length l)%nat -> (i < length k)%nat -> zip_with f l k !!! i = f (l !!! i) (k !!! i).
Proof.
  intros Hl Hk. apply list_lookup_total_correct. rewrite lookup_zip_with.
  by rewrite (list_lookup_lookup_total_lt l i Hl), (list_lookup_lookup_total_lt k i Hk).
Qed.

Lemma insert_total (l : list Z) i j x :
  (i < length l)%nat ->
  (<[i := x]> l) !!! j = if decide (j = i) then x else l !!! j.
Proof.
  intros Hi. case_decide as H; [subst; by apply list_lookup_total_insert_eq|].
  by apply list_lookup_total_insert_ne.
Qed.

Create Rewrite HintDb llen.
#[export] Hint Rewrite @length_app @length_map @length_seq @length_replicate @length_insert
  @length_zip_with @length_take @length_drop : llen.
Ltac llen := repeat (progress (autorewrite with llen in *; cbn [length] in *)); try lia.

#[export] Instance byte_ok_dec b : Decision (byte_ok b).
Proof. unfold byte_ok. apply _. Defined.

(** Closed facts about bytes. *)
Ltac bytes := first [ by apply (bool_decide_unpack _); vm_compute | unfold byte_ok in *; lia ].

Lemma forallb_map {A B} (f : A -> B) (p : B -> bool) (l : list A) :
  forallb p (map f l) = forallb (fun x => p (f x)) l.
Proof. induction l as [|x l IH]; [done|]. simpl. by rewrite IH. Qed.
