(* ===== verification/GF256.v ===== *)
(** * GF(256) arithmetic of the QR encoder

    The exponent and logarithm tables and the product of
    [mobile/utils/qrcode.ts], against the product of binary polynomials
    modulo [x^8 + x^4 + x^3 + x^2 + 1]. *)

From S2P Require Import Prelude.
Local Open Scope Z_scope.

(** ** The tables, as the initialiser of the source fills them *)

Definition gf_init_step (st : list Z * list Z * Z) (i : nat) : list Z * list Z * Z :=
  let '(GF_EXP, GF_LOG, x) := st in
  let GF_EXP := <[i := uint8 x]> GF_EXP in
  let GF_LOG := <[Z.to_nat x := uint8 (Z.of_nat i)]> GF_LOG in
  let x := x <<. 1 in
  let x := if negb (x &. 0x100 =? 0) then x ^. 0x11d else x in
  let x := x &. 0xff in
  (GF_EXP, GF_LOG, x).

Definition gf_tables : list Z * list Z :=
  let '(e, l, _) :=
    foldl gf_init_step (replicate 512 0, replicate 256 0, 1) (seq 0 255) in
  let e := foldl (fun e i => <[i := uint8 (e !!! (i - 255)%nat)]> e) e (seq 255 257) in
  (e, l).

Definition GF_EXP : list Z := Eval vm_compute in fst gf_tables.
Definition GF_LOG : list Z := Eval vm_compute in snd gf_tables.

Definition gfMul (a b : Z) : Z :=
  if (a =? 0) || (b =? 0) then 0
  else GF_EXP !!! Z.to_nat ((GF_LOG !!! Z.to_nat a + GF_LOG !!! Z.to_nat b) mod 255).

(** ** Reference: binary polynomials modulo [0x11d] *)

(** Carry-less product: the bits of [b] select the shifts of [a]. *)
Fixpoint clmul (n : nat) (a b : Z) : Z :=
  match n with
  | O => 0
  | S n => Z.lxor (if Z.odd b then a else 0) (clmul n (2 * a) (Z.div2 b))
  end.

(** Remainder modulo [0x11d] of a polynomial of degree at most [7 + n]. *)
Fixpoint clmod (n : nat) (a : Z) : Z :=
  match n with
  | O => a
  | S n => clmod n (if Z.testbit a (8 + Z.of_nat n)
                    then Z.lxor a (Z.shiftl 0x11d (Z.of_nat n)) else a)
  end.

(** The product of the field with 256 elements. *)
Definition gf_ref (a b : Z) : Z := clmod 8 (clmul 8 a b).

(** Multiplication by [x], the generator of the field. *)
Definition xtime (a : Z) : Z :=
  if Z.testbit a 7 then Z.lxor (2 * a) 0x11d else 2 * a.

(** The powers of the generator. *)
Definition alpha (i : nat) : Z := Nat.iter i xtime 1.

(** The product by repeated doubling in the field. *)
Fixpoint gf_mul (n : nat) (a b : Z) : Z :=
  match n with
  | O => 0
  | S n => Z.lxor (if Z.odd b then a else 0) (gf_mul n (xtime a) (Z.div2 b))
  end.

(** ** A checker for statements over the 256 bytes *)

Definition all_bytes (f : Z -> bool) : bool := forallb f (seqZ 0 256).

Lemma all_bytes_spec f : all_bytes f = true -> forall a, byte_ok a -> f a = true.
Proof.
  unfold all_bytes. intros H a Ha. rewrite forallb_forall in H. apply H.
  apply list_elem_of_In, elem_of_seqZ. unfold byte_ok in Ha. lia.
Qed.

(** ** Doubling *)

Lemma two_lxor a b : 2 * Z.lxor a b = Z.lxor (2 * a) (2 * b).
Proof.
  rewrite !(Z.mul_comm 2), <- !(Z.shiftl_mul_pow2 _ 1) by lia. apply Z.shiftl_lxor.
Qed.

Lemma lxor_swap a b c d : Z.lxor (Z.lxor a b) (Z.lxor c d) = Z.lxor (Z.lxor a c) (Z.lxor b d).
Proof. bitwise i. by destruct (Z.testbit a i), (Z.testbit b i), (Z.testbit c i), (Z.testbit d i). Qed.

Lemma xtime_lxor a b : xtime (Z.lxor a b) = Z.lxor (xtime a) (xtime b).
Proof.
  unfold xtime. rewrite Z.lxor_spec, two_lxor.
  destruct (Z.testbit a 7), (Z.testbit b 7); simpl;
    bitwise i; destruct (Z.testbit (2 * a) i), (Z.testbit (2 * b) i), (Z.testbit 285 i); done.
Qed.

Lemma xtime_ok a : byte_ok a -> byte_ok (xtime a).
Proof.
  intros Ha. assert (((0 <=? xtime a) && (xtime a <? 256)) = true).
  { revert a Ha. by apply (all_bytes_spec (fun a => (0 <=? xtime a) && (xtime a <? 256))). }
  unfold byte_ok. lia.
Qed.

Lemma alpha_S i : alpha (S i) = xtime (alpha i).
Proof. done. Qed.

Lemma alpha_ok i : byte_ok (alpha i).
Proof. induction i; [unfold byte_ok, alpha; simpl; lia | rewrite alpha_S; by apply xtime_ok]. Qed.

Lemma alpha_255 : alpha 255 = 1.
Proof. by vm_compute. Qed.

Lemma alpha_add_255 i : alpha (i + 255) = alpha i.
Proof. induction i; [exact alpha_255 | simpl Nat.add; by rewrite !alpha_S, IHi]. Qed.

Lemma alpha_mod i : alpha (i mod 255) = alpha i.
Proof.
  rewrite (Nat.div_mod_eq i 255) at 2.
  generalize (i / 255)%nat (i mod 255)%nat; intros q r.
  induction q as [|q IH]; [f_equal; lia|]. rewrite IH, <- (alpha_add_255 (255 * q + r)).
  f_equal. lia.
Qed.

#[export] Hint Resolve xtime_ok alpha_ok : garuda.

(** ** The reference product is bilinear *)

Lemma if_lxor (b c : bool) x :
  Z.lxor (if b then x else 0) (if c then x else 0) = if xorb b c then x else 0.
Proof. destruct b, c; simpl; rewrite ?Z.lxor_0_r, ?Z.lxor_0_l, ?Z.lxor_nilpotent; done. Qed.

Lemma odd_lxor a b : Z.odd (Z.lxor a b) = xorb (Z.odd a) (Z.odd b).
Proof. rewrite <- !Z.bit0_odd. apply Z.lxor_spec. Qed.

Lemma div2_lxor a b : Z.div2 (Z.lxor a b) = Z.lxor (Z.div2 a) (Z.div2 b).
Proof. rewrite !Z.div2_spec. apply Z.shiftr_lxor. Qed.

Lemma gf_mul_lxor_r n a b c : gf_mul n a (Z.lxor b c) = Z.lxor (gf_mul n a b) (gf_mul n a c).
Proof.
  revert a b c. induction n as [|n IH]; intros a b c; [done|]. simpl.
  rewrite odd_lxor, div2_lxor, IH, <- if_lxor. apply lxor_swap.
Qed.

Lemma gf_mul_lxor_l n a b c : gf_mul n (Z.lxor a b) c = Z.lxor (gf_mul n a c) (gf_mul n b c).
Proof.
  revert a b c. induction n as [|n IH]; intros a b c; [done|]. simpl.
  rewrite xtime_lxor, IH, (lxor_swap (if Z.odd c then a else 0)). f_equal. by destruct (Z.odd c).
Qed.

Lemma gf_mul_0_r n a : gf_mul n a 0 = 0.
Proof. revert a. induction n; intros; [done|]. simpl. by rewrite IHn. Qed.

Lemma gf_mul_0_l n a : gf_mul n 0 a = 0.
Proof. revert a. induction n; intros; [done|]. simpl. rewrite IHn. by destruct (Z.odd a). Qed.

Lemma gf_mul_xtime n a b : gf_mul n (xtime a) b = xtime (gf_mul n a b).
Proof.
  revert a b. induction n as [|n IH]; intros a b; [done|]. simpl.
  rewrite IH, xtime_lxor. f_equal. by destruct (Z.odd b).
Qed.

Lemma gf_mul_1_l b : byte_ok b -> gf_mul 8 1 b = b.
Proof. intros Hb. apply Z.eqb_eq. revert b Hb. by apply (all_bytes_spec (fun b => gf_mul 8 1 b =? b)). Qed.

Lemma gf_mul_alpha i j : gf_mul 8 (alpha i) (alpha j) = alpha (i + j).
Proof.
  induction i as [|i IH]; [apply gf_mul_1_l, alpha_ok|].
  simpl Nat.add. by rewrite !alpha_S, gf_mul_xtime, IH.
Qed.

Lemma gf_mul_ok n a b : byte_ok a -> byte_ok (gf_mul n a b).
Proof.
  revert a b. induction n as [|n IH]; intros a b Ha; simpl; [unfold byte_ok; lia|].
  apply lxor_byte; [destruct (Z.odd b); [done | unfold byte_ok; lia] | auto with garuda].
Qed.

(** ** The two reference products agree *)

Lemma clmod_lxor n a b : clmod n (Z.lxor a b) = Z.lxor (clmod n a) (clmod n b).
Proof.
  revert a b. induction n as [|n IH]; intros a b; [done|]. simpl.
  rewrite Z.lxor_spec, <- IH. f_equal.
  destruct (Z.testbit a (8 + Z.of_nat n)), (Z.testbit b (8 + Z.of_nat n)); simpl; bitwise i;
    destruct (Z.testbit a i), (Z.testbit b i), (Z.testbit (Z.shiftl 285 (Z.of_nat n)) i); done.
Qed.

Lemma clmod_double a k :
  byte_ok a -> (k < 8)%nat -> clmod 8 (2 ^ Z.of_nat k * a) = Nat.iter k xtime a.
Proof.
  intros Ha Hk. apply Z.eqb_eq.
  assert (all_bytes (fun a => forallb (fun k =>
    clmod 8 (2 ^ Z.of_nat k * a) =? Nat.iter k xtime a) (seq 0 8)) = true) as H by by vm_compute.
  pose proof (all_bytes_spec _ H a Ha) as H1. rewrite forallb_forall in H1. apply H1.
  apply list_elem_of_In, elem_of_seq. lia.
Qed.

Lemma clmod_0 n : clmod n 0 = 0.
Proof. induction n; [done|]. simpl. by rewrite Z.testbit_0_l. Qed.

Lemma clmul_gf_mul n k a b :
  byte_ok a -> (k + n <= 8)%nat ->
  clmod 8 (clmul n (2 ^ Z.of_nat k * a) b) = gf_mul n (Nat.iter k xtime a) b.
Proof.
  intros Ha. revert k b. induction n as [|n IH]; intros k b Hk; [apply clmod_0|]. simpl clmul.
  rewrite clmod_lxor.
  replace (2 * (2 ^ Z.of_nat k * a)) with (2 ^ Z.of_nat (S k) * a)
    by (rewrite Nat2Z.inj_succ, Z.pow_succ_r by lia; lia).
  rewrite IH by lia. cbn [gf_mul]. f_equal.
  destruct (Z.odd b); [apply clmod_double; [done | lia] | apply clmod_0].
Qed.

Lemma gf_ref_gf_mul a b : byte_ok a -> gf_ref a b = gf_mul 8 a b.
Proof.
  intros Ha. pose proof (clmul_gf_mul 8 0 a b Ha ltac:(lia)) as H.
  rewrite Z.mul_1_l in H. exact H.
Qed.

(** ** The tables hold the powers of the generator *)

Lemma GF_EXP_alpha i : (i < 510)%nat -> GF_EXP !!! i = alpha i.
Proof.
  intros Hi. apply Z.eqb_eq.
  assert (forallb (fun i => GF_EXP !!! i =? alpha i) (seq 0 510) = true) as H by by vm_compute.
  rewrite forallb_forall in H. apply H, list_elem_of_In, elem_of_seq. lia.
Qed.

Lemma GF_LOG_alpha a :
  byte_ok a -> a <> 0 ->
  0 <= GF_LOG !!! Z.to_nat a < 255 /\ alpha (Z.to_nat (GF_LOG !!! Z.to_nat a)) = a.
Proof.
  intros Ha Hne. set (l := GF_LOG !!! Z.to_nat a).
  assert (((a =? 0) || ((0 <=? l) && (l <? 255) && (alpha (Z.to_nat l) =? a))) = true) as H.
  { subst l. revert a Ha Hne. intros a Ha _. revert a Ha.
    by apply (all_bytes_spec (fun a => (a =? 0) || let l := GF_LOG !!! Z.to_nat a in
         ((0 <=? l) && (l <? 255) && (alpha (Z.to_nat l) =? a)))). }
  lia.
Qed.

Lemma gf_tables_eq : gf_tables = (GF_EXP, GF_LOG).
Proof. by vm_compute. Qed.

Lemma gfMul_gf_mul a b : byte_ok a -> byte_ok b -> gfMul a b = gf_mul 8 a b.
Proof.
  intros Ha Hb. unfold gfMul.
  destruct (Z.eqb_spec a 0) as [->|Hza]; [by rewrite gf_mul_0_l|].
  destruct (Z.eqb_spec b 0) as [->|Hzb]; [by rewrite gf_mul_0_r|]. cbn [orb].
  destruct (GF_LOG_alpha a Ha Hza) as [Hla Hea], (GF_LOG_alpha b Hb Hzb) as [Hlb Heb].
  revert Hla Hea Hlb Heb. generalize (GF_LOG !!! Z.to_nat a) (GF_LOG !!! Z.to_nat b).
  intros la lb Hla <- Hlb <-.
  pose proof (Z.mod_pos_bound (la + lb) 255 ltac:(lia)).
  rewrite GF_EXP_alpha by lia. rewrite gf_mul_alpha, <- (alpha_mod (_ + _)).
  f_equal. rewrite Z2Nat.inj_mod, Z2Nat.inj_add by lia. done.
Qed.

(** ** The field laws of [gfMul] on bytes *)

Lemma gfMul_ok a b : byte_ok a -> byte_ok b -> byte_ok (gfMul a b).
Proof. intros. rewrite gfMul_gf_mul by done. by apply gf_mul_ok. Qed.
#[export] Hint Resolve gfMul_ok : garuda.

Lemma gfMul_0_l a : gfMul 0 a = 0.
Proof. done. Qed.
Lemma gfMul_0_r a : gfMul a 0 = 0.
Proof. unfold gfMul. by rewrite orb_true_r. Qed.

Lemma gfMul_comm a b : gfMul a b = gfMul b a.
Proof. unfold gfMul. by rewrite orb_comm, (Z.add_comm (GF_LOG !!! Z.to_nat a)). Qed.

Lemma gfMul_lxor_l a b c : byte_ok a -> byte_ok b -> byte_ok c ->
  gfMul (Z.lxor a b) c = Z.lxor (gfMul a c) (gfMul b c).
Proof. intros. rewrite !gfMul_gf_mul by auto with garuda. apply gf_mul_lxor_l. Qed.

Lemma gfMul_lxor_r a b c : byte_ok a -> byte_ok b -> byte_ok c ->
  gfMul a (Z.lxor b c) = Z.lxor (gfMul a b) (gfMul a c).
Proof. intros. rewrite !(gfMul_comm a). by apply gfMul_lxor_l. Qed.

Lemma gfMul_1_l b : byte_ok b -> gfMul 1 b = b.
Proof. intros Hb. rewrite gfMul_gf_mul; [by apply gf_mul_1_l | unfold byte_ok; lia | done]. Qed.

Lemma byte_alpha a : byte_ok a -> a = 0 \/ exists i, a = alpha i.
Proof.
  intros Ha. destruct (Z.eq_dec a 0) as [->|Hne]; [by left|right].
  destruct (GF_LOG_alpha a Ha Hne) as [_ <-]. eauto.
Qed.

Lemma gfMul_alpha i j : gfMul (alpha i) (alpha j) = alpha (i + j).
Proof. rewrite gfMul_gf_mul by auto with garuda. apply gf_mul_alpha. Qed.

Lemma gfMul_assoc a b c : byte_ok a -> byte_ok b -> byte_ok c ->
  gfMul a (gfMul b c) = gfMul (gfMul a b) c.
Proof.
  intros Ha Hb Hc.
  destruct (byte_alpha a Ha) as [->|[i ->]]; [done|].
  destruct (byte_alpha b Hb) as [->|[j ->]]; [by rewrite gfMul_0_l, gfMul_0_r|].
  destruct (byte_alpha c Hc) as [->|[k ->]]; [by rewrite !gfMul_0_r|].
  rewrite !gfMul_alpha. f_equal. lia.
Qed.

(** ** Properties *)

(** The table-driven product is the product of binary polynomials modulo
    [0x11d]: for every two bytes, looking the logarithms up, adding them modulo
    255 and looking the exponent up gives the carry-less product reduced by the
    field polynomial. *)
Theorem gfMul_correct (a b : Z) : byte_ok a -> byte_ok b -> gfMul a b = gf_ref a b.
Proof. intros Ha Hb. rewrite gf_ref_gf_mul by done. by apply gfMul_gf_mul. Qed.

Lemma gfMul_correct_witness : gfMul 0x53 0xCA = gf_ref 0x53 0xCA.
Proof. apply gfMul_correct; unfold byte_ok; lia. Defined.
