(* ===== verification/ReedSolomon.v ===== *)
(** * Reed-Solomon error correction of the QR encoder

    [rsGenPoly] and [rsEncode] of [mobile/utils/qrcode.ts]. A polynomial is
    the list of its coefficients, the highest degree first, as in the source. *)

From S2P Require Import Prelude GF256.
Local Open Scope Z_scope.

(** ** The operations *)

(** The body of the inner loop of [rsGenPoly]. *)
Definition rsGenPoly_inner (p : list Z) (i : nat) (r : list Z) (j : nat) : list Z :=
  let r := <[j := (r !!! j) ^. (p !!! j)]> r in
  <[S j := (r !!! S j) ^. gfMul (p !!! j) (GF_EXP !!! i)]> r.

(** The body of the outer loop: [r] receives the product of [p] and
    [x + alpha^i]. *)
Definition rsGenPoly_step (p : list Z) (i : nat) : list Z :=
  foldl (rsGenPoly_inner p i) (replicate (S (length p)) 0) (seq 0 (length p)).

Definition rsGenPoly (deg : nat) : list Z := foldl rsGenPoly_step [1] (seq 0 deg).

(** The body of the inner loop of [rsEncode]. *)
Definition rsEncode_inner (gen : list Z) (c : Z) (i : nat) (rem : list Z) (j : nat) : list Z :=
  <[(i + j)%nat := (rem !!! (i + j)%nat) ^. gfMul (gen !!! j) c]> rem.

(** The body of the outer loop. *)
Definition rsEncode_step (gen rem : list Z) (i : nat) : list Z :=
  let c := rem !!! i in
  if c =? 0 then rem
  else foldl (rsEncode_inner gen c i) rem (seq 1 (length gen - 1)).

Definition rsEncode (data : list Z) (ecLen : nat) : list Z :=
  let gen := rsGenPoly ecLen in
  let rem := data ++ replicate ecLen 0 in
  let rem := foldl (rsEncode_step gen) rem (seq 0 (length data)) in
  drop (length data) rem.

(** ** Reference: evaluation of polynomials in the field *)

Definition eval (p : list Z) (x : Z) : Z := foldl (fun acc c => Z.lxor (gfMul acc x) c) 0 p.

(** Coefficientwise sum of two polynomials of the same length. *)
Definition padd (p q : list Z) : list Z := zip_with Z.lxor p q.

(** A word of the code with [ec] check symbols vanishes at the first [ec]
    powers of the generator. *)
Definition is_codeword (ec : nat) (w : list Z) : Prop :=
  forall k, (k < ec)%nat -> eval w (alpha k) = 0.

(** ** Evaluation *)

Lemma byte_0 : byte_ok 0.
Proof. unfold byte_ok. lia. Qed.
#[export] Hint Resolve byte_0 : garuda.

Definition eval_from (acc : Z) (p : list Z) (x : Z) : Z :=
  foldl (fun acc c => Z.lxor (gfMul acc x) c) acc p.

Lemma eval_from_ok acc p x : byte_ok acc -> bytes_ok p -> byte_ok x -> byte_ok (eval_from acc p x).
Proof.
  intros Ha Hp Hx. revert acc Ha. induction Hp; intros; [done|]. simpl. apply IHHp.
  auto with garuda.
Qed.

Lemma eval_ok p x : bytes_ok p -> byte_ok x -> byte_ok (eval p x).
Proof. intros. by apply (eval_from_ok 0); auto with garuda. Qed.

Lemma eval_app p q x : eval (p ++ q) x = eval_from (eval p x) q x.
Proof. unfold eval, eval_from. by rewrite foldl_app. Qed.

Lemma eval_snoc p c x : eval (p ++ [c]) x = Z.lxor (gfMul (eval p x) x) c.
Proof. by rewrite eval_app. Qed.

Lemma eval_zeros n p x : eval (replicate n 0 ++ p) x = eval p x.
Proof. induction n; [done|]. simpl. unfold eval in *. simpl. done. Qed.

(** Horner's scheme is additive in the accumulator and the polynomial. *)
Lemma eval_from_padd a b p q x :
  length p = length q -> byte_ok a -> byte_ok b -> bytes_ok p -> bytes_ok q -> byte_ok x ->
  eval_from (Z.lxor a b) (padd p q) x = Z.lxor (eval_from a p x) (eval_from b q x).
Proof.
  intros Hlen Ha Hb Hp. revert a b q Hlen Ha Hb.
  induction Hp as [|c p Hc Hp IH]; intros a b [|d q] Hlen Ha Hb Hq Hx; try done.
  invert Hq. simpl. unfold padd in IH. rewrite <- IH; auto with garuda. f_equal.
  rewrite gfMul_lxor_l by done. apply lxor_swap.
Qed.

Lemma eval_padd p q x :
  length p = length q -> bytes_ok p -> bytes_ok q -> byte_ok x ->
  eval (padd p q) x = Z.lxor (eval p x) (eval q x).
Proof. intros. by apply (eval_from_padd 0 0); auto with garuda. Qed.

Lemma eval_from_split acc p x :
  byte_ok acc -> bytes_ok p -> byte_ok x ->
  eval_from acc p x = Z.lxor (eval_from acc (replicate (length p) 0) x) (eval p x).
Proof.
  intros. rewrite <- (eval_from_padd acc 0); rewrite ?length_replicate; auto with garuda;
    [|by apply Forall_replicate; auto with garuda].
  rewrite Z.lxor_0_r. f_equal. unfold padd. clear. induction p; [done|]. simpl. by f_equal.
Qed.

Lemma eval_scale c p x :
  byte_ok c -> bytes_ok p -> byte_ok x -> eval (map (fun g => gfMul g c) p) x = gfMul (eval p x) c.
Proof.
  intros Hc Hp Hx. unfold eval. change 0 with (gfMul 0 c) at 1. generalize byte_0.
  generalize 0 as a. induction Hp as [|g p Hg Hp IH]; intros a Ha; [done|]. simpl.
  rewrite <- IH by auto with garuda. f_equal. rewrite gfMul_lxor_l by auto with garuda. f_equal.
  rewrite <- !gfMul_assoc by done. f_equal. apply gfMul_comm.
Qed.

(** ** The generator polynomial *)

(** What [k] turns of the inner loop leave in position [j]. *)
Definition gen_cell (p : list Z) (a : Z) (k j : nat) : Z :=
  Z.lxor (if decide (j < k)%nat then p !!! j else 0)
         (if decide (0 < j <= k)%nat then gfMul (p !!! (j - 1)%nat) a else 0).

Lemma gen_loop p i k :
  bytes_ok p -> (i < 510)%nat -> (k <= length p)%nat ->
  foldl (rsGenPoly_inner p i) (replicate (S (length p)) 0) (seq 0 k)
  = map (gen_cell p (alpha i) k) (seq 0 (S (length p))).
Proof.
  intros Hp Hi. induction k as [|k IH]; intros Hk.
  { trans (replicate (S (length p)) 0); [done|]. apply list_eq_total; [by llen|]. intros j Hj. llen.
    rewrite lookup_total_replicate_2, lookup_total_map_seq by lia.
    unfold gen_cell. repeat case_decide; try lia. done. }
  rewrite seq_S, foldl_app, IH by lia. clear IH. cbn [foldl Nat.add]. unfold rsGenPoly_inner.
  assert (forall j, (j < length p)%nat -> byte_ok (p !!! j)) as Hpj
    by (intros; by apply Forall_lookup_total).
  assert (forall j, (j <= k)%nat -> byte_ok (gen_cell p (alpha i) k j)) as Hcell.
  { intros j Hj. unfold gen_cell. repeat case_decide; auto with garuda lia.
    all: apply lxor_byte; try apply gfMul_ok; auto with garuda; apply Hpj; lia. }
  rewrite GF_EXP_alpha by lia.
  rewrite (insert_total _ k) by llen. case_decide; [lia|].
  rewrite !lookup_total_map_seq by lia.
  rewrite (js_xor_byte _ (p !!! k)) by (try apply Hcell; try apply Hpj; lia).
  assert (gen_cell p (alpha i) k (S k) = 0) as ->
    by (unfold gen_cell; repeat case_decide; try lia; done).
  rewrite js_xor_byte by (auto with garuda; apply gfMul_ok; auto with garuda; apply Hpj; lia).
  apply list_eq_total; [by llen|]. intros j Hj. llen.
  rewrite lookup_total_map_seq, !insert_total by llen.
  repeat case_decide; subst; try lia; rewrite ?lookup_total_map_seq by lia;
    unfold gen_cell; repeat case_decide; try lia; rewrite ?Z.lxor_0_l, ?Z.lxor_0_r; try done.
  - by rewrite Nat.sub_succ, Nat.sub_0_r.
  - apply Z.lxor_comm.
Qed.

(** The inner loop multiplies by [x + alpha^i]. *)
Lemma rsGenPoly_step_padd p i :
  bytes_ok p -> (i < 510)%nat ->
  rsGenPoly_step p i = padd (p ++ [0]) (0 :: map (fun g => gfMul g (alpha i)) p).
Proof.
  intros Hp Hi. unfold rsGenPoly_step. rewrite gen_loop by (done || lia). unfold padd.
  apply list_eq_total; [by llen|]. intros j Hj. llen.
  rewrite lookup_total_map_seq, lookup_total_zip_with by llen. unfold gen_cell. f_equal.
  - rewrite lookup_total_app. repeat case_decide; try done.
    by replace (j - length p)%nat with 0%nat by lia.
  - destruct j as [|j]; [done|]. case_decide; [|lia].
    rewrite Nat.sub_succ, Nat.sub_0_r. symmetry. apply (lookup_total_map (fun g => gfMul g (alpha i)) p j). lia.
Qed.

Lemma padd_ok p q : bytes_ok p -> bytes_ok q -> bytes_ok (padd p q).
Proof. intros Hp. revert q. induction Hp; intros ? [|]; simpl; auto with garuda. Qed.

Lemma scale_ok c p : byte_ok c -> bytes_ok p -> bytes_ok (map (fun g => gfMul g c) p).
Proof. intros Hc. induction 1; simpl; auto with garuda. Qed.

Lemma zeros_ok n : bytes_ok (replicate n 0).
Proof. apply Forall_replicate, byte_0. Qed.
#[export] Hint Resolve padd_ok scale_ok zeros_ok eval_ok : garuda.

Lemma rsGenPoly_S deg : rsGenPoly (S deg) = rsGenPoly_step (rsGenPoly deg) deg.
Proof. unfold rsGenPoly. by rewrite seq_S, foldl_app. Qed.

Lemma rsGenPoly_shape deg :
  (deg <= 510)%nat ->
  bytes_ok (rsGenPoly deg) /\ length (rsGenPoly deg) = S deg /\ rsGenPoly deg !!! 0%nat = 1.
Proof.
  induction deg as [|deg IH]; intros Hd.
  { split_and_all; try done. bytes. }
  destruct IH as (Hp & Hlen & H0); [lia|].
  rewrite rsGenPoly_S, rsGenPoly_step_padd by (done || lia). split_and_all.
  - apply padd_ok; [apply Forall_app; auto with garuda | auto with garuda].
  - unfold padd. llen.
  - unfold padd. rewrite lookup_total_zip_with by llen.
    rewrite lookup_total_app. case_decide; [|lia]. rewrite H0. done.
Qed.

(** Adding the factor [x + alpha^deg] multiplies the value by it. *)
Lemma eval_rsGenPoly_S deg x :
  (deg < 510)%nat -> byte_ok x ->
  eval (rsGenPoly (S deg)) x = gfMul (eval (rsGenPoly deg) x) (Z.lxor x (alpha deg)).
Proof.
  intros Hd Hx. destruct (rsGenPoly_shape deg) as (Hp & Hlen & _); [lia|].
  rewrite rsGenPoly_S, rsGenPoly_step_padd by done.
  rewrite eval_padd; [|by llen|apply Forall_app| |]; auto with garuda.
  rewrite eval_snoc, Z.lxor_0_r. change (0 :: ?l) with (replicate 1 0 ++ l).
  rewrite eval_zeros, eval_scale by auto with garuda.
  symmetry. apply gfMul_lxor_r; auto with garuda.
Qed.

Lemma eval_from_0_zeros n x : eval_from 0 (replicate n 0) x = 0.
Proof. induction n; [done|]. simpl. done. Qed.

Lemma rsGenPoly_root deg k :
  (deg <= 510)%nat -> (k < deg)%nat -> eval (rsGenPoly deg) (alpha k) = 0.
Proof.
  induction deg as [|deg IH]; intros Hd Hk; [lia|].
  rewrite eval_rsGenPoly_S by auto with garuda.
  destruct (decide (k = deg)) as [->|]; [by rewrite Z.lxor_nilpotent, gfMul_0_r|].
  by rewrite IH by lia.
Qed.

(** ** The division loop *)

Lemma enc_loop gen c i rem m :
  bytes_ok gen -> byte_ok c -> bytes_ok rem ->
  (m < length gen)%nat -> (i + m < length rem)%nat ->
  let rem' := foldl (rsEncode_inner gen c i) rem (seq 1 m) in
  length rem' = length rem /\
  forall q, rem' !!! q = if decide (i < q <= i + m)%nat
                         then Z.lxor (rem !!! q) (gfMul (gen !!! (q - i)%nat) c) else rem !!! q.
Proof.
  intros Hg Hc Hr. induction m as [|m IH]; intros Hm Hi.
  { split; [done|]. intros q. case_decide; [lia|done]. }
  cbn zeta in *. destruct IH as [Hlen Hq]; [lia..|]. rewrite seq_S, foldl_app.
  cbn [foldl Nat.add]. unfold rsEncode_inner at 1 3. split; [by rewrite length_insert|].
  intros q. rewrite insert_total by lia. rewrite !Hq.
  destruct (decide (q = i + S m)%nat) as [->|Hne].
  - repeat case_decide; try lia. replace (i + S m - i)%nat with (S m) by lia.
    apply js_xor_byte; [by apply Forall_lookup_total|].
    apply gfMul_ok; [by apply Forall_lookup_total | done].
  - repeat case_decide; try lia; done.
Qed.

(** One turn of the outer loop subtracts [c * gen] from the part not yet
    divided, which clears its first coefficient. *)
Lemma rsEncode_step_spec gen rem i :
  bytes_ok gen -> bytes_ok rem -> gen !!! 0%nat = 1 -> (0 < length gen)%nat ->
  (i + length gen <= length rem)%nat ->
  let rem' := rsEncode_step gen rem i in
  length rem' = length rem /\ bytes_ok rem' /\
  0 :: drop (S i) rem' =
    padd (drop i rem) (map (fun g => gfMul g (rem !!! i)) gen
                       ++ replicate (length rem - i - length gen) 0).
Proof.
  intros Hg Hr H1 Hl Hi. unfold rsEncode_step.
  assert (byte_ok (rem !!! i)) as Hc by (apply Forall_lookup_total; [done|lia]).
  set (c := rem !!! i) in *.
  assert (length (if c =? 0 then rem else foldl (rsEncode_inner gen c i) rem (seq 1 (length gen - 1))) = length rem /\
    forall q, (if c =? 0 then rem else foldl (rsEncode_inner gen c i) rem (seq 1 (length gen - 1))) !!! q
      = if decide (i < q < i + length gen)%nat
        then Z.lxor (rem !!! q) (gfMul (gen !!! (q - i)%nat) c) else rem !!! q) as [Hlen Hq].
  { destruct (Z.eqb_spec c 0) as [->|Hne].
    - split; [done|]. intros q. case_decide; [|done]. by rewrite gfMul_0_r, Z.lxor_0_r.
    - destruct (enc_loop gen c i rem (length gen - 1)) as [H Hq]; try done; [lia..|].
      split; [done|]. intros q. rewrite Hq. repeat case_decide; try lia; done. }
  set (rem' := if c =? 0 then rem else _) in *. clearbody rem'. cbn zeta. split_and_all; [done| |].
  - apply Forall_lookup. intros q x Hx. apply list_lookup_total_correct in Hx as Hx'. subst x.
    apply lookup_lt_Some in Hx. rewrite Hq. case_decide; [|apply Forall_lookup_total; [done|lia]].
    apply lxor_byte; [apply Forall_lookup_total; [done|lia]|].
    apply gfMul_ok; [apply Forall_lookup_total; [done|lia] | done].
  - apply list_eq_total; unfold padd; [by llen|]. intros [|q] Hlt; llen.
    + rewrite lookup_total_zip_with, lookup_total_drop by llen. rewrite Nat.add_0_r.
      rewrite lookup_total_app. case_decide; [|llen].
      rewrite lookup_total_map, H1, gfMul_1_l by done. fold c. by rewrite Z.lxor_nilpotent.
    + change ((0 :: drop (S i) rem') !!! S q) with (drop (S i) rem' !!! q).
      rewrite lookup_total_zip_with, !lookup_total_drop by llen.
      rewrite lookup_total_app, Hq.
      replace (S i + q)%nat with (i + S q)%nat by lia.
      replace (i + S q - i)%nat with (S q) by lia.
      repeat case_decide; llen; [by rewrite lookup_total_map by lia|].
      rewrite lookup_total_replicate_2, Z.lxor_0_r by lia. done.
Qed.

Lemma rsEncode_step_eval gen rem i x :
  bytes_ok gen -> bytes_ok rem -> gen !!! 0%nat = 1 -> (0 < length gen)%nat ->
  (i + length gen <= length rem)%nat -> byte_ok x -> eval gen x = 0 ->
  eval (drop (S i) (rsEncode_step gen rem i)) x = eval (drop i rem) x.
Proof.
  intros Hg Hr H1 Hl Hi Hx Hroot.
  destruct (rsEncode_step_spec gen rem i) as (Hlen & _ & Heq); [done..|].
  assert (byte_ok (rem !!! i)) by (apply Forall_lookup_total; [done|lia]).
  rewrite <- (eval_zeros 1). cbn [replicate app]. rewrite Heq.
  rewrite eval_padd; [|by llen|by apply Forall_drop|apply Forall_app|]; auto with garuda.
  rewrite eval_app, eval_scale, Hroot by done. cbn [gfMul]. rewrite gfMul_0_l, eval_from_0_zeros.
  apply Z.lxor_0_r.
Qed.

(** The outer loop keeps the value of the undivided part at every root of the
    generator polynomial. *)
Lemma rsEncode_loop gen rem n :
  bytes_ok gen -> bytes_ok rem -> gen !!! 0%nat = 1 -> (0 < length gen)%nat ->
  (n + length gen <= S (length rem))%nat ->
  let rem' := foldl (rsEncode_step gen) rem (seq 0 n) in
  length rem' = length rem /\ bytes_ok rem' /\
  forall x, byte_ok x -> eval gen x = 0 -> eval (drop n rem') x = eval rem x.
Proof.
  intros Hg Hr H1 Hl. induction n as [|n IH]; intros Hn; cbn zeta in *; [done|].
  destruct IH as (Hlen & Hok & Hev); [lia|]. rewrite seq_S, foldl_app. cbn [foldl Nat.add].
  destruct (rsEncode_step_spec gen (foldl (rsEncode_step gen) rem (seq 0 n)) n)
    as (Hlen' & Hok' & _); try done; [lia|].
  split_and_all; [lia|done|]. intros x Hx Hroot.
  rewrite rsEncode_step_eval by (done || lia). by apply Hev.
Qed.

Lemma length_rsEncode data ec :
  (ec <= 510)%nat -> bytes_ok data -> length (rsEncode data ec) = ec.
Proof.
  intros Hec Hd. destruct (rsGenPoly_shape ec Hec) as (Hg & Hlen & H1). unfold rsEncode.
  destruct (rsEncode_loop (rsGenPoly ec) (data ++ replicate ec 0) (length data)) as (HL & _);
    try done; llen. apply Forall_app; auto with garuda.
Qed.

Lemma rsEncode_ok data ec : (ec <= 510)%nat -> bytes_ok data -> bytes_ok (rsEncode data ec).
Proof.
  intros Hec Hd. destruct (rsGenPoly_shape ec Hec) as (Hg & Hlen & H1). unfold rsEncode.
  apply Forall_drop.
  destruct (rsEncode_loop (rsGenPoly ec) (data ++ replicate ec 0) (length data)) as (_ & H & _);
    try done; llen. apply Forall_app; auto with garuda.
Qed.
#[export] Hint Resolve rsEncode_ok : garuda.

(** Every root of the generator polynomial is a root of the block followed by
    its check symbols. *)
Lemma rsEncode_is_codeword (data : list Z) (ecLen : nat) :
  (ecLen <= 510)%nat -> bytes_ok data -> is_codeword ecLen (data ++ rsEncode data ecLen).
Proof.
  intros Hec Hd k Hk. destruct (rsGenPoly_shape ecLen Hec) as (Hg & Hlen & H1).
  destruct (rsEncode_loop (rsGenPoly ecLen) (data ++ replicate ecLen 0) (length data))
    as (_ & _ & Hev); try done; llen; [apply Forall_app; auto with garuda|].
  rewrite eval_app, eval_from_split by auto with garuda.
  rewrite length_rsEncode by done. rewrite <- eval_app.
  unfold rsEncode. rewrite Hev by (auto with garuda; by apply rsGenPoly_root).
  apply Z.lxor_nilpotent.
Qed.

(** ** Properties *)

(** Appending the check symbols [rsEncode] computes gives a Reed-Solomon
    codeword: for every data block of bytes and every number of check symbols
    up to 510 (the source uses at most 26), the block followed by its check
    symbols vanishes at the first [ecLen] powers of the generator, so every
    syndrome a decoder computes is zero. *)
Theorem rsEncode_codeword (data : list Z) (ecLen : nat) :
  (ecLen <= 510)%nat -> bytes_ok data -> is_codeword ecLen (data ++ rsEncode data ecLen).
Proof. apply rsEncode_is_codeword. Qed.

Lemma rsEncode_codeword_witness :
  is_codeword 10 ([32; 91; 11; 120; 209; 114; 220; 77; 67; 64; 236; 17; 236; 17; 236; 17]
    ++ rsEncode [32; 91; 11; 120; 209; 114; 220; 77; 67; 64; 236; 17; 236; 17; 236; 17] 10).
Proof. apply rsEncode_codeword; [lia | bytes]. Defined.

(** The check symbols of the worked example of the QR standard. *)
Example rsEncode_example :
  rsEncode [32; 91; 11; 120; 209; 114; 220; 77; 67; 64; 236; 17; 236; 17; 236; 17] 10
  = [196; 35; 39; 119; 235; 215; 231; 226; 93; 23].
Proof. vm_compute. reflexivity. Qed.
