(* ===== verification/QrMatrix.v ===== *)
(** * The module matrix of a QR code

    Tables and matrix helpers of [mobile/utils/qrcode.ts]: the function
    patterns, the format information and the mask penalty. A matrix is the
    array of rows of the source; writing to a row that does not exist throws,
    a store past the end of a row is ignored as in a [Uint8Array]. *)

From S2P Require Import Prelude.
Local Open Scope Z_scope.

(** ** Matrices *)

Abbreviation mat := (list (list Z)).

Definition mkMat (n : Z) : mat := replicate (Z.to_nat n) (replicate (Z.to_nat n) 0).

(** [mat[r][c]]; [None] when the row or the column does not exist. *)
Definition mget (m : mat) (r c : Z) : option Z :=
  if (r <? 0) || (c <? 0) then None else m !! Z.to_nat r ≫= (.!! Z.to_nat c).

(** [mat[r][c] = v]; [None] when the row does not exist. *)
Definition mset (m : mat) (r c v : Z) : option mat :=
  if r <? 0 then None else
  row ← m !! Z.to_nat r;
  Some (if c <? 0 then m else <[Z.to_nat r := <[Z.to_nat c := uint8 v]> row]> m).

(** A sequence of stores whose values do not depend on the matrix. *)
Fixpoint mwrites (m : mat) (ws : list (Z * Z * Z)) : option mat :=
  match ws with
  | [] => Some m
  | (r, c, v) :: ws => m ← mset m r c v; mwrites m ws
  end.

(** A read the loops keep inside the matrix. *)
Definition at_ (m : mat) (r c : Z) : Z := default 0 (mget m r c).

(** The loop [for (let i = a; i < b; i++)]. *)
Definition upto (a b : Z) : list Z := seqZ a (b - a).

(** The nested loop over all positions of a matrix of size [n]. *)
Definition cells (n : Z) : list (Z * Z) := r ← upto 0 n; c ← upto 0 n; [(r, c)].

(** ** Tables, for error correction level M *)

Record ECInfo := { ec : Z; groups : list (Z * Z) }.

Definition ECCM : list (option ECInfo) := [
  None;
  Some {| ec := 10; groups := [(1, 16)] |};
  Some {| ec := 16; groups := [(1, 28)] |};
  Some {| ec := 26; groups := [(1, 44)] |};
  Some {| ec := 18; groups := [(2, 32)] |};
  Some {| ec := 24; groups := [(2, 43)] |};
  Some {| ec := 16; groups := [(4, 27)] |};
  Some {| ec := 18; groups := [(4, 31)] |} ].

Definition ALIGNCTR : list (list Z) :=
  [ []; []; [6; 18]; [6; 22]; [6; 26]; [6; 30]; [6; 34]; [6; 22; 38] ].

Definition REMBITS : list Z := [0; 0; 7; 7; 7; 7; 7; 0].

Definition FMTM : list Z := [
  0x5412; 0x5125; 0x5e7c; 0x5b4b;
  0x45f9; 0x40ce; 0x4f97; 0x4aa0 ].

(** ** Function patterns *)

Definition finder_module (r c : Z) : Z :=
  if (0 <=? r) && (r <=? 6) && (0 <=? c) && (c <=? 6) &&
     ((r =? 0) || (r =? 6) || (c =? 0) || (c =? 6) ||
      ((2 <=? r) && (r <=? 4) && (2 <=? c) && (c <=? 4)))
  then 1 else 0.

Definition placeFinder (m : mat) (row col : Z) : option mat :=
  let n := Z.of_nat (length m) in
  mwrites m
    (r ← upto (-1) 8; c ← upto (-1) 8;
     let mr := row + r in let mc := col + c in
     if (mr <? 0) || (n <=? mr) || (mc <? 0) || (n <=? mc) then []
     else [(mr, mc, finder_module r c)]).

Definition placeAlign (m : mat) (row col : Z) : option mat :=
  mwrites m
    (r ← upto (-2) 3; c ← upto (-2) 3;
     [(row + r, col + c,
       if (r =? -2) || (r =? 2) || (c =? -2) || (c =? 2) || ((r =? 0) && (c =? 0))
       then 1 else 0)]).

Definition inFinderArea (r c n : Z) : bool :=
  ((r <=? 8) && (c <=? 8)) || ((r <=? 8) && (n - 8 <=? c)) || ((n - 8 <=? r) && (c <=? 8)).

(** The stores of [placeFormat], in their order. *)
Definition format_writes (n mask ver : Z) : list (Z * Z * Z) :=
  let b := FMTM !!! Z.to_nat mask in
  let bit i := (b >>. i) &. 1 in
  (i ← upto 0 6; [(8, i, bit (14 - i))])
  ++ [(8, 7, bit 8); (8, 8, bit 7); (7, 8, bit 6)]
  ++ (i ← reverse (upto 0 6); [(i, 8, bit i)])
  ++ (i ← upto 0 8; [(8, n - 1 - i, bit i)])
  ++ (i ← upto 0 7; [(n - 7 + i, 8, bit (14 - i))])
  ++ [(4 * ver + 9, 8, 1)].

Definition placeFormat (m : mat) (mask ver : Z) : option mat :=
  mwrites m (format_writes (Z.of_nat (length m)) mask ver).

(** ** Mask penalty *)

(** One turn of the run-length loop: the score, the length of the current run
    and its colour. *)
Definition run_step (st : Z * Z * Z) (x : Z) : Z * Z * Z :=
  let '(s, run, prev) := st in
  if x =? prev then
    let run := run + 1 in
    if run =? 5 then (s + 3, run, prev)
    else if 5 <? run then (s + 1, run, prev) else (s, run, prev)
  else (s, 1, x).

(** A row or a column scanned from its first module. *)
Definition run_line (s first : Z) (rest : list Z) : Z :=
  let '(s, _, _) := foldl run_step (s, 1, first) rest in s.

Definition penaltyScore (m : mat) : Z :=
  let n := Z.of_nat (length m) in
  let s := foldl (fun s r =>
    run_line s (at_ m r 0) (map (fun c => at_ m r c) (upto 1 n))) 0 (upto 0 n) in
  let s := foldl (fun s c =>
    run_line s (at_ m 0 c) (map (fun r => at_ m r c) (upto 1 n))) s (upto 0 n) in
  let s := foldl (fun s r => foldl (fun s c =>
    if (at_ m r c =? at_ m (r + 1) c) && (at_ m r c =? at_ m r (c + 1))
       && (at_ m r c =? at_ m (r + 1) (c + 1)) then s + 3 else s)
    s (upto 0 (n - 1))) s (upto 0 (n - 1)) in
  let dark := foldl (fun d '(r, c) => d + at_ m r c) 0 (cells n) in
  let k := Z.abs (dark * 20 - n * n * 10) / (n * n) in
  s + k * 10.

(** ** Matrices of a given shape *)

Definition square (n : Z) (m : mat) : Prop :=
  Z.of_nat (length m) = n /\ Forall (fun row => Z.of_nat (length row) = n) m.

Definition in_range (n : Z) (p : Z * Z) : Prop := 0 <= p.1 < n /\ 0 <= p.2 < n.

#[export] Instance in_range_dec n p : Decision (in_range n p).
Proof. unfold in_range. apply _. Defined.

Lemma mkMat_square n : 0 <= n -> square n (mkMat n).
Proof.
  intros. unfold mkMat. split; [llen|]. apply Forall_replicate. llen.
Qed.

Lemma square_lookup n m r : square n m -> 0 <= r < n ->
  exists row, m !! Z.to_nat r = Some row /\ Z.of_nat (length row) = n.
Proof.
  intros [Hl Hf] Hr. destruct (lookup_lt_is_Some_2 m (Z.to_nat r)) as [row Hrow]; [lia|].
  exists row. split; [done|]. rewrite Forall_lookup in Hf. eauto.
Qed.

(** A store inside a square matrix succeeds and changes one module. *)
Lemma mset_square n m r c v : square n m -> in_range n (r, c) ->
  exists m', mset m r c v = Some m' /\ square n m' /\
    forall r' c', in_range n (r', c') ->
      at_ m' r' c' = if decide ((r', c') = (r, c)) then uint8 v else at_ m r' c'.
Proof.
  intros Hsq [Hr Hc]. simpl in *. destruct (square_lookup n m r Hsq Hr) as (row & Hrow & Hlen).
  unfold mset. destruct (Z.ltb_spec r 0); [lia|]. rewrite Hrow. simpl.
  destruct (Z.ltb_spec c 0); [lia|]. eexists. split; [done|]. destruct Hsq as [Hl Hf]. split.
  { split; [llen|]. apply Forall_insert; [done|]. by rewrite length_insert. }
  intros r' c' [Hr' Hc']. simpl in *. unfold at_, mget.
  destruct (Z.ltb_spec r' 0), (Z.ltb_spec c' 0); try lia. simpl.
  destruct (decide (r' = r)) as [->|Hne].
  - rewrite list_lookup_insert_eq by lia. simpl. rewrite Hrow. simpl.
    destruct (decide (c' = c)) as [->|Hne'].
    + rewrite list_lookup_insert_eq by lia. by rewrite decide_True.
    + rewrite list_lookup_insert_ne by lia. rewrite decide_False by congruence. done.
  - rewrite list_lookup_insert_ne by lia. rewrite decide_False by congruence. done.
Qed.

Lemma mwrites_app m ws1 ws2 : mwrites m (ws1 ++ ws2) = (m ← mwrites m ws1; mwrites m ws2).
Proof.
  revert m. induction ws1 as [|[[r c] v] ws1 IH]; intros m; [done|]. simpl.
  destruct (mset m r c v); simpl; [apply IH | done].
Qed.

(** Stores at distinct positions inside a square matrix all succeed; each
    position written holds its value, every other module is unchanged. *)
Lemma mwrites_square n m ws : square n m ->
  Forall (fun w => in_range n w.1) ws -> NoDup (map fst ws) ->
  exists m', mwrites m ws = Some m' /\ square n m' /\
    (forall r c v, (r, c, v) ∈ ws -> at_ m' r c = uint8 v) /\
    (forall r c, in_range n (r, c) -> (r, c) ∉ map fst ws -> at_ m' r c = at_ m r c).
Proof.
  intros Hsq Hf. revert m Hsq. induction Hf as [|[[r c] v] ws Hr Hf IH]; intros m Hsq Hnd.
  { exists m. split_and_all; try done. intros ? ? ? H. by apply not_elem_of_nil in H. }
  simpl in Hnd. apply NoDup_cons in Hnd as [Hni Hnd]. simpl in *.
  destruct (mset_square n m r c v Hsq Hr) as (m1 & -> & Hsq1 & Hat). simpl.
  destruct (IH m1 Hsq1 Hnd) as (m2 & -> & Hsq2 & Hw & Hk). exists m2. split_and_all; try done.
  - intros r' c' v' [Heq|Hin]%elem_of_cons; [|eauto]. injection Heq as -> -> ->.
    rewrite Hk by done. rewrite Hat by done. by rewrite decide_True.
  - intros r' c' Hr' [Hne Hni']%not_elem_of_cons. rewrite Hk, Hat by done.
    by rewrite decide_False.
Qed.

(** The same for a loop that rewrites modules from their old value. *)
Fixpoint mmodify (m : mat) (cs : list (Z * Z)) (f : Z -> Z -> Z -> Z) : option mat :=
  match cs with
  | [] => Some m
  | (r, c) :: cs => m ← mset m r c (f r c (at_ m r c)); mmodify m cs f
  end.

Lemma mmodify_square n m cs f : square n m ->
  Forall (in_range n) cs -> NoDup cs ->
  exists m', mmodify m cs f = Some m' /\ square n m' /\
    (forall r c, (r, c) ∈ cs -> at_ m' r c = uint8 (f r c (at_ m r c))) /\
    (forall r c, in_range n (r, c) -> (r, c) ∉ cs -> at_ m' r c = at_ m r c).
Proof.
  intros Hsq Hf. revert m Hsq. induction Hf as [|[r c] cs Hr Hf IH]; intros m Hsq Hnd.
  { exists m. split_and_all; try done. intros ? ? H. by apply not_elem_of_nil in H. }
  apply NoDup_cons in Hnd as [Hni Hnd]. simpl.
  destruct (mset_square n m r c (f r c (at_ m r c)) Hsq Hr) as (m1 & -> & Hsq1 & Hat). simpl.
  destruct (IH m1 Hsq1 Hnd) as (m2 & -> & Hsq2 & Hw & Hk). exists m2. split_and_all; try done.
  - intros r' c' [Heq|Hin]%elem_of_cons.
    + injection Heq as -> ->. rewrite Hk, Hat by done. by rewrite decide_True.
    + rewrite Hw by done. rewrite Forall_forall in Hf. rewrite Hat by by apply Hf.
      rewrite decide_False; [done|]. intros [= -> ->]. done.
  - intros r' c' Hr' [Hne Hni']%not_elem_of_cons. rewrite Hk, Hat by done.
    by rewrite decide_False.
Qed.

Lemma elem_of_upto a b i : i ∈ upto a b <-> a <= i < b.
Proof. unfold upto. rewrite elem_of_seqZ. lia. Qed.

Lemma elem_of_cells n r c : (r, c) ∈ cells n <-> in_range n (r, c).
Proof.
  unfold cells, in_range. rewrite list_elem_of_bind. simpl. split.
  - intros (r' & (c' & Heq%list_elem_of_singleton & Hc)%list_elem_of_bind & Hr).
    injection Heq as -> ->. rewrite elem_of_upto in *. done.
  - intros [Hr Hc]. exists r. rewrite elem_of_upto. split; [|done].
    rewrite list_elem_of_bind. exists c. rewrite elem_of_upto, list_elem_of_singleton. done.
Qed.

Lemma NoDup_cells n : NoDup (cells n).
Proof.
  unfold cells. apply NoDup_bind.
  - intros r1 r2 [r c] _ _ (c1 & H1%list_elem_of_singleton & _)%list_elem_of_bind
      (c2 & H2%list_elem_of_singleton & _)%list_elem_of_bind. congruence.
  - intros r _. apply NoDup_bind; [|intros; apply NoDup_singleton | apply NoDup_seqZ].
    intros c1 c2 x _ _ ->%list_elem_of_singleton H%list_elem_of_singleton. congruence.
  - apply NoDup_seqZ.
Qed.

Lemma cells_in_range n : Forall (in_range n) (cells n).
Proof. apply Forall_forall. intros [r c]. apply elem_of_cells. Qed.
