(* ===== verification/JsText.v ===== *)
(** * Text of the language

    The string operations the program uses: [TextEncoder] from UTF-16 code units
    to UTF-8 bytes (lone surrogates replaced by U+FFFD), numbers printed in a
    base, [parseInt], [trim], [lastIndexOf], [indexOf], [slice], [join]. *)

From S2P Require Import Prelude.
Local Open Scope Z_scope.

Fixpoint code_points (s : jsstr) : list Z :=
  match s with
  | [] => []
  | u :: s' =>
      if (0xD800 <=? u) && (u <=? 0xDBFF) then
        match s' with
        | v :: s'' =>
            if (0xDC00 <=? v) && (v <=? 0xDFFF)
            then (0x10000 + (u - 0xD800) * 0x400 + (v - 0xDC00)) :: code_points s''
            else 0xFFFD :: code_points s'
        | [] => [0xFFFD]
        end
      else if (0xDC00 <=? u) && (u <=? 0xDFFF) then 0xFFFD :: code_points s'
      else u :: code_points s'
  end.

Definition utf8_point (p : Z) : list Z :=
  if p <? 0x80 then [p]
  else if p <? 0x800 then [0xC0 + p / 64; 0x80 + p mod 64]
  else if p <? 0x10000 then [0xE0 + p / 4096; 0x80 + (p / 64) mod 64; 0x80 + p mod 64]
  else [0xF0 + p / 262144; 0x80 + (p / 4096) mod 64; 0x80 + (p / 64) mod 64; 0x80 + p mod 64].

Definition utf8_encode (s : jsstr) : list Z := concat (map utf8_point (code_points s)).

(** The code units of a string. *)
Definition unit_ok (u : Z) : Prop := 0 <= u < 0x10000.

#[export] Instance unit_ok_dec u : Decision (unit_ok u).
Proof. unfold unit_ok. apply _. Defined.

Lemma utf8_point_ok p : 0 <= p < 0x110000 -> bytes_ok (utf8_point p).
Proof.
  intros Hp. unfold utf8_point.
  zbool; repeat (apply Forall_cons; split); try apply Forall_nil; unfold byte_ok;
    Z.to_euclidean_division_equations; lia.
Qed.

Lemma code_points_ok s : Forall unit_ok s -> Forall (fun p => 0 <= p < 0x110000) (code_points s).
Proof.
  unfold unit_ok. remember (length s) as n eqn:Hn.
  assert (length s <= n)%nat as Hle by lia. clear Hn. revert s Hle.
  induction n as [|n IH]; intros [|u s] Hle Hs;
    [by constructor | simpl in Hle; lia | by constructor |]. simpl in *.
  apply Forall_cons in Hs as [Hu Hs].
  destruct ((0xD800 <=? u) && (u <=? 0xDBFF)) eqn:E1.
  - destruct s as [|v s]; [repeat constructor; lia|]. apply Forall_cons in Hs as [Hv Hs].
    destruct ((0xDC00 <=? v) && (v <=? 0xDFFF)) eqn:E2; constructor; try lia.
    + apply IH; [simpl in Hle; lia | done].
    + apply IH; [simpl in *; lia | by constructor].
  - destruct ((0xDC00 <=? u) && (u <=? 0xDFFF)); constructor; try lia; apply IH; (done || lia).
Qed.

Lemma utf8_encode_ok s : Forall unit_ok s -> bytes_ok (utf8_encode s).
Proof.
  intros Hs%code_points_ok. unfold utf8_encode. induction Hs; simpl; [by constructor|].
  apply Forall_app. split; [by apply utf8_point_ok | done].
Qed.

(** ASCII text is its own encoding. *)
Lemma utf8_ascii s : Forall (fun u => 0 <= u < 0x80) s -> utf8_encode s = s.
Proof.
  unfold utf8_encode. induction 1 as [|u s Hu Hs IH]; [done|]. simpl.
  destruct (Z.leb_spec 0xD800 u); [lia|]. destruct (Z.leb_spec 0xDC00 u); [lia|]. simpl.
  rewrite IH. unfold utf8_point. by destruct (Z.ltb_spec u 0x80); [|lia].
Qed.

(** ** Numbers in a base *)

(** The digits of [n], most significant first, put before [acc]. *)
Fixpoint digits_aux (fuel : nat) (base n : Z) (acc : list Z) : list Z :=
  match fuel with
  | O => acc
  | S fuel => if n =? 0 then acc else digits_aux fuel base (n / base) (n mod base :: acc)
  end.

Definition digits (base n : Z) : list Z := digits_aux (Z.to_nat (Z.log2 n + 1)) base n [].

(** The value of a string of digits. *)
Definition num_value (base : Z) (ds : list Z) : Z := foldl (fun a d => a * base + d) 0 ds.

Definition digit_ok (base d : Z) : Prop := 0 <= d < base.

(** No leading zero. *)
Definition canonical (ds : list Z) : Prop := match ds with [] => True | d :: _ => d <> 0 end.

Lemma num_value_snoc base ds d : num_value base (ds ++ [d]) = num_value base ds * base + d.
Proof. unfold num_value. by rewrite foldl_snoc. Qed.

Lemma num_value_nonneg base ds : 0 <= base -> Forall (digit_ok base) ds -> 0 <= num_value base ds.
Proof.
  intros Hb. induction ds as [|d ds IH] using rev_ind; [done|]. rewrite Forall_app, num_value_snoc.
  intros [H1 H2%Forall_inv]. unfold digit_ok in H2. specialize (IH H1). nia.
Qed.

Lemma num_value_lt base ds :
  0 < base -> Forall (digit_ok base) ds -> num_value base ds < base ^ Z.of_nat (length ds).
Proof.
  intros Hb. induction ds as [|d ds IH] using rev_ind; [done|]. rewrite Forall_app, num_value_snoc.
  intros [H1 H2%Forall_inv]. unfold digit_ok in H2. specialize (IH H1).
  rewrite length_app, Nat2Z.inj_add. simpl length. rewrite Z.pow_add_r, Z.pow_1_r by lia.
  pose proof (Z.mul_le_mono_nonneg_r (num_value base ds + 1) (base ^ Z.of_nat (length ds)) base). lia.
Qed.

Lemma canonical_pos base d ds :
  0 < base -> Forall (digit_ok base) (d :: ds) -> d <> 0 -> 0 < num_value base (d :: ds).
Proof.
  intros Hb. induction ds as [|x ds IH] using rev_ind; intros H Hd.
  - apply Forall_inv in H. unfold digit_ok in H. unfold num_value. simpl. lia.
  - rewrite app_comm_cons in *. apply Forall_app in H as [H1 H2%Forall_inv].
    unfold digit_ok in H2. rewrite num_value_snoc. specialize (IH H1 Hd). nia.
Qed.

Lemma digits_aux_value fuel base n acc :
  1 < base -> 0 <= n < base ^ Z.of_nat fuel ->
  foldl (fun a d => a * base + d) 0 (digits_aux fuel base n acc)
  = foldl (fun a d => a * base + d) n acc.
Proof.
  intros Hb. revert n acc. induction fuel as [|fuel IH]; intros n acc Hn.
  - rewrite Z.pow_0_r in Hn. simpl. f_equal. lia.
  - cbn [digits_aux]. destruct (Z.eqb_spec n 0) as [->|Hn0]; [done|].
    rewrite Nat2Z.inj_succ, Z.pow_succ_r in Hn by lia. rewrite IH.
    + simpl. f_equal. rewrite Z.mul_comm. symmetry. apply Z.div_mod. lia.
    + split; [apply Z.div_pos; lia|]. apply Z.div_lt_upper_bound; lia.
Qed.

Lemma digits_aux_ok fuel base n acc :
  1 < base -> Forall (digit_ok base) acc -> Forall (digit_ok base) (digits_aux fuel base n acc).
Proof.
  intros Hb. revert n acc. induction fuel as [|fuel IH]; intros n acc H; [done|]. cbn [digits_aux].
  destruct (n =? 0); [done|]. apply IH. constructor; [|done]. apply Z.mod_pos_bound. lia.
Qed.

Lemma digits_aux_canonical fuel base ds acc :
  1 < base -> Forall (digit_ok base) ds -> canonical ds -> (length ds <= fuel)%nat ->
  digits_aux fuel base (num_value base ds) acc = ds ++ acc.
Proof.
  intros Hb. revert ds acc. induction fuel as [|fuel IH]; intros ds acc Hd Hc Hl.
  { destruct ds; [done|simpl in Hl; lia]. }
  destruct ds as [|d ds _] using rev_ind; [done|].
  assert (0 < num_value base (ds ++ [d])) as Hpos.
  { destruct ds as [|x ds]; [|by apply canonical_pos; [lia| |]].
    apply Forall_inv in Hd. unfold digit_ok, num_value in *. simpl in *. lia. }
  cbn [digits_aux]. rewrite (proj2 (Z.eqb_neq _ _)) by lia. rewrite num_value_snoc.
  apply Forall_app in Hd as [H1 H2%Forall_inv]. unfold digit_ok in H2.
  rewrite Z.div_add_l, (Z.div_small d), Z.add_0_r by lia.
  rewrite Z.add_comm, Z_mod_plus_full, Z.mod_small by lia.
  rewrite IH; [by rewrite <- app_assoc|done|by destruct ds|rewrite length_app in Hl; simpl in Hl; lia].
Qed.

Lemma digits_fuel base n : 1 < base -> 0 <= n -> n < base ^ Z.of_nat (Z.to_nat (Z.log2 n + 1)).
Proof.
  intros Hb Hn. pose proof (Z.log2_nonneg n). rewrite Z2Nat.id by lia.
  destruct (Z.eq_dec n 0) as [->|H0]; [apply Z.pow_pos_nonneg; lia|].
  apply Z.lt_le_trans with (2 ^ Z.succ (Z.log2 n)); [apply Z.log2_spec; lia|].
  apply Z.pow_le_mono_l. lia.
Qed.

Lemma digits_value base n : 1 < base -> 0 <= n -> num_value base (digits base n) = n.
Proof. intros. unfold num_value, digits. rewrite digits_aux_value; [done|done|]. split; [done|by apply digits_fuel]. Qed.

Lemma digits_digit_ok base n : 1 < base -> Forall (digit_ok base) (digits base n).
Proof. intros. by apply digits_aux_ok. Qed.

Lemma digits_inj base n m : 1 < base -> 0 <= n -> 0 <= m -> digits base n = digits base m -> n = m.
Proof. intros Hb Hn Hm H. by rewrite <- (digits_value base n), H, digits_value. Qed.

Lemma canonical_lower base d ds :
  1 < base -> Forall (digit_ok base) (d :: ds) -> d <> 0 ->
  base ^ Z.of_nat (length ds) <= num_value base (d :: ds).
Proof.
  intros Hb. induction ds as [|x ds IH] using rev_ind; intros H Hd.
  - apply Forall_inv in H. unfold digit_ok in H. unfold num_value. simpl. lia.
  - rewrite app_comm_cons in *. apply Forall_app in H as [H1 H2%Forall_inv].
    unfold digit_ok in H2. rewrite num_value_snoc, length_app, Nat2Z.inj_add. simpl length.
    rewrite Z.pow_add_r, Z.pow_1_r by lia. specialize (IH H1 Hd). nia.
Qed.

Lemma digits_canonical base ds :
  1 < base -> Forall (digit_ok base) ds -> canonical ds -> digits base (num_value base ds) = ds.
Proof.
  intros Hb Hd Hc. destruct ds as [|d ds]; [done|]. unfold digits.
  rewrite digits_aux_canonical, app_nil_r; [done..|].
  pose proof (canonical_lower base d ds Hb Hd Hc) as Hlow.
  assert (2 ^ Z.of_nat (length ds) <= num_value base (d :: ds)) as H2.
  { etransitivity; [|done]. apply Z.pow_le_mono_l. lia. }
  apply Z.log2_le_mono in H2. rewrite Z.log2_pow2 in H2 by lia. simpl. lia.
Qed.

(** [n.toString(base)] of an integer; a template literal prints in base 10. *)
Definition digit_char (d : Z) : Z := if d <? 10 then 48 + d else 87 + d.

Definition to_string (base n : Z) : jsstr :=
  if n =? 0 then [48]
  else if n <? 0 then 45 :: map digit_char (digits base (- n))
  else map digit_char (digits base n).

Lemma digit_char_inj a b : digit_ok 36 a -> digit_ok 36 b -> digit_char a = digit_char b -> a = b.
Proof. unfold digit_ok, digit_char. zbool; lia. Qed.

Lemma digit_chars_inj l k :
  Forall (digit_ok 36) l -> Forall (digit_ok 36) k -> map digit_char l = map digit_char k -> l = k.
Proof.
  intros Hl. revert k. induction Hl as [|a l Ha Hl IH]; intros [|b k] Hk E; try done.
  apply Forall_cons in Hk as [Hb Hk]. simpl in E. injection E as E1 E2.
  f_equal; [by apply digit_char_inj|by apply IH].
Qed.

Lemma digits_nil base n : 1 < base -> 0 <= n -> digits base n = [] -> n = 0.
Proof. intros Hb Hn H. rewrite <- (digits_value base n) by done. by rewrite H. Qed.

Lemma digits_ok_36 base n : 1 < base <= 36 -> Forall (digit_ok 36) (digits base n).
Proof.
  intros Hb. eapply Forall_impl; [apply (digits_digit_ok base); lia|]. unfold digit_ok. intros; lia.
Qed.

Lemma digits_head base n : 1 < base -> 0 <= n -> canonical (digits base n).
Proof.
  intros Hb Hn. unfold digits.
  enough (forall fuel m acc, 0 <= m < base ^ Z.of_nat fuel -> (m = 0 -> canonical acc) ->
    canonical (digits_aux fuel base m acc)) as H.
  { apply H; [split; [done|by apply digits_fuel]|done]. }
  induction fuel as [|fuel IH]; intros m acc Hm Hacc.
  { rewrite Z.pow_0_r in Hm. apply Hacc. lia. }
  cbn [digits_aux]. destruct (Z.eqb_spec m 0); [by apply Hacc|].
  rewrite Nat2Z.inj_succ, Z.pow_succ_r in Hm by lia. apply IH.
  - split; [apply Z.div_pos; lia|]. apply Z.div_lt_upper_bound; lia.
  - simpl. intros Hz E. pose proof (Z.div_mod m base). nia.
Qed.

(** Two natural numbers print alike only when they are equal. *)
Lemma to_string_inj base n m :
  1 < base <= 36 -> 0 <= n -> 0 <= m -> to_string base n = to_string base m -> n = m.
Proof.
  intros Hb Hn Hm. unfold to_string.
  assert (forall k, 0 <= k -> k <> 0 -> map digit_char (digits base k) <> [48]) as Hz.
  { intros k Hk Hk0 E. change [48] with (map digit_char [0]) in E.
    apply digit_chars_inj in E; [|by apply digits_ok_36|repeat constructor; unfold digit_ok; lia].
    pose proof (digits_head base k ltac:(lia) Hk) as Hc. by rewrite E in Hc. }
  destruct (Z.eqb_spec n 0), (Z.eqb_spec m 0); subst; try done.
  - destruct (Z.ltb_spec m 0); [lia|]. intros E. by destruct (Hz m Hm).
  - destruct (Z.ltb_spec n 0); [lia|]. intros E. by destruct (Hz n Hn).
  - destruct (Z.ltb_spec n 0), (Z.ltb_spec m 0); [lia..|]. intros E.
    apply digit_chars_inj in E; [|by apply digits_ok_36|by apply digits_ok_36].
    apply (digits_inj base); (done || lia).
Qed.

(** The printed digits of a natural number are decimal digits. *)
Lemma to_string_10 n : 0 <= n -> Forall (fun u => 48 <= u <= 57) (to_string 10 n).
Proof.
  intros Hn. unfold to_string. destruct (n =? 0); [repeat constructor; lia|].
  destruct (Z.ltb_spec n 0); [lia|]. apply Forall_map.
  eapply Forall_impl; [apply (digits_digit_ok 10); lia|]. unfold digit_ok, digit_char. intros d Hd.
  zbool; lia.
Qed.

Lemma to_string_nonempty base n : 1 < base -> to_string base n <> [].
Proof.
  intros Hb. unfold to_string. destruct (Z.eqb_spec n 0); [done|].
  destruct (Z.ltb_spec n 0); [done|]. intros E%map_eq_nil. apply digits_nil in E; lia.
Qed.

(** ** White space, [parseInt] *)

(** WhiteSpace and LineTerminator of the language. *)
Definition js_ws (u : Z) : bool :=
  ((9 <=? u) && (u <=? 13)) || (u =? 32) || (u =? 0xA0) || (u =? 0x1680)
  || ((0x2000 <=? u) && (u <=? 0x200A)) || (u =? 0x2028) || (u =? 0x2029)
  || (u =? 0x202F) || (u =? 0x205F) || (u =? 0x3000) || (u =? 0xFEFF).

Fixpoint trim_start (s : jsstr) : jsstr :=
  match s with
  | u :: s' => if js_ws u then trim_start s' else s
  | [] => []
  end.

Definition trim (s : jsstr) : jsstr := reverse (trim_start (reverse (trim_start s))).

Definition digit_value (u : Z) : option Z :=
  if (48 <=? u) && (u <=? 57) then Some (u - 48)
  else if (97 <=? u) && (u <=? 122) then Some (u - 87)
  else if (65 <=? u) && (u <=? 90) then Some (u - 55)
  else None.

(** The longest prefix of digits. *)
Fixpoint digit_prefix (radix : Z) (s : jsstr) : list Z :=
  match s with
  | u :: s' =>
      match digit_value u with
      | Some d => if d <? radix then d :: digit_prefix radix s' else []
      | None => []
      end
  | [] => []
  end.

(** [parseInt(s, radix)] for radix 10 or 16, [None] for [NaN]; the integer is
    the exact value, which the language's result is below [2 ^ 53]. *)
Definition parseInt (s : jsstr) (radix : Z) : option Z :=
  let s := trim_start s in
  let '(sign, s) := match s with
                    | 45 :: s' => (-1, s')
                    | 43 :: s' => (1, s')
                    | _ => (1, s)
                    end in
  let s := match s with
           | 48 :: x :: s' => if (radix =? 16) && ((x =? 120) || (x =? 88)) then s' else s
           | _ => s
           end in
  match digit_prefix radix s with
  | [] => None
  | ds => Some (sign * num_value radix ds)
  end.

(** ** Tests on texts *)

(** [s.startsWith(p)] *)
Definition startsWith (s p : jsstr) : bool := bool_decide (take (length p) s = p).

(** [/^[0-9a-fA-F]{64}$/.test(s)] *)
Definition hex64 (s : jsstr) : bool :=
  (length s =? 64)%nat
  && forallb (fun u => ((48 <=? u) && (u <=? 57)) || ((97 <=? u) && (u <=? 102)) || ((65 <=? u) && (u <=? 70))) s.

(** [s.slice(-n)] *)
Definition slice_last (n : nat) (s : jsstr) : jsstr := drop (length s - n) s.

(** [s.split(" ")] *)
Fixpoint split_sp (cur : jsstr) (s : jsstr) : list jsstr :=
  match s with
  | [] => [cur]
  | u :: s => if u =? 32 then cur :: split_sp [] s else split_sp (cur ++ [u]) s
  end.
