(* ===== verification/Amounts.v ===== *)
(** * Amounts of money as JavaScript numbers

    The wallets read amounts as decimal text, hold them as IEEE doubles and turn
    them into integer units of 10^-8. A finite double is [mant * 2 ^ expo]; every
    operation rounds the exact result to the nearest double, ties to even. The
    sign of zero is not kept. *)

From S2P Require Import Prelude JsText.
Local Open Scope Z_scope.

Record num := { mant : Z; expo : Z }.

Inductive double := NaN | Inf (negative : bool) | Fin (x : num).

(** The integer nearest to [n / d], ties to even. *)
Definition rne (n d : Z) : Z :=
  let q := n / d in
  let r := n mod d in
  match 2 * r ?= d with
  | Lt => q
  | Gt => q + 1
  | Eq => if Z.even q then q else q + 1
  end.

(** [n / d] in units of [2 ^ e], as a fraction. *)
Definition scale_n (n e : Z) : Z := if e <? 0 then n * 2 ^ (- e) else n.
Definition scale_d (d e : Z) : Z := if e <? 0 then d else d * 2 ^ e.

(** The exponent that leaves 53 bits of [a / d], down to the subnormal one. *)
Definition exponent (a d : Z) : Z :=
  let e := Z.log2 a - Z.log2 d - 52 in
  let e := if scale_n a e <? 2 ^ 52 * scale_d d e then e - 1 else e in
  Z.max e (-1074).

(** The double nearest to the rational [n / d], [d > 0]. *)
Definition round_q (n d : Z) : double :=
  if n =? 0 then Fin {| mant := 0; expo := 0 |} else
  let e := exponent (Z.abs n) d in
  let m := rne (scale_n n e) (scale_d d e) in
  if (0 <=? e) && (2 ^ 1024 <=? Z.abs m * 2 ^ e) then Inf (n <? 0) else Fin {| mant := m; expo := e |}.

(** A double as a fraction. *)
Definition frac_n (x : num) : Z := if expo x <? 0 then mant x else mant x * 2 ^ expo x.
Definition frac_d (x : num) : Z := if expo x <? 0 then 2 ^ (- expo x) else 1.

Definition of_Z (z : Z) : double := round_q z 1.

Definition dsign (x : double) : Z :=
  match x with NaN => 0 | Inf b => if b then -1 else 1 | Fin x => Z.sgn (mant x) end.

Definition dmul (x y : double) : double :=
  match x, y with
  | Fin a, Fin b => round_q (frac_n a * frac_n b) (frac_d a * frac_d b)
  | NaN, _ | _, NaN => NaN
  | _, _ => let s := dsign x * dsign y in if s =? 0 then NaN else Inf (s <? 0)
  end.

Definition ddiv (x y : double) : double :=
  match x, y with
  | Fin a, Fin b =>
      if mant b =? 0 then if mant a =? 0 then NaN else Inf (mant a <? 0)
      else let n := frac_n a * frac_d b in
           let d := frac_d a * frac_n b in
           round_q (Z.sgn d * n) (Z.abs d)
  | NaN, _ | _, NaN => NaN
  | Inf a, Fin b => Inf (xorb a (mant b <? 0))
  | Inf _, Inf _ => NaN
  | Fin _, Inf _ => of_Z 0
  end.

Definition dadd (x y : double) : double :=
  match x, y with
  | Fin a, Fin b => round_q (frac_n a * frac_d b + frac_n b * frac_d a) (frac_d a * frac_d b)
  | NaN, _ | _, NaN => NaN
  | Inf a, Inf b => if eqb a b then Inf a else NaN
  | Inf a, _ | _, Inf a => Inf a
  end.

Definition dneg (x : double) : double :=
  match x with NaN => NaN | Inf b => Inf (negb b) | Fin x => Fin {| mant := - mant x; expo := expo x |} end.
Definition dsub (x y : double) : double := dadd x (dneg y).

(** [x <= y]; false when one of them is not a number. *)
Definition dle (x y : double) : bool :=
  match x, y with
  | Fin a, Fin b => frac_n a * frac_d b <=? frac_n b * frac_d a
  | NaN, _ | _, NaN => false
  | Inf a, Inf b => a || negb b
  | Inf a, _ => a
  | _, Inf b => negb b
  end.

Definition dlt (x y : double) : bool :=
  match x, y with NaN, _ | _, NaN => false | _, _ => negb (dle y x) end.

(** [Math.floor] and [Math.round] of a finite number. *)
Definition math_floor (x : num) : Z := frac_n x / frac_d x.
Definition math_round (x : num) : Z := (2 * frac_n x + frac_d x) / (2 * frac_d x).

(** [Math.floor] of any number. *)
Definition dfloor (x : double) : double := match x with Fin x => of_Z (math_floor x) | x => x end.

Definition units_floor (x : double) : option Z :=
  match dmul x (of_Z 100000000) with Fin y => Some (math_floor y) | _ => None end.
Definition units_round (x : double) : option Z :=
  match dmul x (of_Z 100000000) with Fin y => Some (math_round y) | _ => None end.

(** ** [parseFloat] *)

(** The digits at the front of a text, and what follows. *)
Fixpoint span_digits (s : jsstr) : list Z * jsstr :=
  match s with
  | u :: s' => if (48 <=? u) && (u <=? 57) then let '(ds, r) := span_digits s' in (u - 48 :: ds, r) else ([], s)
  | [] => ([], [])
  end.

Definition sign_of (s : jsstr) : Z * jsstr :=
  match s with
  | u :: s' => if u =? 45 then (-1, s') else if u =? 43 then (1, s') else (1, s)
  | [] => (1, [])
  end.

(** The exponent part, 0 when the text has none, and what follows. *)
Definition exponent_part (s : jsstr) : Z * jsstr :=
  match s with
  | u :: s' =>
      if (u =? 101) || (u =? 69) then
        let '(sg, r) := sign_of s' in
        match span_digits r with ([], _) => (0, s) | (ds, r) => (sg * num_value 10 ds, r) end
      else (0, s)
  | [] => (0, [])
  end.

(** The decimal literal at the front of a text and what follows it. *)
Definition decimal_literal (s : jsstr) : double * jsstr :=
  let '(sg, s) := sign_of s in
  if bool_decide (take 8 s = js "Infinity") then (Inf (sg <? 0), drop 8 s) else
  let '(ip, r) := span_digits s in
  let '(fp, r) := match r with
                  | u :: r' => if u =? 46 then span_digits r' else ([], r)
                  | [] => ([], [])
                  end in
  match ip ++ fp with
  | [] => (NaN, s)
  | ds =>
      let '(ex, r) := exponent_part r in
      let ex := ex - Z.of_nat (length fp) in
      let n := sg * num_value 10 ds in
      (if 0 <=? ex then round_q (n * 10 ^ ex) 1 else round_q n (10 ^ (- ex)), r)
  end.

Definition parseFloat (s : jsstr) : double := (decimal_literal (trim_start s)).1.

(** ** Rounding errors *)

Lemma rne_bound n d : 0 < d -> 2 * Z.abs (rne n d * d - n) <= d.
Proof.
  intros Hd. unfold rne. pose proof (Z.div_mod n d ltac:(lia)). pose proof (Z.mod_pos_bound n d Hd).
  destruct (Z.compare_spec (2 * (n mod d)) d); [destruct (Z.even _)| |]; nia.
Qed.

Lemma pow_split a b : 0 <= a -> 0 <= b -> 2 ^ (a + b) = 2 ^ a * 2 ^ b.
Proof. intros. by apply Z.pow_add_r. Qed.

Lemma exponent_spec n d :
  0 < n -> 0 < d -> n < d * 2 ^ 51 -> Z.log2 d <= 900 ->
  let e := exponent n d in
  e < 0 /\ - e <= Z.log2 d + 53 /\ 2 ^ 52 * d <= n * 2 ^ (- e).
Proof.
  intros Hn Hd Hlt Hld. unfold exponent.
  pose proof (Z.log2_spec n Hn) as [N1 N2]. pose proof (Z.log2_spec d Hd) as [D1 D2].
  pose proof (Z.log2_nonneg n). pose proof (Z.log2_nonneg d).
  set (ln := Z.log2 n) in *. set (ld := Z.log2 d) in *.
  assert (ln <= ld + 51) as Hl.
  { assert (2 ^ ln < 2 ^ (Z.succ ld + 51)) as Hp; [|apply Z.pow_lt_mono_r_iff in Hp; lia].
    rewrite pow_split by lia. nia. }
  assert (ln - ld - 52 < 0) as He by lia. unfold scale_n, scale_d.
  rewrite (proj2 (Z.ltb_lt _ _) He).
  destruct (Z.ltb_spec (n * 2 ^ (- (ln - ld - 52))) (2 ^ 52 * d)) as [Ht|Ht]; rewrite Z.max_l by lia.
  - split; [lia|]. split; [lia|].
    assert (2 ^ 52 * 2 ^ Z.succ ld <= 2 ^ ln * 2 ^ (- (ln - ld - 52 - 1))) as Hp.
    { rewrite <- !pow_split by lia. apply Z.pow_le_mono_r; lia. }
    nia.
  - split; [lia|]. split; [lia|]. lia.
Qed.

(** The double nearest to a fraction below [2 ^ 51]. *)
Lemma round_q_spec n d :
  0 < n -> 0 < d -> n < d * 2 ^ 51 -> Z.log2 d <= 900 ->
  exists m k, round_q n d = Fin {| mant := m; expo := - k |} /\ 0 < k <= Z.log2 d + 53
    /\ 2 * Z.abs (m * d - n * 2 ^ k) <= d /\ 2 ^ 52 * d <= n * 2 ^ k.
Proof.
  intros Hn Hd Hlt Hld. destruct (exponent_spec n d Hn Hd Hlt Hld) as (H1 & H2 & H3).
  unfold round_q. rewrite (proj2 (Z.eqb_neq n 0)) by lia. rewrite Z.abs_eq by lia.
  set (e := exponent n d) in *. rewrite (proj2 (Z.leb_gt 0 e)) by lia. cbn [andb].
  exists (rne (scale_n n e) (scale_d d e)), (- e). rewrite Z.opp_involutive.
  split; [done|]. split; [lia|]. unfold scale_n, scale_d. rewrite (proj2 (Z.ltb_lt e 0)) by lia.
  split; [|done]. pose proof (rne_bound (n * 2 ^ (- e)) d Hd). lia.
Qed.

(** Integers below [2 ^ 51] are doubles. *)
Lemma of_Z_exact n : 0 < n < 2 ^ 51 -> exists x, of_Z n = Fin x /\ frac_n x = n * frac_d x /\ 0 < frac_d x.
Proof.
  intros Hn. destruct (round_q_spec n 1) as (m & k & E & Hk & Hm & _); [lia..|cbn; lia|].
  exists {| mant := m; expo := - k |}. split; [exact E|]. unfold frac_n, frac_d. cbn [mant expo].
  rewrite (proj2 (Z.ltb_lt (- k) 0)), Z.opp_involutive by lia.
  assert (0 < 2 ^ k) by (apply Z.pow_pos_nonneg; lia). split; lia.
Qed.

Lemma frac_d_pos x : 0 < frac_d x.
Proof. unfold frac_d. destruct (Z.ltb_spec (expo x) 0); [apply Z.pow_pos_nonneg; lia|lia]. Qed.

Lemma of_Z_1e8 : of_Z 100000000 = Fin {| mant := 6710886400000000; expo := -26 |}.
Proof. reflexivity. Qed.

(** The double nearest to [k / 10 ^ 8], times [10 ^ 8]: a double [m / 2 ^ j] at
    less than one half from [k]. *)
Lemma units_near k :
  0 < k < 2 ^ 51 ->
  exists m j, dmul (round_q k 100000000) (of_Z 100000000) = Fin {| mant := m; expo := - j |} /\ 0 < j
    /\ 2 * Z.abs (m - k * 2 ^ j) < 2 ^ j.
Proof.
  intros Hk. destruct (round_q_spec k 100000000) as (m & j & E & Hj & Hm & Hp); [lia..|cbn; lia|].
  rewrite E, of_Z_1e8. unfold dmul, frac_n, frac_d. cbn [expo mant].
  rewrite (proj2 (Z.ltb_lt (- j) 0)) by lia. change (-26 <? 0) with true. rewrite Z.opp_involutive.
  change (2 ^ (- -26)) with (2 ^ 26). change (Z.log2 100000000) with 26 in Hj.
  assert (0 < 2 ^ j) as HD by (apply Z.pow_pos_nonneg; lia).
  set (D := 2 ^ j) in *.
  assert (0 < m) as Hm0 by nia.
  assert (m * 100000000 < D * 2 ^ 51) as Hv by nia.
  assert (D * 2 ^ 26 = 2 ^ (j + 26)) as HDe by (unfold D; by rewrite pow_split by lia).
  destruct (round_q_spec (m * 6710886400000000) (D * 2 ^ 26)) as (m2 & j2 & E2 & Hj2 & Hm2 & Hp2); [nia|nia|nia| |].
  { rewrite HDe, Z.log2_pow2 by lia. lia. }
  exists m2, j2. split; [exact E2|]. split; [lia|].
  assert (2 <= 2 ^ j2) as HD2. { change 2 with (2 ^ 1) at 1. apply Z.pow_le_mono_r; lia. }
  set (D2 := 2 ^ j2) in *. clearbody D D2. clear E E2 HDe.
  assert (2 * Z.abs (m2 * D - m * 100000000 * D2) <= D) as Hm2' by nia.
  assert (2 * 100000000 < D) as HD3 by nia.
  assert (2 * D * Z.abs (m2 - k * D2) <= D + 100000000 * D2) as Hsum.
  { replace (2 * D * Z.abs (m2 - k * D2)) with
      (2 * Z.abs ((m2 * D - m * 100000000 * D2) + (m * 100000000 - k * D) * D2)); [nia|].
    replace (m2 * D - m * 100000000 * D2 + (m * 100000000 - k * D) * D2) with (D * (m2 - k * D2)) by ring.
    rewrite Z.abs_mul, (Z.abs_eq D) by lia. ring. }
  clear Hm2' Hm2 Hp2 Hp Hm Hv Hj Hj2. set (x := Z.abs (m2 - k * D2)) in *. clearbody x.
  assert (D * 2 <= D * D2) by (apply Z.mul_le_mono_nonneg_l; lia).
  assert (200000000 * D2 < D * D2) by (apply Z.mul_lt_mono_pos_r; lia).
  apply Z.nle_gt. intros Hx.
  assert (D * D2 <= D * (2 * x)) by (apply Z.mul_le_mono_nonneg_l; lia). lia.
Qed.

(** C34. Rounding gives the amount that was entered: for every amount of [k] units
    below 2 ^ 51, the double nearest to [k / 10 ^ 8], multiplied by [1e8] and
    rounded, is [k] again. [Math.floor] in the place of [Math.round] gives [k]
    or [k - 1], and [k - 1] does occur: 0.29 is sent as 28999999 units. *)
Theorem amount_units (k : Z) :
  0 < k < 2 ^ 51 ->
  units_round (round_q k 100000000) = Some k
  /\ (units_floor (round_q k 100000000) = Some k \/ units_floor (round_q k 100000000) = Some (k - 1))
  /\ units_floor (parseFloat (js "0.29")) = Some 28999999.
Proof.
  intros Hk. destruct (units_near k Hk) as (m & j & E & Hj & Hm). unfold units_round, units_floor. rewrite E.
  assert (0 < 2 ^ j) as HD by (apply Z.pow_pos_nonneg; lia).
  assert (math_round {| mant := m; expo := - j |} = k) as ->.
  { unfold math_round, frac_n, frac_d. cbn [mant expo]. rewrite (proj2 (Z.ltb_lt (- j) 0)), Z.opp_involutive by lia.
    set (D := 2 ^ j) in *. clearbody D. symmetry. apply (Z.div_unique _ _ _ (2 * m + D - 2 * D * k)); [left|]; lia. }
  split; [done|]. split; [|vm_compute; reflexivity].
  unfold math_floor, frac_n, frac_d. cbn [mant expo]. rewrite (proj2 (Z.ltb_lt (- j) 0)), Z.opp_involutive by lia.
  set (D := 2 ^ j) in *. clearbody D. destruct (Z.le_gt_cases (k * D) m).
  - left. f_equal. symmetry. apply (Z.div_unique _ _ _ (m - D * k)); [left|]; lia.
  - right. f_equal. symmetry. apply (Z.div_unique _ _ _ (m - D * (k - 1))); [left|]; lia.
Qed.

Lemma amount_units_witness : units_round (round_q 29000000 100000000) = Some 29000000.
Proof. apply (amount_units 29000000). lia. Defined.
