(* ===== verification/Numbers.v ===== *)
(** * Numbers as decimal text

    What JavaScript prints for a number that is not an integer: [String(x)], with
    the fewest digits that read back as [x], and [x.toFixed(k)]. *)

From S2P Require Import Prelude JsText Amounts.
Local Open Scope Z_scope.

Definition same_num (x y : num) : bool := frac_n x * frac_d y =? frac_n y * frac_d x.

(** [s * 10 ^ e] as a double. *)
Definition decimal (s e : Z) : double := if 0 <=? e then round_q (s * 10 ^ e) 1 else round_q s (10 ^ (- e)).

(** The [n] with [10 ^ (n - 1) <= a / d < 10 ^ n]; a double below 1 has at most
    324 zeros after its point. *)
Fixpoint leading_zeros (fuel : nat) (a d : Z) : Z :=
  match fuel with
  | O => 0
  | S fuel => if d <=? 10 * a then 0 else 1 + leading_zeros fuel (10 * a) d
  end.

Definition magnitude (a d : Z) : Z :=
  if d <=? a then Z.of_nat (length (digits 10 (a / d))) else - leading_zeros 330 a d.

(** The significands of [k] digits next to [a / d * 10 ^ (k - n)], the nearest one
    first, each with its own [n]. *)
Definition candidates (a d n k : Z) : list (Z * Z) :=
  let p := if n <=? k then a * 10 ^ (k - n) else a in
  let q := if n <=? k then d else d * 10 ^ (n - k) in
  map (fun s => if s =? 10 ^ k then (10 ^ (k - 1), n + 1) else (s, n)) [rne p q; p / q; p / q + 1].

Definition reads_as (x : num) (s e : Z) : bool :=
  match decimal s e with Fin y => same_num x y | _ => false end.

(** The shortest significand, its position and its number of digits; 17 digits
    are enough for every double. *)
Fixpoint shortest (fuel : nat) (x : num) (a d n k : Z) : Z * Z * Z :=
  match List.find (fun c => reads_as {| mant := Z.abs (mant x); expo := expo x |} c.1 (c.2 - k)) (candidates a d n k), fuel with
  | Some (s, n), _ => (s, n, k)
  | None, S fuel => shortest fuel x a d n (k + 1)
  | None, O => (rne a d, n, k)
  end.

Definition zeros_text (n : Z) : jsstr := replicate (Z.to_nat n) 48.

(** The four layouts of a number of [k] digits [t] with the point after [n]. *)
Definition layout (t : jsstr) (n k : Z) : jsstr :=
  if (k <=? n) && (n <=? 21) then t ++ zeros_text (n - k)
  else if (0 <? n) && (n <=? 21) then take (Z.to_nat n) t ++ [46] ++ drop (Z.to_nat n) t
  else if (-6 <? n) && (n <=? 0) then [48; 46] ++ zeros_text (- n) ++ t
  else let e := n - 1 in
       let ex := [101] ++ (if e <? 0 then [] else [43]) ++ to_string 10 e in
       if k =? 1 then t ++ ex else take 1 t ++ [46] ++ drop 1 t ++ ex.

(** [String(x)] of a finite number. *)
Definition number_text (x : num) : jsstr :=
  if mant x =? 0 then [48] else
  let a := Z.abs (frac_n x) in
  let d := frac_d x in
  let '(s, n, k) := shortest 16 x a d (magnitude a d) 1 in
  (if mant x <? 0 then [45] else []) ++ layout (to_string 10 (Z.abs s)) n k.

(** [String(x)] *)
Definition double_text (x : double) : jsstr :=
  match x with
  | NaN => js "NaN"
  | Inf b => (if b then [45] else []) ++ js "Infinity"
  | Fin x => number_text x
  end.

(** Go's [fmt.Sprintf] of a number with [k] decimals: the nearest, ties to even. *)
Definition go_fixed (k : nat) (x : double) : jsstr :=
  match x with
  | NaN => js "NaN"
  | Inf b => if b then js "-Inf" else js "+Inf"
  | Fin x =>
      let p := 10 ^ Z.of_nat k in
      let n := rne (Z.abs (frac_n x) * p) (frac_d x) in
      let t := to_string 10 (n mod p) in
      (if mant x <? 0 then [45] else []) ++ to_string 10 (n / p) ++ [46] ++ replicate (k - length t) 48 ++ t
  end.

(** [x.toFixed(k)] below 10 ^ 21: the nearest multiple of [10 ^ -k], the larger
    one of two. *)
Definition toFixed (k : nat) (x : num) : jsstr :=
  let p := 10 ^ Z.of_nat k in
  let a := Z.abs (frac_n x) in
  if 10 ^ 21 * frac_d x <=? a then number_text x else
  let n := (2 * a * p + frac_d x) / (2 * frac_d x) in
  let t := to_string 10 (n mod p) in
  (if mant x <? 0 then [45] else []) ++ to_string 10 (n / p)
  ++ match k with O => [] | _ => [46] ++ replicate (k - length t) 48 ++ t end.

(** ** Shape of the printed text *)

Definition number_char (u : Z) : Prop := 43 <= u <= 57 \/ u = 101.

Lemma digit_char_10 d : digit_ok 10 d -> 48 <= digit_char d <= 57.
Proof. unfold digit_ok, digit_char. intros Hd. zbool; lia. Qed.

Lemma to_string_chars n : Forall (fun u => u = 45 \/ 48 <= u <= 57) (to_string 10 n).
Proof.
  unfold to_string. destruct (n =? 0); [repeat constructor; lia|].
  assert (forall k, Forall (fun u => u = 45 \/ 48 <= u <= 57) (map digit_char (digits 10 k))) as H.
  { intros k. apply Forall_map. eapply Forall_impl; [apply (digits_digit_ok 10); lia|].
    intros d Hd. right. by apply digit_char_10. }
  destruct (n <? 0); [constructor; [lia|apply H]|apply H].
Qed.

Lemma to_string_number n : Forall number_char (to_string 10 n).
Proof. eapply Forall_impl; [apply to_string_chars|]. unfold number_char. intros u Hu. simpl in Hu. lia. Qed.

Lemma layout_chars t n k : Forall number_char t -> Forall number_char (layout t n k).
Proof.
  intros Ht. assert (forall z, Forall number_char (zeros_text z)) as Hz.
  { intros z. apply Forall_replicate. unfold number_char. lia. }
  assert (forall l, Forall (fun u => 43 <= u <= 57 \/ u = 101) l -> Forall number_char l) as Hl by done.
  unfold layout. repeat case_match; repeat (apply Forall_app; split); auto using Forall_take, Forall_drop, to_string_number;
    apply Hl; repeat constructor; lia.
Qed.

Lemma number_text_chars x : Forall number_char (number_text x).
Proof.
  unfold number_text. destruct (mant x =? 0); [repeat constructor; unfold number_char; lia|].
  destruct (shortest _ _ _ _ _ _) as [[s n] k]. apply Forall_app. split; [|apply layout_chars, to_string_number].
  destruct (mant x <? 0); repeat constructor; unfold number_char; lia.
Qed.

Example number_texts :
  (forall t, In t [js "0.29"; js "1.5"; js "-0.001"; js "123456.789"; js "1e-7"; js "1.25e+25"; js "0.30000000000000004"] ->
    match parseFloat t with Fin x => number_text x = t | _ => False end)
  /\ toFixed 4 {| mant := 3; expo := -1 |} = js "1.5000" /\ toFixed 2 {| mant := -1; expo := -10 |} = js "-0.00".
Proof. split; [|split; vm_compute; reflexivity]. intros t H. repeat (destruct H as [<-|H]; [vm_compute; reflexivity|]). destruct H. Qed.
