(* ===== verification/Locale.v ===== *)
(** * Numbers as Indonesian text

    [x.toLocaleString("id-ID", { minimumFractionDigits, maximumFractionDigits })]
    as ECMA-402 specifies it: the number is rounded to the last digit shown, halves
    away from zero, groups of three digits are separated by a point and the
    fraction follows a comma. Without options at most three digits are shown. *)

From S2P Require Import Prelude JsText Amounts Numbers.
Local Open Scope Z_scope.

(** The digits of an integer from the last one, a point after every third. *)
Fixpoint group_rev (n : nat) (ds : jsstr) : jsstr :=
  match ds with
  | [] => []
  | d :: ds =>
      match n with
      | O => 46 :: d :: group_rev 2 ds
      | S n => d :: group_rev n ds
      end
  end.

Definition group3 (ds : jsstr) : jsstr := reverse (group_rev 3 (reverse ds)).

(** Trailing zeros of a fraction, given from its last digit, go as long as more
    than [min] digits stay. *)
Fixpoint strip_zeros (extra : nat) (ds : jsstr) : jsstr :=
  match extra, ds with
  | S extra, d :: ds' => if d =? 48 then strip_zeros extra ds' else ds
  | _, _ => ds
  end.

Definition fraction_text (minf maxf : nat) (n : Z) : jsstr :=
  let t := match maxf with O => [] | _ => to_string 10 n end in
  let padded := replicate (maxf - length t) 48 ++ t in
  reverse (strip_zeros (maxf - minf) (reverse padded)).

Definition locale_num (minf maxf : nat) (x : num) : jsstr :=
  let p := 10 ^ Z.of_nat maxf in
  let n := (2 * Z.abs (frac_n x) * p + frac_d x) / (2 * frac_d x) in
  let f := fraction_text minf maxf (n mod p) in
  (if mant x <? 0 then [45] else []) ++ group3 (to_string 10 (n / p))
  ++ match f with [] => [] | _ => [44] ++ f end.

Definition toLocaleString (minf maxf : nat) (x : double) : jsstr :=
  match x with
  | NaN => js "NaN"
  | Inf b => (if b then [45] else []) ++ [0x221E]
  | Fin x => locale_num minf maxf x
  end.

(** Without options. *)
Definition toLocale (x : double) : jsstr := toLocaleString 0 3 x.

(** [s.replace(/\./g, "")] *)
Definition drop_points (s : jsstr) : jsstr := List.filter (fun u => negb (u =? 46)) s.

(** ** Reading back *)

Lemma filter_reverse {A} (f : A -> bool) (l : list A) : List.filter f (reverse l) = reverse (List.filter f l).
Proof. unfold reverse. by rewrite <- !rev_alt, List.filter_rev. Qed.

Lemma drop_points_none s : Forall (fun u => u <> 46) s -> drop_points s = s.
Proof.
  intros H. unfold drop_points. induction H as [|u s Hu _ IH]; [done|]. cbn [List.filter].
  rewrite (proj2 (Z.eqb_neq u 46) Hu). cbn [negb]. by rewrite IH.
Qed.

Lemma drop_points_group n s : Forall (fun u => u <> 46) s -> drop_points (group_rev n s) = s.
Proof.
  intros H. unfold drop_points. revert n. induction H as [|u s Hu _ IH]; intros n; [done|]. cbn [group_rev].
  destruct n as [|n]; cbn [List.filter]; [change (46 =? 46) with true; cbn [negb]|];
    rewrite (proj2 (Z.eqb_neq u 46) Hu); cbn [negb]; by rewrite IH.
Qed.

Lemma digits_no_point n : 0 <= n -> Forall (fun u => u <> 46) (to_string 10 n).
Proof. intros Hn. eapply Forall_impl; [by apply to_string_10|]. intros u Hu. cbn in Hu. lia. Qed.

(** The points can be left out again. *)
Lemma drop_points_group3 n : 0 <= n -> drop_points (group3 (to_string 10 n)) = to_string 10 n.
Proof.
  intros Hn. unfold drop_points, group3. rewrite filter_reverse.
  change (List.filter _ (group_rev 3 ?l)) with (drop_points (group_rev 3 l)).
  rewrite drop_points_group; [apply reverse_involutive|]. apply Forall_reverse. by apply digits_no_point.
Qed.

Lemma strip_zeros_all n : strip_zeros n (replicate n 48) = [].
Proof. induction n as [|n IH]; [done|]. cbn [strip_zeros replicate]. apply IH. Qed.

Lemma fraction_zero maxf : fraction_text 0 maxf 0 = [].
Proof.
  unfold fraction_text. destruct maxf as [|k]; [done|].
  change (to_string 10 0) with (replicate 1 48). rewrite length_replicate, <- replicate_add.
  replace (S k - 1 + 1)%nat with (S k) by lia. rewrite reverse_replicate, Nat.sub_0_r, strip_zeros_all. done.
Qed.

(** An integer is shown as its digits in groups of three. *)
Lemma locale_integer maxf n : 0 <= n < 2 ^ 51 -> toLocaleString 0 maxf (of_Z n) = group3 (to_string 10 n).
Proof.
  intros Hn. destruct (Z.eq_dec n 0) as [->|Hz].
  { change (of_Z 0) with (Fin {| mant := 0; expo := 0 |}). unfold toLocaleString, locale_num. cbn [mant].
    change (frac_n {| mant := 0; expo := 0 |}) with 0. change (frac_d {| mant := 0; expo := 0 |}) with 1.
    assert (0 < 10 ^ Z.of_nat maxf) as Hp by (apply Z.pow_pos_nonneg; lia).
    replace ((2 * Z.abs 0 * 10 ^ Z.of_nat maxf + 1) / (2 * 1)) with 0 by reflexivity.
    rewrite Z.mod_0_l, Z.div_0_l, fraction_zero by lia. done. }
  destruct (of_Z_exact n) as (x & E & Hx & Hd); [lia|]. rewrite E. unfold toLocaleString, locale_num.
  assert (0 < 10 ^ Z.of_nat maxf) as Hp by (apply Z.pow_pos_nonneg; lia). set (p := 10 ^ Z.of_nat maxf) in *.
  rewrite Hx. replace ((2 * Z.abs (n * frac_d x) * p + frac_d x) / (2 * frac_d x)) with (n * p).
  2: { apply (Z.div_unique _ _ _ (frac_d x)); [left; lia|]. rewrite Z.abs_eq by nia. ring. }
  rewrite Z.mod_mul, Z.div_mul, fraction_zero, app_nil_r by lia.
  destruct (Z.ltb_spec (mant x) 0) as [Hm|]; [exfalso|done].
  unfold frac_n, frac_d in *. destruct (expo x <? 0); [nia|].
  assert (mant x * 2 ^ expo x < 1) by (pose proof (Z.pow_nonneg 2 (expo x)); nia). nia.
Qed.

Example locale_texts :
  toLocale (of_Z 1234567) = js "1.234.567" /\ toLocaleString 4 8 (parseFloat (js "0.29")) = js "0,2900"
  /\ toLocaleString 0 4 (parseFloat (js "1999.99996")) = js "2.000" /\ toLocale (parseFloat (js "-12.3456")) = js "-12,346".
Proof. vm_compute. done. Qed.
