(* ===== verification/Dates.v ===== *)
(** * Instants and their ISO text

    [Date.prototype.toISOString], the reading of that text by [new Date(text)], and
    the wall-clock texts of the pages. An instant is a number of milliseconds since
    1970; dates before 1970 and after the year 9999 are outside this model. *)

From S2P Require Import Prelude JsText Amounts.
Local Open Scope Z_scope.

Definition MS_PER_DAY : Z := 86400000.

(** The first instant of the year 10000. *)
Definition MAX_MS : Z := 253402300800000.

(** ** The calendar *)

Definition leap (y : Z) : bool := ((y mod 4 =? 0) && negb (y mod 100 =? 0)) || (y mod 400 =? 0).

Definition DayFromYear (y : Z) : Z :=
  365 * (y - 1970) + (y - 1969) / 4 - (y - 1901) / 100 + (y - 1601) / 400.

(** The last year that begins at or before day [d], searched from a lower bound. *)
Fixpoint year_from (fuel : nat) (y d : Z) : Z :=
  match fuel with
  | O => y
  | S fuel => if DayFromYear (y + 1) <=? d then year_from fuel (y + 1) d else y
  end.

Definition YearFromDay (d : Z) : Z := year_from 40 (1970 + d / 366) d.

Definition month_lengths (y : Z) : list Z :=
  [31; if leap y then 29 else 28; 31; 30; 31; 30; 31; 31; 30; 31; 30; 31].

(** The month, from 1, and the day of it, from 1, of a day of the year. *)
Fixpoint month_day (ms : list Z) (m d : Z) : Z * Z :=
  match ms with
  | l :: ((_ :: _) as ms) => if d <? l then (m, d + 1) else month_day ms (m + 1) (d - l)
  | _ => (m, d + 1)
  end.

Definition days_before (y m : Z) : Z := foldr Z.add 0 (take (Z.to_nat (m - 1)) (month_lengths y)).

(** ** Text *)

Definition two (n : Z) : jsstr := [48 + n / 10; 48 + n mod 10].
Definition three (n : Z) : jsstr := [48 + n / 100; 48 + n / 10 mod 10; 48 + n mod 10].
Definition four (n : Z) : jsstr := two (n / 100) ++ two (n mod 100).

Definition toISOString (t : Z) : jsstr :=
  let day := t / MS_PER_DAY in
  let ms := t mod MS_PER_DAY in
  let y := YearFromDay day in
  let '(m, d) := month_day (month_lengths y) 1 (day - DayFromYear y) in
  four y ++ [45] ++ two m ++ [45] ++ two d ++ [84]
  ++ two (ms / 3600000) ++ [58] ++ two (ms / 60000 mod 60) ++ [58] ++ two (ms / 1000 mod 60)
  ++ [46] ++ three (ms mod 1000) ++ [90].

Definition digit (u : Z) : option Z := if (48 <=? u) && (u <=? 57) then Some (u - 48) else None.

Definition number_of (s : jsstr) : option Z := num_value 10 <$> mapM digit s.

(** The instant of a text in the format above; [None] is an invalid date. *)
Definition date_time (s : jsstr) : option Z :=
  match s with
  | [y1; y2; y3; y4; h1; m1; m2; h2; d1; d2; t; i1; i2; c1; j1; j2; c2; k1; k2; p; l1; l2; l3; z] =>
      if bool_decide ([h1; h2; t; c1; c2; p; z] = js "--T::.Z") then
        y ← number_of [y1; y2; y3; y4]; m ← number_of [m1; m2]; d ← number_of [d1; d2];
        hh ← number_of [i1; i2]; mm ← number_of [j1; j2]; ss ← number_of [k1; k2]; ms ← number_of [l1; l2; l3];
        if (1 <=? m) && (m <=? 12) && (1 <=? d) && (d <=? month_lengths y !!! Z.to_nat (m - 1))
           && (hh <? 24) && (mm <? 60) && (ss <? 60)
        then Some ((DayFromYear y + days_before y m + d - 1) * MS_PER_DAY + ((hh * 60 + mm) * 60 + ss) * 1000 + ms)
        else None
      else None
  | _ => None
  end.

(** ** The calendar is inverted *)

Lemma DayFromYear_next y : DayFromYear (y + 1) = DayFromYear y + if leap y then 366 else 365.
Proof.
  unfold DayFromYear, leap.
  destruct (Z.eqb_spec (y mod 4) 0), (Z.eqb_spec (y mod 100) 0), (Z.eqb_spec (y mod 400) 0); cbn [andb orb negb];
    Z.to_euclidean_division_equations; lia.
Qed.

Lemma year_from_spec fuel y d :
  DayFromYear y <= d -> d < DayFromYear (y + 1 + Z.of_nat fuel) ->
  let r := year_from fuel y d in y <= r <= y + Z.of_nat fuel /\ DayFromYear r <= d < DayFromYear (r + 1).
Proof.
  revert y. induction fuel as [|fuel IH]; intros y H1 H2; cbn [year_from].
  - replace (y + 1 + Z.of_nat 0) with (y + 1) in H2 by lia. lia.
  - destruct (Z.leb_spec (DayFromYear (y + 1)) d); [|lia].
    specialize (IH (y + 1) ltac:(done)). replace (y + 1 + 1 + Z.of_nat fuel) with (y + 1 + Z.of_nat (S fuel)) in IH by lia.
    specialize (IH H2). cbv zeta in IH. lia.
Qed.

Lemma YearFromDay_spec d :
  0 <= d < 2932897 -> let y := YearFromDay d in 1970 <= y <= 9999 /\ DayFromYear y <= d < DayFromYear (y + 1).
Proof.
  intros Hd. unfold YearFromDay.
  destruct (year_from_spec 40 (1970 + d / 366) d) as [H1 H2];
    [unfold DayFromYear; Z.to_euclidean_division_equations; lia..|].
  set (y := year_from _ _ _) in *. cbv zeta. split; [|done]. split; [Z.to_euclidean_division_equations; lia|].
  destruct (Z.le_gt_cases y 9999); [done|]. destruct H2 as [H2 _]. unfold DayFromYear in H2.
  Z.to_euclidean_division_equations; lia.
Qed.

Lemma month_day_spec ms m d :
  0 <= d < foldr Z.add 0 ms -> Forall (fun l => 0 <= l) ms ->
  exists i, month_day ms m d = (m + Z.of_nat i, d - foldr Z.add 0 (take i ms) + 1)
    /\ (i < length ms)%nat /\ 0 <= d - foldr Z.add 0 (take i ms) < ms !!! i.
Proof.
  revert m d. induction ms as [|l ms IH]; intros m d Hd Hl; [simpl in Hd; lia|].
  apply Forall_cons in Hl as [Hl Hms]. destruct ms as [|l' ms].
  { exists 0%nat. cbn. split; [f_equal; lia|]. split; [lia|]. simpl in Hd. lia. }
  change (month_day (l :: l' :: ms) m d) with (if d <? l then (m, d + 1) else month_day (l' :: ms) (m + 1) (d - l)).
  destruct (Z.ltb_spec d l).
  { exists 0%nat. cbn. split; [f_equal; lia|]. split; lia. }
  destruct (IH (m + 1) (d - l)) as (i & E & Hi & Hr); [simpl in *; lia|done|].
  exists (S i). rewrite E. cbn [take foldr]. split; [f_equal; lia|]. split; [simpl in *; lia|].
  change ((l :: l' :: ms) !!! S i) with ((l' :: ms) !!! i). lia.
Qed.

Lemma month_lengths_sum y : foldr Z.add 0 (month_lengths y) = if leap y then 366 else 365.
Proof. unfold month_lengths. by destruct (leap y). Qed.

Lemma month_lengths_bound y : Forall (fun l => 0 <= l <= 31) (month_lengths y).
Proof. unfold month_lengths. destruct (leap y); repeat constructor; lia. Qed.

(** ** Texts are read back *)

Lemma digit_spec n : 0 <= n < 10 -> digit (48 + n) = Some n.
Proof. intros Hn. unfold digit. rewrite !(proj2 (Z.leb_le _ _)) by lia. cbn [andb]. f_equal. lia. Qed.

Lemma number_two n : 0 <= n < 100 -> number_of (two n) = Some n.
Proof.
  intros Hn. unfold number_of, two. cbn [mapM]. rewrite !digit_spec by (Z.to_euclidean_division_equations; lia).
  cbn. f_equal. Z.to_euclidean_division_equations; lia.
Qed.

Lemma number_three n : 0 <= n < 1000 -> number_of (three n) = Some n.
Proof.
  intros Hn. unfold number_of, three. cbn [mapM]. rewrite !digit_spec by (Z.to_euclidean_division_equations; lia).
  cbn. f_equal. Z.to_euclidean_division_equations; lia.
Qed.

Lemma number_four n : 0 <= n < 10000 -> number_of (four n) = Some n.
Proof.
  intros Hn. unfold number_of, four, two. cbn [app mapM].
  rewrite !digit_spec by (Z.to_euclidean_division_equations; lia).
  cbn. f_equal. Z.to_euclidean_division_equations; lia.
Qed.

Lemma time_of_day ms :
  0 <= ms < MS_PER_DAY ->
  ((ms / 3600000 * 60 + ms / 60000 mod 60) * 60 + ms / 1000 mod 60) * 1000 + ms mod 1000 = ms
  /\ 0 <= ms / 3600000 < 24.
Proof. unfold MS_PER_DAY. intros. Z.to_euclidean_division_equations; lia. Qed.

(** The ISO text of an instant reads as that instant. *)
Lemma iso_roundtrip t : 0 <= t < MAX_MS -> date_time (toISOString t) = Some t.
Proof.
  intros Ht. unfold MAX_MS in Ht. unfold toISOString.
  assert (0 <= t / MS_PER_DAY < 2932897) as Hd by (unfold MS_PER_DAY; Z.to_euclidean_division_equations; lia).
  assert (0 <= t mod MS_PER_DAY < MS_PER_DAY) as Hms by (apply Z.mod_pos_bound; done).
  pose proof (Z.div_mod t MS_PER_DAY ltac:(done)) as Hdm.
  set (day := t / MS_PER_DAY) in *. set (ms := t mod MS_PER_DAY) in *.
  destruct (YearFromDay_spec day Hd) as [Hy1 Hy2]. set (y := YearFromDay day) in *.
  rewrite DayFromYear_next in Hy2.
  destruct (month_day_spec (month_lengths y) 1 (day - DayFromYear y)) as (i & -> & Hi & Hdd).
  { rewrite month_lengths_sum. lia. }
  { eapply Forall_impl; [apply month_lengths_bound|]. simpl. lia. }
  assert (month_lengths y !!! i <= 31) as Hl.
  { destruct (lookup_lt_is_Some_2 _ _ Hi) as [l El]. rewrite (list_lookup_total_correct _ _ _ El).
    apply (Forall_lookup_1 _ _ _ _ (month_lengths_bound y) El). }
  change (length (month_lengths y)) with 12%nat in Hi.
  destruct (time_of_day ms Hms) as [Etime Hh].
  set (d := day - _ - _) in *. set (m := 1 + Z.of_nat i).
  unfold four, two, three. cbn [app]. cbn [date_time].
  rewrite bool_decide_true by done.
  change [48 + y / 100 / 10; 48 + y / 100 mod 10; 48 + y mod 100 / 10; 48 + y mod 100 mod 10] with (four y).
  repeat match goal with |- context [number_of [48 + ?n / 10; 48 + ?n mod 10]] =>
    change (number_of [48 + n / 10; 48 + n mod 10]) with (number_of (two n));
    rewrite (number_two n) by (unfold m, d, MS_PER_DAY in *; Z.to_euclidean_division_equations; lia) end.
  match goal with |- context [number_of [48 + ?n / 100; _; _]] =>
    change (number_of [48 + n / 100; 48 + n / 10 mod 10; 48 + n mod 10]) with (number_of (three n));
    rewrite (number_three n) by (Z.to_euclidean_division_equations; lia) end.
  rewrite number_four by lia. cbn [mbind option_bind].
  assert (Z.to_nat (m - 1) = i) as Em by (unfold m; lia). unfold days_before. rewrite Em.
  rewrite !(proj2 (Z.leb_le _ _)), !(proj2 (Z.ltb_lt _ _)) by (unfold m; try (apply Z.mod_pos_bound; done); lia).
  cbn [andb]. f_equal. unfold d in *. lia.
Qed.

Example iso_texts :
  toISOString 1700000000123 = js "2023-11-14T22:13:20.123Z" /\ toISOString 951782400000 = js "2000-02-29T00:00:00.000Z"
  /\ date_time (js "2023-02-29T00:00:00.000Z") = None.
Proof. split; [|split]; vm_compute; reflexivity. Qed.
