(* ===== verification/Bytes.v ===== *)
(** * Byte strings

    The byte helpers of src/mobile/utils/wallet-crypto.ts (the copies in
    src/extension/src/crypto/wallet.ts are the same code): hexadecimal, little
    endian integers, CompactSize, concatenation; their readers and the round
    trips. *)

From S2P Require Import Prelude JsText.
Local Open Scope Z_scope.

(** ** Hexadecimal *)

(** [s.padStart(n, c)] *)
Definition padStart (n : nat) (c : Z) (s : jsstr) : jsstr := replicate (n - length s) c ++ s.

Definition toHex (bytes : list Z) : jsstr :=
  concat (map (fun b => padStart 2 48 (to_string 16 b)) bytes).

(** The turns of the loop of [fromHex]; [out] has [floor(hex.length / 2)] cells
    and a store past its end is dropped, so an odd last digit is lost. *)
Fixpoint fromHex (hex : jsstr) : list Z :=
  match hex with
  | a :: b :: hex' => uint8 (default 0 (parseInt [a; b] 16)) :: fromHex hex'
  | _ => []
  end.

(** ** Little endian integers *)

Definition writeLE32 (n : Z) : list Z :=
  map uint8 [n &. 0xff; (n >>. 8) &. 0xff; (n >>. 16) &. 0xff; (n >>. 24) &. 0xff].

(** On [bigint] the operators are exact. *)
Fixpoint writeLE (k : nat) (v : Z) : list Z :=
  match k with
  | O => []
  | S k => Z.land v 0xff :: writeLE k (Z.shiftr v 8)
  end.

Definition writeLE64 (n : Z) : list Z := writeLE 8 n.

Definition writeVarInt (n : Z) : list Z :=
  map uint8
    (if n <? 0xfd then [n]
     else if n <=? 0xffff then [0xfd; n &. 0xff; (n >>. 8) &. 0xff]
     else [0xfe; n &. 0xff; (n >>. 8) &. 0xff; (n >>. 16) &. 0xff; (n >>. 24) &. 0xff]).

(** ** Concatenation *)

(** [out.set(a, off)], which fails when [a] does not fit. *)
Definition u8_set (out a : list Z) (off : nat) : option (list Z) :=
  if (off + length a <=? length out)%nat
  then Some (take off out ++ a ++ drop (off + length a) out) else None.

Fixpoint cat_loop (out : list Z) (off : nat) (arrs : list (list Z)) : option (list Z) :=
  match arrs with
  | [] => Some out
  | a :: arrs => out ← u8_set out a off; cat_loop out (off + length a) arrs
  end.

Definition cat (arrs : list (list Z)) : option (list Z) :=
  let total := sum_list (map length arrs) in
  cat_loop (replicate total 0) 0 arrs.

(** ** Reference readers *)

Fixpoint le_value (bs : list Z) : Z :=
  match bs with
  | [] => 0
  | b :: bs => b + 256 * le_value bs
  end.

(** A prefix of [n] bytes and what follows. *)
Definition read_n (n : nat) (bs : list Z) : option (list Z * list Z) :=
  if (n <=? length bs)%nat then Some (take n bs, drop n bs) else None.

Definition read_le (n : nat) (bs : list Z) : option (Z * list Z) :=
  '(v, rest) ← read_n n bs; Some (le_value v, rest).

(** CompactSize as the network reads it; a longer form than needed is refused. *)
Definition read_varint (bs : list Z) : option (Z * list Z) :=
  '(tag, rest) ← read_le 1 bs;
  let wide n least := '(v, rest) ← read_le n rest; if v <? least then None else Some (v, rest) in
  if tag <? 0xfd then Some (tag, rest)
  else if tag =? 0xfd then wide 2%nat 0xfd
  else if tag =? 0xfe then wide 4%nat 0x10000
  else wide 8%nat 0x100000000.

(** ** Lemmas *)

Lemma all_byte_pairs (f : Z -> bool) b :
  forallb f (seqZ 0 256) = true -> byte_ok b -> f b = true.
Proof. intros H Hb. rewrite forallb_forall in H. apply H, list_elem_of_In, elem_of_seqZ. unfold byte_ok in Hb. lia. Qed.

Lemma hex_byte b : byte_ok b ->
  exists x y, padStart 2 48 (to_string 16 b) = [x; y] /\ uint8 (default 0 (parseInt [x; y] 16)) = b.
Proof.
  intros Hb.
  pose (f b := match padStart 2 48 (to_string 16 b) with
               | [x; y] => uint8 (default 0 (parseInt [x; y] 16)) =? b
               | _ => false
               end).
  assert (f b = true) as Hf by (apply all_byte_pairs; [vm_compute; reflexivity|done]).
  unfold f in Hf. destruct (padStart 2 48 (to_string 16 b)) as [|x [|y [|]]]; try done.
  exists x, y. split; [done|]. by apply Z.eqb_eq.
Qed.

Lemma length_toHex bs : bytes_ok bs -> length (toHex bs) = (2 * length bs)%nat.
Proof.
  induction 1 as [|b bs Hb Hbs IH]; [done|]. unfold toHex in *. cbn [map concat].
  destruct (hex_byte b Hb) as (x & y & -> & _). rewrite length_app, IH. cbn [length]. lia.
Qed.

Lemma fromHex_toHex bs : bytes_ok bs -> fromHex (toHex bs) = bs.
Proof.
  induction 1 as [|b bs Hb Hbs IH]; [done|]. unfold toHex in *. cbn [map concat].
  destruct (hex_byte b Hb) as (x & y & -> & E). cbn [app fromHex]. by rewrite E, IH.
Qed.

Lemma fromHex_ok hex : bytes_ok (fromHex hex).
Proof.
  assert (forall n hex, (length hex <= n)%nat -> bytes_ok (fromHex hex)) as H; [|by eapply H].
  induction n as [|n IH]; intros [|a [|b h]] Hl; try by constructor; simpl in Hl; try lia.
  cbn [fromHex]. constructor; [apply uint8_ok|]. apply IH. simpl in Hl. lia.
Qed.

Lemma length_fromHex hex : length (fromHex hex) = (length hex / 2)%nat.
Proof.
  assert (forall n hex, (length hex <= n)%nat -> length (fromHex hex) = (length hex / 2)%nat) as H; [|by eapply H].
  induction n as [|n IH]; intros [|a [|b h]] Hl; try done; simpl in Hl; try lia.
  cbn [fromHex length]. rewrite IH by lia. replace (S (S (length h))) with (length h + 1 * 2)%nat by lia.
  rewrite Nat.div_add; lia.
Qed.

Lemma land_255 v : Z.land v 0xff = v mod 256.
Proof. apply (land_ones_mod v 8). lia. Qed.

Lemma writeLE_ok k v : bytes_ok (writeLE k v).
Proof.
  revert v. induction k as [|k IH]; intros v; [by constructor|]. cbn [writeLE].
  constructor; [|apply IH]. rewrite land_255. apply uint8_ok.
Qed.

Lemma length_writeLE k v : length (writeLE k v) = k.
Proof. revert v. induction k as [|k IH]; intros v; [done|]. simpl. by rewrite IH. Qed.

Lemma le_value_writeLE k v : le_value (writeLE k v) = v mod 256 ^ Z.of_nat k.
Proof.
  revert v. induction k as [|k IH]; intros v; [by rewrite Z.mod_1_r|]. cbn [writeLE le_value].
  rewrite IH, land_255, Z.shiftr_div_pow2, Nat2Z.inj_succ, Z.pow_succ_r by lia.
  change (2 ^ 8) with 256. assert (0 < 256 ^ Z.of_nat k) by (apply Z.pow_pos_nonneg; lia).
  rewrite Z.rem_mul_r by lia. done.
Qed.

(** The bytes of [writeLE32] are those of the exact writer: [ToInt32] keeps the
    low 32 bits. *)
Lemma int32_byte n s : 0 <= s <= 24 -> (n >>. s) &. 0xff = Z.land (Z.shiftr n s) 0xff.
Proof.
  intros Hs. unfold js_sar, js_and. rewrite (int32_small 0xff), (Z.mod_small s) by lia.
  assert (int32 (Z.shiftr (int32 n) s) = Z.shiftr (int32 n) s) as ->.
  { apply int32_small. pose proof (int32_range n). rewrite Z.shiftr_div_pow2 by lia.
    assert (0 < 2 ^ s) by (apply Z.pow_pos_nonneg; lia).
    split; [apply Z.div_le_lower_bound; nia|apply Z.div_lt_upper_bound; nia]. }
  change 0xff with (Z.ones 8). bitwise i.
  rewrite !Z.shiftr_spec by lia. destruct (Z.ltb_spec i 8).
  - rewrite (Z.ones_spec_low 8) by lia. rewrite !andb_true_r.
    rewrite <- (Z.mod_pow2_bits_low _ 32 (i + s)) by lia.
    rewrite <- (Z.mod_pow2_bits_low n 32 (i + s)) by lia. f_equal.
    unfold int32. rewrite Zminus_mod_idemp_l. f_equal. lia.
  - rewrite (Z.ones_spec_high 8) by lia. by rewrite !andb_false_r.
Qed.

Lemma int32_byte_0 n : n &. 0xff = Z.land n 0xff.
Proof.
  rewrite <- (Z.shiftr_0_r n) at 2. rewrite <- int32_byte by lia. unfold js_and, js_sar.
  f_equal. rewrite Z.mod_0_l, Z.shiftr_0_r by lia. symmetry. apply int32_small.
  apply int32_range.
Qed.

Lemma uint8_land v : uint8 (Z.land v 0xff) = Z.land v 0xff.
Proof. rewrite land_255. by apply Zmod_mod. Qed.

Lemma writeLE32_LE n : writeLE32 n = writeLE 4 n.
Proof.
  unfold writeLE32. cbn [map writeLE]. rewrite int32_byte_0, !int32_byte, !uint8_land by lia.
  by rewrite !Z.shiftr_shiftr by lia.
Qed.

Lemma read_n_app n v rest : length v = n -> read_n n (v ++ rest) = Some (v, rest).
Proof.
  intros <-. unfold read_n. rewrite length_app, (proj2 (Nat.leb_le _ _)) by lia.
  by rewrite take_app_length, drop_app_length.
Qed.

Lemma read_le_app n v rest : length v = n -> read_le n (v ++ rest) = Some (le_value v, rest).
Proof. intros H. unfold read_le. by rewrite (read_n_app n v rest H). Qed.

Lemma read_le_writeLE k v rest :
  0 <= v < 256 ^ Z.of_nat k -> read_le k (writeLE k v ++ rest) = Some (v, rest).
Proof. intros Hv. rewrite read_le_app, le_value_writeLE, Z.mod_small by (done || apply length_writeLE). done. Qed.

Lemma writeVarInt_shape n :
  0 <= n < 2 ^ 32 ->
  writeVarInt n = if n <? 0xfd then [n]
                  else if n <=? 0xffff then 0xfd :: writeLE 2 n else 0xfe :: writeLE 4 n.
Proof.
  intros Hn. unfold writeVarInt. zbool; cbn [map writeLE];
    rewrite ?int32_byte, ?int32_byte_0, ?uint8_land, ?Z.shiftr_shiftr by lia; try done.
  all: rewrite ?(uint8_small n) by (unfold byte_ok; lia); done.
Qed.

Lemma read_varint_write n rest :
  0 <= n < 2 ^ 32 -> read_varint (writeVarInt n ++ rest) = Some (n, rest).
Proof.
  intros Hn. rewrite writeVarInt_shape by done. unfold read_varint.
  destruct (Z.ltb_spec n 0xfd); [|destruct (Z.leb_spec n 0xffff)].
  - rewrite (read_le_app 1 [n]) by done. cbn [mbind option_bind le_value].
    rewrite (proj2 (Z.ltb_lt _ _)) by lia. do 2 f_equal. lia.
  - change ((0xfd :: writeLE 2 n) ++ rest) with ([0xfd] ++ writeLE 2 n ++ rest).
    rewrite (read_le_app 1) by done. cbn -[read_le writeLE Z.ltb].
    rewrite read_le_writeLE by (simpl; lia). cbn [mbind option_bind].
    rewrite (proj2 (Z.ltb_ge n 0xfd)) by lia. done.
  - change ((0xfe :: writeLE 4 n) ++ rest) with ([0xfe] ++ writeLE 4 n ++ rest).
    rewrite (read_le_app 1) by done. cbn -[read_le writeLE Z.ltb].
    rewrite read_le_writeLE by (simpl; lia). cbn [mbind option_bind].
    rewrite (proj2 (Z.ltb_ge n 0x10000)) by lia. done.
Qed.

Lemma writeVarInt_ok n : 0 <= n -> bytes_ok (writeVarInt n).
Proof. intros Hn. apply Forall_map, Forall_true. intros x. apply uint8_ok. Qed.

(** Concatenation never fails and gives the bytes in order. *)
Lemma cat_loop_spec arrs pre rest :
  length rest = sum_list (map length arrs) ->
  cat_loop (pre ++ rest) (length pre) arrs = Some (pre ++ concat arrs).
Proof.
  revert pre rest. induction arrs as [|a arrs IH]; intros pre rest Hl.
  - by destruct rest.
  - cbn [map sum_list fold_right] in Hl. cbn [cat_loop concat]. unfold u8_set. rewrite length_app.
    rewrite (proj2 (Nat.leb_le _ _)) by (simpl in Hl; lia). cbn [mbind option_bind].
    rewrite take_app_length, drop_app_add. rewrite app_assoc, <- length_app, IH.
    + by rewrite app_assoc.
    + rewrite length_drop. simpl in Hl. lia.
Qed.

Lemma cat_concat arrs : cat arrs = Some (concat arrs).
Proof. unfold cat. apply (cat_loop_spec arrs []). by rewrite length_replicate. Qed.
