(* ===== verification/ConvertBits.v ===== *)
(** * Regrouping of bits

    [convertBits] of src/mobile/utils/wallet-crypto.ts (and its copy in
    src/extension/src/crypto/wallet.ts): a stream of [from]-bit groups cut again
    into [to]-bit groups, over a 32-bit accumulator that overflows freely. The
    lemmas state it on the stream of bits. *)

From S2P Require Import Prelude.
Local Open Scope Z_scope.

(** [while (bits >= to) { bits -= to; out.push((acc >> bits) & maxv); }] *)
Fixpoint drain (fuel : nat) (acc bits to maxv : Z) (out : list Z) : Z * list Z :=
  match fuel with
  | O => (bits, out)
  | S fuel =>
      if to <=? bits
      then let bits := bits - to in drain fuel acc bits to maxv (out ++ [(acc >>. bits) &. maxv])
      else (bits, out)
  end.

Definition convert_step (from to maxv : Z) (st : Z * Z * list Z) (v : Z) : Z * Z * list Z :=
  let '(acc, bits, out) := st in
  let acc := (acc <<. from) |. v in
  let bits := bits + from in
  let '(bits, out) := drain (Z.to_nat bits) acc bits to maxv out in
  (acc, bits, out).

Definition convertBits (data : list Z) (from to : Z) (pad : bool) : list Z :=
  let maxv := (1 <<. to) - 1 in
  let '(acc, bits, out) := foldl (convert_step from to maxv) (0, 0, []) data in
  if pad && (0 <? bits) then out ++ [(acc <<. (to - bits)) &. maxv] else out.

(** ** Streams of bits *)

(** The low [w] bits of [v], the highest first. *)
Fixpoint bits_of (w : nat) (v : Z) : list bool :=
  match w with
  | O => []
  | S w => Z.testbit v (Z.of_nat w) :: bits_of w v
  end.

(** The stream of a list of [w]-bit groups. *)
Definition stream (w : nat) (vs : list Z) : list bool := concat (map (bits_of w) vs).

Lemma length_bits_of w v : length (bits_of w v) = w.
Proof. induction w; simpl; congruence. Qed.

Lemma length_stream w vs : length (stream w vs) = (w * length vs)%nat.
Proof.
  unfold stream. induction vs as [|v vs IH]; [simpl; lia|]. cbn [map concat length].
  rewrite length_app, length_bits_of, IH. lia.
Qed.

Lemma stream_app w a b : stream w (a ++ b) = stream w a ++ stream w b.
Proof. unfold stream. by rewrite map_app, concat_app. Qed.

Lemma stream_1 w v : stream w [v] = bits_of w v.
Proof. unfold stream. simpl. apply app_nil_r. Qed.

Lemma bits_of_ext w u v :
  (forall i, 0 <= i < Z.of_nat w -> Z.testbit u i = Z.testbit v i) -> bits_of w u = bits_of w v.
Proof.
  induction w as [|w IH]; intros H; [done|]. simpl. f_equal; [apply H; lia|].
  apply IH. intros i Hi. apply H. lia.
Qed.

Lemma bits_of_split a b v : bits_of (a + b) v = bits_of a (Z.shiftr v (Z.of_nat b)) ++ bits_of b v.
Proof.
  induction a as [|a IH]; [done|]. simpl. rewrite IH, Z.shiftr_spec by lia. do 2 f_equal. lia.
Qed.

Lemma bits_of_inj w u v :
  0 <= u < 2 ^ Z.of_nat w -> 0 <= v < 2 ^ Z.of_nat w -> bits_of w u = bits_of w v -> u = v.
Proof.
  intros Hu Hv E. assert (forall i, 0 <= i < Z.of_nat w -> Z.testbit u i = Z.testbit v i) as H.
  { clear Hu Hv. induction w as [|w IH]; intros i Hi; [lia|]. simpl in E. injection E as E1 E2.
    destruct (decide (i = Z.of_nat w)) as [->|]; [done|]. apply IH; [done|lia]. }
  apply Z.bits_inj'. intros i Hi. destruct (Z.ltb_spec i (Z.of_nat w)); [apply H; lia|].
  by rewrite !(testbit_high (Z.of_nat w)) by lia.
Qed.

Lemma stream_inj w us vs :
  Forall (fun v => 0 <= v < 2 ^ Z.of_nat w) us -> Forall (fun v => 0 <= v < 2 ^ Z.of_nat w) vs ->
  length us = length vs -> stream w us = stream w vs -> us = vs.
Proof.
  intros Hu. revert vs. induction Hu as [|u us Hu Hus IH]; intros [|v vs] Hv Hl E; try done.
  apply Forall_cons in Hv as [Hv Hvs]. unfold stream in *. cbn [map concat] in E.
  apply app_inj_1 in E as [E1 E2]; [|by rewrite !length_bits_of].
  f_equal; [by apply (bits_of_inj w)|]. apply IH; [done|by injection Hl|done].
Qed.

(** ** Bits of the 32-bit operators *)

Lemma int32_testbit a i : 0 <= i < 32 -> Z.testbit (int32 a) i = Z.testbit a i.
Proof.
  intros Hi. rewrite <- (Z.mod_pow2_bits_low _ 32 i), <- (Z.mod_pow2_bits_low a 32 i) by lia.
  f_equal. unfold int32. rewrite Zminus_mod_idemp_l. f_equal. lia.
Qed.

Lemma int32_idemp a : int32 (int32 a) = int32 a.
Proof. apply int32_small. pose proof (int32_range a). lia. Qed.

Lemma shl_testbit a n i :
  0 <= n < 32 -> 0 <= i < 32 -> Z.testbit (a <<. n) i = (n <=? i) && Z.testbit a (i - n).
Proof.
  intros Hn Hi. unfold js_shl. rewrite int32_testbit, Z.mod_small by lia.
  destruct (Z.leb_spec n i).
  - rewrite Z.shiftl_spec_high by lia. apply int32_testbit. lia.
  - by rewrite Z.shiftl_spec_low.
Qed.

Lemma or_testbit a b i : 0 <= i < 32 -> Z.testbit (a |. b) i = Z.testbit a i || Z.testbit b i.
Proof. intros Hi. unfold js_or. by rewrite Z.lor_spec, !int32_testbit by lia. Qed.

Lemma and_testbit a b i : 0 <= i < 32 -> Z.testbit (a &. b) i = Z.testbit a i && Z.testbit b i.
Proof. intros Hi. unfold js_and. by rewrite Z.land_spec, !int32_testbit by lia. Qed.

Lemma sar_testbit a n i : 0 <= n < 32 -> 0 <= i -> i + n < 32 -> Z.testbit (a >>. n) i = Z.testbit a (i + n).
Proof. intros. unfold js_sar. rewrite Z.mod_small, Z.shiftr_spec by lia. apply int32_testbit. lia. Qed.

Lemma mask_range a m : 0 <= m < 2 ^ 31 -> 0 <= a &. m <= m.
Proof.
  intros Hm. unfold js_and. rewrite (int32_small m) by lia. split.
  - apply Z.land_nonneg. lia.
  - rewrite Z.land_comm. destruct (Z.eq_dec m 0) as [->|]; [by rewrite Z.land_0_l|].
    apply Z.ldiff_le; [lia|]. bitwise i. rewrite Z.ldiff_spec, Z.land_spec, Z.bits_0.
    by destruct (Z.testbit m i), (Z.testbit _ i).
Qed.

(** ** The loop on streams *)

Section Regroup.
Context (from to : Z) (Hfrom : 1 <= from <= 8) (Hto : 1 <= to <= 8).

Let f := Z.to_nat from.
Let t := Z.to_nat to.
Let maxv := (1 <<. to) - 1.

Lemma maxv_ones : maxv = Z.ones to.
Proof.
  unfold maxv. rewrite js_shl_small, Z.ones_equiv; [lia|lia|lia|].
  assert (2 ^ to <= 2 ^ 8) by (apply Z.pow_le_mono_r; lia). lia.
Qed.

Lemma maxv_range : 0 <= maxv < 2 ^ to /\ maxv < 2 ^ 31.
Proof.
  rewrite maxv_ones, Z.ones_equiv. assert (0 < 2 ^ to) by (apply Z.pow_pos_nonneg; lia).
  assert (2 ^ to <= 2 ^ 8) by (apply Z.pow_le_mono_r; lia). lia.
Qed.

Definition group_ok (v : Z) : Prop := 0 <= v < 2 ^ to.

Lemma masked_ok a : group_ok (a &. maxv).
Proof. pose proof maxv_range. pose proof (mask_range a maxv). unfold group_ok. lia. Qed.

(** A group read off the accumulator. *)
Lemma group_bits a : bits_of t (a &. maxv) = bits_of t a.
Proof.
  unfold t. apply bits_of_ext. intros i Hi. rewrite and_testbit, maxv_ones, Z.ones_spec_low by lia.
  apply andb_true_r.
Qed.

Lemma drain_spec fuel acc bits out :
  0 <= bits <= 16 -> (Z.to_nat bits <= fuel)%nat -> Forall group_ok out ->
  exists bits' out', drain fuel acc bits to maxv out = (bits', out') /\ 0 <= bits' < to
    /\ Forall group_ok out'
    /\ stream t out' ++ bits_of (Z.to_nat bits') acc = stream t out ++ bits_of (Z.to_nat bits) acc.
Proof.
  revert bits out. induction fuel as [|fuel IH]; intros bits out Hb Hf Ho; cbn [drain].
  { exists bits, out. repeat split; try done; lia. }
  destruct (Z.leb_spec to bits); [|exists bits, out; repeat split; try done; lia].
  destruct (IH (bits - to) (out ++ [(acc >>. (bits - to)) &. maxv])) as (b' & o' & -> & Hb' & Ho' & E).
  - lia.
  - lia.
  - apply Forall_app. split; [done|]. constructor; [apply masked_ok|constructor].
  - exists b', o'. repeat split; try done; try lia. rewrite E, stream_app, stream_1, group_bits.
    rewrite <- app_assoc. f_equal. replace (Z.to_nat bits) with (t + Z.to_nat (bits - to))%nat by (unfold t; lia).
    rewrite bits_of_split. f_equal. apply bits_of_ext. intros i Hi. unfold t in Hi.
    rewrite sar_testbit, Z.shiftr_spec by lia. f_equal. lia.
Qed.

(** Shifting a group in puts its bits behind those that wait. *)
Lemma shift_in acc bits v :
  0 <= bits < 8 -> 0 <= v < 2 ^ from ->
  bits_of (Z.to_nat (bits + from)) ((acc <<. from) |. v)
  = bits_of (Z.to_nat bits) acc ++ bits_of f v.
Proof.
  intros Hb Hv. rewrite Z2Nat.inj_add by lia. fold f. rewrite bits_of_split. f_equal.
  - apply bits_of_ext. intros i Hi. unfold f. rewrite Z.shiftr_spec, or_testbit, shl_testbit by lia.
    rewrite (testbit_high from v) by lia. rewrite (proj2 (Z.leb_le _ _)), orb_false_r by lia.
    simpl. f_equal. lia.
  - apply bits_of_ext. intros i Hi. unfold f in Hi. rewrite or_testbit, shl_testbit by lia.
    by rewrite (proj2 (Z.leb_gt _ _)) by lia.
Qed.

Lemma convert_loop data acc bits out :
  0 <= bits < to -> Forall group_ok out -> Forall (fun v => 0 <= v < 2 ^ from) data ->
  exists acc' bits' out', foldl (convert_step from to maxv) (acc, bits, out) data = (acc', bits', out')
    /\ 0 <= bits' < to /\ Forall group_ok out'
    /\ stream t out' ++ bits_of (Z.to_nat bits') acc'
       = (stream t out ++ bits_of (Z.to_nat bits) acc) ++ stream f data.
Proof.
  revert acc bits out. induction data as [|v data IH]; intros acc bits out Hb Ho Hd.
  { exists acc, bits, out. repeat split; try done; try lia. by rewrite app_nil_r. }
  apply Forall_cons in Hd as [Hv Hd]. cbn [foldl]. unfold convert_step at 2.
  destruct (drain_spec (Z.to_nat (bits + from)) ((acc <<. from) |. v) (bits + from) out)
    as (b' & o' & -> & Hb' & Ho' & E); [lia|lia|done|].
  destruct (IH ((acc <<. from) |. v) b' o' Hb' Ho' Hd) as (a2 & b2 & o2 & -> & Hb2 & Ho2 & E2).
  exists a2, b2, o2. repeat split; try done; try lia.
  rewrite E2, E, shift_in by lia. unfold stream. cbn [map concat]. by rewrite <- !app_assoc.
Qed.

(** Without padding the last, incomplete group is dropped. *)
Lemma convertBits_floor data :
  Forall (fun v => 0 <= v < 2 ^ from) data ->
  Forall group_ok (convertBits data from to false)
  /\ exists tail, (length tail < t)%nat
     /\ stream t (convertBits data from to false) ++ tail = stream f data.
Proof.
  intros Hd. unfold convertBits. fold maxv.
  destruct (convert_loop data 0 0 []) as (a & b & o & -> & Hb & Ho & E); [lia|constructor|done|].
  cbn [andb]. split; [done|]. exists (bits_of (Z.to_nat b) a). rewrite length_bits_of. unfold t at 1.
  split; [lia|]. by rewrite E.
Qed.

(** With padding it is filled up with zeros. *)
Lemma convertBits_pad data :
  Forall (fun v => 0 <= v < 2 ^ from) data ->
  Forall group_ok (convertBits data from to true)
  /\ exists k, (k < t)%nat /\ stream t (convertBits data from to true) = stream f data ++ replicate k false.
Proof.
  intros Hd. unfold convertBits. fold maxv.
  destruct (convert_loop data 0 0 []) as (a & b & o & -> & Hb & Ho & E); [lia|constructor|done|].
  cbn [andb]. cbn [stream map concat app] in E. change (bits_of (Z.to_nat 0) 0) with (@nil bool) in E.
  cbn [app] in E. destruct (Z.ltb_spec 0 b).
  - split; [apply Forall_app; split; [done|]; constructor; [apply masked_ok|constructor]|].
    exists (Z.to_nat (to - b)). split; [unfold t; lia|]. rewrite stream_app, stream_1, group_bits, <- E.
    rewrite <- app_assoc. f_equal. replace t with (Z.to_nat b + Z.to_nat (to - b))%nat by (unfold t; lia).
    rewrite bits_of_split. f_equal.
    + apply bits_of_ext. intros i Hi. rewrite Z.shiftr_spec, shl_testbit by lia.
      rewrite (proj2 (Z.leb_le _ _)) by lia. simpl. f_equal. lia.
    + clear E. remember (Z.to_nat (to - b)) as k eqn:Hk.
      assert (forall j, (j <= k)%nat -> bits_of j (a <<. (to - b)) = replicate j false) as H'; [|by apply H'].
      induction j as [|j IH]; intros Hj; [done|]. cbn [bits_of replicate]. rewrite IH by lia.
      rewrite shl_testbit by lia. by rewrite (proj2 (Z.leb_gt _ _)) by lia.
  - split; [done|]. exists 0%nat. split; [unfold t; lia|]. rewrite app_nil_r, <- E.
    replace b with 0 by lia. by rewrite app_nil_r.
Qed.
End Regroup.

(** Bytes cut into 5-bit groups and back are the bytes. *)
Lemma convertBits_8_5_8 data :
  bytes_ok data -> convertBits (convertBits data 8 5 true) 5 8 false = data.
Proof.
  intros Hd. destruct (convertBits_pad 8 5 ltac:(lia) ltac:(lia) data Hd) as (Hw & k & Hk & Ek).
  destruct (convertBits_floor 5 8 ltac:(lia) ltac:(lia) _ Hw) as (Ho & tl & Ht & Et).
  change (Z.to_nat 5) with 5%nat in *. change (Z.to_nat 8) with 8%nat in *.
  rewrite Ek in Et. pose proof (f_equal length Et) as El.
  rewrite !length_app, !length_stream, length_replicate in El.
  assert (length (convertBits (convertBits data 8 5 true) 5 8 false) = length data) as Hl by lia.
  apply app_inj_1 in Et as [Et _]; [|rewrite !length_stream; lia].
  apply (stream_inj 8); done.
Qed.

Lemma convertBits_words data : bytes_ok data -> Forall (fun v => 0 <= v < 32) (convertBits data 8 5 true).
Proof. intros Hd. apply (convertBits_pad 8 5 ltac:(lia) ltac:(lia) data Hd). Qed.

(** The number of 5-bit groups. *)
Lemma length_convertBits_8_5 data :
  bytes_ok data ->
  exists k, (k < 5)%nat /\ (5 * length (convertBits data 8 5 true) = 8 * length data + k)%nat.
Proof.
  intros Hd. destruct (convertBits_pad 8 5 ltac:(lia) ltac:(lia) data Hd) as (_ & k & Hk & Ek).
  exists k. split; [done|]. apply (f_equal length) in Ek.
  rewrite length_app, !length_stream, length_replicate in Ek. done.
Qed.
