(* ===== verification/Bech32.v ===== *)
(** * Bech32 and Bech32m addresses

    [polymod], [hrpExpand], [bech32Encode], [bech32mEncode] and the address
    readers of src/mobile/utils/wallet-crypto.ts and
    src/extension/src/crypto/wallet.ts, against a decoder written from BIP-173
    and BIP-350. *)

From S2P Require Import Prelude JsText ConvertBits.
Local Open Scope Z_scope.

Definition CHARSET : jsstr := Eval vm_compute in js "qpzry9x8gf2tvdw0s3jn54khce6mua7l".
Definition GEN : list Z := [0x3b6a57b2; 0x26508e6d; 0x1ea119fa; 0x3d4233dd; 0x2a1462b3].
Definition BECH32M_CONST : Z := 0x2bc830a3.

(** The body of the loop over the values. *)
Definition polymod_step (chk v : Z) : Z :=
  let top := chk >>. 25 in
  let chk := ((chk &. 0x1ffffff) <<. 5) ^. v in
  foldl (fun chk i => if (top >>. Z.of_nat i) &. 1 =? 0 then chk else chk ^. (GEN !!! i))
    chk (seq 0 5).

Definition polymod (values : list Z) : Z := foldl polymod_step 1 values.

Definition hrpExpand (hrp : jsstr) : list Z :=
  map (fun u => u >>. 5) hrp ++ [0] ++ map (fun u => u &. 31) hrp.

(** [for (let i = 0; i < 6; i++) combined.push((pm >> (5 * (5 - i))) & 31)] *)
Definition checksum_words (pm : Z) : list Z :=
  map (fun i => (pm >>. (5 * (5 - Z.of_nat i))) &. 31) (seq 0 6).

(** [CHARSET[d]]; an index that is no character of it would print [undefined]. *)
Definition charset_at (d : Z) : jsstr :=
  if (0 <=? d) && (d <? 32) then [CHARSET !!! Z.to_nat d] else js "undefined".

(** [bech32Encode] is the case [const = 1], [bech32mEncode] the other. *)
Definition bech32_with (const : Z) (hrp : jsstr) (data : list Z) : jsstr :=
  let checkValues := hrpExpand hrp ++ data ++ [0; 0; 0; 0; 0; 0] in
  let pm := polymod checkValues ^. const in
  let combined := data ++ checksum_words pm in
  foldl (fun result d => result ++ charset_at d) (hrp ++ [49]) combined.

Definition bech32Encode (hrp : jsstr) (data : list Z) : jsstr := bech32_with 1 hrp data.
Definition bech32mEncode (hrp : jsstr) (data : list Z) : jsstr := bech32_with BECH32M_CONST hrp data.

(** ** Reading an address *)

Definition char_index (s : jsstr) (c : Z) : option nat := fst <$> list_find (fun x => x = c) s.

(** [s.lastIndexOf("1")] plus one: where the data part starts (0 when the
    separator is missing). *)
Fixpoint after_last_1 (s : jsstr) : nat :=
  match s with
  | [] => 0
  | u :: s' =>
      match after_last_1 s' with
      | O => if u =? 49 then 1 else 0
      | S n => S (S n)
      end
  end.

(** The characters between the separator and the checksum. *)
Definition data_part (address : jsstr) : jsstr :=
  drop (after_last_1 address) (take (length address - 6) address).

(** The loop that reads them; a character outside the set throws. *)
Fixpoint read_words (cs : jsstr) : option (list Z) :=
  match cs with
  | [] => Some []
  | c :: cs =>
      pos ← char_index CHARSET c;
      rest ← read_words cs;
      Some (Z.of_nat pos :: rest)
  end.

(** The version is [data[0]], [None] for [undefined]. *)
Definition addressToWitnessVersionAndProgram (address : jsstr) : option (option Z * list Z) :=
  data ← read_words (data_part address);
  let prog := convertBits (map uint8 (drop 1 data)) 5 8 false in
  Some (data !! 0%nat, map uint8 prog).

(** src/mobile: the witness version selects the opcode. *)
Definition addressToScript (address : jsstr) : option (list Z) :=
  '(version, program) ← addressToWitnessVersionAndProgram address;
  let versionByte := match version with
                     | Some v => if v =? 0 then 0 else 0x50 + v
                     | None => 0 (* 0x50 + undefined is NaN, stored as 0 *)
                     end in
  Some (map uint8 ([versionByte; Z.of_nat (length program)] ++ program)).

(** src/extension: the version is dropped. *)
Definition addressToWitnessProgram (address : jsstr) : option (list Z) :=
  data ← read_words (data_part address);
  Some (map uint8 (convertBits (map uint8 (drop 1 data)) 5 8 false)).

Definition ext_addressToScript (address : jsstr) : option (list Z) :=
  prog ← addressToWitnessProgram address;
  Some (map uint8 ([0; Z.of_nat (length prog)] ++ prog)).

(** ** Reference: BIP-173 and BIP-350 *)

Definition mix (top : Z) : Z :=
  let g i := if Z.testbit top (Z.of_nat i) then GEN !!! i else 0 in
  Z.lxor (g 0%nat) (Z.lxor (g 1%nat) (Z.lxor (g 2%nat) (Z.lxor (g 3%nat) (g 4%nat)))).

Definition pm_step (chk v : Z) : Z :=
  Z.lxor (Z.lxor (Z.shiftl (Z.land chk (Z.ones 25)) 5) v) (mix (Z.shiftr chk 25)).

Definition hrp_values (hrp : jsstr) : list Z :=
  map (fun u => u / 32) hrp ++ [0] ++ map (fun u => u mod 32) hrp.

(** Bits to bytes; fewer than five zero bits may be left over. *)
Fixpoint bytes_of_bits (bs : list bool) : option (list Z) :=
  match bs with
  | b7 :: b6 :: b5 :: b4 :: b3 :: b2 :: b1 :: b0 :: bs' =>
      let v := foldl (fun a (b : bool) => 2 * a + Z.b2z b) 0 [b7; b6; b5; b4; b3; b2; b1; b0] in
      (v ::.) <$> bytes_of_bits bs'
  | _ => if (length bs <? 5)%nat && forallb negb bs then Some [] else None
  end.

(** The witness version and program of an address with prefix [hrp]. *)
Definition segwit_decode (hrp address : jsstr) : option (Z * list Z) :=
  let sep := after_last_1 address in
  if negb (bool_decide (take sep address = hrp ++ [49])) || (90 <? length address)%nat then None else
  words ← read_words (drop sep address);
  let data := take (length words - 6) words in
  if (length words <? 7)%nat then None else
  match data with
  | [] => None
  | version :: rest =>
      program ← bytes_of_bits (stream 5 rest);
      let const := if version =? 0 then 1 else BECH32M_CONST in
      if (foldl pm_step 1 (hrp_values hrp ++ words) =? const)
         && (version <=? 16)
         && (2 <=? length program)%nat && (length program <=? 40)%nat
         && (negb (version =? 0) || (length program =? 20)%nat || (length program =? 32)%nat)
      then Some (version, program) else None
  end.

(** ** The checksum *)

Definition word_ok (v : Z) : Prop := 0 <= v < 32.
Definition chk_ok (c : Z) : Prop := 0 <= c < 2 ^ 30.

Lemma GEN_ok : Forall chk_ok GEN.
Proof. repeat constructor; done. Qed.

Lemma mix_ok t : chk_ok (mix t).
Proof.
  unfold mix. assert (forall i, chk_ok (if Z.testbit t (Z.of_nat i) then GEN !!! i else 0)) as H.
  { intros i. destruct (Z.testbit _ _); [|done]. do 5 (destruct i as [|i]; [done|]). done. }
  repeat apply (lxor_bound 30); (lia || apply H).
Qed.

Lemma shifted_ok c : chk_ok (Z.shiftl (Z.land c (Z.ones 25)) 5).
Proof.
  rewrite Z.land_ones, Z.shiftl_mul_pow2 by lia. unfold chk_ok.
  pose proof (Z.mod_pos_bound c (2 ^ 25)). lia.
Qed.

Lemma pm_step_ok c v : chk_ok v -> chk_ok (pm_step c v).
Proof.
  intros Hv. unfold pm_step.
  apply (lxor_bound 30); [lia| |apply mix_ok]. apply (lxor_bound 30); [lia|apply shifted_ok|done].
Qed.

Lemma pm_fold_ok c vs : chk_ok c -> Forall chk_ok vs -> chk_ok (foldl pm_step c vs).
Proof.
  intros Hc H. revert c Hc. induction H as [|v vs Hv Hvs IH]; intros c Hc; [done|].
  simpl. by apply IH, pm_step_ok.
Qed.

Lemma bit_test top i : 0 <= top < 32 -> 0 <= i < 5 -> ((top >>. i) &. 1 =? 0) = negb (Z.testbit top i).
Proof.
  intros Ht Hi. assert (0 <= Z.shiftr top i < 32) as Hs.
  { rewrite Z.shiftr_div_pow2 by lia. assert (0 < 2 ^ i) by (apply Z.pow_pos_nonneg; lia).
    split; [by apply Z.div_pos; lia|]. apply Z.div_lt_upper_bound; nia. }
  rewrite js_sar_small, js_and_small, (land_ones_mod _ 1) by lia. change (2 ^ 1) with 2.
  rewrite Zmod_odd, <- Z.bit0_odd, Z.shiftr_spec by lia. rewrite Z.add_0_l.
  by destruct (Z.testbit top i).
Qed.

Lemma xor_chk a b : chk_ok a -> chk_ok b -> a ^. b = Z.lxor a b /\ chk_ok (Z.lxor a b).
Proof.
  unfold chk_ok. intros. split; [apply js_xor_small; lia|]. by apply (lxor_bound 30).
Qed.

(** On 30-bit values the 32-bit operators compute the reference step. *)
Lemma polymod_step_ref chk v : chk_ok chk -> chk_ok v -> polymod_step chk v = pm_step chk v.
Proof.
  intros Hc Hv. unfold polymod_step.
  assert (0 <= Z.shiftr chk 25 < 32) as Ht.
  { unfold chk_ok in Hc. rewrite Z.shiftr_div_pow2 by lia.
    split; [apply Z.div_pos; lia|apply Z.div_lt_upper_bound; lia]. }
  unfold chk_ok in Hc. rewrite js_sar_small, js_and_small by lia. change 0x1ffffff with (Z.ones 25).
  rewrite js_shl_small; [|rewrite Z.land_ones by lia; apply Z.mod_pos_bound; lia|lia|].
  2:{ rewrite Z.land_ones by lia. pose proof (Z.mod_pos_bound chk (2 ^ 25)). lia. }
  rewrite <- Z.shiftl_mul_pow2 by lia.
  destruct (xor_chk _ v (shifted_ok chk) Hv) as [-> H0]. unfold pm_step.
  set (x := Z.lxor _ v) in *. set (top := Z.shiftr chk 25) in *. cbn [seq foldl].
  rewrite !bit_test by lia. unfold mix.
  assert (forall i y, chk_ok y ->
    (if negb (Z.testbit top (Z.of_nat i)) then y else y ^. (GEN !!! i))
    = Z.lxor y (if Z.testbit top (Z.of_nat i) then GEN !!! i else 0)
    /\ chk_ok (Z.lxor y (if Z.testbit top (Z.of_nat i) then GEN !!! i else 0))) as Hx.
  { intros i y Hy. destruct (Z.testbit top (Z.of_nat i)); cbn [negb]; [|by rewrite Z.lxor_0_r].
    apply xor_chk; [done|]. do 5 (destruct i as [|i]; [done|]). done. }
  destruct (Hx 0%nat x H0) as [-> H1]. destruct (Hx 1%nat _ H1) as [-> H2].
  destruct (Hx 2%nat _ H2) as [-> H3]. destruct (Hx 3%nat _ H3) as [-> H4].
  destruct (Hx 4%nat _ H4) as [-> _]. by rewrite !Z.lxor_assoc.
Qed.

Lemma polymod_ref c vs : chk_ok c -> Forall chk_ok vs -> foldl polymod_step c vs = foldl pm_step c vs.
Proof.
  intros Hc H. revert c Hc. induction H as [|v vs Hv Hvs IH]; intros c Hc; [done|].
  simpl. rewrite polymod_step_ref by done. by apply IH, pm_step_ok.
Qed.

(** The step is linear over exclusive or. *)
Lemma lxor_if (b1 b2 : bool) g :
  (if xorb b1 b2 then g else 0) = Z.lxor (if b1 then g else 0) (if b2 then g else 0).
Proof. destruct b1, b2; simpl; rewrite ?Z.lxor_nilpotent, ?Z.lxor_0_r, ?Z.lxor_0_l; done. Qed.

Lemma lxor_interchange a b c d :
  Z.lxor (Z.lxor a b) (Z.lxor c d) = Z.lxor (Z.lxor a c) (Z.lxor b d).
Proof. bitwise i. destruct (Z.testbit a i), (Z.testbit b i), (Z.testbit c i), (Z.testbit d i); done. Qed.

Lemma mix_lxor a b : mix (Z.lxor a b) = Z.lxor (mix a) (mix b).
Proof.
  unfold mix. rewrite !Z.lxor_spec, !lxor_if.
  by rewrite (lxor_interchange (if Z.testbit a (Z.of_nat 3) then _ else _)),
    (lxor_interchange (if Z.testbit a (Z.of_nat 2) then _ else _)),
    (lxor_interchange (if Z.testbit a (Z.of_nat 1) then _ else _)),
    (lxor_interchange (if Z.testbit a (Z.of_nat 0) then _ else _)).
Qed.

Lemma pm_step_lxor a b v w :
  pm_step (Z.lxor a b) (Z.lxor v w) = Z.lxor (pm_step a v) (pm_step b w).
Proof.
  unfold pm_step. rewrite Z.shiftr_lxor, mix_lxor.
  assert (Z.shiftl (Z.land (Z.lxor a b) (Z.ones 25)) 5
          = Z.lxor (Z.shiftl (Z.land a (Z.ones 25)) 5) (Z.shiftl (Z.land b (Z.ones 25)) 5)) as ->.
  { rewrite <- Z.shiftl_lxor. f_equal. bitwise i.
    by destruct (Z.testbit a i), (Z.testbit b i), (Z.testbit (Z.ones 25) i). }
  by rewrite (lxor_interchange _ _ v w), (lxor_interchange (Z.lxor _ v)).
Qed.

Lemma pm_fold_lxor a b vs ws :
  length vs = length ws ->
  foldl pm_step (Z.lxor a b) (zip_with Z.lxor vs ws) = Z.lxor (foldl pm_step a vs) (foldl pm_step b ws).
Proof.
  revert a b ws. induction vs as [|v vs IH]; intros a b [|w ws] Hl; try done.
  simpl. rewrite pm_step_lxor. apply IH. by injection Hl.
Qed.

(** Values below [2 ^ 25] only move up by one group. *)
Lemma pm_step_small c v : 0 <= c < 2 ^ 25 -> word_ok v -> pm_step c v = 32 * c + v.
Proof.
  intros Hc Hv. unfold pm_step, word_ok in *. rewrite Z.land_ones, Z.mod_small by lia.
  rewrite Z.shiftr_div_pow2, Z.div_small by lia. change (mix 0) with 0. rewrite Z.lxor_0_r.
  assert (Z.land (Z.shiftl c 5) v = 0) as Hdis.
  { bitwise i. rewrite Z.bits_0. destruct (Z.ltb_spec i 5).
    - by rewrite Z.shiftl_spec_low.
    - rewrite (testbit_high 5 v) by lia. apply andb_false_r. }
  rewrite <- Z.add_nocarry_lxor by done. rewrite Z.shiftl_mul_pow2; lia.
Qed.

Lemma checksum_word pm k : chk_ok pm -> 0 <= k <= 5 ->
  (pm >>. (5 * (5 - k))) &. 31 = (pm / 32 ^ (5 - k)) mod 32.
Proof.
  intros Hp Hk. unfold chk_ok in Hp.
  assert (0 <= Z.shiftr pm (5 * (5 - k)) < 2 ^ 30) as Hs.
  { rewrite Z.shiftr_div_pow2 by lia. assert (0 < 2 ^ (5 * (5 - k))) by (apply Z.pow_pos_nonneg; lia).
    split; [apply Z.div_pos; lia|]. apply Z.div_lt_upper_bound; nia. }
  rewrite js_sar_small, js_and_small, (land_ones_mod _ 5), Z.shiftr_div_pow2 by lia.
  by rewrite (Z.pow_mul_r 2 5) by lia.
Qed.

Lemma checksum_words_ok pm : chk_ok pm -> Forall word_ok (checksum_words pm).
Proof.
  intros Hp. apply Forall_map, Forall_forall. intros i Hi%elem_of_seq. rewrite checksum_word by (done || lia).
  apply Z.mod_pos_bound. lia.
Qed.

(** The six groups of the checksum are read back as the checksum. *)
Lemma pm_checksum_words pm : chk_ok pm -> foldl pm_step 0 (checksum_words pm) = pm.
Proof.
  intros Hp. unfold checksum_words. cbn [seq map foldl].
  rewrite !checksum_word by (done || lia). unfold chk_ok in Hp.
  repeat match goal with
  | |- context [32 ^ ?e] => let v := eval vm_compute in (32 ^ e) in change (32 ^ e) with v
  end.
  repeat match goal with
  | |- context [pm_step ?c ?v] =>
      lazymatch c with
      | context [pm_step] => fail
      | _ => rewrite (pm_step_small c v);
             [|Z.to_euclidean_division_equations; lia|apply Z.mod_pos_bound; lia]
      end
  end.
  Z.to_euclidean_division_equations; lia.
Qed.

Lemma words_chk vs : Forall word_ok vs -> Forall chk_ok vs.
Proof. intros H. eapply Forall_impl; [done|]. unfold word_ok, chk_ok. intros; lia. Qed.

Lemma zip_zeros vs : zip_with Z.lxor (replicate (length vs) 0) vs = vs.
Proof. induction vs as [|v vs IH]; simpl; [done|]. by rewrite IH, Z.lxor_0_l. Qed.

(** Appending the checksum makes the whole word evaluate to the constant. *)
Lemma checksum_valid const vs :
  chk_ok const -> Forall chk_ok vs ->
  foldl pm_step 1 (vs ++ checksum_words (polymod (vs ++ [0; 0; 0; 0; 0; 0]) ^. const)) = const.
Proof.
  intros Hc Hv. unfold polymod. rewrite polymod_ref; [|done|apply Forall_app; split; [done|repeat constructor; done]].
  assert (chk_ok (foldl pm_step 1 (vs ++ [0; 0; 0; 0; 0; 0]))) as Hp.
  { apply pm_fold_ok; [done|]. apply Forall_app. split; [done|repeat constructor; done]. }
  destruct (xor_chk _ const Hp Hc) as [-> Hx]. rewrite !foldl_app in *.
  set (c := foldl pm_step 1 vs) in *. set (p := Z.lxor _ const) in *.
  rewrite <- (zip_zeros (checksum_words p)), <- (Z.lxor_0_r c), pm_fold_lxor by by rewrite length_replicate.
  rewrite pm_checksum_words by done. change (replicate (length (checksum_words p)) 0) with [0; 0; 0; 0; 0; 0].
  unfold p. rewrite <- Z.lxor_assoc. by rewrite Z.lxor_nilpotent, Z.lxor_0_l.
Qed.

(** ** Strings of the encoder *)

Definition word_char (v : Z) : Z := CHARSET !!! Z.to_nat v.

Lemma word_char_facts v : word_ok v ->
  charset_at v = [word_char v] /\ char_index CHARSET (word_char v) = Some (Z.to_nat v) /\ word_char v <> 49.
Proof.
  intros Hv.
  pose (f v := bool_decide (charset_at v = [word_char v])
    && bool_decide (char_index CHARSET (word_char v) = Some (Z.to_nat v)) && negb (word_char v =? 49)).
  assert (f v = true) as Hf.
  { assert (forallb f (seqZ 0 32) = true) as H by (vm_compute; reflexivity).
    rewrite forallb_forall in H. apply H, list_elem_of_In, elem_of_seqZ. unfold word_ok in Hv. lia. }
  unfold f in Hf. rewrite !andb_true_iff, !bool_decide_eq_true, negb_true_iff, Z.eqb_neq in Hf. tauto.
Qed.

Lemma bech32_string const hrp data :
  Forall word_ok data -> chk_ok const -> Forall chk_ok (hrpExpand hrp) ->
  exists pm, chk_ok pm /\ pm = polymod ((hrpExpand hrp ++ data) ++ [0; 0; 0; 0; 0; 0]) ^. const
    /\ bech32_with const hrp data = hrp ++ [49] ++ map word_char (data ++ checksum_words pm).
Proof.
  intros Hd Hc Hh. unfold bech32_with. rewrite (app_assoc (hrpExpand hrp)).
  set (pm := polymod _ ^. const). exists pm.
  assert (chk_ok pm) as Hp.
  { assert (Forall chk_ok ((hrpExpand hrp ++ data) ++ [0; 0; 0; 0; 0; 0])) as Hv.
    { rewrite !Forall_app. split_and_all; [done|by apply words_chk|repeat constructor; done]. }
    unfold pm, polymod. rewrite polymod_ref by done.
    assert (chk_ok (foldl pm_step 1 ((hrpExpand hrp ++ data) ++ [0; 0; 0; 0; 0; 0]))) by by apply pm_fold_ok.
    by destruct (xor_chk _ const ltac:(done) Hc) as [-> ?]. }
  split; [done|]. split; [done|].
  assert (Forall word_ok (data ++ checksum_words pm)) as Hw
    by (apply Forall_app; split; [done|by apply checksum_words_ok]).
  rewrite app_assoc. generalize (hrp ++ [49]). revert Hw. generalize (data ++ checksum_words pm).
  induction 1 as [|v vs Hv Hvs IH]; intros acc; simpl; [by rewrite app_nil_r|].
  rewrite IH. destruct (word_char_facts v Hv) as [-> _]. by rewrite <- app_assoc.
Qed.

Lemma after_last_none s : Forall (fun c => c <> 49) s -> after_last_1 s = 0%nat.
Proof. induction 1 as [|c s Hc Hs IH]; [done|]. simpl. rewrite IH. by destruct (Z.eqb_spec c 49). Qed.

Lemma after_last_sep hrp s :
  Forall (fun c => c <> 49) s -> after_last_1 (hrp ++ [49] ++ s) = S (length hrp).
Proof.
  intros H. induction hrp as [|u hrp IH]; simpl; [by rewrite after_last_none|].
  simpl in IH. by rewrite IH.
Qed.

Lemma word_chars_no_sep vs : Forall word_ok vs -> Forall (fun c => c <> 49) (map word_char vs).
Proof.
  intros H. apply Forall_map. eapply Forall_impl; [done|]. intros v Hv. by apply word_char_facts.
Qed.

Lemma read_words_chars vs : Forall word_ok vs -> read_words (map word_char vs) = Some vs.
Proof.
  induction 1 as [|v vs Hv Hvs IH]; [done|]. simpl.
  destruct (word_char_facts v Hv) as (_ & -> & _). rewrite IH. simpl.
  unfold word_ok in Hv. by rewrite Z2Nat.id by lia.
Qed.

Lemma length_checksum pm : length (checksum_words pm) = 6%nat.
Proof. done. Qed.

(** The data part of an encoded address. *)
Lemma data_part_encoded hrp data check :
  Forall word_ok data -> Forall word_ok check -> length check = 6%nat ->
  data_part (hrp ++ [49] ++ map word_char (data ++ check)) = map word_char data.
Proof.
  intros Hd Hk H6. unfold data_part.
  rewrite after_last_sep by (apply word_chars_no_sep, Forall_app; done).
  rewrite map_app, app_assoc, app_assoc, !length_app, !length_map.
  rewrite take_app_length' by (rewrite !length_app, !length_map; simpl; lia).
  rewrite drop_app_length' by (rewrite length_app; simpl; lia). done.
Qed.

Lemma uint8_words vs : Forall word_ok vs -> map uint8 vs = vs.
Proof.
  induction 1 as [|v vs Hv Hvs IH]; [done|]. simpl. rewrite IH. unfold word_ok in Hv.
  by rewrite uint8_small by (unfold byte_ok; lia).
Qed.

Lemma uint8_bytes bs : bytes_ok bs -> map uint8 bs = bs.
Proof. induction 1 as [|b bs Hb Hbs IH]; [done|]. simpl. by rewrite IH, uint8_small. Qed.

(** ** Bits read by the reference decoder *)

Lemma byte_bits b : byte_ok b ->
  exists b7 b6 b5 b4 b3 b2 b1 b0, bits_of 8 b = [b7; b6; b5; b4; b3; b2; b1; b0]
  /\ foldl (fun a (b : bool) => 2 * a + Z.b2z b) 0 [b7; b6; b5; b4; b3; b2; b1; b0] = b.
Proof.
  intros Hb. do 8 eexists. split; [reflexivity|].
  pose (f b := foldl (fun a (b : bool) => 2 * a + Z.b2z b) 0 (bits_of 8 b) =? b).
  assert (f b = true) as Hf.
  { assert (forallb f (seqZ 0 256) = true) as H by (vm_compute; reflexivity).
    rewrite forallb_forall in H. apply H, list_elem_of_In, elem_of_seqZ. unfold byte_ok in Hb. lia. }
  by apply Z.eqb_eq in Hf.
Qed.

Lemma bytes_of_bits_stream bs k :
  bytes_ok bs -> (k < 5)%nat -> bytes_of_bits (stream 8 bs ++ replicate k false) = Some bs.
Proof.
  intros Hb Hk. induction Hb as [|b bs Hb Hbs IH].
  - do 5 (destruct k as [|k]; [done|]). lia.
  - destruct (byte_bits b Hb) as (b7 & b6 & b5 & b4 & b3 & b2 & b1 & b0 & E & Ev).
    unfold stream. cbn [map concat]. rewrite E. cbn [app bytes_of_bits]. fold (stream 8 bs).
    rewrite IH. cbn [fmap option_fmap option_map]. by rewrite Ev.
Qed.

(** ** Encoded addresses are read back *)

Section Encoded.
Context (const : Z) (hrp : jsstr) (version : Z) (program : list Z).
Context (Hconst : chk_ok const) (Hversion : word_ok version) (Hprogram : bytes_ok program).
Context (Hhrp : Forall (fun u => 0 <= u < 128) hrp).

Let words := version :: convertBits program 8 5 true.
Let address := bech32_with const hrp words.

Lemma words_ok : Forall word_ok words.
Proof. constructor; [done|]. by apply convertBits_words. Qed.

Lemma hrpExpand_values : hrpExpand hrp = hrp_values hrp.
Proof.
  unfold hrpExpand, hrp_values. f_equal; [|f_equal]; apply map_ext_Forall;
    eapply Forall_impl; [apply Hhrp| |apply Hhrp|]; cbn beta; intros u Hu.
  - rewrite js_sar_small, Z.shiftr_div_pow2 by lia. done.
  - rewrite js_and_small, (land_ones_mod _ 5) by lia. done.
Qed.

Lemma hrpExpand_ok : Forall chk_ok (hrpExpand hrp).
Proof.
  rewrite hrpExpand_values. unfold hrp_values. rewrite !Forall_app, !Forall_map. unfold chk_ok.
  split_and_all; [|repeat constructor; lia|]; eapply Forall_impl; [apply Hhrp| |apply Hhrp|];
    cbn beta; intros u Hu; Z.to_euclidean_division_equations; lia.
Qed.

(** The address, with the words of its checksum. *)
Lemma address_string : exists check,
  Forall word_ok check /\ length check = 6%nat
  /\ foldl pm_step 1 (hrp_values hrp ++ words ++ check) = const
  /\ address = hrp ++ [49] ++ map word_char (words ++ check).
Proof.
  destruct (bech32_string const hrp words words_ok Hconst hrpExpand_ok) as (pm & Hp & E & Es).
  exists (checksum_words pm). split; [by apply checksum_words_ok|]. split; [done|]. split; [|done].
  rewrite app_assoc, <- hrpExpand_values, E. apply checksum_valid; [done|].
  apply Forall_app. split; [apply hrpExpand_ok|apply words_chk, words_ok].
Qed.

Lemma address_words : read_words (data_part address) = Some words.
Proof.
  destruct address_string as (check & Hk & H6 & _ & ->).
  rewrite data_part_encoded; [|apply words_ok|done|done]. apply read_words_chars, words_ok.
Qed.

Lemma address_program : convertBits (map uint8 (drop 1 words)) 5 8 false = program.
Proof.
  unfold words. cbn [drop]. rewrite uint8_words by by apply convertBits_words.
  by apply convertBits_8_5_8.
Qed.

Lemma addressToScript_encoded :
  (length program < 256)%nat ->
  addressToScript address
  = Some ([if version =? 0 then 0 else 0x50 + version; Z.of_nat (length program)] ++ program).
Proof.
  intros Hl. unfold addressToScript, addressToWitnessVersionAndProgram. rewrite address_words.
  cbn [mbind option_bind]. rewrite address_program, (uint8_bytes program Hprogram).
  unfold words at 1. cbn [lookup list_lookup]. f_equal. apply uint8_bytes.
  constructor; [|constructor; [unfold byte_ok; lia|done]]. unfold word_ok, byte_ok in *. zbool; lia.
Qed.

Lemma ext_addressToScript_encoded :
  (length program < 256)%nat ->
  ext_addressToScript address = Some ([0; Z.of_nat (length program)] ++ program).
Proof.
  intros Hl. unfold ext_addressToScript, addressToWitnessProgram. rewrite address_words.
  cbn [mbind option_bind]. rewrite address_program, (uint8_bytes program Hprogram).
  f_equal. apply uint8_bytes. constructor; [done|constructor; [unfold byte_ok; lia|done]].
Qed.

Lemma segwit_decode_encoded :
  version <= 16 -> const = (if version =? 0 then 1 else BECH32M_CONST) ->
  (2 <= length program <= 40)%nat -> (version = 0 -> length program = 20%nat \/ length program = 32%nat) ->
  (length hrp + 8 + length (convertBits program 8 5 true) <= 90)%nat ->
  segwit_decode hrp address = Some (version, program).
Proof.
  intros Hv Hc Hl H0 Hlen. destruct address_string as (check & Hk & H6 & Hpm & ->).
  assert (Forall word_ok (words ++ check)) as Hw by (apply Forall_app; split; [apply words_ok|done]).
  unfold segwit_decode. rewrite after_last_sep by by apply word_chars_no_sep.
  rewrite app_assoc, take_app_length', drop_app_length' by (rewrite length_app; simpl; lia).
  rewrite bool_decide_eq_true_2 by done. cbn [negb orb].
  rewrite (proj2 (Nat.ltb_ge _ _)) by (rewrite !length_app, length_map, length_app; unfold words; simpl; lia).
  rewrite read_words_chars by done. cbn [mbind option_bind].
  rewrite take_app_length' by (rewrite length_app; lia).
  rewrite (proj2 (Nat.ltb_ge _ _)) by (rewrite length_app; unfold words; simpl; lia).
  unfold words at 1. destruct (convertBits_pad 8 5 ltac:(lia) ltac:(lia) program Hprogram) as (_ & k & Hk5 & Es).
  change (Z.to_nat 5) with 5%nat in *. change (Z.to_nat 8) with 8%nat in *. rewrite Es.
  rewrite bytes_of_bits_stream by done. cbn [mbind option_bind]. rewrite Hpm, Hc, Z.eqb_refl.
  rewrite (proj2 (Z.leb_le _ _) Hv), !(proj2 (Nat.leb_le _ _)) by lia. cbn [andb].
  destruct (Z.eqb_spec version 0) as [Hz|]; cbn [negb orb]; [|done].
  destruct (H0 Hz) as [-> | ->]; done.
Qed.
End Encoded.

(** ** What the checksum detects *)

(** [x^k * e]: an error [e] followed by [k] correct words. *)
Definition propagate (k : nat) (e : Z) : Z := foldl pm_step e (replicate k 0).

Lemma mix_low_nonzero : forallb (fun t => negb (mix t mod 32 =? 0)) (seqZ 1 31) = true.
Proof. vm_compute. reflexivity. Qed.

(** The step has no kernel, so a nonzero difference never dies out. *)
Lemma pm_step_kernel c : chk_ok c -> pm_step c 0 = 0 -> c = 0.
Proof.
  intros Hc H. unfold chk_ok in Hc. unfold pm_step in H. rewrite Z.lxor_0_r, Z.land_ones in H by lia.
  apply Z.lxor_eq in H. rewrite Z.shiftl_mul_pow2, Z.shiftr_div_pow2 in H by lia.
  assert (0 <= c / 2 ^ 25 < 32) as Ht by (Z.to_euclidean_division_equations; lia).
  assert (mix (c / 2 ^ 25) mod 32 = 0) as Hm by (rewrite <- H; change (2 ^ 5) with 32; apply Z_mod_mult).
  assert (c / 2 ^ 25 = 0) as Hz.
  { destruct (Z.eq_dec (c / 2 ^ 25) 0) as [|Hne]; [done|]. exfalso.
    pose proof mix_low_nonzero as Hall. rewrite forallb_forall in Hall.
    specialize (Hall (c / 2 ^ 25)). rewrite Hm in Hall.
    assert (In (c / 2 ^ 25) (seqZ 1 31)) as Hin by (apply list_elem_of_In, elem_of_seqZ; lia).
    by apply Hall in Hin. }
  rewrite Hz in H. change (mix 0) with 0 in H. Z.to_euclidean_division_equations; lia.
Qed.

Lemma propagate_ok k e : chk_ok e -> chk_ok (propagate k e).
Proof. intros He. apply pm_fold_ok; [done|]. apply Forall_replicate. done. Qed.

Lemma propagate_S k e : propagate (S k) e = propagate k (pm_step e 0).
Proof. done. Qed.

Lemma propagate_nonzero k e : chk_ok e -> e <> 0 -> propagate k e <> 0.
Proof.
  revert e. induction k as [|k IH]; intros e He Hne; [done|]. rewrite propagate_S.
  apply IH; [by apply pm_step_ok|]. intros E. by apply Hne, pm_step_kernel.
Qed.

Lemma propagate_lxor k a b : propagate k (Z.lxor a b) = Z.lxor (propagate k a) (propagate k b).
Proof.
  unfold propagate. rewrite <- (pm_fold_lxor a b (replicate k 0) (replicate k 0)) by done.
  f_equal. induction k as [|k IH]; [done|]. simpl. by rewrite <- IH.
Qed.

(** Within an address a single error never turns into another single error. *)
Lemma propagate_far :
  forallb (fun e => forallb (fun k => 32 <=? propagate k e) (seq 1 88)) (seqZ 1 31) = true.
Proof. vm_compute. reflexivity. Qed.

(** An error pattern: [e1] then, [k1] words later, [e2], then [k2] words. *)
Definition two_errors (before k1 k2 : nat) (e1 e2 : Z) : list Z :=
  replicate before 0 ++ [e1] ++ replicate k1 0 ++ [e2] ++ replicate k2 0.

Lemma pm_zeros n : foldl pm_step 0 (replicate n 0) = 0.
Proof. by induction n. Qed.

Lemma two_errors_detected before k1 k2 e1 e2 :
  1 <= e1 < 32 -> word_ok e2 -> (k1 < 88)%nat ->
  foldl pm_step 0 (two_errors before k1 k2 e1 e2) <> 0.
Proof.
  intros H1 H2 Hk. unfold two_errors, word_ok in *. rewrite !foldl_app, pm_zeros. cbn [foldl].
  rewrite (pm_step_small 0 e1) by (unfold word_ok; lia). rewrite Z.mul_0_r, Z.add_0_l.
  fold (propagate k1 e1). fold (propagate k2 (pm_step (propagate k1 e1) e2)).
  assert (chk_ok (propagate k1 e1)) as Hp by (apply propagate_ok; unfold chk_ok; lia).
  apply propagate_nonzero; [apply pm_step_ok; unfold chk_ok; lia|].
  rewrite <- (Z.lxor_0_r (propagate k1 e1)), <- (Z.lxor_0_l e2), pm_step_lxor.
  rewrite (pm_step_small 0 e2), Z.mul_0_r, Z.add_0_l by (unfold word_ok; lia).
  intros E%Z.lxor_eq.
  assert (pm_step (propagate k1 e1) 0 = propagate (S k1) e1) as Hs.
  { unfold propagate. by rewrite replicate_S_end, foldl_app. }
  pose proof propagate_far as Hfar. rewrite forallb_forall in Hfar.
  assert (In e1 (seqZ 1 31)) as Hin by (apply list_elem_of_In, elem_of_seqZ; lia).
  apply Hfar in Hin. rewrite forallb_forall in Hin.
  assert (In (S k1) (seq 1 88)) as Hin' by (apply in_seq; lia). apply Hin, Z.leb_le in Hin'. lia.
Qed.

(** The polynomial of the checksum separates words: two words of an address
    (89 groups at most) that differ in one or two groups never have the same
    residue, so an address with one or two wrong characters is not valid. *)
Theorem polymod_two_errors (vs : list Z) (before k1 k2 : nat) (e1 e2 : Z) :
  Forall word_ok vs -> length vs = (before + (1 + (k1 + (1 + k2))))%nat -> (k1 < 88)%nat ->
  1 <= e1 < 32 -> word_ok e2 ->
  polymod (zip_with Z.lxor vs (two_errors before k1 k2 e1 e2)) <> polymod vs.
Proof.
  intros Hv Hl Hk H1 H2. unfold polymod. rewrite (polymod_ref 1 vs) by (done || by apply words_chk).
  assert (length (two_errors before k1 k2 e1 e2) = length vs) as Hl'.
  { rewrite Hl. unfold two_errors. rewrite !length_app, !length_replicate. done. }
  assert (Forall word_ok (two_errors before k1 k2 e1 e2)) as He.
  { unfold two_errors. rewrite !Forall_app.
    split_and_all; try (apply Forall_replicate; done); repeat constructor; unfold word_ok in *; lia. }
  rewrite polymod_ref; [|done|].
  - pose proof (pm_fold_lxor 1 0 vs (two_errors before k1 k2 e1 e2)) as L. rewrite Z.lxor_0_r in L.
    rewrite L by done. intros E. apply (two_errors_detected before k1 k2 e1 e2); [done..|].
    set (a := foldl pm_step 1 vs) in *. set (d := foldl pm_step 0 _) in *.
    rewrite <- (Z.lxor_0_l d), <- (Z.lxor_nilpotent a). by rewrite Z.lxor_assoc, E.
  - apply words_chk. clear Hl Hl'. generalize dependent (two_errors before k1 k2 e1 e2). intros ws He.
    revert ws He. induction Hv as [|v vs Hv Hvs IH]; intros [|w ws] He; try by constructor.
    apply Forall_cons in He as [Hw He]. simpl. constructor; [by apply (lxor_bound 5)|by apply IH].
Qed.

Lemma polymod_two_errors_witness :
  polymod (zip_with Z.lxor [3; 3; 3; 0; 7; 18; 4; 0; 2; 5] (two_errors 4 3 1 9 4)) <> polymod [3; 3; 3; 0; 7; 18; 4; 0; 2; 5].
Proof. apply polymod_two_errors; [repeat constructor; unfold word_ok; lia|done|lia|lia|unfold word_ok; lia]. Defined.

(** ** The wallet's reader does not look at the checksum *)

Lemma data_part_tail pre t :
  length t = 6%nat -> Forall (fun c => c <> 49) t ->
  data_part (pre ++ t) = drop (after_last_1 pre) pre.
Proof.
  intros Hl Ht. unfold data_part. rewrite length_app, Hl, take_app_length' by lia. f_equal.
  induction pre as [|u pre IH]; simpl; [by apply after_last_none|]. by rewrite IH.
Qed.
