(* ===== verification/Mnemonic.v ===== *)
(** * Seed phrases

    [WORDLIST], [generateMnemonic] and [validateMnemonic] of
    src/mobile/utils/wallet-crypto.ts and src/extension/src/crypto/wallet.ts, and
    the phrases the two [deriveKey] and the two [deriveQuantumKey] hash. *)

From S2P Require Import Prelude JsText.
Local Open Scope Z_scope.

Local Open Scope string_scope.
Definition word_strings : list String.string := ([
  "abandon"; "ability"; "able"; "about"; "above"; "absent"; "absorb"; "abstract";
  "absurd"; "abuse"; "access"; "accident"; "account"; "accuse"; "achieve"; "acid";
  "acoustic"; "acquire"; "across"; "act"; "action"; "actor"; "actress"; "actual";
  "adapt"; "add"; "addict"; "address"; "adjust"; "admit"; "adult"; "advance";
  "advice"; "aerobic"; "affair"; "afford"; "afraid"; "again"; "age"; "agent";
  "agree"; "ahead"; "aim"; "air"; "airport"; "aisle"; "alarm"; "album";
  "alcohol"; "alert"; "alien"; "all"; "alley"; "allow"; "almost"; "alone";
  "alpha"; "already"; "also"; "alter"; "always"; "amateur"; "amazing"; "among";
  "amount"; "amused"; "analyst"; "anchor"; "ancient"; "anger"; "angle"; "angry";
  "animal"; "ankle"; "announce"; "annual"; "another"; "answer"; "antenna"; "antique";
  "anxiety"; "any"; "apart"; "apology"; "appear"; "apple"; "approve"; "april";
  "arch"; "arctic"; "area"; "arena"; "argue"; "arm"; "armed"; "armor";
  "army"; "around"; "arrange"; "arrest"; "arrive"; "arrow"; "art"; "artefact";
  "artist"; "artwork"; "ask"; "aspect"; "assault"; "asset"; "assist"; "assume";
  "asthma"; "athlete"; "atom"; "attack"; "attend"; "attitude"; "attract"; "auction";
  "audit"; "august"; "aunt"; "author"; "auto"; "autumn"; "average"; "avocado";
  "avoid"; "awake"; "aware"; "awesome"; "awful"; "awkward"; "axis"; "baby";
  "bachelor"; "bacon"; "badge"; "bag"; "balance"; "balcony"; "ball"; "bamboo";
  "banana"; "banner"; "bar"; "barely"; "bargain"; "barrel"; "base"; "basic";
  "basket"; "battle"; "beach"; "bean"; "beauty"; "because"; "become"; "beef";
  "before"; "begin"; "behave"; "behind"; "believe"; "below"; "belt"; "bench";
  "benefit"; "best"; "betray"; "better"; "between"; "beyond"; "bicycle"; "bid";
  "bike"; "bind"; "biology"; "bird"; "birth"; "bitter"; "black"; "blade";
  "blame"; "blanket"; "blast"; "bleak"; "bless"; "blind"; "blood"; "blossom";
  "blow"; "blue"; "blur"; "blush"; "board"; "boat"; "body"; "boil";
  "bomb"; "bone"; "bonus"; "book"; "boost"; "border"; "boring"; "borrow";
  "boss"; "bottom"; "bounce"; "box"; "boy"; "bracket"; "brain"; "brand";
  "brass"; "brave"; "bread"; "breeze"; "brick"; "bridge"; "brief"; "bright";
  "bring"; "brisk"; "broccoli"; "broken"; "bronze"; "broom"; "brother"; "brown";
  "brush"; "bubble"; "buddy"; "budget"; "buffalo"; "build"; "bulb"; "bulk";
  "bullet"; "bundle"; "bunny"; "burden"; "burger"; "burst"; "bus"; "business";
  "busy"; "butter"; "buyer"; "buzz"; "cabbage"; "cabin"; "cable"; "cactus"
]).

Local Close Scope string_scope.

Definition WORDLIST : list jsstr := Eval vm_compute in map js word_strings.

(** [ws.join(" ")] *)
Fixpoint join_sp (ws : list jsstr) : jsstr :=
  match ws with
  | [] => []
  | [w] => w
  | w :: ws => w ++ [32] ++ join_sp ws
  end.

(** [entropy] is what [crypto.getRandomValues] (or the fallback loop) left in
    the array. *)
Definition generateMnemonic (entropy : list Z) : jsstr :=
  join_sp (map (fun b => WORDLIST !!! Z.to_nat (b mod 256)) entropy).

(** src/extension indexes with the byte itself. *)
Definition ext_generateMnemonic (entropy : list Z) : jsstr :=
  join_sp (map (fun b => WORDLIST !!! Z.to_nat b) entropy).

(** [toLowerCase] where it can give an ASCII letter: the capitals and U+212A.
    The lower case of any other character holds a character outside ASCII and no
    white space, and the character stands for it here. *)
Definition lower_unit (u : Z) : Z :=
  if (65 <=? u) && (u <=? 90) then u + 32 else if u =? 0x212A then 107 else u.

Definition toLowerCase (s : jsstr) : jsstr := map lower_unit s.

(** [s.split(/\s+/)]; [skip] is set inside a run of white space. *)
Fixpoint split_ws (skip : bool) (cur : jsstr) (s : jsstr) : list jsstr :=
  match s with
  | [] => [cur]
  | u :: s =>
      if js_ws u then (if skip then split_ws true [] s else cur :: split_ws true [] s)
      else split_ws false (cur ++ [u]) s
  end.

Definition validateMnemonic (mnemonic : jsstr) : bool :=
  let words := split_ws false [] (toLowerCase (trim mnemonic)) in
  if negb (length words =? 24)%nat then false
  else forallb (fun w => bool_decide (w ∈ WORDLIST)) words.

(** The phrase [deriveKey] hashes for an account, and the one
    [deriveQuantumKey] hashes. *)
Definition phrase (mnemonic : jsstr) (accountIndex : Z) : jsstr :=
  if accountIndex =? 0 then mnemonic else mnemonic ++ [124] ++ to_string 10 accountIndex.

Definition pq_phrase (mnemonic : jsstr) (accountIndex : Z) : jsstr :=
  if accountIndex =? 0 then mnemonic ++ js "|pq"
  else mnemonic ++ js "|pq|" ++ to_string 10 accountIndex.

(** ** Words *)

Definition letter (u : Z) : Prop := 97 <= u <= 122.

Lemma wordlist_facts :
  length WORDLIST = 256%nat
  /\ forallb (fun w => match w with [] => false | _ => forallb (fun u => (97 <=? u) && (u <=? 122)) w end) WORDLIST = true
  /\ NoDup WORDLIST.
Proof. split; [reflexivity|]. split; [vm_compute; reflexivity|]. apply (bool_decide_unpack _). vm_compute. done. Qed.

Lemma word_letters w : w ∈ WORDLIST -> w <> [] /\ Forall letter w.
Proof.
  intros Hw. destruct wordlist_facts as (_ & H & _). rewrite forallb_forall in H.
  specialize (H w (proj1 (list_elem_of_In _ _) Hw)). destruct w as [|u w]; [done|]. split; [done|].
  apply Forall_forall. intros x Hx. rewrite forallb_forall in H.
  specialize (H x (proj1 (list_elem_of_In _ _) Hx)). unfold letter. lia.
Qed.

Lemma letter_ws u : letter u -> js_ws u = false.
Proof. unfold letter, js_ws. intros H. repeat (rewrite orb_false_iff || rewrite andb_false_iff || rewrite Z.eqb_neq || rewrite Z.leb_gt). lia. Qed.

Lemma letter_lower u : letter u -> lower_unit u = u.
Proof. unfold letter, lower_unit. intros H. zbool; simpl; lia. Qed.

Lemma WORDLIST_at b : (b < 256)%nat -> WORDLIST !!! b ∈ WORDLIST.
Proof.
  intros Hb. apply list_elem_of_lookup_total_2. by destruct wordlist_facts as [-> _].
Qed.

(** ** Phrases of words *)

Definition is_word (w : jsstr) : Prop := w <> [] /\ Forall letter w.

Lemma split_word skip w s : is_word w -> split_ws skip [] (w ++ s) = split_ws false w s.
Proof.
  intros [Hne Hw].
  assert (forall cur, split_ws false cur (w ++ s) = split_ws false (cur ++ w) s) as H.
  { clear Hne. induction Hw as [|u w Hu Hw IH]; intros cur; [by rewrite app_nil_r|].
    simpl. rewrite letter_ws by done. by rewrite IH, <- app_assoc. }
  destruct w as [|u w]; [done|]. destruct skip; [|by rewrite H].
  apply Forall_cons in Hw as [Hu Hw]. specialize (H []). simpl in *. rewrite letter_ws in * by done. done.
Qed.

Lemma split_join ws skip : ws <> [] -> Forall is_word ws -> split_ws skip [] (join_sp ws) = ws.
Proof.
  intros Hne Hw. revert skip Hne. induction Hw as [|w ws Hw Hws IH]; intros skip Hne; [done|].
  destruct ws as [|w' ws].
  - simpl. rewrite <- (app_nil_r w), split_word by done. by rewrite app_nil_r.
  - change (join_sp (w :: w' :: ws)) with (w ++ [32] ++ join_sp (w' :: ws)). rewrite split_word by done.
    cbn [app split_ws]. change (js_ws 32) with true. cbn iota. by rewrite IH.
Qed.

Lemma join_units ws : Forall is_word ws -> Forall (fun u => letter u \/ u = 32) (join_sp ws).
Proof.
  intros H. induction H as [|w ws [_ Hw] Hws IH]; [constructor|].
  assert (Forall (fun u => letter u \/ u = 32) w) by (eapply Forall_impl; [done|]; tauto).
  destruct ws as [|w' ws]; [done|].
  change (join_sp (w :: w' :: ws)) with (w ++ [32] ++ join_sp (w' :: ws)).
  rewrite !Forall_app. split_and_all; [done|repeat constructor; by right|done].
Qed.

Lemma join_head ws : ws <> [] -> Forall is_word ws -> exists u t, join_sp ws = u :: t /\ letter u.
Proof.
  intros Hne H. destruct H as [|w ws [Hw Hl] Hws]; [done|]. destruct w as [|u w]; [done|].
  apply Forall_cons in Hl as [Hu _]. destruct ws; simpl; eauto.
Qed.

Lemma join_last ws : ws <> [] -> Forall is_word ws -> exists t u, join_sp ws = t ++ [u] /\ letter u.
Proof.
  intros Hne H. induction H as [|w ws [Hw Hl] Hws IH]; [done|]. destruct ws as [|w' ws].
  - destruct w as [|u w _] using rev_ind; [done|]. apply Forall_app in Hl as [_ Hu%Forall_inv].
    simpl. eauto.
  - destruct IH as (t & u & E & Hu); [done|].
    change (join_sp (w :: w' :: ws)) with (w ++ [32] ++ join_sp (w' :: ws)).
    exists (w ++ [32] ++ t), u. split; [|done]. by rewrite E, <- !app_assoc.
Qed.

Lemma trim_join ws : ws <> [] -> Forall is_word ws -> trim (join_sp ws) = join_sp ws.
Proof.
  intros Hne H. unfold trim. destruct (join_head ws Hne H) as (u & t & E & Hu).
  assert (trim_start (join_sp ws) = join_sp ws) as ->.
  { rewrite E. simpl. by rewrite letter_ws. }
  destruct (join_last ws Hne H) as (t' & v & E' & Hv). rewrite E', reverse_app. simpl.
  rewrite letter_ws by done. by rewrite reverse_cons, reverse_involutive.
Qed.

Lemma lower_join ws : Forall is_word ws -> toLowerCase (join_sp ws) = join_sp ws.
Proof.
  intros H. apply join_units in H. unfold toLowerCase. induction H as [|u s Hu Hs IH]; [done|].
  simpl. rewrite IH. f_equal. destruct Hu as [Hu| ->]; [by apply letter_lower|done].
Qed.

Lemma wordlist_is_word w : w ∈ WORDLIST -> is_word w.
Proof. apply word_letters. Qed.

Lemma validate_join ws :
  length ws = 24%nat -> Forall (fun w => w ∈ WORDLIST) ws -> validateMnemonic (join_sp ws) = true.
Proof.
  intros Hl Hw. assert (ws <> []) by by destruct ws.
  assert (Forall is_word ws) by (eapply Forall_impl; [done|]; apply wordlist_is_word).
  unfold validateMnemonic. rewrite trim_join, lower_join, split_join by done.
  rewrite Hl. cbn. apply forallb_forall. intros w Hin%list_elem_of_In.
  apply bool_decide_eq_true. by eapply Forall_forall in Hw.
Qed.

Lemma entropy_words entropy :
  Forall (fun w => w ∈ WORDLIST) (map (fun b => WORDLIST !!! Z.to_nat (b mod 256)) entropy).
Proof.
  apply Forall_map, Forall_true. intros b. apply WORDLIST_at.
  pose proof (Z.mod_pos_bound b 256). lia.
Qed.

(** A generated phrase passes validation, whatever 24 bytes the generator
    drew. *)
Theorem generateMnemonic_valid (entropy : list Z) :
  length entropy = 24%nat -> validateMnemonic (generateMnemonic entropy) = true.
Proof. intros Hl. apply validate_join; [by rewrite length_map|apply entropy_words]. Qed.

Lemma generateMnemonic_valid_witness :
  validateMnemonic (generateMnemonic (seqZ 200 24)) = true.
Proof. apply generateMnemonic_valid. vm_compute. reflexivity. Defined.

Lemma WORDLIST_inj i j : (i < 256)%nat -> (j < 256)%nat -> WORDLIST !!! i = WORDLIST !!! j -> i = j.
Proof.
  intros Hi Hj E. destruct wordlist_facts as (Hl & _ & Hn). rewrite NoDup_alt in Hn.
  apply (Hn i j (WORDLIST !!! i)); [|rewrite E]; apply list_lookup_lookup_total_lt; lia.
Qed.

Lemma generate_inj e1 e2 :
  e1 <> [] -> e2 <> [] -> bytes_ok e1 -> bytes_ok e2 -> generateMnemonic e1 = generateMnemonic e2 -> e1 = e2.
Proof.
  intros N1 N2 H1 H2 E. unfold generateMnemonic in E. apply (f_equal (split_ws false [])) in E.
  assert (forall e, Forall is_word (map (fun b => WORDLIST !!! Z.to_nat (b mod 256)) e)) as Hw.
  { intros e. eapply Forall_impl; [apply entropy_words|]. apply wordlist_is_word. }
  rewrite !split_join in E by (try apply Hw; by destruct e1, e2). clear N1 N2 Hw.
  revert e2 H2 E. induction H1 as [|a e1 Ha H1 IH]; intros [|b e2] H2 E; try done.
  apply Forall_cons in H2 as [Hb H2]. simpl in E. injection E as E1 E2.
  unfold byte_ok in *. rewrite !Z.mod_small in E1 by lia. apply WORDLIST_inj in E1; [|lia|lia].
  f_equal; [lia|by apply IH].
Qed.

(** ** The phrases that are hashed *)

Lemma trim_start_keep u s : js_ws u = false -> u ∈ s -> u ∈ trim_start s.
Proof.
  intros Hu. induction s as [|v s IH]; [done|]. cbn [trim_start]. intros Hin.
  destruct (js_ws v) eqn:Ev; [|done]. apply IH. apply elem_of_cons in Hin as [-> |]; [congruence|done].
Qed.

Lemma trim_keep u s : js_ws u = false -> u ∈ s -> u ∈ trim s.
Proof.
  intros Hu Hin. unfold trim. apply elem_of_reverse, trim_start_keep, elem_of_reverse, trim_start_keep; done.
Qed.

Lemma split_keep u skip cur s :
  js_ws u = false -> (skip = true -> cur = []) -> u ∈ cur \/ u ∈ s ->
  exists w, w ∈ split_ws skip cur s /\ u ∈ w.
Proof.
  intros Hu. revert skip cur. induction s as [|v s IH]; intros skip cur Hc Hin; cbn [split_ws].
  { destruct Hin as [Hin|Hin]; [|by apply elem_of_nil in Hin]. exists cur. split; [left|done]. }
  rewrite elem_of_cons in Hin. destruct (js_ws v) eqn:Ev.
  - assert (u <> v) by congruence. destruct skip.
    + rewrite (Hc eq_refl) in Hin. apply IH; [done|]. right. destruct Hin as [[]%elem_of_nil|[|]]; done.
    + destruct Hin as [Hin|[Hin|Hin]]; [exists cur; split; [left|done]|done|].
      destruct (IH true [] ltac:(done) (or_intror Hin)) as (w & Hw & Huw). exists w. split; [by right|done].
  - apply IH; [done|]. rewrite elem_of_app, list_elem_of_singleton. tauto.
Qed.

(** A phrase that passes validation holds no separator. *)
Lemma validate_no_bar m : validateMnemonic m = true -> 124 ∉ m.
Proof.
  intros Hv Hin. unfold validateMnemonic in Hv. destruct (negb _); [done|].
  assert (124 ∈ toLowerCase (trim m)) as Hl.
  { apply list_elem_of_fmap. exists 124. split; [done|by apply trim_keep]. }
  destruct (split_keep 124 false [] _ eq_refl ltac:(done) (or_intror Hl)) as (w & Hw & Hb).
  rewrite forallb_forall in Hv. specialize (Hv w (proj1 (list_elem_of_In _ _) Hw)).
  apply bool_decide_eq_true in Hv. apply word_letters in Hv as [_ Hv].
  eapply Forall_forall in Hv; [|exact Hb]. unfold letter in Hv. lia.
Qed.

(** Which key, and of which account, a phrase is for. *)
Definition derive_phrase (quantum : bool) (m : jsstr) (i : Z) : jsstr :=
  if quantum then pq_phrase m i else phrase m i.

Definition phrase_tail (quantum : bool) (i : Z) : jsstr :=
  if quantum then (if i =? 0 then js "|pq" else js "|pq|" ++ to_string 10 i)
  else (if i =? 0 then [] else [124] ++ to_string 10 i).

Lemma derive_phrase_tail q m i : derive_phrase q m i = m ++ phrase_tail q i.
Proof. unfold derive_phrase, pq_phrase, phrase, phrase_tail. destruct q, (i =? 0); rewrite ?app_nil_r; done. Qed.

Lemma phrase_tail_head q i : phrase_tail q i = [] \/ exists t, phrase_tail q i = 124 :: t.
Proof. unfold phrase_tail. destruct q, (i =? 0); simpl; eauto. Qed.

Lemma bar_split m1 m2 t1 t2 :
  124 ∉ m1 -> 124 ∉ m2 -> (t1 = [] \/ exists t, t1 = 124 :: t) -> (t2 = [] \/ exists t, t2 = 124 :: t) ->
  m1 ++ t1 = m2 ++ t2 -> m1 = m2 /\ t1 = t2.
Proof.
  revert m2. induction m1 as [|a m1 IH]; intros [|b m2] H1 H2 T1 T2 E; simpl in E.
  - done.
  - destruct T1 as [-> |[t ->]]; [done|]. injection E as E _. subst. destruct H2. left.
  - destruct T2 as [-> |[t ->]]; [done|]. injection E as E _. subst. destruct H1. left.
  - injection E as -> E. rewrite not_elem_of_cons in H1, H2.
    destruct (IH m2) as [-> ->]; tauto.
Qed.

Lemma digits_not_p i : 0 <= i -> match to_string 10 i with u :: _ => u <> 112 | [] => False end.
Proof.
  intros Hi. pose proof (to_string_10 i Hi) as H. pose proof (to_string_nonempty 10 i ltac:(lia)) as Hn.
  destruct (to_string 10 i) as [|u s]; [done|]. apply Forall_cons in H as [H _]. lia.
Qed.

Lemma phrase_tail_inj q1 q2 i1 i2 :
  0 <= i1 -> 0 <= i2 -> phrase_tail q1 i1 = phrase_tail q2 i2 -> q1 = q2 /\ i1 = i2.
Proof.
  intros H1 H2. pose proof (digits_not_p i1 H1) as P1. pose proof (digits_not_p i2 H2) as P2.
  pose proof (to_string_inj 10 i1 i2 ltac:(lia) H1 H2) as Hinj. unfold phrase_tail.
  destruct q1, q2, (Z.eqb_spec i1 0), (Z.eqb_spec i2 0); subst; try done; simpl; intros E;
    try (injection E as E); subst; try done; try (split; [done|by apply Hinj]); try congruence.
  all: try (rewrite E in P1; done); try (rewrite <- E in P1; done);
       try (rewrite E in P2; done); try (rewrite <- E in P2; done).
Qed.

(** Distinct keys are derived from distinct phrases: for phrases that pass
    validation, the kind of key, the phrase and the account index can be read
    back from what is hashed, so no two accounts share a preimage. *)
Theorem phrase_separation (q1 q2 : bool) (m1 m2 : jsstr) (i1 i2 : Z) :
  validateMnemonic m1 = true -> validateMnemonic m2 = true -> 0 <= i1 -> 0 <= i2 ->
  derive_phrase q1 m1 i1 = derive_phrase q2 m2 i2 -> q1 = q2 /\ m1 = m2 /\ i1 = i2.
Proof.
  intros V1 V2 H1 H2 E. rewrite !derive_phrase_tail in E.
  apply bar_split in E as [Em Et]; try apply phrase_tail_head; try by apply validate_no_bar.
  apply phrase_tail_inj in Et as [-> ->]; done.
Qed.

Lemma phrase_separation_witness :
  derive_phrase true (generateMnemonic (seqZ 0 24)) 1 = derive_phrase true (generateMnemonic (seqZ 0 24)) 1
  /\ (true = true /\ generateMnemonic (seqZ 0 24) = generateMnemonic (seqZ 0 24) /\ 1 = 1).
Proof.
  split; [reflexivity|].
  apply (phrase_separation true true); [vm_compute; reflexivity..|lia|lia|reflexivity].
Defined.

(** Validation accepts phrases that derive another key: [validateMnemonic]
    lowers the case, [deriveKey] hashes the text as it was typed. *)
Theorem validate_ignores_case :
  let m := generateMnemonic (seqZ 0 24) in
  let typed := map (fun u => if (97 <=? u) && (u <=? 122) then u - 32 else u) m in
  validateMnemonic typed = true /\ phrase typed 0 <> phrase m 0.
Proof. vm_compute. split; [reflexivity|discriminate]. Qed.
