(* ===== verification/Quiz.v ===== *)
(** * The recovery phrase quiz

    src/mobile/app/verifikasi-frasa.tsx and [VerifyPhrase] of
    src/extension/src/popup/pages/CreateWallet.tsx, which share their logic: six
    of the 24 words are hidden, and each has to be picked among three. The result
    of [sort] with a random comparison is some reordering, a parameter. *)

From stdpp Require Import gmap sorting.
From S2P Require Import Prelude JsText Mnemonic.
Local Open Scope nat_scope.

(** [all.sort(...)], then the first six in increasing order. *)
Definition pickQuizIndices (shuffle : list nat -> list nat) : list nat :=
  merge_sort (≤) (take 6 (shuffle (seq 0 24))).

(** [allWords.filter(w => w !== correctWord)]; an index out of range reads
    [undefined]. *)
Definition pool (correctWord : option jsstr) (allWords : list jsstr) : list (option jsstr) :=
  List.filter (fun w => negb (bool_decide (w = correctWord))) (map Some allWords).

Definition getChoices (shuffle1 shuffle2 : list (option jsstr) -> list (option jsstr))
    (correctWord : option jsstr) (allWords : list jsstr) : list (option jsstr) :=
  let wrong := take 2 (shuffle1 (pool correctWord allWords)) in
  shuffle2 (correctWord :: wrong).

Record quiz := {
  answers : gmap nat jsstr;
  wrongFlash : option jsstr;
  showSuccess : bool
}.

Definition quiz_start : quiz := {| answers := ∅; wrongFlash := None; showSuccess := false |}.

Section Quiz.
Context (words : list jsstr) (quizIndices : list nat).

Definition activeQuizIndex (a : gmap nat jsstr) : option nat :=
  List.find (fun i => bool_decide (a !! i = None)) quizIndices.

(** [quizIndices.every(idx => a[idx] !== undefined)] *)
Definition allAnswered (a : gmap nat jsstr) : bool :=
  forallb (fun i => negb (bool_decide (a !! i = None))) quizIndices.

Definition currentChoices (sh1 sh2 : list (option jsstr) -> list (option jsstr)) (q : quiz) : list (option jsstr) :=
  match activeQuizIndex (answers q), words with
  | Some i, _ :: _ => getChoices sh1 sh2 (words !! i) words
  | _, _ => []
  end.

(** [{ ...answers, [i]: word }] as it reads back. *)
Definition set_answer (i : nat) (word : option jsstr) (a : gmap nat jsstr) : gmap nat jsstr :=
  match word with Some w => <[i := w]> a | None => delete i a end.

Definition handleChoice (word : option jsstr) (q : quiz) : quiz :=
  match activeQuizIndex (answers q) with
  | None => q
  | Some i =>
      if bool_decide (word = words !! i) then
        let newAnswers := set_answer i word (answers q) in
        {| answers := newAnswers; wrongFlash := wrongFlash q; showSuccess := showSuccess q || allAnswered newAnswers |}
      else {| answers := answers q; wrongFlash := word; showSuccess := showSuccess q |}
  end.

(** The callback of the 600 ms timeout. *)
Definition clear_flash (q : quiz) : quiz :=
  {| answers := answers q; wrongFlash := None; showSuccess := showSuccess q |}.

(** ** What the quiz guarantees *)

(** Answers are words of the phrase at their place, and success is shown exactly
    when every hidden word has been found. *)
Definition quiz_ok (q : quiz) : Prop :=
  (forall i w, answers q !! i = Some w -> i ∈ quizIndices /\ words !! i = Some w)
  /\ showSuccess q = allAnswered (answers q).

Lemma active_spec a :
  match activeQuizIndex a with
  | Some i => i ∈ quizIndices /\ a !! i = None
  | None => forall i, i ∈ quizIndices -> is_Some (a !! i)
  end.
Proof.
  unfold activeQuizIndex. induction quizIndices as [|j l IH]; cbn [List.find]; [by intros i []%elem_of_nil|].
  case_bool_decide as Hj; [by split; [left|]|].
  destruct (List.find _ l) as [i|]; [destruct IH; split; [by right|done]|].
  intros i [->|Hi]%elem_of_cons; [by destruct (a !! j) eqn:E; [|destruct Hj]|by apply IH].
Qed.

Lemma allAnswered_spec a : allAnswered a = true <-> forall i, i ∈ quizIndices -> is_Some (a !! i).
Proof.
  unfold allAnswered. rewrite forallb_forall. split; intros H i Hi.
  - apply list_elem_of_In in Hi. specialize (H i Hi). case_bool_decide as E; [done|]. by destruct (a !! i).
  - apply list_elem_of_In in Hi. destruct (H i Hi) as [w E]. by rewrite bool_decide_eq_false_2 by by rewrite E.
Qed.

Lemma allAnswered_false a i : i ∈ quizIndices -> a !! i = None -> allAnswered a = false.
Proof.
  intros Hi Hn. apply not_true_iff_false. rewrite allAnswered_spec. intros H. destruct (H i Hi). congruence.
Qed.

Lemma quiz_start_ok : quizIndices <> [] -> quiz_ok quiz_start.
Proof.
  intros Hne. split; [intros i w; cbn; by rewrite lookup_empty|]. symmetry.
  assert (exists i, i ∈ quizIndices) as [i Hi] by (destruct quizIndices as [|i l]; [done|exists i; left]).
  by apply (allAnswered_false _ i).
Qed.

Lemma handleChoice_ok word q : quiz_ok q -> quiz_ok (handleChoice word q).
Proof.
  intros [H1 H2]. unfold handleChoice. pose proof (active_spec (answers q)) as Ha.
  destruct (activeQuizIndex (answers q)) as [i|]; [|done]. destruct Ha as [Hi Hn].
  case_bool_decide as Hw; [|done]. subst word. split.
  - cbn [answers]. intros j w. unfold set_answer. destruct (words !! i) as [v|] eqn:Ev.
    + destruct (decide (i = j)) as [<-|Hne]; [|rewrite lookup_insert_ne by done; apply H1].
      rewrite lookup_insert_eq. intros [= <-]. done.
    + destruct (decide (i = j)) as [<-|Hne]; [by rewrite lookup_delete_eq|rewrite lookup_delete_ne by done; apply H1].
  - cbn [showSuccess answers]. by rewrite H2, (allAnswered_false _ i Hi Hn).
Qed.

Lemma choices_ok cs q : quiz_ok q -> quiz_ok (foldl (fun q w => handleChoice w q) q cs).
Proof. revert q. induction cs as [|c cs IH]; intros q Hq; [done|]. by apply IH, handleChoice_ok. Qed.

(** ** Progress *)

Definition unanswered (a : gmap nat jsstr) (l : list nat) : nat :=
  length (List.filter (fun i => bool_decide (a !! i = None)) l).

Lemma unanswered_insert i w a l : NoDup l -> i ∈ l -> a !! i = None ->
  unanswered a l = S (unanswered (<[i := w]> a) l).
Proof.
  intros Hnd Hi Hn. unfold unanswered. induction Hnd as [|j l Hj Hnd IH]; [by apply elem_of_nil in Hi|]. cbn [List.filter].
  destruct (decide (i = j)) as [<-|Hne].
  - rewrite (bool_decide_eq_true_2 (a !! i = None)) by done. rewrite lookup_insert_eq, bool_decide_eq_false_2 by done.
    cbn [length]. f_equal. f_equal. apply List.filter_ext_in. intros k Hk. rewrite lookup_insert_ne; [done|].
    intros <-. by apply Hj, list_elem_of_In.
  - rewrite lookup_insert_ne by done. apply elem_of_cons in Hi as [->|Hi]; [done|].
    destruct (bool_decide (a !! j = None)); cbn [length]; by rewrite (IH Hi).
Qed.

Lemma right_choice q i w : NoDup quizIndices ->
  activeQuizIndex (answers q) = Some i -> words !! i = Some w ->
  unanswered (answers q) quizIndices = S (unanswered (answers (handleChoice (Some w) q)) quizIndices).
Proof.
  intros Hnd Ha Hw. pose proof (active_spec (answers q)) as H. unfold handleChoice. rewrite Ha in *. destruct H as [Hi Hn].
  rewrite Hw, bool_decide_eq_true_2 by done. cbn [answers set_answer]. by apply unanswered_insert.
Qed.

(** A user who knows the phrase: at every turn the word of the active index. *)
Fixpoint answer_all (n : nat) (q : quiz) : quiz :=
  match n, activeQuizIndex (answers q) with
  | S n, Some i => answer_all n (handleChoice (words !! i) q)
  | _, _ => q
  end.

Lemma answer_all_done n q : NoDup quizIndices -> (forall i, i ∈ quizIndices -> is_Some (words !! i)) ->
  quiz_ok q -> (unanswered (answers q) quizIndices <= n) -> showSuccess (answer_all n q) = true.
Proof.
  intros Hnd Hw. revert q. induction n as [|n IH]; intros q Hq Hm; cbn [answer_all];
    pose proof (active_spec (answers q)) as Ha; destruct (activeQuizIndex (answers q)) as [i|] eqn:Ei;
    try (destruct Hq as [_ ->]; by apply allAnswered_spec).
  all: destruct Ha as [Hi _]; destruct (Hw i Hi) as [w Ew]; pose proof (right_choice q i w Hnd Ei Ew) as Hm'; try lia.
  rewrite Ew. apply IH; [by apply handleChoice_ok|lia].
Qed.
End Quiz.

(** ** The indices and the chips *)

Lemma pick_facts (sh : list nat -> list nat) : (forall l, sh l ≡ₚ l) ->
  length (pickQuizIndices sh) = 6 /\ NoDup (pickQuizIndices sh) /\ StronglySorted (≤) (pickQuizIndices sh)
  /\ forall i, i ∈ pickQuizIndices sh -> i < 24.
Proof.
  intros Hsh. unfold pickQuizIndices.
  assert (merge_sort (≤) (take 6 (sh (seq 0 24))) ≡ₚ take 6 (sh (seq 0 24))) as Hp by apply merge_sort_Permutation.
  assert (NoDup (sh (seq 0 24))) as Hnd by (rewrite Hsh; apply NoDup_seq).
  split_and_all.
  - rewrite Hp, length_take, Hsh. done.
  - rewrite Hp. rewrite <- (take_drop 6 (sh (seq 0 24))) in Hnd. by apply NoDup_app in Hnd as [Hnd _].
  - apply StronglySorted_merge_sort; typeclasses eauto.
  - intros i Hi. rewrite Hp in Hi. apply elem_of_take in Hi as (k & Hk & _).
    apply list_elem_of_lookup_2 in Hk. rewrite Hsh in Hk. apply elem_of_seq in Hk. lia.
Qed.

Lemma getChoices_facts sh1 sh2 w ws :
  (forall l : list (option jsstr), sh1 l ≡ₚ l) -> (forall l : list (option jsstr), sh2 l ≡ₚ l) ->
  Some w ∈ getChoices sh1 sh2 (Some w) ws
  /\ length (getChoices sh1 sh2 (Some w) ws) <= 3
  /\ forall c, c ∈ getChoices sh1 sh2 (Some w) ws -> c = Some w \/ exists v, c = Some v /\ v ∈ ws /\ v <> w.
Proof.
  intros H1 H2. unfold getChoices. split_and_all.
  - rewrite H2. left.
  - rewrite H2. cbn [length]. rewrite length_take. lia.
  - intros c. rewrite H2, elem_of_cons. intros [->|Hc]; [by left|]. right.
    apply elem_of_take in Hc as (k & Hk & _). apply list_elem_of_lookup_2 in Hk. rewrite H1 in Hk.
    apply list_elem_of_In, List.filter_In in Hk as [Hin Hne]. apply in_map_iff in Hin as (v & <- & Hv).
    exists v. split; [done|]. split; [by apply list_elem_of_In|]. intros ->. by rewrite bool_decide_eq_true_2 in Hne.
Qed.

(** The quiz checks the phrase and can be passed: for a phrase of 24 words and
    any shuffles, six different words are hidden; whatever is chosen, success is
    shown only when all six were given as in the phrase; while one is missing its
    word is among at most three chips; and from every state six right answers at
    most lead to success. *)
Theorem quiz_checks_phrase (words : list jsstr) (sh : list nat -> list nat)
    (sh1 sh2 : list (option jsstr) -> list (option jsstr)) (cs : list (option jsstr)) :
  length words = 24 -> (forall l, sh l ≡ₚ l) -> (forall l, sh1 l ≡ₚ l) -> (forall l, sh2 l ≡ₚ l) ->
  let idx := pickQuizIndices sh in
  let q := foldl (fun q w => handleChoice words idx w q) quiz_start cs in
  (length idx = 6 /\ NoDup idx)
  /\ (showSuccess q = true -> forall i, i ∈ idx -> is_Some (words !! i) /\ answers q !! i = words !! i)
  /\ (forall i, activeQuizIndex idx (answers q) = Some i ->
        words !! i ∈ currentChoices words idx sh1 sh2 q /\ length (currentChoices words idx sh1 sh2 q) <= 3)
  /\ showSuccess (answer_all words idx 6 q) = true.
Proof.
  intros Hlen Hsh H1 H2 idx q. destruct (pick_facts sh Hsh) as (Hl & Hnd & _ & Hlt). fold idx in Hl, Hnd, Hlt.
  assert (forall i, i ∈ idx -> is_Some (words !! i)) as Hw.
  { intros i Hi. apply lookup_lt_is_Some. rewrite Hlen. by apply Hlt. }
  assert (quiz_ok words idx q) as Hq.
  { apply choices_ok, quiz_start_ok. intros E. by rewrite E in Hl. }
  split; [done|]. split; [|split].
  - intros Hs i Hi. split; [by apply Hw|]. destruct Hq as [Ha Hq]. rewrite Hq in Hs.
    destruct (proj1 (allAnswered_spec _ _) Hs i Hi) as [w E]. rewrite E. symmetry. by apply Ha.
  - intros i Ei. unfold currentChoices. rewrite Ei. destruct words as [|w0 ws] eqn:Ews; [done|]. rewrite <- Ews in *.
    pose proof (active_spec idx (answers q)) as Ha. rewrite Ei in Ha. destruct Ha as [Hi _].
    destruct (Hw i Hi) as [w E]. rewrite E. destruct (getChoices_facts sh1 sh2 w words H1 H2) as (F1 & F2 & _). done.
  - apply answer_all_done; [done..|]. unfold unanswered. rewrite <- Hl. apply List.filter_length_le.
Qed.

Definition sample_words : list jsstr := take 24 WORDLIST.

Lemma quiz_checks_phrase_witness :
  let idx := pickQuizIndices reverse in
  idx = [18; 19; 20; 21; 22; 23]
  /\ showSuccess (answer_all sample_words idx 6 quiz_start) = true.
Proof.
  split; [vm_compute; reflexivity|].
  apply (quiz_checks_phrase sample_words reverse reverse reverse []); try (intros l; apply reverse_Permutation).
  reflexivity.
Defined.
