(* ===== verification/Keys.v ===== *)
(** * Keys and addresses

    The key derivations, the address constructors and the WIF export of
    src/mobile/utils/wallet-crypto.ts and src/extension/src/crypto/wallet.ts.
    The hash functions and the signature schemes of @noble are the interface
    [Crypto]; [CryptoLaws] states the lengths their documentation fixes. *)

From S2P Require Import Prelude JsText Bytes ConvertBits Bech32 Mnemonic.
Local Open Scope Z_scope.

(** [getPublicKey] throws on an invalid private key and [signAsync] with it;
    [signDER] is [signAsync(..., { lowS: true })] followed by [toDERRawBytes]. *)
Class Crypto := {
  sha256 : list Z -> list Z;
  ripemd160 : list Z -> list Z;
  getPublicKey : list Z -> option (list Z);
  signDER : list Z -> list Z -> option (list Z);
  mldsa_keygen : list Z -> list Z * list Z;
  mldsa_sign : list Z -> list Z -> list Z
}.

Class CryptoLaws (C : Crypto) := {
  sha256_length : forall x, length (sha256 x) = 32%nat;
  sha256_bytes : forall x, bytes_ok (sha256 x);
  ripemd160_length : forall x, length (ripemd160 x) = 20%nat;
  ripemd160_bytes : forall x, bytes_ok (ripemd160 x);
  getPublicKey_shape : forall k p, getPublicKey k = Some p -> length p = 33%nat /\ bytes_ok p;
  signDER_shape : forall m k s, signDER m k = Some s -> (length s <= 72)%nat /\ bytes_ok s;
  mldsa_keygen_shape : forall s, bytes_ok (mldsa_keygen s).1 /\ length (mldsa_keygen s).1 = 2592%nat
    /\ bytes_ok (mldsa_keygen s).2 /\ length (mldsa_keygen s).2 = 4896%nat;
  mldsa_sign_shape : forall m k, bytes_ok (mldsa_sign m k) /\ length (mldsa_sign m k) = 4627%nat
}.

Definition BECH32_HRP : jsstr := Eval vm_compute in js "grd".
Definition WIF_PREFIX : Z := 239.

Section Derivation.
Context {C : Crypto}.

Definition sha256d (data : list Z) : list Z := sha256 (sha256 data).

Definition hash160 (data : list Z) : list Z := ripemd160 (sha256 data).

Definition pubkeyToP2WPKH (pubkey : list Z) : jsstr :=
  let h160 := hash160 pubkey in
  let words := convertBits h160 8 5 true in
  bech32Encode BECH32_HRP (0 :: words).

Definition pubkeyHashToP2PQH (pubkeyHash : list Z) : jsstr :=
  let words := convertBits pubkeyHash 8 5 true in
  bech32mEncode BECH32_HRP (2 :: words).

Definition pubkeyToP2PQH (pubkey : list Z) : jsstr := pubkeyHashToP2PQH (sha256 pubkey).

Record DerivedKey := {
  privateKey : list Z;
  publicKey : list Z;
  address : jsstr;
  privateKeyHex : jsstr;
  publicKeyHex : jsstr
}.

Definition deriveKey (mnemonic : jsstr) (accountIndex : Z) : option DerivedKey :=
  let privKey := sha256 (utf8_encode (phrase mnemonic accountIndex)) in
  pubKey ← getPublicKey privKey;
  Some {| privateKey := privKey; publicKey := pubKey; address := pubkeyToP2WPKH pubKey;
          privateKeyHex := toHex privKey; publicKeyHex := toHex pubKey |}.

(** [privateKeyHex.match(/.{2}/g)]: the pairs of characters, a line terminator
    being no character of a pair. *)
Definition line_end (u : Z) : bool := (u =? 10) || (u =? 13) || (u =? 0x2028) || (u =? 0x2029).

Fixpoint hex_pairs (s : jsstr) : list jsstr :=
  match s with
  | a :: s' =>
      match s' with
      | b :: s'' =>
          if line_end a then hex_pairs s'
          else if line_end b then hex_pairs s''
          else [a; b] :: hex_pairs s''
      | [] => []
      end
  | [] => []
  end.

(** [null!.map] throws when there is no pair. *)
Definition deriveKeyFromPrivate (privateKeyHex : jsstr) : option (jsstr * jsstr) :=
  match hex_pairs privateKeyHex with
  | [] => None
  | ps =>
      let privKey := map (fun h => uint8 (default 0 (parseInt h 16))) ps in
      pubKey ← getPublicKey privKey;
      Some (pubkeyToP2WPKH pubKey, toHex pubKey)
  end.

Record DerivedQuantumKey := {
  q_publicKey : list Z;
  q_secretKey : list Z;
  q_address : jsstr;
  q_publicKeyHex : jsstr;
  q_secretKeyHex : jsstr
}.

Definition deriveQuantumKey (mnemonic : jsstr) (accountIndex : Z) : DerivedQuantumKey :=
  let seed := sha256 (utf8_encode (pq_phrase mnemonic accountIndex)) in
  let keys := mldsa_keygen seed in
  {| q_publicKey := keys.1; q_secretKey := keys.2; q_address := pubkeyToP2PQH keys.1;
     q_publicKeyHex := toHex keys.1; q_secretKeyHex := toHex keys.2 |}.

(** The extension's record carries a derivation path instead of the hex forms;
    its [_accountIndex] is not used. *)
Record ExtDerivedKey := {
  ext_privateKey : list Z;
  ext_publicKey : list Z;
  ext_address : jsstr;
  ext_derivationPath : jsstr
}.

Definition ext_deriveKey (mnemonic : jsstr) (_accountIndex addressIndex : Z) : option ExtDerivedKey :=
  let phrase := if addressIndex =? 0 then mnemonic else mnemonic ++ [124] ++ to_string 10 addressIndex in
  let privKey := sha256 (utf8_encode phrase) in
  pubKey ← getPublicKey privKey;
  let address := pubkeyToP2WPKH pubKey in
  let path := if addressIndex =? 0 then js "garuda-sha256"
              else js "garuda-sha256|" ++ to_string 10 addressIndex in
  Some {| ext_privateKey := privKey; ext_publicKey := pubKey;
          ext_address := address; ext_derivationPath := path |}.

(** ** WIF *)

Definition B58 : jsstr :=
  Eval vm_compute in js "123456789ABCDEFGHJKLMNPQRSTUVWXYZabcdefghijkmnopqrstuvwxyz".

(** [BigInt("0x" + hex)]: a syntax error without digits. *)
Definition bigint_hex (hex : jsstr) : option Z :=
  match hex with
  | [] => None
  | _ => num_value 16 <$> mapM (fun u => d ← digit_value u; if d <? 16 then Some d else None) hex
  end.

(** [for (const b of data) { if (b !== 0) break; result = "1" + result; }] *)
Fixpoint lead_ones (data : list Z) (result : jsstr) : jsstr :=
  match data with
  | b :: data => if b =? 0 then lead_ones data (49 :: result) else result
  | [] => result
  end.

Definition base58Encode (data : list Z) : option jsstr :=
  n ← bigint_hex (toHex data);
  let result := map (fun d => B58 !!! Z.to_nat d) (digits 58 n) in
  Some (lead_ones data result).

Definition privateKeyToWIF (privkey : list Z) : option jsstr :=
  let payload := map uint8 ([WIF_PREFIX] ++ privkey ++ [1]) in
  let checksum := take 4 (sha256d payload) in
  base58Encode (payload ++ checksum).

(** [addr.slice(0, 10) + "..." + addr.slice(-6)] *)
Definition formatAddress (addr : jsstr) : jsstr :=
  match addr with
  | [] => []
  | _ => take 10 addr ++ js "..." ++ drop (length addr - 6) addr
  end.

Definition ext_formatAddress (addr : jsstr) : jsstr :=
  take 12 addr ++ js "..." ++ drop (length addr - 6) addr.
End Derivation.

(** ** An instance of the interface

    Functions of the right shapes, to run the definitions on. *)

Definition toy_digest (n : nat) (x : list Z) : list Z :=
  map uint8 (take n (x ++ replicate n (Z.of_nat (length x)))).

Definition toy : Crypto := {|
  sha256 := toy_digest 32;
  ripemd160 := toy_digest 20;
  getPublicKey k := Some (2 :: toy_digest 32 k);
  signDER m k := Some (toy_digest 70 (m ++ k));
  mldsa_keygen s := (toy_digest 2592 s, toy_digest 4896 s);
  mldsa_sign m k := toy_digest 4627 (m ++ k)
|}.

Lemma toy_digest_shape n x : bytes_ok (toy_digest n x) /\ length (toy_digest n x) = n.
Proof.
  unfold toy_digest. split; [apply Forall_map, Forall_true, uint8_ok|].
  rewrite length_map, length_take, length_app, length_replicate. lia.
Qed.

#[export] Instance toy_laws : CryptoLaws toy.
Proof.
  split; cbn -[toy_digest]; intros.
  - apply toy_digest_shape.
  - apply toy_digest_shape.
  - apply toy_digest_shape.
  - apply toy_digest_shape.
  - destruct (toy_digest_shape 32 k) as [H1 H2]. invert H. cbn [length]. rewrite H2.
    split; [done|]. constructor; [bytes|done].
  - destruct (toy_digest_shape 70 (m ++ k)) as [H1 H2]. invert H. rewrite H2. split; [lia|done].
  - destruct (toy_digest_shape 2592 s), (toy_digest_shape 4896 s). done.
  - apply toy_digest_shape.
Qed.

(** ** Addresses *)

Lemma hrp_ascii : Forall (fun u => 0 <= u < 128) BECH32_HRP.
Proof. repeat constructor; lia. Qed.

Section Addresses.
Context {C : Crypto} {L : CryptoLaws C}.

Lemma groups_length data n : bytes_ok data -> length data = n -> (n <= 32)%nat ->
  (length (convertBits data 8 5 true) <= 52)%nat.
Proof. intros Hd Hl Hn. destruct (length_convertBits_8_5 data Hd) as (k & Hk & E). lia. Qed.

Lemma p2wpkh_script pubkey :
  addressToScript (pubkeyToP2WPKH pubkey) = Some ([0; 20] ++ hash160 pubkey)
  /\ ext_addressToScript (pubkeyToP2WPKH pubkey) = Some ([0; 20] ++ hash160 pubkey).
Proof.
  unfold pubkeyToP2WPKH, hash160, bech32Encode. set (h := ripemd160 _).
  assert (bytes_ok h) as Hb by apply ripemd160_bytes.
  assert (length h = 20%nat) as Hl by apply ripemd160_length.
  rewrite addressToScript_encoded, ext_addressToScript_encoded by (done || apply hrp_ascii || lia).
  by rewrite Hl.
Qed.

Lemma p2pqh_script pubkey :
  addressToScript (pubkeyToP2PQH pubkey) = Some ([0x52; 32] ++ sha256 pubkey)
  /\ ext_addressToScript (pubkeyToP2PQH pubkey) = Some ([0; 32] ++ sha256 pubkey).
Proof.
  unfold pubkeyToP2PQH, pubkeyHashToP2PQH, bech32mEncode. set (h := sha256 _).
  assert (bytes_ok h) as Hb by apply sha256_bytes.
  assert (length h = 32%nat) as Hl by apply sha256_length.
  rewrite addressToScript_encoded, ext_addressToScript_encoded by (done || apply hrp_ascii || lia).
  by rewrite Hl.
Qed.

(** C8. The address of a secp256k1 key is a valid BIP-173 address: the reference
    decoder reads version 0 and the key's HASH160, and both wallets turn it into
    the script [OP_0 <20 bytes>] of that hash. *)
Theorem pubkeyToP2WPKH_correct (pubkey : list Z) :
  segwit_decode BECH32_HRP (pubkeyToP2WPKH pubkey) = Some (0, hash160 pubkey)
  /\ addressToScript (pubkeyToP2WPKH pubkey) = Some ([0; 20] ++ hash160 pubkey)
  /\ ext_addressToScript (pubkeyToP2WPKH pubkey) = Some ([0; 20] ++ hash160 pubkey).
Proof.
  split; [|apply p2wpkh_script]. unfold pubkeyToP2WPKH, hash160, bech32Encode. set (h := ripemd160 _).
  assert (bytes_ok h) as Hb by apply ripemd160_bytes.
  assert (length h = 20%nat) as Hl by apply ripemd160_length.
  pose proof (groups_length h 20 Hb Hl ltac:(lia)).
  apply segwit_decode_encoded; try done; try apply hrp_ascii; simpl; lia.
Qed.

Lemma p2pqh_decodes pubkey : segwit_decode BECH32_HRP (pubkeyToP2PQH pubkey) = Some (2, sha256 pubkey).
Proof.
  unfold pubkeyToP2PQH, pubkeyHashToP2PQH, bech32mEncode. set (h := sha256 _).
  assert (bytes_ok h) as Hb by apply sha256_bytes.
  assert (length h = 32%nat) as Hl by apply sha256_length.
  pose proof (groups_length h 32 Hb Hl ltac:(lia)).
  apply segwit_decode_encoded; try done; try apply hrp_ascii; simpl; lia.
Qed.

(** The address of an ML-DSA-87 key is a valid BIP-350 address of witness
    version 2 with the SHA-256 of the key as program, and the mobile wallet turns
    it into the script [OP_2 <32 bytes>] of that hash. *)
Theorem pubkeyToP2PQH_correct (pubkey : list Z) :
  segwit_decode BECH32_HRP (pubkeyToP2PQH pubkey) = Some (2, sha256 pubkey)
  /\ addressToScript (pubkeyToP2PQH pubkey) = Some ([0x52; 32] ++ sha256 pubkey).
Proof. split; [apply p2pqh_decodes|apply p2pqh_script]. Qed.
End Addresses.

Lemma pubkeyToP2WPKH_correct_witness :
  segwit_decode BECH32_HRP (pubkeyToP2WPKH (C := toy) [2; 9]) = Some (0, hash160 (C := toy) [2; 9]).
Proof. apply (pubkeyToP2WPKH_correct (C := toy)). Defined.

Lemma pubkeyToP2PQH_correct_witness :
  segwit_decode BECH32_HRP (pubkeyToP2PQH (C := toy) [2; 9]) = Some (2, sha256 (Crypto := toy) [2; 9]).
Proof. apply (pubkeyToP2PQH_correct (C := toy)). Defined.

(** The checksum of an address is not verified: the last six characters can
    be any that are not the separator, and both wallets build the same script. *)
Theorem address_checksum_ignored (pre t1 t2 : jsstr) :
  length t1 = 6%nat -> length t2 = 6%nat ->
  Forall (fun c => c <> 49) t1 -> Forall (fun c => c <> 49) t2 ->
  addressToScript (pre ++ t1) = addressToScript (pre ++ t2)
  /\ ext_addressToScript (pre ++ t1) = ext_addressToScript (pre ++ t2).
Proof.
  intros L1 L2 H1 H2. unfold addressToScript, addressToWitnessVersionAndProgram.
  unfold ext_addressToScript, addressToWitnessProgram. by rewrite !data_part_tail.
Qed.

Lemma address_checksum_ignored_witness :
  addressToScript (js "grd1q" ++ js "qqqqqq") = addressToScript (js "grd1q" ++ js "zzzzzz").
Proof. apply address_checksum_ignored; [done|done|repeat constructor; done..]. Defined.
