(* ===== verification/ReceiveQr.v ===== *)
(** * The code of the extension's receive page

    [generateQRMatrix] of src/extension/src/popup/pages/Receive.tsx, which draws
    the picture next to the address. Its comment calls the picture a visual
    representation; the theorem below says how little of the address is in it. *)

From S2P Require Import Prelude JsText ConvertBits Bech32 Keys.
Local Open Scope Z_scope.

Definition size : Z := 25.
Definition matrix := list (list bool).

Definition set_cell (m : matrix) (r c : Z) (b : bool) : matrix :=
  alter (fun row => <[Z.to_nat c := b]> row) (Z.to_nat r) m.

Definition blank : matrix := replicate 25 (replicate 25 false).

(** [for (let i = a; i < b; i++)] *)
Definition range (a b : Z) : list Z := seqZ a (b - a).

Definition drawFinder (ox oy : Z) (m : matrix) : matrix :=
  foldl (fun m r => foldl (fun m c =>
    let outer := (r =? 0) || (r =? 6) || (c =? 0) || (c =? 6) in
    let inner := (2 <=? r) && (r <=? 4) && (2 <=? c) && (c <=? 4) in
    set_cell m (oy + r) (ox + c) (outer || inner)) m (range 0 7)) m (range 0 7).

Definition timing (m : matrix) : matrix :=
  foldl (fun m i => set_cell (set_cell m 6 i (i mod 2 =? 0)) i 6 (i mod 2 =? 0)) m (range 8 (size - 8)).

(** [hash = ((hash << 5) - hash + k) | 0] *)
Definition hash_step (hash k : Z) : Z := int32 (js_shl hash 5 - hash + k).

Definition text_hash (data : jsstr) : Z := foldl hash_step 0 data.

(** The cells of the three loops, each with the number its step adds; [continue]
    leaves a cell out. *)
Definition cells1 : list (Z * Z * Z) :=
  concat (map (fun r => concat (map (fun c =>
    if (c =? 6) || (r =? 6) then [] else [(r, c, r * 31 + c * 17)]) (range 9 (size - 8)))) (range 9 (size - 8))).

Definition cells2 : list (Z * Z * Z) :=
  concat (map (fun r => concat (map (fun c =>
    if (r <? 9) && (c <? 8) then [] else
    if (size - 7 <=? r) && (c <? 8) then [] else
    if (r =? 6) || (c =? 6) then [] else [(r, c, r * 13 + c * 7)]) (range 0 8))) (range 8 size)).

Definition cells3 : list (Z * Z * Z) :=
  concat (map (fun r => concat (map (fun c =>
    if r =? 6 then [] else [(r, c, r * 11 + c * 23)]) (range 8 (size - 8)))) (range 0 9)).

Definition fill_cell (s : matrix * Z) (cell : Z * Z * Z) : matrix * Z :=
  let '(r, c, k) := cell in
  let hash := hash_step s.2 k in
  (set_cell s.1 r c (js_and hash 1 =? 0), hash).

Definition frame : matrix :=
  timing (drawFinder 0 (size - 7) (drawFinder (size - 7) 0 (drawFinder 0 0 blank))).

Definition generateQRMatrix (data : jsstr) : matrix :=
  (foldl fill_cell (frame, text_hash data) (cells1 ++ cells2 ++ cells3)).1.

(** ** What the picture depends on *)

Lemma odd_mod2 a b : Z.odd a = Z.odd b <-> a mod 2 = b mod 2.
Proof. rewrite !Zmod_odd. destruct (Z.odd a), (Z.odd b); done. Qed.

Lemma int32_parity z : Z.odd (int32 z) = Z.odd z.
Proof.
  unfold int32. rewrite Z.odd_sub. change (Z.odd (2 ^ 31)) with false. rewrite xorb_false_r.
  transitivity (Z.odd (z + 2 ^ 31)).
  - apply odd_mod2. pose proof (Z.div_mod (z + 2 ^ 31) (2 ^ 32) ltac:(lia)) as E.
    set (q := (z + 2 ^ 31) / 2 ^ 32) in *. set (r := (z + 2 ^ 31) mod 2 ^ 32) in *.
    rewrite E. replace (2 ^ 32 * q + r) with (r + 2 ^ 31 * q * 2) by lia. by rewrite Z.mod_add by lia.
  - rewrite Z.odd_add. change (Z.odd (2 ^ 31)) with false. apply xorb_false_r.
Qed.

Lemma hash_step_parity h k : Z.odd (hash_step h k) = xorb (Z.odd h) (Z.odd k).
Proof.
  unfold hash_step. rewrite int32_parity, Z.odd_add, Z.odd_sub. unfold js_shl. rewrite int32_parity.
  change (5 mod 32) with 5. rewrite Z.shiftl_mul_pow2, Z.odd_mul by lia. change (Z.odd (2 ^ 5)) with false.
  rewrite andb_false_r. by rewrite xorb_false_l.
Qed.

Lemma low_bit h : (js_and h 1 =? 0) = negb (Z.odd h).
Proof.
  unfold js_and. change (int32 1) with (Z.ones 1). rewrite Z.land_ones by lia. change (2 ^ 1) with 2.
  rewrite Zmod_odd, int32_parity. by destruct (Z.odd h).
Qed.

(** The same loops on the parity alone. *)
Definition fill_bit (s : matrix * bool) (cell : Z * Z * Z) : matrix * bool :=
  let '(r, c, k) := cell in
  let b := xorb s.2 (Z.odd k) in (set_cell s.1 r c (negb b), b).

Definition picture (b : bool) : matrix := (foldl fill_bit (frame, b) (cells1 ++ cells2 ++ cells3)).1.

Lemma fill_parity cells m h :
  (foldl fill_cell (m, h) cells).1 = (foldl fill_bit (m, Z.odd h) cells).1.
Proof.
  revert m h. induction cells as [|[[r c] k] cells IH]; intros m h; [done|]. cbn [foldl fill_cell fill_bit fst snd].
  rewrite low_bit, IH, hash_step_parity. done.
Qed.

Lemma text_hash_parity data h : Z.odd (foldl hash_step h data) = Z.odd (foldl Z.add h data).
Proof.
  enough (forall h h', Z.odd h = Z.odd h' -> Z.odd (foldl hash_step h data) = Z.odd (foldl Z.add h' data)) as H by by apply H.
  clear h. induction data as [|u data IH]; intros h h' E; [done|]. cbn [foldl]. apply IH.
  by rewrite hash_step_parity, Z.odd_add, E.
Qed.

(** The address of the program of twenty bytes [b]. *)
Definition address_of (b : Z) : jsstr := bech32Encode BECH32_HRP (0 :: convertBits (replicate 20 b) 8 5 true).

(** The receive page's code is one of two pictures: it depends on nothing of
    the address but the parity of the sum of its characters, and there are two
    addresses that a decoder accepts, for different scripts, with the same
    picture. *)
Theorem receive_code_has_one_bit :
  (forall data, generateQRMatrix data = picture (Z.odd (foldl Z.add 0 data)))
  /\ picture true <> picture false
  /\ exists a1 a2 h1 h2, segwit_decode BECH32_HRP a1 = Some (0, h1) /\ segwit_decode BECH32_HRP a2 = Some (0, h2)
       /\ h1 <> h2 /\ generateQRMatrix a1 = generateQRMatrix a2.
Proof.
  split; [|split].
  - intros data. unfold generateQRMatrix, picture, text_hash. by rewrite fill_parity, text_hash_parity.
  - vm_compute. discriminate.
  - exists (address_of 0), (address_of 1), (replicate 20 0), (replicate 20 1).
    split; [vm_compute; reflexivity|]. split; [vm_compute; reflexivity|]. split; [done|]. vm_compute. reflexivity.
Qed.
