(* ===== verification/Wif.v ===== *)
(** * WIF export

    [base58Encode] and [privateKeyToWIF] (src/mobile/utils/wallet-crypto.ts)
    against a decoder of Base58Check. *)

From S2P Require Import Prelude JsText Bytes Bech32 Keys.
Local Open Scope Z_scope.

(** ** Reference decoder *)

Fixpoint count_ones (s : jsstr) : nat :=
  match s with
  | u :: s => if u =? 49 then S (count_ones s) else 0
  | [] => 0
  end.

Definition base58_decode (s : jsstr) : option (list Z) :=
  let z := count_ones s in
  ds ← mapM (char_index B58) (drop z s);
  Some (replicate z 0 ++ digits 256 (num_value 58 (map Z.of_nat ds))).

(** The private key of a compressed WIF: prefix, 32 bytes, [1], checksum. *)
Definition wif_decode {C : Crypto} (s : jsstr) : option (list Z) :=
  bs ← base58_decode s;
  let payload := take 34 bs in
  if (length bs =? 38)%nat && bool_decide (drop 34 bs = take 4 (sha256d payload))
     && bool_decide (take 1 payload = [WIF_PREFIX]) && bool_decide (drop 33 payload = [1])
  then Some (take 32 (drop 1 payload)) else None.

(** ** The number behind the bytes *)

Lemma hex_digits b : byte_ok b ->
  exists x y hi lo, padStart 2 48 (to_string 16 b) = [x; y]
    /\ digit_value x = Some hi /\ digit_value y = Some lo
    /\ 0 <= hi < 16 /\ 0 <= lo < 16 /\ hi * 16 + lo = b.
Proof.
  intros Hb.
  pose (f b := match padStart 2 48 (to_string 16 b) with
               | [x; y] => match digit_value x, digit_value y with
                           | Some hi, Some lo => (0 <=? hi) && (hi <? 16) && (0 <=? lo) && (lo <? 16) && (hi * 16 + lo =? b)
                           | _, _ => false
                           end
               | _ => false
               end).
  assert (f b = true) as Hf by (apply all_byte_pairs; [vm_compute; reflexivity|done]).
  unfold f in Hf. destruct (padStart 2 48 (to_string 16 b)) as [|x [|y [|]]]; try done.
  destruct (digit_value x) as [hi|] eqn:Ex; [|done]. destruct (digit_value y) as [lo|] eqn:Ey; [|done].
  exists x, y, hi, lo. rewrite !andb_true_iff in Hf. split_and_all; try done; lia.
Qed.

Definition hex_digit (u : Z) : option Z := d ← digit_value u; if d <? 16 then Some d else None.

Lemma bigint_toHex data :
  data <> [] -> bytes_ok data -> bigint_hex (toHex data) = Some (num_value 256 data).
Proof.
  intros Hne Hd.
  assert (exists ds, mapM hex_digit (toHex data) = Some ds
    /\ forall a, foldl (fun a d => a * 16 + d) a ds = foldl (fun a d => a * 256 + d) a data) as (ds & Em & Ev).
  { clear Hne. induction Hd as [|b data Hb Hd (ds & Em & Ev)]; [by exists []|].
    destruct (hex_digits b Hb) as (x & y & hi & lo & E & Ex & Ey & Hhi & Hlo & Eb).
    exists (hi :: lo :: ds). unfold toHex in *. cbn [map concat]. rewrite E. cbn [app mapM].
    unfold hex_digit in *. rewrite Ex, Ey. cbn [mbind option_bind].
    rewrite (proj2 (Z.ltb_lt hi 16)), (proj2 (Z.ltb_lt lo 16)) by lia. rewrite Em. cbn [mbind option_bind mret option_ret].
    split; [done|]. intros a. cbn [foldl]. rewrite Ev. f_equal. lia. }
  unfold bigint_hex. destruct (toHex data) as [|u s] eqn:Eh.
  { apply length_toHex in Hd. rewrite Eh in Hd. destruct data; done. }
  fold hex_digit. rewrite Em. unfold num_value. cbn [fmap option_fmap option_map]. by rewrite Ev.
Qed.

(** ** Base58 *)

Lemma b58_char d : digit_ok 58 d ->
  char_index B58 (B58 !!! Z.to_nat d) = Some (Z.to_nat d) /\ (B58 !!! Z.to_nat d = 49 -> d = 0).
Proof.
  intros Hd. pose (f d := bool_decide (char_index B58 (B58 !!! Z.to_nat d) = Some (Z.to_nat d))
    && (negb (B58 !!! Z.to_nat d =? 49) || (d =? 0))).
  assert (f d = true) as Hf.
  { assert (forallb f (seqZ 0 58) = true) as H by (vm_compute; reflexivity).
    rewrite forallb_forall in H. apply H, list_elem_of_In, elem_of_seqZ. unfold digit_ok in Hd. lia. }
  unfold f in Hf. rewrite andb_true_iff, bool_decide_eq_true in Hf. destruct Hf as [H1 H2]. split; [done|].
  intros E. rewrite E in H2. cbn in H2. by apply Z.eqb_eq.
Qed.

Lemma b58_chars ds : Forall (digit_ok 58) ds ->
  mapM (char_index B58) (map (fun d => B58 !!! Z.to_nat d) ds) = Some (map Z.to_nat ds)
  /\ map Z.of_nat (map Z.to_nat ds) = ds.
Proof.
  induction 1 as [|d ds Hd Hds [IH1 IH2]]; [done|]. cbn [map mapM].
  destruct (b58_char d Hd) as [-> _]. cbn [mbind option_bind]. rewrite IH1, IH2. split; [done|].
  unfold digit_ok in Hd. by rewrite Z2Nat.id by lia.
Qed.

(** Leading zeros of the data, and what follows them. *)
Lemma lead_split data : exists z rest, data = replicate z 0 ++ rest /\ canonical rest.
Proof.
  induction data as [|b data (z & rest & -> & Hc)]; [by exists 0%nat, []|].
  destruct (Z.eq_dec b 0) as [-> |Hb]; [by exists (S z), rest|].
  by exists 0%nat, (b :: replicate z 0 ++ rest).
Qed.

Lemma lead_ones_split z rest r : canonical rest -> lead_ones (replicate z 0 ++ rest) r = replicate z 49 ++ r.
Proof.
  intros Hc. revert r. induction z as [|z IH]; intros r.
  - destruct rest as [|b rest]; [done|]. simpl in *. by destruct (Z.eqb_spec b 0).
  - cbn [replicate app lead_ones]. change (0 =? 0) with true. cbn iota. rewrite IH.
    change (49 :: replicate z 49 ++ r) with ((49 :: replicate z 49) ++ r).
    by rewrite replicate_cons_app, <- app_assoc.
Qed.

Lemma num_value_zeros base z rest : num_value base (replicate z 0 ++ rest) = num_value base rest.
Proof.
  unfold num_value. rewrite foldl_app. f_equal. induction z as [|z IH]; [done|]. simpl. done.
Qed.

Lemma count_ones_canonical z ds :
  Forall (digit_ok 58) ds -> canonical ds ->
  count_ones (replicate z 49 ++ map (fun d => B58 !!! Z.to_nat d) ds) = z.
Proof.
  intros Hd Hc. induction z as [|z IH]; [|simpl; by rewrite IH].
  destruct ds as [|d ds]; [done|]. cbn [replicate app map count_ones].
  apply Forall_cons in Hd as [Hd _]. destruct (Z.eqb_spec (B58 !!! Z.to_nat d) 49) as [E|]; [|done].
  apply b58_char in E; done.
Qed.

Lemma base58_roundtrip data :
  data <> [] -> bytes_ok data -> exists s, base58Encode data = Some s /\ base58_decode s = Some data.
Proof.
  intros Hne Hd. unfold base58Encode. rewrite bigint_toHex by done. cbn [mbind option_bind].
  eexists. split; [done|]. destruct (lead_split data) as (z & rest & -> & Hc).
  rewrite lead_ones_split, num_value_zeros by done. apply Forall_app in Hd as [_ Hr].
  assert (Forall (digit_ok 256) rest) as Hr' by done.
  set (n := num_value 256 rest). assert (0 <= n) as Hn by (apply num_value_nonneg; [lia|done]).
  pose proof (digits_digit_ok 58 n ltac:(lia)) as H58.
  unfold base58_decode. rewrite count_ones_canonical by (done || apply digits_head; lia).
  rewrite drop_app_length' by by rewrite length_replicate.
  destruct (b58_chars _ H58) as [-> E]. cbn [mbind option_bind]. rewrite E, digits_value by lia.
  unfold n. by rewrite digits_canonical by (done || lia).
Qed.

(** C33. The exported WIF string carries the key: Base58Check decoding of it gives
    back the 32 bytes of the private key, with the right prefix, compression
    flag and checksum. *)
Theorem privateKeyToWIF_roundtrip {C : Crypto} {L : CryptoLaws C} (privkey : list Z) :
  bytes_ok privkey -> length privkey = 32%nat ->
  exists s, privateKeyToWIF privkey = Some s /\ wif_decode s = Some privkey.
Proof.
  intros Hk Hl. unfold privateKeyToWIF. set (payload := map uint8 _).
  assert (payload = [WIF_PREFIX] ++ privkey ++ [1]) as Hp.
  { apply uint8_bytes. apply Forall_app. split; [repeat constructor; bytes|].
    apply Forall_app. split; [done|repeat constructor; bytes]. }
  assert (bytes_ok payload) as Hpb by apply Forall_map, Forall_true, uint8_ok.
  assert (length payload = 34%nat) as Hpl by (rewrite Hp, !length_app, Hl; done).
  destruct (base58_roundtrip (payload ++ take 4 (sha256d payload))) as (s & -> & Hs).
  { rewrite Hp. done. }
  { apply Forall_app. split; [done|]. apply Forall_take, sha256_bytes. }
  exists s. split; [done|]. unfold wif_decode. rewrite Hs. cbn [mbind option_bind].
  rewrite take_app_length', drop_app_length' by done.
  rewrite length_app, length_take, Hpl. unfold sha256d at 1. rewrite sha256_length.
  assert (drop 33 payload = [1]) as E33 by (rewrite Hp; cbn [app drop]; by rewrite drop_app_length').
  rewrite !bool_decide_eq_true_2 by (done || by rewrite Hp).
  change (34 + 4 `min` 32 =? 38)%nat with true. cbn [andb]. rewrite Hp.
  change (drop 1 ([WIF_PREFIX] ++ privkey ++ [1])) with (privkey ++ [1]). by rewrite take_app_length'.
Qed.

Lemma privateKeyToWIF_roundtrip_witness :
  exists s, privateKeyToWIF (C := toy) (seqZ 0 32) = Some s /\ wif_decode (C := toy) s = Some (seqZ 0 32).
Proof.
  apply privateKeyToWIF_roundtrip; [|vm_compute; reflexivity].
  apply Forall_forall. intros x Hx%elem_of_seqZ. unfold byte_ok. lia.
Defined.
