(* ===== verification/Tx.v ===== *)
(** * Transactions

    [buildAndSignTx] and [buildAndSignQuantumTx] of
    src/mobile/utils/wallet-crypto.ts and src/extension/src/crypto/wallet.ts: the
    output scripts, the BIP-143 preimage of each input, the signatures and the
    serialised transaction. The four functions share the text of everything but
    the output script, the script code and the witness, which are the arguments
    of [segwit_tx]. *)

From S2P Require Import Prelude JsText Bytes ConvertBits Bech32 Keys.
Local Open Scope Z_scope.

(** [value] is an integral number of satoshi. *)
Record UTXO := { txid : jsstr; vout : Z; value : Z }.

(** [None] is the missing property. *)
Record TxOutput := { o_address : option jsstr; opreturn : option jsstr; o_value : Z }.

(** ** Output scripts *)

(** [new Uint8Array([0x6a, data.length, ...data])] *)
Definition opreturn_script (hex : jsstr) : list Z :=
  let data := fromHex hex in
  map uint8 ([0x6a; Z.of_nat (length data)] ++ data).

Definition out_script (to_script : jsstr -> option (list Z)) (o : TxOutput) : option (list Z) :=
  match opreturn o with
  | Some hex => Some (opreturn_script hex)
  | None => a ← o_address o; to_script a
  end.

(** [CHARSET.indexOf(c)], -1 when it is not found. *)
Definition indexOf (c : Z) : Z := match char_index CHARSET c with Some n => Z.of_nat n | None => -1 end.

(** The script [buildAndSignQuantumTx] of src/extension builds inline, without
    the check for foreign characters. *)
Definition ext_quantum_script (address : jsstr) : option (list Z) :=
  let data := map indexOf (data_part address) in
  let prog := convertBits (map uint8 (drop 1 data)) 5 8 false in
  let versionByte := match data !! 0%nat with
                     | Some v => if v =? 0 then 0 else 0x50 + v
                     | None => 0
                     end in
  Some (map uint8 ([versionByte; Z.of_nat (length prog)] ++ prog)).

(** ** Serialisation *)

Definition encode_output (o : TxOutput) (script : list Z) : option (list Z) :=
  cat [writeLE64 (o_value o); writeVarInt (Z.of_nat (length script)); script].

Definition txid_bytes (inp : UTXO) : list Z := reverse (fromHex (txid inp)).

Definition FINAL_SEQ : list Z := [0xff; 0xff; 0xff; 0xff].

(** The loop that collects [allPrevouts] and [allSeqs]. *)
Fixpoint commit_loop (inputs : list UTXO) (allPrevouts allSeqs : list Z) : option (list Z * list Z) :=
  match inputs with
  | [] => Some (allPrevouts, allSeqs)
  | inp :: inputs =>
      allPrevouts ← cat [allPrevouts; txid_bytes inp; writeLE32 (vout inp)];
      allSeqs ← cat [allSeqs; FINAL_SEQ];
      commit_loop inputs allPrevouts allSeqs
  end.

Fixpoint inputs_loop (inputs : list UTXO) (section : list Z) : option (list Z) :=
  match inputs with
  | [] => Some section
  | inp :: inputs =>
      section ← cat [section; txid_bytes inp; writeLE32 (vout inp); [0]; FINAL_SEQ];
      inputs_loop inputs section
  end.

Fixpoint outputs_loop (encs : list (list Z)) (section : list Z) : option (list Z) :=
  match encs with
  | [] => Some section
  | enc :: encs => section ← cat [section; enc]; outputs_loop encs section
  end.

Fixpoint items_loop (items : list (list Z)) (section : list Z) : option (list Z) :=
  match items with
  | [] => Some section
  | item :: items =>
      section ← cat [section; writeVarInt (Z.of_nat (length item)); item];
      items_loop items section
  end.

Fixpoint witness_loop (ws : list (list (list Z))) (section : list Z) : option (list Z) :=
  match ws with
  | [] => Some section
  | w :: ws =>
      section ← cat [section; writeVarInt (Z.of_nat (length w))];
      section ← items_loop w section;
      witness_loop ws section
  end.

Section Build.
Context {C : Crypto}.

(** The preimage of one input. *)
Definition preimage (hashPrevouts hashSequence hashOutputs scriptCode : list Z) (inp : UTXO) :
    option (list Z) :=
  outpoint ← cat [txid_bytes inp; writeLE32 (vout inp)];
  cat [writeLE32 2; hashPrevouts; hashSequence; outpoint;
       writeVarInt (Z.of_nat (length scriptCode)); scriptCode;
       writeLE64 (value inp); FINAL_SEQ; hashOutputs; writeLE32 0; [1; 0; 0; 0]].

(** The loop that signs; [sign] makes the witness of a digest or throws. *)
Fixpoint sign_loop (hp hs ho scriptCode : list Z) (sign : list Z -> option (list (list Z)))
    (inputs : list UTXO) : option (list (list (list Z))) :=
  match inputs with
  | [] => Some []
  | inp :: inputs =>
      p ← preimage hp hs ho scriptCode inp;
      w ← sign (sha256d p);
      ws ← sign_loop hp hs ho scriptCode sign inputs;
      Some (w :: ws)
  end.

Definition segwit_tx (to_script : jsstr -> option (list Z)) (scriptCode : list Z)
    (sign : list Z -> option (list (list Z))) (inputs : list UTXO) (outputs : list TxOutput) :
    option jsstr :=
  outScripts ← mapM (out_script to_script) outputs;
  encodedOutputs ← mapM (fun '(o, s) => encode_output o s) (zip outputs outScripts);
  '(allPrevouts, allSeqs) ← commit_loop inputs [] [];
  allOutputs ← cat encodedOutputs;
  witnesses ← sign_loop (sha256d allPrevouts) (sha256d allSeqs) (sha256d allOutputs)
                scriptCode sign inputs;
  inputsSection ← inputs_loop inputs (writeVarInt (Z.of_nat (length inputs)));
  outputsSection ← outputs_loop encodedOutputs (writeVarInt (Z.of_nat (length outputs)));
  witnessSection ← witness_loop witnesses [];
  rawTx ← cat [writeLE32 2; [0; 1]; inputsSection; outputsSection; witnessSection; writeLE32 0];
  Some (toHex rawTx).

(** The P2WPKH script code and witness. *)
Definition wpkh_code (publicKey : list Z) : list Z := [0x76; 0xa9; 0x14] ++ hash160 publicKey ++ [0x88; 0xac].

Definition wpkh_sign (privateKey publicKey sigHash : list Z) : option (list (list Z)) :=
  derSig ← signDER sigHash privateKey; Some [derSig ++ [1]; publicKey].

(** The P2PQH script code and witness. *)
Definition pqh_code (publicKey : list Z) : list Z := [0x52; 0x20] ++ sha256 publicKey.

Definition pqh_sign (secretKey publicKey sigHash : list Z) : option (list (list Z)) :=
  Some [mldsa_sign sigHash secretKey; publicKey].

Definition buildAndSignTx (inputs : list UTXO) (outputs : list TxOutput)
    (privateKey publicKey : list Z) : option jsstr :=
  segwit_tx addressToScript (wpkh_code publicKey) (wpkh_sign privateKey publicKey) inputs outputs.

Definition buildAndSignQuantumTx (inputs : list UTXO) (outputs : list TxOutput)
    (secretKey publicKey : list Z) : option jsstr :=
  segwit_tx addressToScript (pqh_code publicKey) (pqh_sign secretKey publicKey) inputs outputs.

Definition ext_buildAndSignTx (inputs : list UTXO) (outputs : list TxOutput)
    (privateKey publicKey : list Z) : option jsstr :=
  segwit_tx ext_addressToScript (wpkh_code publicKey) (wpkh_sign privateKey publicKey) inputs outputs.

Definition ext_buildAndSignQuantumTx (inputs : list UTXO) (outputs : list TxOutput)
    (secretKey publicKey : list Z) : option jsstr :=
  segwit_tx ext_quantum_script (pqh_code publicKey) (pqh_sign secretKey publicKey) inputs outputs.
End Build.
