(* ===== verification/Coins.v ===== *)
(** * Coins: selection, outputs and sums

    The pieces the wallets' payment code shares: the loop that collects unspent
    outputs until a target is reached, the outputs of a payment, and their sums. *)

From S2P Require Import Prelude JsText Tx.
Local Open Scope Z_scope.

(** The fee in units of 10^-8. *)
Definition FEE : Z := 1000.

(** [for (const u of utxos) { selected.push(u); collected += u.value; if
    (collected >= target) break; }] *)
Fixpoint select (target : Z) (utxos : list UTXO) (selected : list UTXO) (collected : Z) : list UTXO * Z :=
  match utxos with
  | [] => (selected, collected)
  | u :: utxos =>
      let selected := selected ++ [u] in
      let collected := collected + value u in
      if target <=? collected then (selected, collected) else select target utxos selected collected
  end.

Definition pay (a : jsstr) (v : Z) : TxOutput := {| o_address := Some a; opreturn := None; o_value := v |}.
Definition data_out (hex : option jsstr) : TxOutput := {| o_address := None; opreturn := hex; o_value := 0 |}.
Definition change_out (a : jsstr) (change : Z) : list TxOutput := if 546 <? change then [pay a change] else [].

(** ** Sums *)

Definition total (us : list UTXO) : Z := foldl (fun s u => s + value u) 0 us.
Definition paid (os : list TxOutput) : Z := foldl (fun s o => s + o_value o) 0 os.

Lemma foldl_add {A} (f : A -> Z) l a : foldl (fun s x => s + f x) a l = a + foldl (fun s x => s + f x) 0 l.
Proof.
  revert a. induction l as [|x l IH]; intros a; [simpl; lia|]. cbn [foldl]. rewrite (IH (a + f x)), (IH (0 + f x)). lia.
Qed.

Lemma total_app l k : total (l ++ k) = total l + total k.
Proof. unfold total. rewrite foldl_app, (foldl_add value). done. Qed.

Lemma paid_app l k : paid (l ++ k) = paid l + paid k.
Proof. unfold paid. rewrite foldl_app, (foldl_add o_value). done. Qed.

Lemma total_1 u : total [u] = value u.
Proof. unfold total. simpl. lia. Qed.

(** The selection is a prefix, its sum is exact, and it stops as soon as the
    target is reached. *)
Lemma select_spec target us sel col :
  col = total sel ->
  exists n, select target us sel col = (sel ++ take n us, total (sel ++ take n us))
    /\ (total (sel ++ take n us) < target -> take n us = us)
    /\ (target <= total (sel ++ take n us) -> us <> [] ->
        (1 <= n)%nat /\ forall k, (1 <= k < n)%nat -> total (sel ++ take k us) < target).
Proof.
  revert sel col. induction us as [|u us IH]; intros sel col Hc; cbn [select].
  { exists 0%nat. rewrite app_nil_r. subst. done. }
  assert (col + value u = total (sel ++ [u])) as Hc' by (rewrite total_app, total_1; lia).
  destruct (Z.leb_spec target (col + value u)).
  - exists 1%nat. change (take 1 (u :: us)) with [u]. rewrite Hc'. split; [done|].
    split; [intros; exfalso; lia|]. intros _ _. split; [lia|]. intros; exfalso; lia.
  - destruct (IH (sel ++ [u]) _ Hc') as (n & E & H1 & H2). exists (S n).
    cbn [take]. rewrite (app_assoc sel [u] (take n us) : sel ++ u :: take n us = _). rewrite E. split; [done|].
    split; [intros Hlt; f_equal; by apply H1|]. intros Hge _. split; [lia|].
    intros [|k] Hk; [lia|]. cbn [take]. change (sel ++ u :: take k us) with (sel ++ [u] ++ take k us).
    rewrite app_assoc. destruct us as [|u' us].
    { rewrite take_nil, app_nil_r in *. lia. }
    destruct (H2 Hge ltac:(done)) as [Hn Hk']. destruct k as [|k]; [cbn [take]; rewrite app_nil_r; lia|].
    apply Hk'. lia.
Qed.

Lemma paid_change a change : 0 <= change -> exists dust, paid (change_out a change) = change - dust /\ 0 <= dust <= 546.
Proof.
  intros H. unfold change_out. destruct (Z.ltb_spec 546 change).
  - exists 0. unfold paid, pay. simpl. lia.
  - exists change. unfold paid. simpl. lia.
Qed.

Lemma total_nonneg us : Forall (fun u => 0 <= value u) us -> 0 <= total us.
Proof.
  induction us as [|u us IH] using rev_ind; [done|]. rewrite Forall_app, total_app. intros [H1 H2%Forall_inv].
  rewrite total_1. specialize (IH H1). lia.
Qed.
