(* ===== verification/TxProofs.v ===== *)
(** * Transactions against the network's rules

    A reader of serialised segwit transactions (BIP-144) and the signature digest
    of BIP-143, written on the parsed transaction; what the builders of [Tx]
    produce is read back and carries signatures of that digest. *)

From S2P Require Import Prelude JsText Bytes ConvertBits Bech32 Keys Tx.
Local Open Scope Z_scope.

(** ** Reference *)

Record tx_in := { prev_hash : list Z; prev_n : Z; script_sig : list Z; sequence : Z }.
Record tx_out := { amount : Z; script_pubkey : list Z }.
Record tx := {
  t_version : Z; ins : list tx_in; outs : list tx_out;
  witnesses : list (list (list Z)); t_locktime : Z
}.

(** [n] items read one after the other. *)
Fixpoint read_many {A} (n : nat) (f : list Z -> option (A * list Z)) (bs : list Z) :
    option (list A * list Z) :=
  match n with
  | O => Some ([], bs)
  | S n => '(x, bs) ← f bs; '(xs, bs) ← read_many n f bs; Some (x :: xs, bs)
  end.

Definition read_vec {A} (f : list Z -> option (A * list Z)) (bs : list Z) : option (list A * list Z) :=
  '(n, bs) ← read_varint bs; read_many (Z.to_nat n) f bs.

Definition read_vbytes (bs : list Z) : option (list Z * list Z) :=
  '(n, bs) ← read_varint bs; read_n (Z.to_nat n) bs.

Definition read_in (bs : list Z) : option (tx_in * list Z) :=
  '(h, bs) ← read_n 32 bs;
  '(n, bs) ← read_le 4 bs;
  '(s, bs) ← read_vbytes bs;
  '(q, bs) ← read_le 4 bs;
  Some ({| prev_hash := h; prev_n := n; script_sig := s; sequence := q |}, bs).

Definition read_out (bs : list Z) : option (tx_out * list Z) :=
  '(v, bs) ← read_le 8 bs;
  '(s, bs) ← read_vbytes bs;
  Some ({| amount := v; script_pubkey := s |}, bs).

Definition parse_tx (bs : list Z) : option tx :=
  '(ver, bs) ← read_le 4 bs;
  '(mark, bs) ← read_n 2 bs;
  if negb (bool_decide (mark = [0; 1])) then None else
  '(il, bs) ← read_vec read_in bs;
  '(ol, bs) ← read_vec read_out bs;
  '(ws, bs) ← read_many (length il) (read_vec read_vbytes) bs;
  '(lock, bs) ← read_le 4 bs;
  match bs with
  | [] => Some {| t_version := ver; ins := il; outs := ol; witnesses := ws; t_locktime := lock |}
  | _ => None
  end.

(** The BIP-143 digest of input [i] under SIGHASH_ALL. *)
Definition outpoint (i : tx_in) : list Z := prev_hash i ++ writeLE 4 (prev_n i).
Definition var_bytes (bs : list Z) : list Z := writeVarInt (Z.of_nat (length bs)) ++ bs.
Definition ser_out (o : tx_out) : list Z := writeLE 8 (amount o) ++ var_bytes (script_pubkey o).

Definition bip143 {C : Crypto} (t : tx) (i : tx_in) (code : list Z) (v : Z) : list Z :=
  sha256d (
    writeLE 4 (t_version t)
    ++ sha256d (concat (map outpoint (ins t)))
    ++ sha256d (concat (map (fun i => writeLE 4 (sequence i)) (ins t)))
    ++ outpoint i ++ var_bytes code ++ writeLE 8 v ++ writeLE 4 (sequence i)
    ++ sha256d (concat (map ser_out (outs t)))
    ++ writeLE 4 (t_locktime t) ++ writeLE 4 1).

(** ** What the builders mean *)

Definition utxo_ok (u : UTXO) : Prop :=
  length (txid u) = 64%nat /\ 0 <= vout u < 2 ^ 32.

Definition amount_ok (o : TxOutput) : Prop := 0 <= o_value o < 2 ^ 64.

Definition in_of (u : UTXO) : tx_in :=
  {| prev_hash := txid_bytes u; prev_n := vout u; script_sig := []; sequence := 0xffffffff |}.

Definition out_of (o : TxOutput) (s : list Z) : tx_out := {| amount := o_value o; script_pubkey := s |}.

Definition script_ok (s : list Z) : Prop := bytes_ok s /\ Z.of_nat (length s) < 2 ^ 32.

Definition witness_ok (w : list (list Z)) : Prop := Z.of_nat (length w) < 2 ^ 32 /\ Forall script_ok w.

(** The unsigned parts of the transaction the builder is asked for. *)
Definition tx_of (inputs : list UTXO) (outs : list tx_out) (ws : list (list (list Z))) : tx :=
  {| t_version := 2; ins := map in_of inputs; outs := outs; witnesses := ws; t_locktime := 0 |}.

(** ** The loops append *)

Lemma commit_loop_eq inputs p s :
  commit_loop inputs p s
  = Some (p ++ concat (map (fun u => txid_bytes u ++ writeLE 4 (vout u)) inputs),
          s ++ concat (map (fun _ => FINAL_SEQ) inputs)).
Proof.
  revert p s. induction inputs as [|u inputs IH]; intros p s; cbn [commit_loop map concat].
  { by rewrite !app_nil_r. }
  rewrite !cat_concat. cbn [mbind option_bind concat]. rewrite !app_nil_r, IH, writeLE32_LE.
  by rewrite <- !app_assoc.
Qed.

Lemma inputs_loop_eq inputs s :
  inputs_loop inputs s
  = Some (s ++ concat (map (fun u => txid_bytes u ++ writeLE 4 (vout u) ++ [0] ++ FINAL_SEQ) inputs)).
Proof.
  revert s. induction inputs as [|u inputs IH]; intros s; cbn [inputs_loop map concat].
  { by rewrite app_nil_r. }
  rewrite cat_concat. cbn [mbind option_bind concat]. rewrite app_nil_r, IH, writeLE32_LE.
  by rewrite <- !app_assoc.
Qed.

Lemma outputs_loop_eq encs s : outputs_loop encs s = Some (s ++ concat encs).
Proof.
  revert s. induction encs as [|e encs IH]; intros s; cbn [outputs_loop concat]; [by rewrite app_nil_r|].
  rewrite cat_concat. cbn [mbind option_bind concat]. by rewrite app_nil_r, IH, <- !app_assoc.
Qed.

Lemma items_loop_eq items s : items_loop items s = Some (s ++ concat (map var_bytes items)).
Proof.
  revert s. induction items as [|e items IH]; intros s; cbn [items_loop map concat]; [by rewrite app_nil_r|].
  rewrite cat_concat. cbn [mbind option_bind concat]. rewrite app_nil_r, IH. unfold var_bytes.
  by rewrite <- !app_assoc.
Qed.

Definition ser_witness (w : list (list Z)) : list Z :=
  writeVarInt (Z.of_nat (length w)) ++ concat (map var_bytes w).

Lemma witness_loop_eq ws s : witness_loop ws s = Some (s ++ concat (map ser_witness ws)).
Proof.
  revert s. induction ws as [|w ws IH]; intros s; cbn [witness_loop map concat]; [by rewrite app_nil_r|].
  rewrite cat_concat. cbn [mbind option_bind concat]. rewrite app_nil_r, items_loop_eq.
  cbn [mbind option_bind]. rewrite IH. unfold ser_witness. by rewrite <- !app_assoc.
Qed.

(** ** The reader undoes the writers *)

Lemma read_many_concat {A B} (ser : A -> list Z) (val : A -> B) (f : list Z -> option (B * list Z)) xs rest :
  (forall x rest, x ∈ xs -> f (ser x ++ rest) = Some (val x, rest)) ->
  read_many (length xs) f (concat (map ser xs) ++ rest) = Some (map val xs, rest).
Proof.
  revert rest. induction xs as [|x xs IH]; intros rest H; [done|]. cbn [length read_many map concat].
  rewrite <- app_assoc, H by left. cbn [mbind option_bind]. rewrite IH; [done|].
  intros y r Hy. apply H. by right.
Qed.

Lemma read_vec_concat {A B} (ser : A -> list Z) (val : A -> B) f xs rest :
  Z.of_nat (length xs) < 2 ^ 32 ->
  (forall x rest, x ∈ xs -> f (ser x ++ rest) = Some (val x, rest)) ->
  read_vec f ((writeVarInt (Z.of_nat (length xs)) ++ concat (map ser xs)) ++ rest) = Some (map val xs, rest).
Proof.
  intros Hl H. unfold read_vec. rewrite <- app_assoc, read_varint_write by lia. cbn [mbind option_bind].
  rewrite Nat2Z.id. by apply read_many_concat.
Qed.

Lemma read_vbytes_var s rest : script_ok s -> read_vbytes (var_bytes s ++ rest) = Some (s, rest).
Proof.
  intros [_ Hl]. unfold read_vbytes, var_bytes. rewrite <- app_assoc, read_varint_write by lia.
  cbn [mbind option_bind]. rewrite Nat2Z.id. by apply read_n_app.
Qed.

Lemma length_txid_bytes u : utxo_ok u -> length (txid_bytes u) = 32%nat.
Proof. intros [H _]. unfold txid_bytes. by rewrite length_reverse, length_fromHex, H. Qed.

Definition ser_in (u : UTXO) : list Z := txid_bytes u ++ writeLE 4 (vout u) ++ [0] ++ FINAL_SEQ.

Lemma read_in_ser u rest : utxo_ok u -> read_in (ser_in u ++ rest) = Some (in_of u, rest).
Proof.
  intros Hu. unfold read_in, ser_in. rewrite <- !app_assoc.
  rewrite read_n_app by by apply length_txid_bytes. cbn [mbind option_bind].
  rewrite read_le_writeLE by apply Hu. cbn [mbind option_bind].
  change ([0] ++ FINAL_SEQ ++ rest) with (var_bytes [] ++ FINAL_SEQ ++ rest).
  rewrite read_vbytes_var by (split; [constructor|done]). cbn [mbind option_bind].
  by rewrite read_le_app.
Qed.

Lemma read_out_ser o s rest : amount_ok o -> script_ok s -> read_out (ser_out (out_of o s) ++ rest) = Some (out_of o s, rest).
Proof.
  intros Ho Hs. unfold read_out, ser_out. cbn [amount script_pubkey out_of]. rewrite <- app_assoc.
  rewrite read_le_writeLE by apply Ho. cbn [mbind option_bind].
  by rewrite read_vbytes_var.
Qed.

Lemma read_witness_ser w rest : witness_ok w -> read_vec read_vbytes (ser_witness w ++ rest) = Some (w, rest).
Proof.
  intros [Hl Hw]. unfold ser_witness. rewrite (read_vec_concat var_bytes id); [by rewrite map_id|done|].
  intros x r Hx. apply read_vbytes_var. by eapply Forall_forall in Hw.
Qed.

(** ** Bytes *)

Lemma var_bytes_ok s : bytes_ok s -> bytes_ok (var_bytes s).
Proof. intros. apply Forall_app. split; [apply writeVarInt_ok; lia|done]. Qed.

Lemma concat_ok {A} (f : A -> list Z) xs : (forall x, x ∈ xs -> bytes_ok (f x)) -> bytes_ok (concat (map f xs)).
Proof.
  induction xs as [|x xs IH]; intros H; [constructor|]. simpl. apply Forall_app.
  split; [apply H; left|]. apply IH. intros y Hy. apply H. by right.
Qed.

Lemma ser_in_ok u : bytes_ok (ser_in u).
Proof.
  unfold ser_in, txid_bytes. rewrite !Forall_app, Forall_reverse.
  split_and_all; [apply fromHex_ok|apply writeLE_ok|repeat constructor; bytes..].
Qed.

Lemma ser_out_ok o : bytes_ok (script_pubkey o) -> bytes_ok (ser_out o).
Proof. intros H. apply Forall_app. split; [apply writeLE_ok|by apply var_bytes_ok]. Qed.

Lemma ser_witness_ok w : witness_ok w -> bytes_ok (ser_witness w).
Proof.
  intros [_ Hw]. apply Forall_app. split; [apply writeVarInt_ok; lia|]. apply concat_ok.
  intros x Hx. apply var_bytes_ok. eapply Forall_forall in Hw; [|done]. apply Hw.
Qed.

(** ** The builder *)

Lemma encode_outputs_eq outputs scripts :
  mapM (fun '(o, s) => encode_output o s) (zip outputs scripts)
  = Some (map ser_out (zip_with out_of outputs scripts)).
Proof.
  revert scripts. induction outputs as [|o os IH]; intros [|s ss]; try done.
  cbn [zip zip_with mapM map]. unfold encode_output. rewrite cat_concat. cbn [mbind option_bind concat].
  rewrite app_nil_r. fold encode_output. unfold zip in IH. by rewrite IH.
Qed.

Lemma zip_outs_ok outputs scripts :
  Forall amount_ok outputs -> Forall script_ok scripts ->
  Forall (fun o => 0 <= amount o < 2 ^ 64 /\ script_ok (script_pubkey o)) (zip_with out_of outputs scripts).
Proof.
  intros Ho. revert scripts. induction Ho as [|o os Ho Hos IH]; intros [|s ss] Hs; try by constructor.
  apply Forall_cons in Hs as [H1 H2]. constructor; [by split|by apply IH].
Qed.

Section Builder.
Context {C : Crypto} {L : CryptoLaws C}.
Context (to_script : jsstr -> option (list Z)) (code : list Z) (sign : list Z -> option (list (list Z))).
Context (inputs : list UTXO) (outputs : list TxOutput) (scripts : list (list Z)).
Context (Hscripts : mapM (out_script to_script) outputs = Some scripts).
Context (Hin : Forall utxo_ok inputs) (Hout : Forall amount_ok outputs) (Hs : Forall script_ok scripts).
Context (Hni : Z.of_nat (length inputs) < 2 ^ 32) (Hno : Z.of_nat (length outputs) < 2 ^ 32).
Context (Hsign : forall digest, exists w, sign digest = Some w /\ witness_ok w).

Let tx_outs := zip_with out_of outputs scripts.

Lemma length_scripts : length scripts = length outputs.
Proof. symmetry. by apply length_mapM in Hscripts. Qed.

Lemma length_tx_outs : length tx_outs = length outputs.
Proof. unfold tx_outs. rewrite length_zip_with, length_scripts. lia. Qed.

Lemma tx_outs_ok : Forall (fun o => 0 <= amount o < 2 ^ 64 /\ script_ok (script_pubkey o)) tx_outs.
Proof. by apply zip_outs_ok. Qed.

(** The preimage that is signed is the one of BIP-143. *)
Lemma preimage_bip143 ws u :
  exists p, preimage (sha256d (concat (map (fun u => txid_bytes u ++ writeLE 4 (vout u)) inputs)))
      (sha256d (concat (map (fun _ => FINAL_SEQ) inputs)))
      (sha256d (concat (map ser_out tx_outs))) code u = Some p
    /\ sha256d p = bip143 (tx_of inputs tx_outs ws) (in_of u) code (value u).
Proof.
  unfold preimage. rewrite cat_concat. cbn [mbind option_bind]. rewrite cat_concat. cbn [concat]. eexists. split; [done|].
  unfold bip143, tx_of. cbn [ins outs t_version t_locktime]. f_equal.
  rewrite !map_map, !app_nil_r, !writeLE32_LE. unfold outpoint, var_bytes, in_of. cbn [prev_hash prev_n sequence].
  change (writeLE 4 4294967295) with FINAL_SEQ. change (writeLE 4 1) with [1; 0; 0; 0].
  unfold writeLE64. by rewrite <- !app_assoc.
Qed.

Lemma sign_loop_spec ws0 us :
  exists ws, sign_loop (sha256d (concat (map (fun u => txid_bytes u ++ writeLE 4 (vout u)) inputs)))
      (sha256d (concat (map (fun _ => FINAL_SEQ) inputs)))
      (sha256d (concat (map ser_out tx_outs))) code sign us = Some ws
    /\ Forall witness_ok ws
    /\ Forall2 (fun u w => sign (bip143 (tx_of inputs tx_outs ws0) (in_of u) code (value u)) = Some w) us ws.
Proof.
  induction us as [|u us (ws & IH & Hw & H2)]; [by exists []|]. cbn [sign_loop].
  destruct (preimage_bip143 ws0 u) as (p & -> & Ep). cbn [mbind option_bind].
  destruct (Hsign (sha256d p)) as (w & Ew & Hwok). rewrite Ew. cbn [mbind option_bind]. rewrite IH.
  cbn [mbind option_bind]. exists (w :: ws). split; [done|]. split; [by constructor|].
  constructor; [by rewrite <- Ep|done].
Qed.

(** The bytes of the transaction. *)
Definition raw_tx (ws : list (list (list Z))) : list Z :=
  writeLE 4 2 ++ [0; 1]
  ++ (writeVarInt (Z.of_nat (length inputs)) ++ concat (map ser_in inputs))
  ++ (writeVarInt (Z.of_nat (length tx_outs)) ++ concat (map ser_out tx_outs))
  ++ concat (map ser_witness ws) ++ writeLE 4 0.

Lemma raw_tx_ok ws : Forall witness_ok ws -> bytes_ok (raw_tx ws).
Proof.
  intros Hw. unfold raw_tx. rewrite !Forall_app.
  split_and_all.
  - apply writeLE_ok.
  - repeat constructor; bytes.
  - apply writeVarInt_ok. lia.
  - apply concat_ok. intros. apply ser_in_ok.
  - apply writeVarInt_ok. lia.
  - apply concat_ok. intros o Ho. apply ser_out_ok. pose proof tx_outs_ok as H.
    eapply Forall_forall in H; [|done]. apply H.
  - apply concat_ok. intros w Hin'. apply ser_witness_ok. by eapply Forall_forall in Hw.
  - apply writeLE_ok.
Qed.

Lemma parse_raw_tx ws :
  Forall witness_ok ws -> length ws = length inputs ->
  parse_tx (raw_tx ws) = Some (tx_of inputs tx_outs ws).
Proof.
  intros Hw Hlw. unfold parse_tx, raw_tx. rewrite read_le_writeLE by (simpl; lia). cbn [mbind option_bind].
  rewrite read_n_app by done. cbn [mbind option_bind]. rewrite bool_decide_eq_true_2 by done. cbn [negb].
  rewrite (read_vec_concat ser_in in_of); [|done|].
  2:{ intros u r Hu. apply read_in_ser. by eapply Forall_forall in Hin. }
  cbn [mbind option_bind]. rewrite (read_vec_concat ser_out id); [|rewrite length_tx_outs; done|].
  2:{ intros o r Ho. pose proof tx_outs_ok as H. eapply Forall_forall in H; [|done]. destruct H as [Ha Hok].
      destruct o as [v s]. by apply (read_out_ser {| o_address := None; opreturn := None; o_value := v |} s). }
  cbn [mbind option_bind]. rewrite length_map, <- Hlw, (read_many_concat ser_witness id).
  2:{ intros w r Hin'. apply read_witness_ser. by eapply Forall_forall in Hw. }
  cbn [mbind option_bind]. rewrite <- (app_nil_r (writeLE 4 0)), read_le_writeLE by (simpl; lia).
  cbn [mbind option_bind]. rewrite !map_id. done.
Qed.

(** The builder returns a hexadecimal transaction that parses to what was asked
    for, with a witness for every input that answers its BIP-143 digest. *)
Lemma segwit_tx_spec :
  exists hex ws, segwit_tx to_script code sign inputs outputs = Some hex
    /\ parse_tx (fromHex hex) = Some (tx_of inputs tx_outs ws)
    /\ Forall2 (fun u w => sign (bip143 (tx_of inputs tx_outs ws) (in_of u) code (value u)) = Some w) inputs ws.
Proof.
  destruct (sign_loop_spec [] inputs) as (ws & Eloop & Hw & H2). unfold segwit_tx.
  rewrite Hscripts. cbn [mbind option_bind]. rewrite encode_outputs_eq. cbn [mbind option_bind].
  rewrite commit_loop_eq. cbn [mbind option_bind]. rewrite cat_concat. cbn [mbind option_bind].
  cbn [app]. fold tx_outs. rewrite Eloop. cbn [mbind option_bind].
  rewrite inputs_loop_eq. cbn [mbind option_bind]. rewrite outputs_loop_eq. cbn [mbind option_bind].
  rewrite witness_loop_eq. cbn [mbind option_bind]. rewrite cat_concat. cbn [mbind option_bind].
  exists (toHex (raw_tx ws)), ws. split; [|split].
  - do 2 f_equal. unfold raw_tx. cbn [concat]. rewrite app_nil_r, !writeLE32_LE, length_tx_outs.
    done.
  - rewrite fromHex_toHex by by apply raw_tx_ok.
    apply parse_raw_tx; [done|]. symmetry. by apply Forall2_length in H2.
  - done.
Qed.
End Builder.
