(* ===== verification/TxTheorems.v ===== *)
(** * Theorems on the transactions the wallets build *)

From S2P Require Import Prelude JsText Bytes ConvertBits Bech32 Keys Tx TxProofs.
Local Open Scope Z_scope.

(** ** Scripts are bytes *)

Lemma uint8_map_ok l : bytes_ok (map uint8 l).
Proof. apply Forall_map, Forall_true, uint8_ok. Qed.

Lemma addressToScript_bytes a s : addressToScript a = Some s -> bytes_ok s.
Proof.
  unfold addressToScript. destruct (addressToWitnessVersionAndProgram a) as [[v p]|]; [|done].
  cbn [mbind option_bind]. intros H%(inj Some). subst s. apply uint8_map_ok.
Qed.

Lemma ext_addressToScript_bytes a s : ext_addressToScript a = Some s -> bytes_ok s.
Proof.
  unfold ext_addressToScript. destruct (addressToWitnessProgram a) as [p|]; [|done].
  cbn [mbind option_bind]. intros H%(inj Some). subst s. apply uint8_map_ok.
Qed.

Lemma out_scripts_ok to_script outputs scripts :
  (forall a s, to_script a = Some s -> bytes_ok s) ->
  mapM (out_script to_script) outputs = Some scripts ->
  Forall (fun s => Z.of_nat (length s) < 2 ^ 32) scripts -> Forall script_ok scripts.
Proof.
  intros Hts Hm Hl. apply mapM_Some in Hm. revert Hl.
  induction Hm as [|o s os ss Hs Hm IH]; intros Hl; [constructor|].
  apply Forall_cons in Hl as [H1 H2]. constructor; [|by apply IH]. split; [|done].
  unfold out_script in Hs. destruct (opreturn o) as [h|].
  - apply (inj Some) in Hs. subst s. apply uint8_map_ok.
  - destruct (o_address o) as [a|]; [|done]. by apply (Hts a).
Qed.

(** ** Requests *)

(** A request whose scripts resolve and whose numbers fit their fields. *)
Record request_ok (to_script : jsstr -> option (list Z)) (inputs : list UTXO)
    (outputs : list TxOutput) (scripts : list (list Z)) : Prop := {
  rq_scripts : mapM (out_script to_script) outputs = Some scripts;
  rq_inputs : Forall utxo_ok inputs;
  rq_outputs : Forall amount_ok outputs;
  rq_lengths : Forall (fun s => Z.of_nat (length s) < 2 ^ 32) scripts;
  rq_ni : Z.of_nat (length inputs) < 2 ^ 32;
  rq_no : Z.of_nat (length outputs) < 2 ^ 32
}.

(** What the serialised transaction [hex] has to be: it parses to the inputs and
    outputs asked for, and every witness satisfies [answers] for the BIP-143
    digest of its input. *)
Definition built {C : Crypto} (inputs : list UTXO) (outputs : list TxOutput) (scripts : list (list Z))
    (code : list Z) (answers : list Z -> list (list Z) -> Prop) (hex : jsstr) : Prop :=
  exists ws, let t := tx_of inputs (zip_with out_of outputs scripts) ws in
    parse_tx (fromHex hex) = Some t
    /\ Forall2 (fun u w => answers (bip143 t (in_of u) code (value u)) w) inputs ws.

Section Theorems.
Context {C : Crypto} {L : CryptoLaws C}.

Lemma wpkh_sign_ok priv pub :
  bytes_ok pub -> length pub = 33%nat -> (forall m, is_Some (signDER m priv)) ->
  forall m, exists w, wpkh_sign priv pub m = Some w /\ witness_ok w.
Proof.
  intros Hp Hl Hs m. unfold wpkh_sign. destruct (Hs m) as [s Es]. rewrite Es. cbn [mbind option_bind].
  eexists. split; [done|]. destruct (signDER_shape m priv s Es) as [Hsl Hsb].
  split; [done|]. constructor; [|constructor; [|constructor]].
  - split; [apply Forall_app; split; [done|repeat constructor; bytes]|]. rewrite length_app. simpl. lia.
  - split; [done|]. rewrite Hl. done.
Qed.

Lemma pqh_sign_ok sec pub :
  bytes_ok pub -> length pub = 2592%nat ->
  forall m, exists w, pqh_sign sec pub m = Some w /\ witness_ok w.
Proof.
  intros Hp Hl m. eexists. split; [done|]. destruct (mldsa_sign_shape m sec) as [Hb Hn].
  split; [done|]. repeat constructor; try done; [rewrite Hn|rewrite Hl]; done.
Qed.

Lemma built_by to_script code sign inputs outputs scripts :
  (forall a s, to_script a = Some s -> bytes_ok s) ->
  request_ok to_script inputs outputs scripts ->
  (forall m, exists w, sign m = Some w /\ witness_ok w) ->
  exists hex, segwit_tx to_script code sign inputs outputs = Some hex
    /\ built inputs outputs scripts code (fun m w => sign m = Some w) hex.
Proof.
  intros Hts [H1 H2 H3 H4 H5 H6] Hsign.
  destruct (segwit_tx_spec to_script code sign inputs outputs scripts) as (hex & ws & E & Hp & Hw); try done.
  { by eapply out_scripts_ok. }
  exists hex. split; [done|]. exists ws. done.
Qed.



(** Paying a quantum address from the extension's [buildAndSignTx]: the
    transaction is built and signed without an error, and its output script is
    the version 0 script of the program, not the version 2 script the address
    stands for. *)
Theorem ext_payment_to_quantum_address (inputs : list UTXO) (v : Z) (priv pub dest : list Z) :
  Forall utxo_ok inputs -> Z.of_nat (length inputs) < 2 ^ 32 -> 0 <= v < 2 ^ 64 ->
  bytes_ok pub -> length pub = 33%nat -> (forall m, is_Some (signDER m priv)) ->
  exists hex t,
    ext_buildAndSignTx inputs [{| o_address := Some (pubkeyToP2PQH dest); opreturn := None; o_value := v |}]
      priv pub = Some hex
    /\ parse_tx (fromHex hex) = Some t
    /\ outs t = [{| amount := v; script_pubkey := [0; 32] ++ sha256 dest |}]
    /\ segwit_decode BECH32_HRP (pubkeyToP2PQH dest) = Some (2, sha256 dest).
Proof.
  intros Hi Hn Hv Hp Hl Hs. destruct (p2pqh_script dest) as [_ Escr].
  destruct (built_by ext_addressToScript (wpkh_code pub) (wpkh_sign priv pub) inputs
    [{| o_address := Some (pubkeyToP2PQH dest); opreturn := None; o_value := v |}] [[0; 32] ++ sha256 dest])
    as (hex & E & ws & Hparse & Hw).
  - apply ext_addressToScript_bytes.
  - split; try done.
    + cbn [mapM]. unfold out_script. cbn [opreturn o_address mbind option_bind]. by rewrite Escr.
    + constructor; [exact Hv|constructor].
    + constructor; [|constructor]. rewrite length_app, sha256_length. simpl. lia.
  - by apply wpkh_sign_ok.
  - exists hex. eexists. split; [done|]. split; [done|]. split; [done|]. apply p2pqh_decodes.
Qed.
End Theorems.

(** ** Witnesses *)

Definition sample_inputs : list UTXO := [{| txid := replicate 64 97; vout := 1; value := 5000 |}].
Definition sample_outputs {C : Crypto} : list TxOutput := [
  {| o_address := Some (pubkeyToP2WPKH [3; 1; 4]); opreturn := None; o_value := 4000 |};
  {| o_address := None; opreturn := Some (js "68656c6c6f"); o_value := 0 |}].

Definition sample_scripts {C : Crypto} : list (list Z) :=
  [[0; 20] ++ hash160 [3; 1; 4]; [0x6a; 5; 104; 101; 108; 108; 111]].

Lemma sample_request {C : Crypto} {L : CryptoLaws C} :
  request_ok addressToScript sample_inputs sample_outputs sample_scripts.
Proof.
  split; try done.
  - unfold sample_outputs. cbn [mapM]. unfold out_script. cbn [opreturn o_address mbind option_bind].
    destruct (p2wpkh_script [3; 1; 4]) as [-> _]. reflexivity.
  - repeat constructor; done.
  - repeat constructor; done.
  - constructor; [|constructor; [|constructor]]; [|done]. rewrite length_app. unfold hash160.
    rewrite ripemd160_length. done.
Qed.



Lemma ext_payment_to_quantum_address_witness :
  exists hex t, ext_buildAndSignTx (C := toy) sample_inputs
      [{| o_address := Some (pubkeyToP2PQH (C := toy) [9]); opreturn := None; o_value := 4000 |}] [7] (2 :: replicate 32 1) = Some hex
    /\ parse_tx (fromHex hex) = Some t.
Proof.
  destruct (ext_payment_to_quantum_address (C := toy) sample_inputs 4000 [7] (2 :: replicate 32 1) [9])
    as (hex & t & E & P & _);
    [apply (rq_inputs _ _ _ _ (sample_request (C := toy)))|done|lia|by apply (bool_decide_unpack _); vm_compute|done
    | |exists hex, t; split; assumption].
  intros m. eexists. reflexivity.
Defined.

(** ** The extension's inline script *)

Lemma read_words_indexOf cs ws : read_words cs = Some ws -> map indexOf cs = ws.
Proof.
  revert ws. induction cs as [|c cs IH]; intros ws; [by intros [= <-]|]. cbn [read_words map].
  unfold indexOf at 1. destruct (char_index CHARSET c) as [n|]; [|done]. cbn [mbind option_bind].
  destruct (read_words cs) as [rest|]; [|done]. cbn [mbind option_bind]. intros [= <-].
  by rewrite (IH rest).
Qed.

(** The script the extension's quantum builder assembles inline is the one of
    the mobile wallet's [addressToScript] on every address the latter accepts, so
    there the witness version is kept. *)
Theorem ext_quantum_script_agrees (a : jsstr) (s : list Z) :
  addressToScript a = Some s -> ext_quantum_script a = Some s.
Proof.
  unfold addressToScript, addressToWitnessVersionAndProgram, ext_quantum_script.
  destruct (read_words (data_part a)) as [ws|] eqn:E; [|done]. cbn [mbind option_bind].
  rewrite (read_words_indexOf _ _ E), length_map. intros <-. f_equal.
  destruct (ws !! 0%nat); rewrite !map_app, map_map; f_equal; apply map_ext; intros ?; unfold uint8;
    by rewrite Zmod_mod.
Qed.

Lemma ext_quantum_script_agrees_witness :
  ext_quantum_script (pubkeyToP2PQH (C := toy) [9]) = Some ([0x52; 32] ++ sha256 (Crypto := toy) [9]).
Proof. exact (ext_quantum_script_agrees _ _ (proj1 (p2pqh_script (C := toy) [9]))). Defined.

(** ** Data carrier outputs *)

(** The item an [OP_RETURN] script pushes, by the rules of script: a length of 1
    to 75, or one of the three [OP_PUSHDATA]. *)
Definition carried (script : list Z) : option (list Z) :=
  match script with
  | 0x6a :: op :: rest =>
      let take_len k := '(n, rest) ← read_le k rest; '(d, _) ← read_n (Z.to_nat n) rest; Some d in
      if op <? 76 then '(d, _) ← read_n (Z.to_nat op) rest; Some d
      else if op =? 76 then take_len 1%nat
      else if op =? 77 then take_len 2%nat
      else if op =? 78 then take_len 4%nat
      else None
  | _ => None
  end.

Lemma read_n_length n bs d rest : read_n n bs = Some (d, rest) -> length d = n /\ (n + length rest = length bs)%nat.
Proof.
  unfold read_n. destruct (Nat.leb_spec n (length bs)); [|done]. intros [= <- <-].
  rewrite length_take, length_drop. lia.
Qed.

Lemma carried_pushdata k bs d :
  (n ← read_le k bs; '(d, _) ← read_n (Z.to_nat n.1) n.2; Some d) = Some d -> (k + length d <= length bs)%nat.
Proof.
  unfold read_le. destruct (read_n k bs) as [[v r]|] eqn:E; [|done]. cbn [mbind option_bind fst snd].
  destruct (read_n _ r) as [[d' r']|] eqn:E'; [|done]. cbn [mbind option_bind]. intros [= <-].
  apply read_n_length in E, E'. lia.
Qed.

(** The data of an [OP_RETURN] output: up to 75 bytes it is what the script
    pushes; a longer memo is written without [OP_PUSHDATA1], with its length cut
    to a byte, and no reader of the script finds it. *)
Theorem opreturn_carried (hex : jsstr) :
  carried (opreturn_script hex) = Some (fromHex hex) <-> (length (fromHex hex) <= 75)%nat.
Proof.
  unfold opreturn_script. rewrite map_app, (uint8_bytes (fromHex hex)) by apply fromHex_ok.
  set (data := fromHex hex). cbn [map app]. change (uint8 0x6a) with 0x6a. unfold carried.
  pose proof (uint8_ok (Z.of_nat (length data))) as Hop. unfold byte_ok in Hop.
  assert (uint8 (Z.of_nat (length data)) <= Z.of_nat (length data)) as Hle by (apply Z.mod_le; lia).
  split.
  - intros E. destruct (Nat.le_gt_cases (length data) 75) as [|Hgt]; [done|exfalso].
    destruct (Z.ltb_spec (uint8 (Z.of_nat (length data))) 76).
    { destruct (read_n _ data) as [[d r]|] eqn:Ed; [|done]. cbn [mbind option_bind] in E. injection E as E.
      apply read_n_length in Ed. rewrite E in Ed. lia. }
    repeat match type of E with
    | context [if ?c then _ else _] => destruct c
    end; try done.
    + pose proof (carried_pushdata 1 data data) as H'. destruct (read_le 1 data) as [[n r]|]; [|done].
      specialize (H' E). lia.
    + pose proof (carried_pushdata 2 data data) as H'. destruct (read_le 2 data) as [[n r]|]; [|done].
      specialize (H' E). lia.
    + pose proof (carried_pushdata 4 data data) as H'. destruct (read_le 4 data) as [[n r]|]; [|done].
      specialize (H' E). lia.
  - intros Hl. rewrite uint8_small by (unfold byte_ok; lia). rewrite (proj2 (Z.ltb_lt _ _)) by lia.
    rewrite Nat2Z.id. unfold read_n. rewrite (proj2 (Nat.leb_le _ _)) by lia. cbn [mbind option_bind].
    by rewrite firstn_all.
Qed.
