(* ===== verification/Utf8.v ===== *)
(** * UTF-8 decoding and Base64

    [TextDecoder.decode] (the state machine of the encoding standard, malformed
    sequences replaced by U+FFFD), [btoa] and [atob], and their round trips with
    the encoders. Used by the encrypted vault of src/extension/src/store/vault.ts. *)

From S2P Require Import Prelude JsText.
Local Open Scope Z_scope.

(** ** TextDecoder *)

(** What is needed of the sequence that is being read: the code point so far,
    the bytes missing, and the range of the next byte. *)
Record dstate := { cp : Z; needed : Z; lower : Z; upper : Z }.

Definition dinit : dstate := {| cp := 0; needed := 0; lower := 0x80; upper := 0xBF |}.

(** A byte that starts a sequence: the code points it emits and the state. *)
Definition dstart (b : Z) : list Z * dstate :=
  if b <=? 0x7F then ([b], dinit)
  else if (0xC2 <=? b) && (b <=? 0xDF) then
    ([], {| cp := b - 0xC0; needed := 1; lower := 0x80; upper := 0xBF |})
  else if (0xE0 <=? b) && (b <=? 0xEF) then
    ([], {| cp := b - 0xE0; needed := 2;
            lower := if b =? 0xE0 then 0xA0 else 0x80;
            upper := if b =? 0xED then 0x9F else 0xBF |})
  else if (0xF0 <=? b) && (b <=? 0xF4) then
    ([], {| cp := b - 0xF0; needed := 3;
            lower := if b =? 0xF0 then 0x90 else 0x80;
            upper := if b =? 0xF4 then 0x8F else 0xBF |})
  else ([0xFFFD], dinit).

Definition dstep (st : dstate) (b : Z) : list Z * dstate :=
  if needed st =? 0 then dstart b
  else if (lower st <=? b) && (b <=? upper st) then
    let p := cp st * 64 + (b - 0x80) in
    if needed st =? 1 then ([p], dinit)
    else ([], {| cp := p; needed := needed st - 1; lower := 0x80; upper := 0xBF |})
  else let '(out, st') := dstart b in (0xFFFD :: out, st').

Fixpoint decode_points (st : dstate) (bs : list Z) : list Z :=
  match bs with
  | [] => if needed st =? 0 then [] else [0xFFFD]
  | b :: bs => let '(out, st) := dstep st b in out ++ decode_points st bs
  end.

(** Code points to UTF-16 code units. *)
Definition units_of_point (p : Z) : list Z :=
  if p <? 0x10000 then [p]
  else [0xD800 + (p - 0x10000) / 0x400; 0xDC00 + (p - 0x10000) mod 0x400].

Definition strip_bom (ps : list Z) : list Z :=
  match ps with
  | p :: ps' => if p =? 0xFEFF then ps' else ps
  | [] => []
  end.

Definition utf8_decode (bs : list Z) : jsstr :=
  concat (map units_of_point (strip_bom (decode_points dinit bs))).

(** ** Round trip *)

Definition scalar (p : Z) : Prop := 0 <= p < 0x110000 /\ ~ (0xD800 <= p <= 0xDFFF).

(** A string whose surrogates are paired. *)
Fixpoint well_formed (s : jsstr) : bool :=
  match s with
  | [] => true
  | u :: s' =>
      if (0xD800 <=? u) && (u <=? 0xDBFF) then
        match s' with
        | v :: s'' => (0xDC00 <=? v) && (v <=? 0xDFFF) && well_formed s''
        | [] => false
        end
      else negb ((0xDC00 <=? u) && (u <=? 0xDFFF)) && well_formed s'
  end.

(** A continuation byte in range, in the middle and at the end. *)
Lemma decode_mid c n lo hi x rest :
  2 <= n -> lo <= 0x80 + x <= hi ->
  decode_points {| cp := c; needed := n; lower := lo; upper := hi |} ((0x80 + x) :: rest)
  = decode_points {| cp := c * 64 + x; needed := n - 1; lower := 0x80; upper := 0xBF |} rest.
Proof.
  intros Hn Hx. cbn [decode_points]. unfold dstep. cbn [needed lower upper cp].
  rewrite (proj2 (Z.eqb_neq n 0)), !(proj2 (Z.leb_le _ _)), (proj2 (Z.eqb_neq n 1)) by lia.
  cbn [andb app]. do 2 f_equal. lia.
Qed.

Lemma decode_last c lo hi x rest :
  lo <= 0x80 + x <= hi ->
  decode_points {| cp := c; needed := 1; lower := lo; upper := hi |} ((0x80 + x) :: rest)
  = (c * 64 + x) :: decode_points dinit rest.
Proof.
  intros Hx. cbn [decode_points]. unfold dstep. cbn [needed lower upper cp Z.eqb Pos.eqb].
  rewrite !(proj2 (Z.leb_le _ _)) by lia. cbn [andb app]. f_equal. lia.
Qed.

Lemma decode_first b out st rest :
  dstart b = (out, st) -> decode_points dinit (b :: rest) = out ++ decode_points st rest.
Proof. intros H. cbn [decode_points]. unfold dstep, dinit at 1. cbn [needed Z.eqb]. by rewrite H. Qed.

Ltac dstart_tac := unfold dstart;
  repeat match goal with
  | |- context [?a <=? ?b] => rewrite (proj2 (Z.leb_le a b)) by lia
  | |- context [?a <=? ?b] => rewrite (proj2 (Z.leb_gt a b)) by lia
  end; cbn [andb]; reflexivity.

Lemma decode_point p rest :
  scalar p -> decode_points dinit (utf8_point p ++ rest) = p :: decode_points dinit rest.
Proof.
  intros [Hp Hs]. unfold utf8_point.
  destruct (Z.ltb_spec p 0x80); [|destruct (Z.ltb_spec p 0x800); [|destruct (Z.ltb_spec p 0x10000)]];
    cbn [app].
  - rewrite (decode_first p [p] dinit); [done|dstart_tac].
  - assert (2 <= p / 64 < 32 /\ 0 <= p mod 64 < 64 /\ p = p / 64 * 64 + p mod 64) as (A & B & D)
      by (Z.to_euclidean_division_equations; lia).
    erewrite decode_first by dstart_tac. cbn [app]. rewrite decode_last by lia. f_equal. lia.
  - assert (0 <= p / 4096 < 16 /\ 0 <= p / 64 mod 64 < 64 /\ 0 <= p mod 64 < 64
      /\ p = p / 4096 * 4096 + p / 64 mod 64 * 64 + p mod 64) as (A & B & D & E)
      by (Z.to_euclidean_division_equations; lia).
    erewrite decode_first by dstart_tac. cbn [app].
    rewrite decode_mid; [|lia|zbool; lia]. rewrite decode_last by lia. f_equal. lia.
  - assert (0 <= p / 262144 < 5 /\ 0 <= p / 4096 mod 64 < 64 /\ 0 <= p / 64 mod 64 < 64 /\ 0 <= p mod 64 < 64
      /\ p = p / 262144 * 262144 + p / 4096 mod 64 * 4096 + p / 64 mod 64 * 64 + p mod 64) as (A & B & D & E & F)
      by (Z.to_euclidean_division_equations; lia).
    erewrite decode_first by dstart_tac. cbn [app].
    rewrite decode_mid; [|lia|zbool; lia]. rewrite decode_mid by lia. rewrite decode_last by lia. f_equal. lia.
Qed.

Lemma decode_points_encode ps :
  Forall scalar ps -> decode_points dinit (concat (map utf8_point ps)) = ps.
Proof.
  induction 1 as [|p ps Hp Hps IH]; [done|]. cbn [map concat]. by rewrite decode_point, IH.
Qed.

(** The code points of a string with paired surrogates, and back. *)
Lemma code_points_wf s :
  Forall unit_ok s -> well_formed s = true ->
  Forall scalar (code_points s) /\ concat (map units_of_point (code_points s)) = s.
Proof.
  unfold unit_ok. remember (length s) as n eqn:Hn.
  assert (length s <= n)%nat as Hle by lia. clear Hn. revert s Hle.
  induction n as [|n IH]; intros [|u s] Hle Hs Hw; try (split; [constructor|done]).
  { simpl in Hle. lia. }
  apply Forall_cons in Hs as [Hu Hs]. cbn [code_points well_formed] in *.
  destruct ((0xD800 <=? u) && (u <=? 0xDBFF)) eqn:E1.
  - destruct s as [|v s]; [done|]. apply Forall_cons in Hs as [Hv Hs].
    rewrite !andb_true_iff in Hw. destruct Hw as [[V1 V2] Hw].
    rewrite V1, V2. cbn [andb]. destruct (IH s) as [I1 I2]; [simpl in Hle; lia|done|done|].
    split; [constructor; [unfold scalar; lia|done]|]. cbn [map concat]. rewrite I2. unfold units_of_point.
    rewrite (proj2 (Z.ltb_ge _ _)) by lia. cbn [app].
    f_equal; [|f_equal]; Z.to_euclidean_division_equations; lia.
  - rewrite andb_true_iff, negb_true_iff in Hw. destruct Hw as [E2 Hw]. rewrite E2.
    destruct (IH s) as [I1 I2]; [simpl in Hle; lia|done|done|].
    split; [constructor; [unfold scalar; lia|done]|]. cbn [map concat]. rewrite I2. unfold units_of_point.
    by rewrite (proj2 (Z.ltb_lt _ _)) by lia.
Qed.

Lemma utf8_roundtrip s :
  Forall unit_ok s -> well_formed s = true -> (forall t, s <> 0xFEFF :: t) ->
  utf8_decode (utf8_encode s) = s.
Proof.
  intros Hu Hw Hb. destruct (code_points_wf s Hu Hw) as [H1 H2]. unfold utf8_decode, utf8_encode.
  rewrite decode_points_encode by done. unfold strip_bom.
  destruct (code_points s) as [|p ps] eqn:E; [done|].
  destruct (Z.eqb_spec p 0xFEFF) as [-> |Hp]; [|done].
  exfalso. apply (Hb (concat (map units_of_point ps))). symmetry. exact H2.
Qed.

(** ** Base64 *)

Definition B64 : jsstr :=
  Eval vm_compute in js "ABCDEFGHIJKLMNOPQRSTUVWXYZabcdefghijklmnopqrstuvwxyz0123456789+/".

Definition b64 (v : Z) : Z := B64 !!! Z.to_nat v.

(** [btoa] of a string of characters below 256; any other throws. *)
Fixpoint btoa_groups (bs : list Z) : jsstr :=
  match bs with
  | a :: b :: c :: bs =>
      [b64 (a / 4); b64 (a mod 4 * 16 + b / 16); b64 (b mod 16 * 4 + c / 64); b64 (c mod 64)] ++ btoa_groups bs
  | [a; b] => [b64 (a / 4); b64 (a mod 4 * 16 + b / 16); b64 (b mod 16 * 4); 61]
  | [a] => [b64 (a / 4); b64 (a mod 4 * 16); 61; 61]
  | [] => []
  end.

Definition btoa (s : jsstr) : option jsstr :=
  if forallb (fun u => (0 <=? u) && (u <? 256)) s then Some (btoa_groups s) else None.

(** [atob]: white space is dropped, then at most two padding characters. *)
Definition ascii_ws (u : Z) : bool := (u =? 9) || (u =? 10) || (u =? 12) || (u =? 13) || (u =? 32).

Definition strip_pad (s : jsstr) : jsstr :=
  if negb (length s mod 4 =? 0)%nat then s
  else match reverse s with
       | x :: r =>
           if x =? 61
           then match r with
                | y :: r' => if y =? 61 then reverse r' else reverse r
                | [] => []
                end
           else s
       | [] => []
       end.

Fixpoint atob_groups (vs : list Z) : option (list Z) :=
  match vs with
  | a :: b :: c :: d :: vs =>
      rest ← atob_groups vs;
      Some ([a * 4 + b / 16; b mod 16 * 16 + c / 4; c mod 4 * 64 + d] ++ rest)
  | [a; b; c] => Some [a * 4 + b / 16; b mod 16 * 16 + c / 4]
  | [a; b] => Some [a * 4 + b / 16]
  | [a] => None
  | [] => Some []
  end.

Definition b64_value (u : Z) : option Z := (fun p => Z.of_nat p.1) <$> list_find (fun x => x = u) B64.

Definition atob (s : jsstr) : option jsstr :=
  let s := strip_pad (List.filter (fun u => negb (ascii_ws u)) s) in
  vs ← mapM b64_value s;
  atob_groups vs.

Lemma b64_facts v : 0 <= v < 64 ->
  b64_value (b64 v) = Some v /\ b64 v <> 61 /\ ascii_ws (b64 v) = false.
Proof.
  intros Hv. pose (f v := bool_decide (b64_value (b64 v) = Some v) && negb (b64 v =? 61) && negb (ascii_ws (b64 v))).
  assert (f v = true) as Hf.
  { assert (forallb f (seqZ 0 64) = true) as H by (vm_compute; reflexivity).
    rewrite forallb_forall in H. apply H, list_elem_of_In, elem_of_seqZ. lia. }
  unfold f in Hf. rewrite !andb_true_iff, bool_decide_eq_true, !negb_true_iff, Z.eqb_neq in Hf. tauto.
Qed.

(** The six-bit groups behind the characters of [btoa], and its padding. *)
Fixpoint b64_groups (bs : list Z) : list Z :=
  match bs with
  | a :: b :: c :: bs => [a / 4; a mod 4 * 16 + b / 16; b mod 16 * 4 + c / 64; c mod 64] ++ b64_groups bs
  | [a; b] => [a / 4; a mod 4 * 16 + b / 16; b mod 16 * 4]
  | [a] => [a / 4; a mod 4 * 16]
  | [] => []
  end.

Lemma bytes_ind3 (P : list Z -> Prop) :
  P [] -> (forall a, byte_ok a -> P [a]) -> (forall a b, byte_ok a -> byte_ok b -> P [a; b]) ->
  (forall a b c bs, byte_ok a -> byte_ok b -> byte_ok c -> bytes_ok bs -> P bs -> P (a :: b :: c :: bs)) ->
  forall bs, bytes_ok bs -> P bs.
Proof.
  intros H0 H1 H2 H3 bs. remember (length bs) as n eqn:Hn.
  assert (length bs <= n)%nat as Hle by lia. clear Hn. revert bs Hle.
  induction n as [|n IH]; intros [|a [|b [|c bs]]] Hle Hb; simpl in Hle; try lia; try done;
    repeat match goal with H : bytes_ok (_ :: _) |- _ => apply Forall_cons in H as [? ?] end; auto.
  apply H3; try done. apply IH; [lia|done].
Qed.

Lemma b64_groups_spec bs : bytes_ok bs ->
  exists k, (k <= 2)%nat /\ btoa_groups bs = map b64 (b64_groups bs) ++ replicate k 61
    /\ ((length (b64_groups bs) + k) mod 4 = 0)%nat
    /\ Forall (fun v => 0 <= v < 64) (b64_groups bs)
    /\ atob_groups (b64_groups bs) = Some bs.
Proof.
  revert bs. apply bytes_ind3; unfold byte_ok.
  - exists 0%nat. split_and_all; try done. lia.
  - intros a Ha. exists 2%nat. split; [lia|]. split; [done|]. split; [done|]. split.
    + repeat constructor; Z.to_euclidean_division_equations; lia.
    + cbn [b64_groups atob_groups]. do 2 f_equal. Z.to_euclidean_division_equations; lia.
  - intros a b Ha Hb. exists 1%nat. split; [lia|]. split; [done|]. split; [done|]. split.
    + repeat constructor; Z.to_euclidean_division_equations; lia.
    + cbn [b64_groups atob_groups]. f_equal. f_equal; [|f_equal]; Z.to_euclidean_division_equations; lia.
  - intros a b c bs Ha Hb Hc Hbs (k & Hk & E & Hm & Hf & Hd). exists k. split; [done|]. split_and_all.
    + cbn [btoa_groups b64_groups]. rewrite E. by rewrite map_app, <- app_assoc.
    + cbn [b64_groups app length]. replace (S (S (S (S (length (b64_groups bs))))) + k)%nat
        with ((length (b64_groups bs) + k) + 1 * 4)%nat by lia. by rewrite Nat.Div0.mod_add.
    + cbn [b64_groups]. apply Forall_app. split; [|done].
      repeat constructor; Z.to_euclidean_division_equations; lia.
    + cbn [b64_groups app atob_groups]. rewrite Hd. cbn [mbind option_bind]. f_equal.
      cbn [app]. f_equal; [|f_equal; [|f_equal]]; Z.to_euclidean_division_equations; lia.
Qed.

(** Characters of [btoa] are neither white space nor padding. *)
Lemma filter_b64 vs k :
  Forall (fun v => 0 <= v < 64) vs ->
  List.filter (fun u => negb (ascii_ws u)) (map b64 vs ++ replicate k 61) = map b64 vs ++ replicate k 61.
Proof.
  intros H. induction H as [|v vs Hv Hvs IH].
  - cbn [map app]. induction k as [|k IH]; [done|]. cbn [replicate List.filter]. by rewrite IH.
  - cbn [map app List.filter]. destruct (b64_facts v Hv) as (_ & _ & ->). cbn [negb]. by rewrite IH.
Qed.

Lemma strip_pad_b64 vs k :
  (k <= 2)%nat -> ((length vs + k) mod 4 = 0)%nat -> Forall (fun v => 0 <= v < 64) vs ->
  strip_pad (map b64 vs ++ replicate k 61) = map b64 vs.
Proof.
  intros Hk Hm Hv. unfold strip_pad. rewrite length_app, length_map, length_replicate, Hm. cbn [negb Nat.eqb].
  rewrite reverse_app, reverse_replicate. destruct vs as [|v vs _] using rev_ind.
  - do 3 (destruct k as [|k]; [done|]). lia.
  - rewrite map_app. cbn [map]. rewrite reverse_snoc. apply Forall_app in Hv as [_ Hv%Forall_inv].
    destruct (b64_facts v Hv) as (_ & Hne & _). apply Z.eqb_neq in Hne.
    destruct k as [|[|[|k]]]; try lia; cbn [replicate app Z.eqb Pos.eqb]; rewrite ?Hne, ?app_nil_r; try done;
      by rewrite reverse_cons, reverse_involutive.
Qed.

Lemma b64_values vs : Forall (fun v => 0 <= v < 64) vs -> mapM b64_value (map b64 vs) = Some vs.
Proof.
  induction 1 as [|v vs Hv Hvs IH]; [done|]. cbn [map mapM].
  destruct (b64_facts v Hv) as (-> & _). cbn [mbind option_bind]. by rewrite IH.
Qed.

Lemma base64_roundtrip bs : bytes_ok bs -> exists s, btoa bs = Some s /\ atob s = Some bs.
Proof.
  intros Hb. exists (btoa_groups bs). split.
  - unfold btoa. assert (forallb (fun u => (0 <=? u) && (u <? 256)) bs = true) as ->; [|done].
    apply forallb_forall. intros x Hx%list_elem_of_In. eapply Forall_forall in Hb; [|done].
    unfold byte_ok in Hb. lia.
  - destruct (b64_groups_spec bs Hb) as (k & Hk & E & Hm & Hf & Hd). unfold atob.
    rewrite E, filter_b64, strip_pad_b64 by done. rewrite b64_values by done. done.
Qed.
