(* ===== verification/Json.v ===== *)
(** * JSON

    [JSON.stringify] and [JSON.parse] on the values the wallet stores: strings,
    numbers, booleans, null, arrays and objects. An integer is a [JNum], any other
    finite number a [JFrac]; a text that overflows to infinity is not read. *)

From S2P Require Import Prelude JsText Amounts Numbers Utf8.
Local Open Scope Z_scope.

Local Set Warnings "-register-all".

Inductive json : Type :=
| JNull
| JBool (b : bool)
| JNum (n : Z)
| JFrac (x : num)
| JStr (s : jsstr)
| JArr (l : list json)
| JObj (fields : list (jsstr * json)).

Fixpoint json_ind' (P : json -> Prop)
    (Hnull : P JNull) (Hbool : forall b, P (JBool b)) (Hnum : forall n, P (JNum n)) (Hfrac : forall x, P (JFrac x))
    (Hstr : forall s, P (JStr s)) (Harr : forall l, Forall P l -> P (JArr l))
    (Hobj : forall fs, Forall (fun f => P f.2) fs -> P (JObj fs)) (j : json) : P j :=
  match j with
  | JNull => Hnull
  | JBool b => Hbool b
  | JNum n => Hnum n
  | JFrac x => Hfrac x
  | JStr s => Hstr s
  | JArr l => Harr l ((fix go l := match l return Forall P l with
      | [] => Forall_nil_2 P
      | x :: l => Forall_cons_2 P x l (json_ind' P Hnull Hbool Hnum Hfrac Hstr Harr Hobj x) (go l) end) l)
  | JObj fs => Hobj fs ((fix go fs := match fs return Forall (fun f => P f.2) fs with
      | [] => Forall_nil_2 _
      | f :: fs => Forall_cons_2 (fun f => P f.2) f fs (json_ind' P Hnull Hbool Hnum Hfrac Hstr Harr Hobj f.2) (go fs) end) fs)
  end.

(** ** Printing *)

Definition hex4 (u : Z) : jsstr :=
  [92; 117; digit_char (u / 4096); digit_char (u / 256 mod 16); digit_char (u / 16 mod 16); digit_char (u mod 16)].

(** One code unit that is not part of a surrogate pair. *)
Definition escape_unit (u : Z) : jsstr :=
  if u =? 8 then [92; 98] else if u =? 9 then [92; 116] else if u =? 10 then [92; 110]
  else if u =? 12 then [92; 102] else if u =? 13 then [92; 114]
  else if u =? 34 then [92; 34] else if u =? 92 then [92; 92]
  else if (u <? 32) || ((0xD800 <=? u) && (u <=? 0xDFFF)) then hex4 u else [u].

Fixpoint escape (s : jsstr) : jsstr :=
  match s with
  | [] => []
  | u :: s' =>
      match s' with
      | v :: s'' =>
          if (0xD800 <=? u) && (u <=? 0xDBFF) && (0xDC00 <=? v) && (v <=? 0xDFFF)
          then u :: v :: escape s'' else escape_unit u ++ escape s'
      | [] => escape_unit u
      end
  end.

Definition quote (s : jsstr) : jsstr := [34] ++ escape s ++ [34].

Fixpoint commas (ss : list jsstr) : jsstr :=
  match ss with
  | [] => []
  | [s] => s
  | s :: ss => s ++ [44] ++ commas ss
  end.

Fixpoint stringify (j : json) : jsstr :=
  match j with
  | JNull => js "null"
  | JBool true => js "true"
  | JBool false => js "false"
  | JNum n => to_string 10 n
  | JFrac x => number_text x
  | JStr s => quote s
  | JArr l => [91] ++ commas (map stringify l) ++ [93]
  | JObj fs => [123] ++ commas (map (fun f => quote f.1 ++ [58] ++ stringify f.2) fs) ++ [125]
  end.

(** ** Parsing *)

Fixpoint skip_ws (s : jsstr) : jsstr :=
  match s with
  | u :: s' => if (u =? 32) || (u =? 9) || (u =? 10) || (u =? 13) then skip_ws s' else s
  | [] => []
  end.

Definition hex_value (u : Z) : option Z :=
  d ← digit_value u; if d <? 16 then Some d else None.

Definition unescape (e : Z) : option Z :=
  if e =? 98 then Some 8 else if e =? 116 then Some 9 else if e =? 110 then Some 10
  else if e =? 102 then Some 12 else if e =? 114 then Some 13
  else if (e =? 34) || (e =? 92) || (e =? 47) then Some e else None.

(** The rest of a string after its opening quote. *)
Fixpoint parse_string (s : jsstr) : option (jsstr * jsstr) :=
  match s with
  | [] => None
  | u :: s =>
      if u =? 34 then Some ([], s)
      else if u =? 92 then
        match s with
        | e :: s =>
            if e =? 117 then
              match s with
              | a :: b :: c :: d :: s =>
                  a ← hex_value a; b ← hex_value b; c ← hex_value c; d ← hex_value d;
                  '(t, s) ← parse_string s;
                  Some ((((a * 16 + b) * 16 + c) * 16 + d) :: t, s)
              | _ => None
              end
            else
              v ← unescape e; '(t, s) ← parse_string s; Some (v :: t, s)
        | [] => None
        end
      else if u <? 32 then None
      else '(t, s) ← parse_string s; Some (u :: t, s)
  end.

Fixpoint take_digits (s : jsstr) : list Z * jsstr :=
  match s with
  | u :: s' =>
      if (48 <=? u) && (u <=? 57)
      then let '(ds, r) := take_digits s' in ((u - 48) :: ds, r) else ([], s)
  | [] => ([], [])
  end.

(** An integer: no leading zero, no fraction, no exponent. *)
Definition parse_nat (s : jsstr) : option (Z * jsstr) :=
  let '(ds, r) := take_digits s in
  let plain := match r with u :: _ => negb ((u =? 46) || (u =? 101) || (u =? 69)) | [] => true end in
  match ds with
  | [] => None
  | d :: ds' => if plain && (negb (d =? 0) || match ds' with [] => true | _ => false end)
                then Some (num_value 10 ds, r) else None
  end.

Definition parse_int (s : jsstr) : option (Z * jsstr) :=
  match s with
  | u :: s' => if u =? 45 then '(n, r) ← parse_nat s'; Some (- n, r) else parse_nat s
  | [] => None
  end.

(** The digits after a point, the exponent: at least one digit each. *)
Definition fraction (s : jsstr) : option (list Z * jsstr) :=
  match s with
  | u :: s' => if u =? 46 then match take_digits s' with ([], _) => None | p => Some p end else Some ([], s)
  | [] => Some ([], [])
  end.

Definition power (s : jsstr) : option (Z * jsstr) :=
  match s with
  | u :: s' =>
      if (u =? 101) || (u =? 69) then
        let '(sg, r) := sign_of s' in
        match take_digits r with ([], _) => None | (ds, r) => Some (sg * num_value 10 ds, r) end
      else Some (0, s)
  | [] => Some (0, [])
  end.

(** The value of a number: an integer or a fraction. *)
Definition of_num (x : num) : json :=
  if frac_n x mod frac_d x =? 0 then JNum (frac_n x / frac_d x) else JFrac x.

(** A number with a fraction or an exponent. *)
Definition parse_frac (s : jsstr) : option (json * jsstr) :=
  let '(sg, s) := match s with u :: s' => if u =? 45 then (-1, s') else (1, s) | [] => (1, []) end in
  let '(ds, r) := take_digits s in
  if match ds with [] => true | [_] => false | d :: _ => d =? 0 end then None else
  '(fp, r) ← fraction r; '(ex, r) ← power r;
  match decimal (sg * num_value 10 (ds ++ fp)) (ex - Z.of_nat (length fp)) with
  | Fin x => Some (of_num x, r)
  | _ => None
  end.

Definition parse_num (s : jsstr) : option (json * jsstr) :=
  match parse_int s with Some (n, r) => Some (JNum n, r) | None => parse_frac s end.

Definition expect (word : jsstr) (j : json) (s : jsstr) : option (json * jsstr) :=
  if bool_decide (take (length word) s = word) then Some (j, drop (length word) s) else None.

Fixpoint parse_value (fuel : nat) (s : jsstr) : option (json * jsstr) :=
  match fuel with
  | O => None
  | S fuel =>
      match skip_ws s with
      | [] => None
      | u :: r =>
          if u =? 34 then '(t, r) ← parse_string r; Some (JStr t, r)
          else if u =? 91 then
            match skip_ws r with
            | v :: r' => if v =? 93 then Some (JArr [], r')
                         else '(l, r) ← parse_elems fuel r; Some (JArr l, r)
            | [] => None
            end
          else if u =? 123 then
            match skip_ws r with
            | v :: r' => if v =? 125 then Some (JObj [], r')
                         else '(fs, r) ← parse_members fuel r; Some (JObj fs, r)
            | [] => None
            end
          else if u =? 110 then expect (js "null") JNull (u :: r)
          else if u =? 116 then expect (js "true") (JBool true) (u :: r)
          else if u =? 102 then expect (js "false") (JBool false) (u :: r)
          else parse_num (u :: r)
      end
  end
with parse_elems (fuel : nat) (s : jsstr) : option (list json * jsstr) :=
  match fuel with
  | O => None
  | S fuel =>
      '(v, r) ← parse_value fuel s;
      match skip_ws r with
      | u :: r =>
          if u =? 44 then '(l, r) ← parse_elems fuel r; Some (v :: l, r)
          else if u =? 93 then Some ([v], r) else None
      | [] => None
      end
  end
with parse_members (fuel : nat) (s : jsstr) : option (list (jsstr * json) * jsstr) :=
  match fuel with
  | O => None
  | S fuel =>
      match skip_ws s with
      | q :: r =>
          if negb (q =? 34) then None else
          '(k, r) ← parse_string r;
          match skip_ws r with
          | c :: r =>
              if negb (c =? 58) then None else
              '(v, r) ← parse_value fuel r;
              match skip_ws r with
              | u :: r =>
                  if u =? 44 then '(l, r) ← parse_members fuel r; Some ((k, v) :: l, r)
                  else if u =? 125 then Some ([(k, v)], r) else None
              | [] => None
              end
          | [] => None
          end
      | [] => None
      end
  end.

(** [JSON.parse]; every call consumes a character or enters a level, so twice
    the length is enough. *)
Definition json_parse (s : jsstr) : option json :=
  '(j, r) ← parse_value (2 * length s + 2) s;
  match skip_ws r with [] => Some j | _ => None end.

(** [o.key]: of a repeated key the last counts; [None] is [undefined]. *)
Fixpoint field (fs : list (jsstr * json)) (key : jsstr) : option json :=
  match fs with
  | [] => None
  | (k, v) :: fs =>
      match field fs key with
      | Some w => Some w
      | None => if bool_decide (k = key) then Some v else None
      end
  end.

(** ** Strings are read back *)

Lemma hex_value_char d : 0 <= d < 16 -> hex_value (digit_char d) = Some d.
Proof.
  intros Hd. unfold hex_value, digit_value, digit_char.
  destruct (Z.ltb_spec d 10).
  - rewrite !(proj2 (Z.leb_le _ _)) by lia. cbn [andb mbind option_bind].
    rewrite (proj2 (Z.ltb_lt _ _)) by lia. f_equal. lia.
  - rewrite (proj2 (Z.leb_gt (87 + d) 57)), andb_false_r by lia.
    rewrite !(proj2 (Z.leb_le _ _)) by lia. cbn [andb mbind option_bind].
    rewrite (proj2 (Z.ltb_lt _ _)) by lia. f_equal. lia.
Qed.

Lemma parse_escape_unit u x t r :
  unit_ok u -> parse_string x = Some (t, r) -> parse_string (escape_unit u ++ x) = Some (u :: t, r).
Proof.
  intros Hu Hx. unfold unit_ok in Hu. unfold escape_unit.
  repeat match goal with
  | |- context [if ?a =? ?b then _ else _] =>
      destruct (Z.eqb_spec a b) as [-> |]; [cbn -[parse_string]; cbn [parse_string Z.eqb Pos.eqb unescape orb mbind option_bind]; by rewrite Hx|]
  end.
  destruct ((u <? 32) || ((0xD800 <=? u) && (u <=? 0xDFFF))) eqn:E.
  - unfold hex4. cbn [app parse_string Z.eqb Pos.eqb].
    rewrite !hex_value_char by (Z.to_euclidean_division_equations; lia). cbn [mbind option_bind].
    rewrite Hx. cbn [mbind option_bind]. do 3 f_equal. Z.to_euclidean_division_equations; lia.
  - cbn [app parse_string]. rewrite (proj2 (Z.eqb_neq u 34)), (proj2 (Z.eqb_neq u 92)) by done.
    rewrite (proj2 (Z.ltb_ge u 32)) by lia. by rewrite Hx.
Qed.

Lemma parse_escape s rest :
  Forall unit_ok s -> parse_string (escape s ++ 34 :: rest) = Some (s, rest).
Proof.
  remember (length s) as n eqn:Hn. assert (length s <= n)%nat as Hle by lia. clear Hn. revert s Hle.
  induction n as [|n IH]; intros [|u s] Hle Hs; [done|simpl in Hle; lia|done|].
  apply Forall_cons in Hs as [Hu Hs]. destruct s as [|v s]; [by apply parse_escape_unit|].
  cbn [escape]. destruct (_ && _ && _ && _) eqn:E.
  - apply Forall_cons in Hs as [Hv Hs]. cbn [app parse_string].
    do 4 (rewrite (proj2 (Z.eqb_neq _ _)) by lia). rewrite !(proj2 (Z.ltb_ge _ _)) by lia.
    rewrite IH by (simpl in Hle; (lia || done)). done.
  - rewrite <- app_assoc. apply parse_escape_unit; [done|].
    apply (IH (v :: s)); [simpl in *; lia|done].
Qed.

(** ** Numbers are read back *)

(** What follows a value inside a document. *)
Definition delim (r : jsstr) : Prop :=
  match r with [] => True | u :: _ => u = 44 \/ u = 93 \/ u = 125 end.

Lemma take_digits_chars ds r :
  Forall (digit_ok 10) ds -> delim r -> take_digits (map digit_char ds ++ r) = (ds, r).
Proof.
  intros H Hr. induction H as [|d ds Hd Hds IH]; cbn [map app take_digits].
  - destruct r as [|u r]; [done|]. simpl in Hr. cbn [take_digits].
    destruct ((48 <=? u) && (u <=? 57)) eqn:E; [lia|done].
  - unfold digit_ok in Hd. assert (digit_char d = 48 + d) as ->
      by (unfold digit_char; by rewrite (proj2 (Z.ltb_lt d 10)) by lia).
    rewrite (proj2 (Z.leb_le 48 _)), (proj2 (Z.leb_le _ 57)) by lia. cbn [andb]. rewrite IH.
    do 2 f_equal. lia.
Qed.

Lemma parse_nat_digits ds r :
  Forall (digit_ok 10) ds -> delim r -> ds <> [] -> (canonical ds \/ ds = [0]) ->
  parse_nat (map digit_char ds ++ r) = Some (num_value 10 ds, r).
Proof.
  intros Hd Hr Hne Hc. unfold parse_nat. rewrite take_digits_chars by done.
  assert (match r with u :: _ => negb ((u =? 46) || (u =? 101) || (u =? 69)) | [] => true end = true) as ->.
  { destruct r as [|u r]; [done|]. simpl in Hr. lia. }
  destruct ds as [|d ds]; [done|]. cbn [andb]. destruct Hc as [Hc|[= -> ->]]; [|done].
  simpl in Hc. by rewrite (proj2 (Z.eqb_neq d 0)).
Qed.

Lemma digits_not_nil n : 0 < n -> digits 10 n <> [].
Proof. intros Hn E. apply digits_nil in E; lia. Qed.

Lemma to_string_first n : exists u t, to_string 10 n = u :: t /\ (u = 45 \/ 48 <= u <= 57).
Proof.
  unfold to_string. destruct (Z.eqb_spec n 0); [exists 48, []; split; [done|lia]|].
  destruct (Z.ltb_spec n 0); [eexists _, _; split; [done|by left]|].
  pose proof (to_string_10 n ltac:(lia)) as H'. unfold to_string in H'.
  rewrite (proj2 (Z.eqb_neq n 0)), (proj2 (Z.ltb_ge n 0)) in H' by lia.
  pose proof (digits_not_nil n ltac:(lia)) as Hn. destruct (digits 10 n) as [|d ds]; [done|].
  cbn [map] in *. apply Forall_inv in H'. eexists _, _. split; [done|by right].
Qed.

Lemma parse_int_string n r : delim r -> parse_int (to_string 10 n ++ r) = Some (n, r).
Proof.
  intros Hr. unfold to_string. destruct (Z.eqb_spec n 0) as [-> |Hn].
  { cbn [app parse_int Z.eqb Pos.eqb]. apply (parse_nat_digits [0]); auto. repeat constructor; lia. }
  destruct (Z.ltb_spec n 0).
  - cbn [app parse_int Z.eqb Pos.eqb]. rewrite parse_nat_digits.
    + cbn [mbind option_bind]. rewrite digits_value by lia. do 2 f_equal. lia.
    + apply digits_digit_ok. lia.
    + done.
    + apply digits_not_nil. lia.
    + left. apply digits_head; lia.
  - assert (parse_nat (map digit_char (digits 10 n) ++ r) = Some (n, r)) as Hp.
    { rewrite parse_nat_digits; [by rewrite digits_value by lia|apply digits_digit_ok; lia|done|apply digits_not_nil; lia|].
      left. apply digits_head; lia. }
    destruct (to_string_first n) as (u & t & Eu & Hu). unfold to_string in Eu.
    rewrite (proj2 (Z.eqb_neq n 0)), (proj2 (Z.ltb_ge n 0)) in Eu by lia. rewrite Eu in *.
    cbn [app parse_int] in *. destruct (Z.eqb_spec u 45) as [-> |]; [|done].
    unfold parse_nat in Hp. cbn [take_digits andb Z.leb Z.compare] in Hp. done.
Qed.

Lemma take_digits_app t ds t' r :
  take_digits t = (ds, t') -> delim r -> take_digits (t ++ r) = (ds, t' ++ r).
Proof.
  intros H Hr. revert ds H. induction t as [|u t IH]; intros ds H; cbn [take_digits app] in *.
  - injection H as <- <-. destruct r as [|u r]; [done|]. simpl in Hr. cbn [take_digits app].
    destruct ((48 <=? u) && (u <=? 57)) eqn:E; [lia|done].
  - destruct ((48 <=? u) && (u <=? 57)); [|by injection H as <- <-].
    destruct (take_digits t) as [ds' r'] eqn:E. injection H as <- <-. by rewrite (IH ds').
Qed.

Lemma fraction_app t fp t' r : fraction t = Some (fp, t') -> delim r -> fraction (t ++ r) = Some (fp, t' ++ r).
Proof.
  intros H Hr. destruct t as [|u t]; cbn [fraction app] in *.
  - injection H as <- <-. destruct r as [|u r]; [done|]. simpl in Hr. cbn [fraction app].
    destruct (Z.eqb_spec u 46); [lia|done].
  - destruct (u =? 46); [|by injection H as <- <-]. destruct (take_digits t) as [ds r'] eqn:E.
    rewrite (take_digits_app t ds r') by done. by destruct ds; [|injection H as <- <-].
Qed.

Lemma sign_of_app t r : delim r -> sign_of (t ++ r) = ((sign_of t).1, (sign_of t).2 ++ r).
Proof.
  intros Hr. destruct t as [|u t]; cbn [sign_of app]; [|by destruct (u =? 45), (u =? 43)].
  destruct r as [|u r]; [done|]. simpl in Hr. cbn [sign_of]. destruct (Z.eqb_spec u 45), (Z.eqb_spec u 43); lia || done.
Qed.

Lemma power_app t ex t' r : power t = Some (ex, t') -> delim r -> power (t ++ r) = Some (ex, t' ++ r).
Proof.
  intros H Hr. destruct t as [|u t]; cbn [power app] in *.
  - injection H as <- <-. destruct r as [|u r]; [done|]. simpl in Hr. cbn [power app].
    destruct ((u =? 101) || (u =? 69)) eqn:E; [lia|done].
  - destruct ((u =? 101) || (u =? 69)); [|by injection H as <- <-]. rewrite sign_of_app by done.
    destruct (sign_of t) as [sg s']. cbn [fst snd]. destruct (take_digits s') as [ds r'] eqn:E.
    rewrite (take_digits_app s' ds r') by done. by destruct ds; [|injection H as <- <-].
Qed.

Lemma parse_frac_app t j t' r : parse_frac t = Some (j, t') -> delim r -> parse_frac (t ++ r) = Some (j, t' ++ r).
Proof.
  intros H Hr. unfold parse_frac in *. destruct t as [|u t]; [done|]. cbn [app].
  set (p := if u =? 45 then (-1, t) else (1, u :: t)) in *.
  assert ((if u =? 45 then (-1, t ++ r) else (1, u :: t ++ r)) = (p.1, p.2 ++ r)) as -> by by unfold p; destruct (u =? 45).
  destruct p as [sg s]. cbn [fst snd] in *. destruct (take_digits s) as [ds r'] eqn:E.
  rewrite (take_digits_app s ds r') by done. destruct (match ds with [] => true | _ => _ end); [done|].
  destruct (fraction r') as [[fp r2]|] eqn:E2; [|done]. rewrite (fraction_app r' fp r2) by done.
  cbn [mbind option_bind] in *. destruct (power r2) as [[ex r3]|] eqn:E3; [|done].
  rewrite (power_app r2 ex r3) by done. cbn [mbind option_bind] in *.
  destruct (decimal _ _); [done..|]. by injection H as <- <-.
Qed.

Lemma parse_nat_app t r : delim r -> parse_nat (t ++ r) = '(n, r') ← parse_nat t; Some (n, r' ++ r).
Proof.
  intros Hr. unfold parse_nat. destruct (take_digits t) as [ds t'] eqn:E. rewrite (take_digits_app t ds t') by done.
  assert (match t' ++ r with u :: _ => negb ((u =? 46) || (u =? 101) || (u =? 69)) | [] => true end
          = match t' with u :: _ => negb ((u =? 46) || (u =? 101) || (u =? 69)) | [] => true end) as ->.
  { destruct t' as [|u t']; [|done]. destruct r as [|u r]; [done|]. simpl in Hr. cbn [app]. lia. }
  destruct ds as [|d ds]; [done|]. by destruct (_ && _).
Qed.

Lemma parse_int_app t r : delim r -> parse_int (t ++ r) = '(n, r') ← parse_int t; Some (n, r' ++ r).
Proof.
  intros Hr. destruct t as [|u t]; cbn [app parse_int].
  - destruct r as [|u r]; [done|]. simpl in Hr. cbn [parse_int]. rewrite (proj2 (Z.eqb_neq u 45)) by lia.
    unfold parse_nat. cbn [take_digits]. destruct ((48 <=? u) && (u <=? 57)) eqn:E; [lia|done].
  - destruct (u =? 45); [|apply (parse_nat_app (u :: t) r Hr)].
    rewrite parse_nat_app by done. by destruct (parse_nat t) as [[n r']|].
Qed.

Lemma parse_num_app t j r : parse_num t = Some (j, []) -> delim r -> parse_num (t ++ r) = Some (j, r).
Proof.
  intros H Hr. unfold parse_num in *. rewrite parse_int_app by done.
  destruct (parse_int t) as [[n r']|]; cbn [mbind option_bind].
  - injection H as <- ->. done.
  - by rewrite (parse_frac_app t j []).
Qed.

(** ** Documents are read back *)

Definition units (s : jsstr) : bool := forallb (fun u => (0 <=? u) && (u <? 0x10000)) s.

(** The printed number reads back with the same mantissa and exponent. *)
Definition printable (x : num) : bool :=
  match parse_num (number_text x) with Some (JFrac y, []) => bool_decide (mant x = mant y /\ expo x = expo y) | _ => false end.

Fixpoint json_ok (j : json) : bool :=
  match j with
  | JFrac x => printable x
  | JStr s => units s
  | JArr l => forallb json_ok l
  | JObj fs => forallb (fun f => units f.1 && json_ok f.2) fs
  | _ => true
  end.

(** Fuel that is enough to read a value. *)
Fixpoint need (j : json) : nat :=
  match j with
  | JArr l => S (sum_list (map (fun x => S (need x)) l))
  | JObj fs => S (sum_list (map (fun f => S (need f.2)) fs))
  | _ => 1
  end.

Lemma number_text_first x : exists u t, number_text x = u :: t /\ (u = 45 \/ 48 <= u <= 57).
Proof.
  unfold number_text. destruct (mant x =? 0); [exists 48, []; split; [done|lia]|].
  destruct (shortest _ _ _ _ _ _) as [[s n] k]. destruct (mant x <? 0); [eexists _, _; split; [done|by left]|].
  destruct (to_string_first (Z.abs s)) as (u & t & -> & Hu). cbn [app]. unfold layout.
  destruct ((k <=? n) && (n <=? 21)); [eexists _, _; split; [reflexivity|done]|].
  destruct ((0 <? n) && (n <=? 21)) eqn:En.
  { destruct (Z.to_nat n) eqn:Ez; [lia|]. eexists _, _. split; [reflexivity|done]. }
  destruct ((-6 <? n) && (n <=? 0)); [exists 48; eexists; split; [reflexivity|lia]|].
  destruct (k =? 1); eexists _, _; (split; [reflexivity|done]).
Qed.

Lemma units_ok s : units s = true -> Forall unit_ok s.
Proof.
  intros H. apply Forall_forall. intros u Hu. unfold units in H. rewrite forallb_forall in H.
  specialize (H u (proj1 (list_elem_of_In _ _) Hu)). unfold unit_ok. lia.
Qed.

Lemma stringify_head j : exists u t, stringify j = u :: t
  /\ ((u =? 32) || (u =? 9) || (u =? 10) || (u =? 13)) = false /\ u <> 93 /\ u <> 125 /\ u <> 0xFEFF.
Proof.
  destruct j as [|[]|n|x|s|l|fs]; try (eexists _, _; split; [reflexivity|done]); cbn [stringify].
  - destruct (to_string_first n) as (u & t & E & Hu). exists u, t. split; [done|lia].
  - destruct (number_text_first x) as (u & t & E & Hu). exists u, t. split; [done|lia].
Qed.

Lemma parse_printed x r : printable x = true -> delim r -> parse_num (number_text x ++ r) = Some (JFrac x, r).
Proof.
  unfold printable. intros H Hr. apply parse_num_app; [|done].
  destruct (parse_num (number_text x)) as [[[| | |y| | |] [|]]|]; try done. apply bool_decide_eq_true in H as [H1 H2].
  do 3 f_equal. destruct x, y. simpl in *. by subst.
Qed.

Lemma skip_ws_value j r : skip_ws (stringify j ++ r) = stringify j ++ r.
Proof. destruct (stringify_head j) as (u & t & -> & Hw & _). cbn [app skip_ws]. by rewrite Hw. Qed.

(** [parse_value] returns what was printed, followed by [rest]. *)
Definition reads (j : json) : Prop :=
  json_ok j = true -> forall f rest, (need j <= f)%nat -> delim rest ->
    parse_value f (stringify j ++ rest) = Some (j, rest).

Lemma commas_cons s ss : ss <> [] -> commas (s :: ss) = s ++ [44] ++ commas ss.
Proof. by destruct ss. Qed.

Lemma parse_elems_commas l f rest :
  l <> [] -> Forall reads l -> forallb json_ok l = true ->
  (sum_list (map (fun x => S (need x)) l) <= f)%nat ->
  parse_elems f (commas (map stringify l) ++ 93 :: rest) = Some (l, rest).
Proof.
  intros Hne H. revert f Hne. induction H as [|x l Hx Hl IH]; intros f Hne Hok Hf; [done|].
  cbn [forallb] in Hok. apply andb_true_iff in Hok as [Hok1 Hok2].
  cbn [map sum_list fold_right] in Hf. destruct f as [|f]; [simpl in Hf; lia|]. cbn [parse_elems].
  destruct l as [|y l].
  - cbn [map commas]. rewrite (Hx Hok1 f (93 :: rest)); [|simpl in Hf; lia|simpl; lia]. done.
  - cbn [map] in *. rewrite commas_cons by done. rewrite <- !app_assoc.
    rewrite (Hx Hok1 f); [|simpl in Hf; lia|simpl; lia]. cbn [mbind option_bind app skip_ws Z.eqb Pos.eqb orb].
    rewrite IH; [done|done|done|]. simpl in *. lia.
Qed.

Lemma parse_members_commas fs f rest :
  fs <> [] -> Forall (fun f => reads f.2) fs -> forallb (fun f => units f.1 && json_ok f.2) fs = true ->
  (sum_list (map (fun f => S (need f.2)) fs) <= f)%nat ->
  parse_members f (commas (map (fun f => quote f.1 ++ [58] ++ stringify f.2) fs) ++ 125 :: rest) = Some (fs, rest).
Proof.
  intros Hne H. revert f Hne. induction H as [|[k v] fs Hx Hfs IH]; intros f Hne Hok Hf; [done|].
  cbn [forallb fst snd] in *. rewrite !andb_true_iff in Hok. destruct Hok as [[Hk Hok1] Hok2].
  destruct f as [|f]; [simpl in Hf; lia|]. cbn [parse_members].
  assert (forall rest', delim rest' ->
    match skip_ws ((quote k ++ [58] ++ stringify v) ++ rest') with
    | q :: r => if negb (q =? 34) then None else
        '(k, r) ← parse_string r;
        match skip_ws r with
        | c :: r => if negb (c =? 58) then None else '(v, r) ← parse_value f r; Some (k, v, r)
        | [] => None
        end
    | [] => None
    end = Some (k, v, rest')) as Hkv.
  { intros rest' Hd. unfold quote. rewrite <- !app_assoc. cbn [app skip_ws Z.eqb Pos.eqb orb negb].
    rewrite parse_escape by by apply units_ok. cbn [mbind option_bind skip_ws Z.eqb Pos.eqb orb negb].
    rewrite (Hx Hok1 f rest'); [done|simpl in Hf; lia|done]. }
  destruct fs as [|kv fs].
  - cbn [map commas fst snd] in *. specialize (Hkv (125 :: rest) ltac:(simpl; lia)).
    destruct (skip_ws _) as [|q r]; [done|]. destruct (negb (q =? 34)); [done|].
    destruct (parse_string r) as [[k' r']|]; [|done]. cbn [mbind option_bind] in *.
    destruct (skip_ws r') as [|c r2]; [done|]. destruct (negb (c =? 58)); [done|].
    destruct (parse_value f r2) as [[v' r3]|]; [|done]. cbn [mbind option_bind] in *. by injection Hkv as -> -> ->.
  - cbn [map fst snd] in *. rewrite commas_cons by done. rewrite <- (app_assoc (_ ++ _)), <- (app_assoc [44]).
    specialize (Hkv ([44] ++ commas ((quote kv.1 ++ [58] ++ stringify kv.2) ::
      map (fun f => quote f.1 ++ [58] ++ stringify f.2) fs) ++ 125 :: rest) ltac:(simpl; lia)).
    destruct (skip_ws _) as [|q r]; [done|]. destruct (negb (q =? 34)); [done|].
    destruct (parse_string r) as [[k' r']|]; [|done]. cbn [mbind option_bind] in *.
    destruct (skip_ws r') as [|c r2]; [done|]. destruct (negb (c =? 58)); [done|].
    destruct (parse_value f r2) as [[v' r3]|]; [|done]. cbn [mbind option_bind] in *. injection Hkv as -> -> ->.
    cbn [app skip_ws Z.eqb Pos.eqb orb]. rewrite IH; [done|done|done|]. simpl in *. lia.
Qed.

Lemma parse_value_stringify j : reads j.
Proof.
  induction j as [|b|n|x|s|l Hl|fs Hfs] using json_ind'; intros Hok f rest Hf Hr;
    destruct f as [|f]; try (simpl in Hf; lia).
  - done.
  - by destruct b.
  - cbn [parse_value]. rewrite (skip_ws_value (JNum n)). cbn [stringify].
    pose proof (parse_int_string n rest Hr) as Hp.
    destruct (to_string_first n) as (u & t & E & Hu). rewrite E in *. cbn [app] in *.
    do 6 (rewrite (proj2 (Z.eqb_neq u _)) by lia). unfold parse_num. by rewrite Hp.
  - cbn [parse_value]. rewrite (skip_ws_value (JFrac x)). cbn [stringify json_ok] in *.
    pose proof (parse_printed x rest Hok Hr) as Hp.
    destruct (number_text_first x) as (u & t & E & Hu). rewrite E in *. cbn [app] in *.
    do 6 (rewrite (proj2 (Z.eqb_neq u _)) by lia). exact Hp.
  - cbn [parse_value stringify]. unfold quote. rewrite <- !app_assoc.
    cbn [app skip_ws Z.eqb Pos.eqb orb]. cbn [json_ok] in Hok. by rewrite parse_escape by by apply units_ok.
  - cbn [parse_value stringify]. rewrite <- !app_assoc. cbn [app skip_ws Z.eqb Pos.eqb orb].
    destruct l as [|x l]; [done|]. cbn [json_ok] in Hok.
    pose proof (parse_elems_commas (x :: l) f rest ltac:(done) Hl Hok) as Hp.
    specialize (Hp ltac:(simpl in *; lia)). destruct (stringify_head x) as (u & t & E & Hw & H93 & _).
    assert (exists t', commas (map stringify (x :: l)) ++ 93 :: rest = u :: t') as [t' Et].
    { destruct l; cbn [map]; [|rewrite commas_cons by done]; rewrite E; cbn [commas app]; eauto. }
    rewrite Et in *. cbn [skip_ws]. rewrite Hw, (proj2 (Z.eqb_neq u 93)) by done. by rewrite Hp.
  - cbn [parse_value stringify]. rewrite <- !app_assoc. cbn [app skip_ws Z.eqb Pos.eqb orb].
    destruct fs as [|kv fs]; [done|]. cbn [json_ok] in Hok.
    pose proof (parse_members_commas (kv :: fs) f rest ltac:(done) Hfs Hok) as Hp.
    specialize (Hp ltac:(simpl in *; lia)). cbn [app] in Hp.
    assert (exists t', commas (map (fun f => quote f.1 ++ 58 :: stringify f.2) (kv :: fs)) ++ 125 :: rest = 34 :: t') as [t' Et].
    { destruct fs; cbn [map]; [|rewrite commas_cons by done]; cbn [commas quote app]; eauto. }
    rewrite Et in *. cbn [skip_ws Z.eqb Pos.eqb orb]. by rewrite Hp.
Qed.

Lemma length_commas ss : (sum_list (map length ss) + length ss <= S (length (commas ss)))%nat.
Proof.
  induction ss as [|s [|s' ss] IH]; [simpl; lia|simpl; lia|]. rewrite commas_cons by done.
  rewrite !length_app. cbn [map sum_list fold_right length] in *. simpl in *. lia.
Qed.

Lemma need_bound j : (need j <= 2 * length (stringify j))%nat.
Proof.
  induction j as [|b|n|x|s|l Hl|fs Hfs] using json_ind'.
  - simpl. lia.
  - destruct b; simpl; lia.
  - destruct (to_string_first n) as (u & t & E & _). cbn [need stringify]. rewrite E. simpl. lia.
  - destruct (number_text_first x) as (u & t & E & _). cbn [need stringify]. rewrite E. simpl. lia.
  - simpl. lia.
  - cbn [need stringify]. rewrite !length_app. pose proof (length_commas (map stringify l)) as Hc.
    rewrite map_map, length_map in Hc.
    assert (sum_list (map (fun x => S (need x)) l)
            <= length l + 2 * sum_list (map (fun x => length (stringify x)) l))%nat.
    { clear Hc. induction Hl as [|x l Hx Hl IH]; [simpl; lia|]. simpl in *. lia. }
    simpl length. lia.
  - cbn [need stringify]. rewrite !length_app.
    pose proof (length_commas (map (fun f => quote f.1 ++ [58] ++ stringify f.2) fs)) as Hc.
    rewrite map_map, length_map in Hc.
    assert (sum_list (map (fun f => S (need f.2)) fs)
            <= length fs + 2 * sum_list (map (fun f => length (quote f.1 ++ [58%Z] ++ stringify f.2)) fs))%nat.
    { clear Hc. induction Hfs as [|x l Hx Hl IH]; [simpl; lia|].
      cbn [map sum_list fold_right length]. rewrite !length_app. simpl in *. lia. }
    set (c := length (commas _)) in *. cbn [length]. lia.
Qed.

Lemma json_parse_stringify j : json_ok j = true -> json_parse (stringify j) = Some j.
Proof.
  intros Hok. unfold json_parse. pose proof (need_bound j).
  rewrite <- (app_nil_r (stringify j)) at 2. by rewrite parse_value_stringify by (done || lia).
Qed.

(** [JSON.parse] reads back what [JSON.stringify] prints, for every value
    built of strings, numbers that print as they are, booleans, null, arrays and
    objects. *)
Theorem json_roundtrip (j : json) : json_ok j = true -> json_parse (stringify j) = Some j.
Proof. apply json_parse_stringify. Qed.

Lemma json_roundtrip_witness :
  let j := JObj [(js "a", JArr [JNum (-12); JNull; JFrac {| mant := 6755399441055744; expo := -52 |}; JStr [34; 0xD800; 10; 92]]); (js "b", JBool true)] in
  json_parse (stringify j) = Some j.
Proof. apply json_roundtrip. vm_compute. reflexivity. Defined.

(** ** Printed documents are well-formed text *)

Definition closed (s : jsstr) : Prop := Forall unit_ok s /\ forall t, well_formed (s ++ t) = well_formed t.

Lemma closed_nil : closed [].
Proof. split; [constructor|done]. Qed.

Lemma closed_app a b : closed a -> closed b -> closed (a ++ b).
Proof.
  intros [A1 A2] [B1 B2]. split; [by apply Forall_app|]. intros t. by rewrite <- app_assoc, A2, B2.
Qed.

Lemma closed_plain s : Forall (fun u => 0 <= u < 0xD800) s -> closed s.
Proof.
  induction 1 as [|u s Hu Hs [IH1 IH2]]; [apply closed_nil|].
  split; [constructor; [unfold unit_ok; lia|done]|]. intros t. cbn [app well_formed].
  rewrite (proj2 (Z.leb_gt 0xD800 u)), (proj2 (Z.leb_gt 0xDC00 u)) by lia. cbn [andb negb]. apply IH2.
Qed.

Lemma closed_escape_unit u : unit_ok u -> closed (escape_unit u).
Proof.
  intros Hu. unfold unit_ok in Hu. unfold escape_unit.
  repeat match goal with
  | |- context [if ?a =? ?b then _ else _] => destruct (a =? b); [apply closed_plain; repeat constructor; lia|]
  end.
  destruct ((u <? 32) || ((0xD800 <=? u) && (u <=? 0xDFFF))) eqn:E.
  - apply closed_plain. unfold hex4, digit_char.
    repeat constructor; zbool; Z.to_euclidean_division_equations; lia.
  - split; [repeat constructor; unfold unit_ok; lia|]. intros t. cbn [app well_formed].
    destruct ((0xD800 <=? u) && (u <=? 0xDBFF)) eqn:E2; [lia|].
    destruct ((0xDC00 <=? u) && (u <=? 0xDFFF)) eqn:E3; [lia|done].
Qed.

Lemma closed_escape s : Forall unit_ok s -> closed (escape s).
Proof.
  remember (length s) as n eqn:Hn. assert (length s <= n)%nat as Hle by lia. clear Hn. revert s Hle.
  induction n as [|n IH]; intros [|u s] Hle Hs; try apply closed_nil; [simpl in Hle; lia|].
  apply Forall_cons in Hs as [Hu Hs]. destruct s as [|v s]; [by apply closed_escape_unit|].
  cbn [escape]. destruct (_ && _ && _ && _) eqn:E.
  - apply Forall_cons in Hs as [Hv Hs]. destruct (IH s) as [I1 I2]; [simpl in Hle; lia|done|].
    split; [constructor; [done|by constructor]|]. intros t. cbn [app well_formed].
    rewrite !andb_true_iff in E. destruct E as [[[E1 E2] E3] E4]. rewrite E1, E2, E3, E4. cbn [andb]. apply I2.
  - apply closed_app; [by apply closed_escape_unit|]. apply (IH (v :: s)); [simpl in *; lia|done].
Qed.

Lemma closed_commas ss : Forall closed ss -> closed (commas ss).
Proof.
  induction 1 as [|s ss Hs Hss IH]; [apply closed_nil|]. destruct ss as [|s' ss]; [done|].
  rewrite commas_cons by done. apply closed_app; [done|]. apply closed_app; [|done].
  apply closed_plain. repeat constructor; lia.
Qed.

Lemma closed_quote s : units s = true -> closed (quote s).
Proof.
  intros H. apply closed_app; [apply closed_plain; repeat constructor; lia|].
  apply closed_app; [by apply closed_escape, units_ok|apply closed_plain; repeat constructor; lia].
Qed.

Lemma closed_stringify j : json_ok j = true -> closed (stringify j).
Proof.
  induction j as [|b|n|x|s|l Hl|fs Hfs] using json_ind'; intros Hok; cbn [stringify json_ok] in *.
  - by apply closed_plain, (bool_decide_unpack _); vm_compute.
  - destruct b; by apply closed_plain, (bool_decide_unpack _); vm_compute.
  - apply closed_plain. eapply Forall_impl; [apply (to_string_number n)|]. unfold number_char. simpl. lia.
  - apply closed_plain. eapply Forall_impl; [apply (number_text_chars x)|]. unfold number_char. simpl. lia.
  - by apply closed_quote.
  - apply closed_app; [apply closed_plain; repeat constructor; lia|].
    apply closed_app; [|apply closed_plain; repeat constructor; lia]. apply closed_commas, Forall_map.
    rewrite forallb_forall in Hok. apply Forall_forall. intros x Hx. eapply Forall_forall in Hl; [|done].
    by apply Hl, Hok, list_elem_of_In.
  - apply closed_app; [apply closed_plain; repeat constructor; lia|].
    apply closed_app; [|apply closed_plain; repeat constructor; lia]. apply closed_commas, Forall_map.
    rewrite forallb_forall in Hok. apply Forall_forall. intros x Hx. eapply Forall_forall in Hfs; [|done].
    specialize (Hok x (proj1 (list_elem_of_In _ _) Hx)). apply andb_true_iff in Hok as [H1 H2].
    apply closed_app; [by apply closed_quote|]. apply closed_app; [apply closed_plain; repeat constructor; lia|].
    by apply Hfs.
Qed.

(** The UTF-8 form of a printed document is decoded to it. *)
Lemma stringify_utf8 j : json_ok j = true -> utf8_decode (utf8_encode (stringify j)) = stringify j.
Proof.
  intros Hok. destruct (closed_stringify j Hok) as [H1 H2]. apply utf8_roundtrip; [done| |].
  - specialize (H2 []). by rewrite app_nil_r in H2.
  - intros t E. destruct (stringify_head j) as (u & t' & E' & _ & _ & _ & Hb). congruence.
Qed.
