(* ===== verification/Vault.v ===== *)
(** * The encrypted vault

    src/extension/src/store/vault.ts, the part that lives in storage: [encrypt],
    [decrypt], [saveVault], [loadVault], [hasVault], [clearVault]. The browser's
    PBKDF2 and AES-GCM are the interface [VaultCrypto]. *)

From stdpp Require Import gmap.
From S2P Require Import Prelude JsText Bytes Bech32 Utf8 Json.
Local Open Scope Z_scope.

(** [pbkdf2] is [deriveKey] of the module: 250000 rounds of SHA-256 to an AES
    key; [aes_decrypt] rejects what does not authenticate. *)
Class VaultCrypto := {
  pbkdf2 : list Z -> list Z -> list Z;
  aes_encrypt : list Z -> list Z -> list Z -> list Z;
  aes_decrypt : list Z -> list Z -> list Z -> option (list Z)
}.

Class VaultCryptoLaws (V : VaultCrypto) := {
  aes_inverse : forall key iv p, bytes_ok p -> aes_decrypt key iv (aes_encrypt key iv p) = Some p;
  aes_bytes : forall key iv p, bytes_ok p -> bytes_ok (aes_encrypt key iv p)
}.

Record AccountMeta := {
  a_name : jsstr; a_address : jsstr; a_derivationPath : jsstr; a_index : Z
}.

Record VaultData := {
  v_mnemonic : jsstr;
  v_accounts : list AccountMeta;
  v_connectedSites : list jsstr;
  v_network : jsstr;
  v_autoLock : Z
}.

#[export] Instance AccountMeta_eq_dec : EqDecision AccountMeta.
Proof. solve_decision. Defined.
#[export] Instance VaultData_eq_dec : EqDecision VaultData.
Proof. solve_decision. Defined.

Definition VAULT_KEY : jsstr := Eval vm_compute in js "garuda_vault".
Definition SALT_KEY : jsstr := Eval vm_compute in js "garuda_salt".

(** [chrome.storage.local] *)
Abbreviation storage := (gmap (list Z) (list Z)).

(** ** The objects as JSON *)

Definition account_json (a : AccountMeta) : json :=
  JObj [(js "name", JStr (a_name a)); (js "address", JStr (a_address a));
        (js "derivationPath", JStr (a_derivationPath a)); (js "index", JNum (a_index a))].

Definition vault_json (v : VaultData) : json :=
  JObj [(js "mnemonic", JStr (v_mnemonic v));
        (js "accounts", JArr (map account_json (v_accounts v)));
        (js "connectedSites", JArr (map JStr (v_connectedSites v)));
        (js "settings", JObj [(js "network", JStr (v_network v)); (js "autoLock", JNum (v_autoLock v))])].

Definition as_str (j : option json) : option jsstr := match j with Some (JStr s) => Some s | _ => None end.
Definition as_num (j : option json) : option Z := match j with Some (JNum n) => Some n | _ => None end.
Definition as_arr (j : option json) : option (list json) := match j with Some (JArr l) => Some l | _ => None end.
Definition as_obj (j : option json) : option (list (jsstr * json)) := match j with Some (JObj f) => Some f | _ => None end.

Definition account_of (j : json) : option AccountMeta :=
  fs ← as_obj (Some j);
  name ← as_str (field fs (js "name")); addr ← as_str (field fs (js "address"));
  path ← as_str (field fs (js "derivationPath")); i ← as_num (field fs (js "index"));
  Some {| a_name := name; a_address := addr; a_derivationPath := path; a_index := i |}.

(** [JSON.parse(...) as VaultData]: what the fields of the declared type hold. *)
Definition vault_of (j : json) : option VaultData :=
  fs ← as_obj (Some j);
  m ← as_str (field fs (js "mnemonic"));
  accs ← as_arr (field fs (js "accounts")); accs ← mapM account_of accs;
  sites ← as_arr (field fs (js "connectedSites")); sites ← mapM (fun j => as_str (Some j)) sites;
  st ← as_obj (field fs (js "settings"));
  net ← as_str (field st (js "network")); al ← as_num (field st (js "autoLock"));
  Some {| v_mnemonic := m; v_accounts := accs; v_connectedSites := sites; v_network := net; v_autoLock := al |}.

Section Crypto.
Context {V : VaultCrypto}.

(** ** Encryption *)

(** [salt] and [iv] are what [crypto.getRandomValues] drew. *)
Definition encrypt (salt iv : list Z) (data password : jsstr) : option jsstr :=
  let key := pbkdf2 (utf8_encode password) salt in
  let ciphertext := aes_encrypt key iv (utf8_encode data) in
  let combined := replicate (length salt + length iv + length ciphertext) 0 in
  combined ← u8_set combined salt 0;
  combined ← u8_set combined iv 32;
  combined ← u8_set combined ciphertext 44;
  btoa combined.

Definition decrypt (encrypted password : jsstr) : option jsstr :=
  combined ← atob encrypted;
  let salt := take 32 combined in
  let iv := take 12 (drop 32 combined) in
  let ciphertext := drop 44 combined in
  let key := pbkdf2 (utf8_encode password) salt in
  decrypted ← aes_decrypt key iv ciphertext;
  Some (utf8_decode decrypted).

(** ** Storage *)

Definition saveVault (salt iv : list Z) (data : VaultData) (password : jsstr) (st : storage) :
    option storage :=
  encrypted ← encrypt salt iv (stringify (vault_json data)) password;
  Some (<[VAULT_KEY := encrypted]> st).

(** A missing or empty entry, and any failure, give [null]. *)
Definition loadVault (password : jsstr) (st : storage) : option VaultData :=
  match st !! VAULT_KEY with
  | None | Some [] => None
  | Some encrypted =>
      decrypted ← decrypt encrypted password;
      j ← json_parse decrypted;
      vault_of j
  end.

Definition hasVault (st : storage) : bool :=
  match st !! VAULT_KEY with None | Some [] => false | _ => true end.

Definition clearVault (st : storage) : storage := delete SALT_KEY (delete VAULT_KEY st).
End Crypto.

(** ** Round trips *)

Definition account_ok (a : AccountMeta) : bool :=
  units (a_name a) && units (a_address a) && units (a_derivationPath a).

Definition vault_ok (v : VaultData) : bool :=
  units (v_mnemonic v) && forallb account_ok (v_accounts v) && forallb units (v_connectedSites v)
  && units (v_network v).

Lemma account_roundtrip a : account_of (account_json a) = Some a.
Proof. destruct a as [n ad p i]. reflexivity. Qed.

Lemma mapM_map_some {A B} (f : A -> B) (g : B -> option A) (l : list A) :
  (forall x, g (f x) = Some x) -> mapM g (map f l) = Some l.
Proof.
  intros H. induction l as [|x l IH]; [done|]. cbn [map mapM]. rewrite H. cbn [mbind option_bind].
  by rewrite IH.
Qed.

Lemma vault_json_roundtrip v : vault_of (vault_json v) = Some v.
Proof.
  unfold vault_of, vault_json. cbn [as_obj mbind option_bind].
  change (field _ (js "mnemonic")) with (Some (JStr (v_mnemonic v))).
  change (field _ (js "accounts")) with (Some (JArr (map account_json (v_accounts v)))).
  change (field _ (js "connectedSites")) with (Some (JArr (map JStr (v_connectedSites v)))).
  change (field _ (js "settings")) with
    (Some (JObj [(js "network", JStr (v_network v)); (js "autoLock", JNum (v_autoLock v))])).
  cbn [as_str as_arr as_obj mbind option_bind].
  rewrite (mapM_map_some account_json account_of) by apply account_roundtrip. cbn [mbind option_bind].
  rewrite (mapM_map_some JStr (fun j => as_str (Some j))) by done. by destruct v.
Qed.

Lemma vault_json_ok v : vault_ok v = true -> json_ok (vault_json v) = true.
Proof.
  unfold vault_ok, vault_json. rewrite !andb_true_iff. intros [[[H1 H2] H3] H4].
  cbn [json_ok forallb fst snd]. rewrite H1, H4.
  assert (forallb json_ok (map account_json (v_accounts v)) = true) as ->.
  { rewrite forallb_map. rewrite forallb_forall in H2 |- *. intros a Ha. specialize (H2 a Ha).
    unfold account_ok in H2. rewrite !andb_true_iff in H2. destruct H2 as [[A1 A2] A3].
    cbn [account_json json_ok forallb fst snd]. by rewrite A1, A2, A3. }
  assert (forallb json_ok (map JStr (v_connectedSites v)) = true) as ->; [|done].
  rewrite forallb_map. done.
Qed.

Section RoundTrip.
Context {V : VaultCrypto} {VL : VaultCryptoLaws V}.

Lemma u8_set_parts (a b c : list Z) :
  length a = 32%nat -> length b = 12%nat ->
  (m ← u8_set (replicate (length a + length b + length c) 0) a 0;
   m ← u8_set m b 32; u8_set m c 44) = Some (a ++ b ++ c).
Proof.
  intros Ha Hb. pose proof (cat_concat [a; b; c]) as H. unfold cat in H. cbn [cat_loop map sum_list fold_right] in H.
  rewrite !Nat.add_0_r, Nat.add_assoc in H. cbn [concat] in H. rewrite app_nil_r in H.
  rewrite Ha, Hb in *. cbn [Nat.add] in H. destruct (u8_set _ a 0) as [m|]; [|done].
  cbn [mbind option_bind] in *. destruct (u8_set m b 32) as [m'|]; [|done]. cbn [mbind option_bind] in *.
  by destruct (u8_set m' c 44).
Qed.

Lemma encrypt_decrypt salt iv data password :
  bytes_ok salt -> bytes_ok iv -> length salt = 32%nat -> length iv = 12%nat -> Forall unit_ok data ->
  exists e, encrypt salt iv data password = Some e /\ e <> []
    /\ decrypt e password = Some (utf8_decode (utf8_encode data)).
Proof.
  intros Hs Hi Ls Li Hu%utf8_encode_ok. unfold encrypt.
  set (key := pbkdf2 _ salt). set (ct := aes_encrypt key iv _).
  pose proof (u8_set_parts salt iv ct Ls Li) as Hset.
  destruct (u8_set _ salt 0) as [m|]; [|done]. cbn [mbind option_bind] in *.
  destruct (u8_set m iv 32) as [m'|]; [|done]. cbn [mbind option_bind] in *. rewrite Hset. cbn [mbind option_bind].
  destruct (base64_roundtrip (salt ++ iv ++ ct)) as (e & Ee & Ed).
  { rewrite !Forall_app. split_and_all; [done|done|by apply aes_bytes]. }
  exists e. split; [done|]. split.
  { intros ->. assert (atob [] = Some []) as E0 by reflexivity. rewrite E0 in Ed. destruct salt; done. }
  unfold decrypt. rewrite Ed. cbn [mbind option_bind].
  rewrite take_app_length' by done. rewrite (drop_app_length' salt) by done. rewrite take_app_length' by done.
  rewrite app_assoc, drop_app_length' by (rewrite length_app; lia). fold key. unfold ct.
  by rewrite aes_inverse.
Qed.

Lemma save_load salt iv data password st :
  bytes_ok salt -> bytes_ok iv -> length salt = 32%nat -> length iv = 12%nat -> vault_ok data = true ->
  exists st', saveVault salt iv data password st = Some st' /\ loadVault password st' = Some data.
Proof.
  intros Hs Hi Ls Li Hok. unfold saveVault.
  destruct (encrypt_decrypt salt iv (stringify (vault_json data)) password Hs Hi Ls Li) as (e & -> & Hne & Hd).
  { by apply closed_stringify, vault_json_ok. }
  cbn [mbind option_bind]. eexists. split; [done|]. unfold loadVault.
  rewrite lookup_insert_eq. destruct e as [|x e]; [done|]. rewrite Hd. cbn [mbind option_bind].
  apply vault_json_ok in Hok. rewrite stringify_utf8, json_parse_stringify by done. cbn [mbind option_bind].
  by rewrite vault_json_roundtrip.
Qed.

(** C6. Saving a vault and loading it with the same password gives back the same
    vault, whatever salt and nonce were drawn and whatever was stored before. *)
Theorem vault_roundtrip (salt iv : list Z) (data : VaultData) (password : jsstr) (st : storage) :
  bytes_ok salt -> bytes_ok iv -> length salt = 32%nat -> length iv = 12%nat -> vault_ok data = true ->
  exists st', saveVault salt iv data password st = Some st'
    /\ loadVault password st' = Some data /\ hasVault st' = true.
Proof.
  intros Hs Hi Ls Li Hok. destruct (save_load salt iv data password st) as (st' & E & Hl); [done..|].
  exists st'. split; [done|]. split; [done|]. unfold loadVault, hasVault in *.
  by destruct (st' !! VAULT_KEY) as [[|]|].
Qed.
End RoundTrip.

(** A cipher to run the definitions on. *)
Definition toy_vault : VaultCrypto := {|
  pbkdf2 p s := p ++ s;
  aes_encrypt key iv p := map (fun b => 255 - b) p;
  aes_decrypt key iv c := Some (map (fun b => 255 - b) c)
|}.

#[export] Instance toy_vault_laws : VaultCryptoLaws toy_vault.
Proof.
  split; cbn; intros _ _ p Hp.
  - f_equal. rewrite map_map. rewrite <- (map_id p) at 2. apply map_ext. intros; lia.
  - apply Forall_map. eapply Forall_impl; [done|]. unfold byte_ok. intros; lia.
Qed.

Definition sample_vault : VaultData := {|
  v_mnemonic := js "abandon ability"; v_accounts := [{| a_name := js "Akun 1"; a_address := js "grd1q";
    a_derivationPath := js "garuda-sha256"; a_index := 0 |}];
  v_connectedSites := [js "https://dex.example"]; v_network := js "regtest"; v_autoLock := 30
|}.

Lemma vault_roundtrip_witness :
  exists st', saveVault (V := toy_vault) (replicate 32 1) (replicate 12 2) sample_vault (js "pw") ∅ = Some st'
    /\ loadVault (V := toy_vault) (js "pw") st' = Some sample_vault /\ hasVault st' = true.
Proof.
  apply vault_roundtrip; [by apply Forall_replicate..|reflexivity|reflexivity|vm_compute; reflexivity].
Defined.
