(* ===== verification/Background.v ===== *)
(** * The extension's background worker

    src/extension/src/background/index.ts and the session half of
    src/extension/src/store/vault.ts. Asynchronous handlers are processes of the
    monad [M]: [Atom] runs at once on the worker's state, [Await] lets other
    events in (it stands for the awaits on storage, WebCrypto and the signature
    functions; a promise that is already resolved continues before the next event
    and is no such point), [Fetch] waits for a reply of the node's API. The vault
    object of a session is shared by reference, so vaults live in a heap. *)

From stdpp Require Import gmap.
From S2P Require Import Prelude JsText Amounts Bytes Bech32 Keys Tx Coins Utf8 Json Vault.
Local Open Scope Z_scope.

(** ** Requests, replies, messages *)

(** The part of a page's request that needs approval. Amounts of transfers are
    the numbers the page gives; price and amount of an order are integers that are
    passed on. *)
Inductive dapp_call :=
| RequestAccounts
| PlaceOrder (assetId side : jsstr) (price amount : Z) (address : jsstr)
| SignMessage (msg address : jsstr)
| SendTransaction (from to : jsstr) (amount : double) (memo : option jsstr)
| SendToken (from to assetId : jsstr) (amount : double).

Inductive call :=
| get_pending_approval (id : jsstr)
| get_any_pending
| get_wallet_info
| wallet_hasVault
| wallet_create (mnemonic password : jsstr) (accountName : option jsstr)
| wallet_unlock (password : jsstr)
| wallet_lock
| wallet_isUnlocked
| wallet_getAccounts
| wallet_addAccount
| wallet_exportMnemonic (password : jsstr)
| wallet_getBalance (address : option jsstr)
| wallet_getAddressInfo (address : option jsstr)
| wallet_getAssetList
| wallet_sendNative (to : jsstr) (amount : Z)
| wallet_sendToken (to : jsstr) (amount : double) (assetId : jsstr)
| garuda_getAccounts
| garuda (c : dapp_call)
| approval_response (id : jsstr) (approved : bool)
| unknown_method (method : jsstr).

Record sender := { s_origin : option jsstr; s_url : option jsstr; s_tab : option Z }.

Record message := { m_call : call; m_id : option jsstr; m_origin : option jsstr }.

Record PendingRequest := {
  p_id : jsstr; p_call : dapp_call; p_origin : jsstr; p_tabId : Z; p_requestId : jsstr
}.

Record asset := { as_asset_id : option jsstr; as_assetId : option jsstr; as_symbol : jsstr; as_name : jsstr }.

Inductive request :=
| ReqConnect (address : option jsstr)
| ReqAddress (address : option jsstr)
| ReqAssets (kind : jsstr)
| ReqUtxos (address : jsstr)
| ReqPrepareToken (assetId : jsstr) (amount : double) (from to : jsstr)
| ReqPrepareOrder (assetId side : jsstr) (price amount : Z) (address : jsstr)
| ReqBroadcast (hex : jsstr).

(** [r.json()] of the endpoints, in the shapes the code reads: a list of unspent
    outputs bare or under [utxos], and so on; [AReject] is a failed fetch. *)
Inductive utxo_reply := UList (l : list UTXO) | UField (l : option (list UTXO)).

Inductive answer :=
| AReject (e : jsstr)
| AUtxos (r : utxo_reply)
| AAssets (l : option (list asset))
| APrepared (error opreturn_data : option jsstr)
| AOrder (error opreturn_data : option jsstr) (utxos : option (list UTXO))
| ABroadcast (error txid hash : option jsstr)
| AOther (j : json).

Inductive result :=
| RNull
| RBool (b : bool)
| ROk
| RAddress (a : option jsstr)
| RAddresses (l : list jsstr)
| RAccounts (l : list AccountMeta)
| RAccount (a : AccountMeta)
| RMnemonic (m : jsstr)
| RAssets (l : list (option jsstr * jsstr * jsstr * jsstr))
| RAnswer (a : answer)
| RTx (txid : jsstr)
| RSignature (hex address : jsstr)
| RPending (p : PendingRequest)
| RInfo (l : list (jsstr * jsstr)).

(** [{ result }] or [{ waiting: true }]; an error is the exception. *)
Inductive reply := Result (r : result) | Waiting.

(** ** State *)

Record bg := {
  heap : list VaultData;
  sPassword : option jsstr;
  sVault : option nat;
  lockTimer : option nat;
  timers : list (nat * Z);
  ntimers : nat;
  now : Z;
  store : storage;
  pending : list (jsstr * PendingRequest);
  expiries : list (jsstr * Z);
  nrandom : nat;
  nuuid : nat;
  sent : list (Z * jsstr * (result + jsstr));
  badge : bool;
  handled : list jsstr
}.
(** [timers] are the armed lock timers with their deadlines, [expiries] the
    armed approval timeouts, [sent] the messages to tabs, and [handled] records
    the approvals that were executed. *)

Definition with_session (p : option jsstr) (v : option nat) (s : bg) : bg :=
  {| heap := heap s; sPassword := p; sVault := v; lockTimer := lockTimer s; timers := timers s;
     ntimers := ntimers s; now := now s; store := store s; pending := pending s; expiries := expiries s;
     nrandom := nrandom s; nuuid := nuuid s; sent := sent s; badge := badge s; handled := handled s |}.

Definition with_timers (l : option nat) (t : list (nat * Z)) (n : nat) (s : bg) : bg :=
  {| heap := heap s; sPassword := sPassword s; sVault := sVault s; lockTimer := l; timers := t;
     ntimers := n; now := now s; store := store s; pending := pending s; expiries := expiries s;
     nrandom := nrandom s; nuuid := nuuid s; sent := sent s; badge := badge s; handled := handled s |}.

Definition with_heap (h : list VaultData) (s : bg) : bg :=
  {| heap := h; sPassword := sPassword s; sVault := sVault s; lockTimer := lockTimer s; timers := timers s;
     ntimers := ntimers s; now := now s; store := store s; pending := pending s; expiries := expiries s;
     nrandom := nrandom s; nuuid := nuuid s; sent := sent s; badge := badge s; handled := handled s |}.

Definition with_store (st : storage) (n : nat) (s : bg) : bg :=
  {| heap := heap s; sPassword := sPassword s; sVault := sVault s; lockTimer := lockTimer s; timers := timers s;
     ntimers := ntimers s; now := now s; store := st; pending := pending s; expiries := expiries s;
     nrandom := n; nuuid := nuuid s; sent := sent s; badge := badge s; handled := handled s |}.

Definition with_pending (p : list (jsstr * PendingRequest)) (e : list (jsstr * Z)) (n : nat) (b : bool)
    (h : list jsstr) (s : bg) : bg :=
  {| heap := heap s; sPassword := sPassword s; sVault := sVault s; lockTimer := lockTimer s; timers := timers s;
     ntimers := ntimers s; now := now s; store := store s; pending := p; expiries := e;
     nrandom := nrandom s; nuuid := n; sent := sent s; badge := b; handled := h |}.

Definition with_sent (l : list (Z * jsstr * (result + jsstr))) (s : bg) : bg :=
  {| heap := heap s; sPassword := sPassword s; sVault := sVault s; lockTimer := lockTimer s; timers := timers s;
     ntimers := ntimers s; now := now s; store := store s; pending := pending s; expiries := expiries s;
     nrandom := nrandom s; nuuid := nuuid s; sent := l; badge := badge s; handled := handled s |}.

Definition with_now (t : Z) (s : bg) : bg :=
  {| heap := heap s; sPassword := sPassword s; sVault := sVault s; lockTimer := lockTimer s; timers := timers s;
     ntimers := ntimers s; now := t; store := store s; pending := pending s; expiries := expiries s;
     nrandom := nrandom s; nuuid := nuuid s; sent := sent s; badge := badge s; handled := handled s |}.

(** ** Processes *)

Local Set Warnings "-register-all".

Inductive M (A : Type) : Type :=
| Ret (a : A)
| Throw (e : jsstr)
| Atom (f : bg -> bg * M A)
| Await (m : M A)
| Fetch (q : request) (k : answer -> M A).
Arguments Ret {A} a.
Arguments Throw {A} e.
Arguments Atom {A} f.
Arguments Await {A} m.
Arguments Fetch {A} q k.

Fixpoint M_ind' {A} (P : M A -> Prop) (Hret : forall a, P (Ret a)) (Hthrow : forall e, P (Throw e))
    (Hatom : forall f, (forall s, P (f s).2) -> P (Atom f)) (Hawait : forall m, P m -> P (Await m))
    (Hfetch : forall q k, (forall a, P (k a)) -> P (Fetch q k)) (m : M A) : P m :=
  let go := M_ind' P Hret Hthrow Hatom Hawait Hfetch in
  match m with
  | Ret a => Hret a
  | Throw e => Hthrow e
  | Atom f => Hatom f (fun s => match f s as p return P p.2 with (_, m') => go m' end)
  | Await m => Hawait m (go m)
  | Fetch q k => Hfetch q k (fun a => go (k a))
  end.

Fixpoint bind {A B} (m : M A) (k : A -> M B) : M B :=
  match m with
  | Ret a => k a
  | Throw e => Throw e
  | Atom f => Atom (fun s => let '(s', m') := f s in (s', bind m' k))
  | Await m => Await (bind m k)
  | Fetch q g => Fetch q (fun a => bind (g a) k)
  end.

(** [try { m } catch (err) { h }] *)
Fixpoint catch {A} (m : M A) (h : jsstr -> M A) : M A :=
  match m with
  | Ret a => Ret a
  | Throw e => h e
  | Atom f => Atom (fun s => let '(s', m') := f s in (s', catch m' h))
  | Await m => Await (catch m h)
  | Fetch q g => Fetch q (fun a => catch (g a) h)
  end.

(** Run up to the next point where other events can come in. *)
Fixpoint run {A} (m : M A) (s : bg) : bg * M A :=
  match m with
  | Atom f => let '(s', m') := f s in run m' s'
  | _ => (s, m)
  end.

Declare Scope bg_scope.
Notation "'let*' x := m 'in' k" := (bind m (fun x => k))
  (at level 10, x pattern, m at level 100, k at level 200) : bg_scope.
Notation "m ;;; k" := (bind m (fun _ => k)) (at level 100, right associativity) : bg_scope.
Local Open Scope bg_scope.

Definition get : M bg := Atom (fun s => (s, Ret s)).
Definition modify (f : bg -> bg) : M unit := Atom (fun s => (f s, Ret tt)).
Definition yield : M unit := Await (Ret tt).

(** A value or the exception of a missing one. *)
Definition of_option {A} (e : jsstr) (o : option A) : M A :=
  match o with Some a => Ret a | None => Throw e end.

(** Exceptions whose text the worker does not choose. *)
Definition TYPE_ERROR : jsstr := js "TypeError".
Definition CRYPTO_ERROR : jsstr := js "CryptoError".
Definition LOCKED : jsstr := js "Wallet terkunci".

(** A string that counts as true. *)
Definition truthy (o : option jsstr) : bool := match o with Some (_ :: _) => true | _ => false end.

(** ** Session (src/extension/src/store/vault.ts) *)

Definition vault_at (s : bg) (l : nat) : option VaultData := heap s !! l.

(** A new object. *)
Definition alloc (v : VaultData) : M nat :=
  Atom (fun s => (with_heap (heap s ++ [v]) s, Ret (length (heap s)))).

(** [sessionPassword] empty counts as none. *)
Definition getSession (s : bg) : option (jsstr * nat) :=
  match sPassword s, sVault s with
  | Some ((_ :: _) as p), Some l => Some (p, l)
  | _, _ => None
  end.

Definition isUnlocked (s : bg) : bool :=
  match sPassword s, sVault s with Some _, Some _ => true | _, _ => false end.

Definition clearTimeout (t : nat) (ts : list (nat * Z)) : list (nat * Z) :=
  List.filter (fun e => negb (e.1 =? t)%nat) ts.

Definition resetLockTimer (minutes : Z) (s : bg) : bg :=
  let ts := match lockTimer s with Some t => clearTimeout t (timers s) | None => timers s end in
  with_timers (Some (ntimers s)) (ts ++ [(ntimers s, now s + minutes * 60 * 1000)]) (S (ntimers s)) s.

Definition setSession (password : jsstr) (l : nat) (s : bg) : bg :=
  resetLockTimer 30 (with_session (Some password) (Some l) s).

(** The timer is cancelled, its variable keeps the old handle. *)
Definition clearSession (s : bg) : bg :=
  let s := with_session None None s in
  match lockTimer s with
  | Some t => with_timers (lockTimer s) (clearTimeout t (timers s)) (ntimers s) s
  | None => s
  end.

Definition upd_vault (l : nat) (f : VaultData -> VaultData) (s : bg) : bg := with_heap (alter f l (heap s)) s.

Definition push_site (origin : jsstr) (v : VaultData) : VaultData :=
  {| v_mnemonic := v_mnemonic v; v_accounts := v_accounts v;
     v_connectedSites := v_connectedSites v ++ [origin]; v_network := v_network v; v_autoLock := v_autoLock v |}.

Definition push_account (a : AccountMeta) (v : VaultData) : VaultData :=
  {| v_mnemonic := v_mnemonic v; v_accounts := v_accounts v ++ [a];
     v_connectedSites := v_connectedSites v; v_network := v_network v; v_autoLock := v_autoLock v |}.

Definition session_sites (s : bg) : list jsstr :=
  match sVault s ≫= vault_at s with Some v => v_connectedSites v | None => [] end.

Definition isConnectedSite (origin : jsstr) (s : bg) : bool := bool_decide (origin ∈ session_sites s).

Definition addConnectedSite (origin : jsstr) (s : bg) : bg :=
  match sVault s with
  | Some l => if isConnectedSite origin s then s else upd_vault l (push_site origin) s
  | None => s
  end.

Section Worker.
Context {C : Crypto} {V : VaultCrypto}.
(** What [crypto.getRandomValues] and [crypto.randomUUID] return, call by call. *)
Context (random : nat -> nat -> list Z) (uuid : nat -> jsstr).

(** [saveVault]: the text is made at once, written after the encryption. *)
Definition save_async (v : VaultData) (password : jsstr) : M unit :=
  let* s := get in
  let salt := random (nrandom s) 32 in
  let iv := random (S (nrandom s)) 12 in
  modify (with_store (store s) (S (S (nrandom s)))) ;;;
  yield ;;;
  let* e := of_option CRYPTO_ERROR (encrypt salt iv (stringify (vault_json v)) password) in
  modify (fun s => with_store (<[VAULT_KEY := e]> (store s)) (nrandom s) s) ;;;
  yield.

Definition persistSession (l : nat) : M unit :=
  let* s := get in
  match sPassword s, vault_at s l with
  | Some ((_ :: _) as p), Some v =>
      modify (with_session (sPassword s) (Some l)) ;;;
      save_async v p
  | _, _ => Ret tt
  end.

(** [loadVault]: storage is read, then PBKDF2 and AES run. *)
Definition load_async (password : jsstr) : M (option VaultData) :=
  yield ;;; let* s := get in yield ;;; Ret (loadVault password (store s)).

(** The session or the exception. *)
Definition need_session : M (jsstr * nat) :=
  let* s := get in of_option LOCKED (getSession s).

Definition deref (l : nat) : M VaultData := let* s := get in of_option TYPE_ERROR (vault_at s l).

Definition derive (mnemonic : jsstr) (i : Z) : M ExtDerivedKey :=
  of_option CRYPTO_ERROR (ext_deriveKey mnemonic 0 i).

(** [await buildAndSignTx(...)] *)
Definition sign_tx (inputs : list UTXO) (outputs : list TxOutput) (key : ExtDerivedKey) : M jsstr :=
  yield ;;; of_option CRYPTO_ERROR (ext_buildAndSignTx inputs outputs (ext_privateKey key) (ext_publicKey key)).

(** ** Replies of the API *)

(** [utxoRes.utxos || utxoRes || []], of which only the length is looked at when
    it is no list. *)
Definition reply_utxos (a : answer) : M (list UTXO) :=
  match a with
  | AUtxos (UList l) | AUtxos (UField (Some l)) => Ret l
  | AUtxos (UField None) => Ret []
  | AReject e => Throw e
  | _ => Throw TYPE_ERROR
  end.

Definition fetch_utxos (address : jsstr) : M (list UTXO) := Fetch (ReqUtxos address) reply_utxos.

Definition fetch_any (q : request) : M answer :=
  Fetch q (fun a => match a with AReject e => Throw e | _ => Ret a end).

(** The payment of [wallet_sendNative] and [garuda_sendTransaction]. *)
Definition plan_payment (utxos : list UTXO) (to : jsstr) (amtSat : Z) (own : jsstr) (short : jsstr) :
    M (list UTXO * list TxOutput) :=
  match utxos with
  | [] => Throw (js "Tidak ada UTXO tersedia")
  | _ =>
      let '(selected, collected) := select (amtSat + FEE) utxos [] 0 in
      if collected <? amtSat + FEE then Throw short
      else Ret (selected, [pay to amtSat] ++ change_out own (collected - amtSat - FEE))
  end.

(** The payment of an amount that may not be finite: no balance reaches it. *)
Definition plan_amount (utxos : list UTXO) (to : jsstr) (amtSat : option Z) (own : jsstr) (short : jsstr) :
    M (list UTXO * list TxOutput) :=
  match amtSat with
  | Some amtSat => plan_payment utxos to amtSat own short
  | None => match utxos with [] => Throw (js "Tidak ada UTXO tersedia") | _ => Throw short end
  end.

(** The fee inputs of a token transfer. *)
Definition plan_token (utxos : list UTXO) (data : option jsstr) (own : jsstr) : M (list UTXO * list TxOutput) :=
  match utxos with
  | [] => Throw (js "Tidak ada UTXO (butuh GRD untuk fee)")
  | _ =>
      let '(selected, collected) := select (FEE + 546) utxos [] 0 in
      if collected <? FEE then Throw (js "Saldo GRD tidak cukup untuk fee")
      else Ret (selected, [data_out data] ++ change_out own (collected - FEE))
  end.

(** [if (prep.error || !prep.opreturn_data) throw ...] *)
Definition reply_prepared (a : answer) : M (option jsstr) :=
  match a with
  | APrepared e d =>
      if truthy e || negb (truthy d)
      then Throw (if truthy e then default [] e else js "Gagal prepare transfer") else Ret d
  | AReject e => Throw e
  | _ => Throw TYPE_ERROR
  end.

Definition broadcast (hex : jsstr) : M answer := fetch_any (ReqBroadcast hex).

(** [if (broadcastRes.error) throw ...]; then the transaction id. *)
Definition reply_txid (a : answer) : M jsstr :=
  match a with
  | ABroadcast e txid hash =>
      if truthy e then Throw (default [] e)
      else Ret (if truthy txid then default [] txid else if truthy hash then default [] hash else [])
  | _ => Throw TYPE_ERROR
  end.

(** ** Messages to tabs, approvals *)

Definition sendResultToTab (tabId : Z) (requestId : jsstr) (r : result + jsstr) : M unit :=
  if tabId <? 0 then Ret tt else modify (fun s => with_sent (sent s ++ [(tabId, requestId, r)]) s).

(** [pendingRequests.set(approvalId, ...)] and [showApprovalPopup]. *)
Definition ask_approval (c : dapp_call) (origin : jsstr) (tabId : Z) (requestId : jsstr) : M reply :=
  Atom (fun s =>
    let id := uuid (nuuid s) in
    let p := {| p_id := id; p_call := c; p_origin := origin; p_tabId := tabId; p_requestId := requestId |} in
    (with_pending (List.filter (fun e => negb (bool_decide (e.1 = id))) (pending s) ++ [(id, p)])
       (expiries s ++ [(id, now s + 300000)]) (S (nuuid s)) true (handled s) s, Ret Waiting)).

Definition find_pending (id : jsstr) (s : bg) : option PendingRequest :=
  (fun e => e.2) <$> List.find (fun e => bool_decide (e.1 = id)) (pending s).

Definition drop_pending (id : jsstr) (s : bg) : bg :=
  with_pending (List.filter (fun e => negb (bool_decide (e.1 = id))) (pending s)) (expiries s) (nuuid s) false
    (handled s) s.

(** The callback of the five minute timeout. *)
Definition expire (id : jsstr) : M unit :=
  let* s := get in
  match find_pending id s with
  | Some p => modify (drop_pending id) ;;;
              sendResultToTab (p_tabId p) (p_requestId p) (inr (js "Request timeout"))
  | None => Ret tt
  end.

Definition first_account (v : VaultData) : M AccountMeta := of_option TYPE_ERROR (head (v_accounts v)).

(** [accounts.find(a => a.address === address) || accounts[0]] *)
Definition find_account (address : jsstr) (v : VaultData) : M AccountMeta :=
  match List.find (fun a => bool_decide (a_address a = address)) (v_accounts v) with
  | Some a => Ret a
  | None => first_account v
  end.

Definition addresses (v : VaultData) : list jsstr := map a_address (v_accounts v).

(** [memo] as the hexadecimal of its UTF-8 bytes. *)
Definition memo_out (memo : option jsstr) : list TxOutput :=
  match memo with
  | Some ((_ :: _) as m) => [data_out (Some (toHex (utf8_encode m)))]
  | _ => []
  end.

Definition MSG_PREFIX : jsstr := 0x18 :: js "GarudaChain Signed Message:" ++ [10].

(** The bytes a signature of a message covers. *)
Definition message_payload (msg : jsstr) : list Z :=
  let msgBytes := utf8_encode msg in
  utf8_encode MSG_PREFIX ++ map uint8 [Z.of_nat (length msgBytes)] ++ msgBytes.

(** The body of the [try] of [handleApproved]; [session] was read before it. *)
Definition approved_body (p : PendingRequest) (session : option (jsstr * nat)) : M unit :=
  let* (_, l) := of_option LOCKED session in
  match p_call p with
  | RequestAccounts =>
      modify (addConnectedSite (p_origin p)) ;;;
      persistSession l ;;;
      let* v := deref l in
      sendResultToTab (p_tabId p) (p_requestId p) (inl (RAddresses (addresses v)))
  | PlaceOrder assetId side price amount address =>
      let* a := fetch_any (ReqPrepareOrder assetId side price amount address) in
      match a with
      | AOrder e data utxos =>
          if truthy e then Throw (default [] e) else
          let* v := deref l in
          let* account := find_account address v in
          let* key := derive (v_mnemonic v) (a_index account) in
          match utxos with
          | None | Some [] => Throw (js "Tidak ada UTXO")
          | Some us =>
              let totalIn := foldl (fun s u => s + value u) 0 us in
              let change := totalIn - FEE in
              let* hex := sign_tx us ([data_out data] ++ change_out address change) key in
              let* r := broadcast hex in
              sendResultToTab (p_tabId p) (p_requestId p) (inl (RAnswer r))
          end
      | _ => Throw TYPE_ERROR
      end
  | SendTransaction from to amount memo =>
      let* v := deref l in
      let* account := find_account from v in
      let* key := derive (v_mnemonic v) (a_index account) in
      let* us := fetch_utxos (a_address account) in
      let* (selected, outs) := plan_amount us to (units_round amount) (a_address account) (js "Saldo GRD tidak cukup") in
      let* hex := sign_tx selected (outs ++ memo_out memo) key in
      let* r := broadcast hex in
      let* txid := reply_txid r in
      sendResultToTab (p_tabId p) (p_requestId p) (inl (RTx txid))
  | SendToken from to assetId amount =>
      let* v := deref l in
      let* account := find_account from v in
      let* key := derive (v_mnemonic v) (a_index account) in
      let* data := Fetch (ReqPrepareToken assetId amount (a_address account) to) reply_prepared in
      let* us := fetch_utxos (a_address account) in
      let* (selected, outs) := plan_token us data (a_address account) in
      let* hex := sign_tx selected outs key in
      let* r := broadcast hex in
      let* txid := reply_txid r in
      sendResultToTab (p_tabId p) (p_requestId p) (inl (RTx txid))
  | SignMessage msg address =>
      let* v := deref l in
      let* account := find_account address v in
      let* key := derive (v_mnemonic v) (a_index account) in
      yield ;;;
      let* sig := of_option CRYPTO_ERROR (signDER (sha256d (message_payload msg)) (ext_privateKey key)) in
      sendResultToTab (p_tabId p) (p_requestId p) (inl (RSignature (toHex sig) address))
  end.

Definition handleApproved (p : PendingRequest) : M unit :=
  let* s := get in
  catch (approved_body p (getSession s))
    (fun e => sendResultToTab (p_tabId p) (p_requestId p) (inr (match e with [] => js "Error" | _ => e end))).

(** ** The message handler *)

(** [message.origin || sender.origin || tab url up to the third "/" || ""] *)
Fixpoint url_origin (slashes : nat) (url : jsstr) : jsstr :=
  match url with
  | [] => []
  | u :: url =>
      if u =? 47 then match slashes with O => [] | S n => u :: url_origin n url end
      else u :: url_origin slashes url
  end.

Definition origin_of (m : message) (sd : sender) : jsstr :=
  match m_origin m with
  | Some ((_ :: _) as o) => o
  | _ => match s_origin sd with
         | Some ((_ :: _) as o) => o
         | _ => match s_url sd with Some u => url_origin 2 u | None => [] end
         end
  end.

(** [sender.tab?.id || -1] *)
Definition tab_of (sd : sender) : Z := match s_tab sd with Some t => if t =? 0 then -1 else t | None => -1 end.

(** [address || session.vault.accounts[0]?.address] *)
Definition address_or_first (address : option jsstr) (v : VaultData) : option jsstr :=
  if truthy address then address else a_address <$> head (v_accounts v).

(** One list of assets; a failed request counts as an empty list. *)
Definition fetch_assets (kind tipe : jsstr) : M (list (option jsstr * jsstr * jsstr * jsstr)) :=
  Fetch (ReqAssets kind) (fun a =>
    match a with
    | AAssets (Some l) =>
        Ret (map (fun s => (if truthy (as_asset_id s) then as_asset_id s else as_assetId s,
                            as_symbol s, as_name s, tipe)) l)
    | _ => Ret []
    end).

Definition account_name (i : Z) : jsstr := js "Akun " ++ to_string 10 i.

(** The vault [wallet_create] makes. *)
Definition fresh_vault (mnemonic : jsstr) (accountName : option jsstr) (key : ExtDerivedKey) : VaultData := {|
  v_mnemonic := mnemonic;
  v_accounts := [{| a_name := if truthy accountName then default [] accountName else js "Akun 1";
                    a_address := ext_address key; a_derivationPath := ext_derivationPath key; a_index := 0 |}];
  v_connectedSites := []; v_network := js "regtest"; v_autoLock := 30
|}.

(** The three requests answered by the listener itself. *)
Definition on_pending_approval (id : jsstr) : M reply :=
  let* s := get in
  Ret (Result (match find_pending id s with Some p => RPending p | None => RNull end)).

Definition on_any_pending : M reply :=
  let* s := get in
  Ret (Result (match pending s with (_, p) :: _ => RPending p | [] => RNull end)).

Definition on_wallet_info : M reply :=
  let* s := get in
  Ret (Result (match getSession s ≫= (fun x => vault_at s x.2) with
               | Some v => match v_accounts v with
                           | [] => RNull
                           | accs => RInfo (map (fun a => (a_name a, a_address a)) accs)
                           end
               | None => RNull
               end)).

Definition on_create (mnemonic password : jsstr) (accountName : option jsstr) : M reply :=
  let* key := derive mnemonic 0 in
  let v := fresh_vault mnemonic accountName key in
  let* l := alloc v in
  save_async v password ;;;
  modify (setSession password l) ;;;
  Ret (Result (RAddress (Some (ext_address key)))).

Definition on_unlock (password : jsstr) : M reply :=
  let* o := load_async password in
  let* v := of_option (js "Password salah") o in
  let* l := alloc v in
  modify (setSession password l) ;;;
  Ret (Result (RAddress (a_address <$> head (v_accounts v)))).

Definition on_add_account : M reply :=
  let* (_, l) := need_session in
  let* v := deref l in
  let nextIndex := Z.of_nat (length (v_accounts v)) in
  let* key := derive (v_mnemonic v) nextIndex in
  let a := {| a_name := account_name (nextIndex + 1); a_address := ext_address key;
              a_derivationPath := ext_derivationPath key; a_index := nextIndex |} in
  modify (upd_vault l (push_account a)) ;;;
  persistSession l ;;;
  Ret (Result (RAccount a)).

Definition on_export (password : jsstr) : M reply :=
  let* (_, l) := need_session in
  let* o := load_async password in
  let* _ := of_option (js "Password salah") o in
  let* v := deref l in
  Ret (Result (RMnemonic (v_mnemonic v))).

(** [wallet_getBalance] and [wallet_getAddressInfo]: the reply is passed on. *)
Definition on_query (q : option jsstr -> request) (address : option jsstr) : M reply :=
  let* (_, l) := need_session in let* v := deref l in
  let* r := fetch_any (q (address_or_first address v)) in
  Ret (Result (RAnswer r)).

Definition on_asset_list : M reply :=
  let* a := fetch_assets (js "stablecoins") (js "STABLECOIN") in
  let* b := fetch_assets (js "pegged-stablecoins") (js "STABLECOIN_PEGGED") in
  let* c := fetch_assets (js "stocks") (js "SAHAM") in
  Ret (Result (RAssets (a ++ b ++ c))).

Definition on_send_native (to : jsstr) (amtSat : Z) : M reply :=
  let* (_, l) := need_session in
  let* v := deref l in
  let* account := first_account v in
  let* key := derive (v_mnemonic v) (a_index account) in
  let* us := fetch_utxos (a_address account) in
  let* (selected, outs) := plan_payment us to amtSat (a_address account) (js "Saldo tidak cukup") in
  let* hex := sign_tx selected outs key in
  let* r := broadcast hex in
  Ret (Result (RAnswer r)).

Definition on_send_token (to : jsstr) (amt : double) (assetId : jsstr) : M reply :=
  let* (_, l) := need_session in
  let* v := deref l in
  let* account := first_account v in
  let* key := derive (v_mnemonic v) (a_index account) in
  let* data := Fetch (ReqPrepareToken assetId amt (a_address account) to) reply_prepared in
  let* us := fetch_utxos (a_address account) in
  let* (selected, outs) := plan_token us data (a_address account) in
  let* hex := sign_tx selected outs key in
  let* r := broadcast hex in
  Ret (Result (RAnswer r)).

Definition on_get_accounts (origin : jsstr) : M reply :=
  let* s := get in
  match getSession s with
  | Some (_, l) =>
      if isConnectedSite origin s
      then let* v := deref l in Ret (Result (RAddresses (addresses v))) else Ret (Result (RAddresses []))
  | None => Ret (Result (RAddresses []))
  end.

(** The requests of pages that need approval. *)
Definition on_dapp (c : dapp_call) (origin : jsstr) (tabId : Z) (requestId : jsstr) : M reply :=
  match c with
  | RequestAccounts =>
      let* s := get in
      match getSession s with
      | Some (_, l) =>
          if isConnectedSite origin s
          then let* v := deref l in Ret (Result (RAddresses (addresses v)))
          else ask_approval c origin tabId requestId
      | None => ask_approval c origin tabId requestId
      end
  | PlaceOrder _ _ _ _ _ =>
      need_session ;;;
      let* s := get in
      if negb (isConnectedSite origin s) then Throw (js "Site tidak terhubung") else
      ask_approval c origin tabId requestId
  | SignMessage _ _ => need_session ;;; ask_approval c origin tabId requestId
  | SendTransaction from to amount _ =>
      need_session ;;;
      let* s := get in
      if negb (isConnectedSite origin s) then Throw (js "Site tidak terhubung") else
      if negb (truthy (Some from)) || negb (truthy (Some to)) || (dsign amount <=? 0)
      then Throw (js "Parameter tidak valid") else ask_approval c origin tabId requestId
  | SendToken from to assetId amount =>
      need_session ;;;
      let* s := get in
      if negb (isConnectedSite origin s) then Throw (js "Site tidak terhubung") else
      if negb (truthy (Some from)) || negb (truthy (Some to)) || negb (truthy (Some assetId)) || (dsign amount =? 0)
      then Throw (js "Parameter tidak valid") else ask_approval c origin tabId requestId
  end.

Definition on_approval_response (id : jsstr) (approved : bool) : M reply :=
  let* s := get in
  match find_pending id s with
  | None => Ret (Result RNull)
  | Some p =>
      modify (drop_pending id) ;;;
      (if approved
       then modify (fun s => with_pending (pending s) (expiries s) (nuuid s) (badge s) (handled s ++ [id]) s) ;;;
            handleApproved p
       else sendResultToTab (p_tabId p) (p_requestId p) (inr (js "Ditolak pengguna"))) ;;;
      Ret (Result ROk)
  end.

Definition handleMessage (m : message) (sd : sender) : M reply :=
  let origin := origin_of m sd in
  let tabId := tab_of sd in
  match m_call m with
  | get_pending_approval id => on_pending_approval id
  | get_any_pending => on_any_pending
  | get_wallet_info => on_wallet_info
  | wallet_hasVault => yield ;;; let* s := get in Ret (Result (RBool (hasVault (store s))))
  | wallet_create mnemonic password accountName => on_create mnemonic password accountName
  | wallet_unlock password => on_unlock password
  | wallet_lock => modify clearSession ;;; Ret (Result (RBool true))
  | wallet_isUnlocked => let* s := get in Ret (Result (RBool (isUnlocked s)))
  | wallet_getAccounts =>
      let* (_, l) := need_session in let* v := deref l in Ret (Result (RAccounts (v_accounts v)))
  | wallet_addAccount => on_add_account
  | wallet_exportMnemonic password => on_export password
  | wallet_getBalance address => on_query ReqConnect address
  | wallet_getAddressInfo address => on_query ReqAddress address
  | wallet_getAssetList => on_asset_list
  | wallet_sendNative to amtSat => on_send_native to amtSat
  | wallet_sendToken to amt assetId => on_send_token to amt assetId
  | garuda_getAccounts => on_get_accounts origin
  | garuda c => on_dapp c origin tabId (default [] (m_id m))
  | approval_response id approved => on_approval_response id approved
  | unknown_method meth => Throw (js "Unknown method: " ++ meth)
  end.
End Worker.
