(* ===== verification/System.v ===== *)
(** * The worker among its events

    The runs of src/extension/src/background/index.ts: messages, replies of the
    API, resumed handlers and timers interleave freely; a handler is only
    interrupted where it awaits. [wp] is a Hoare logic for such handlers: an
    invariant may be broken inside an atomic section and holds wherever another
    event can come in. *)

From stdpp Require Import gmap.
From S2P Require Import Prelude JsText Bytes Keys Tx Json Vault Background.
Local Open Scope Z_scope.
Local Open Scope bg_scope.

Section System.
Context {C : Crypto} {V : VaultCrypto}.
Context (random : nat -> nat -> list Z) (uuid : nat -> jsstr).

Record config := { st : bg; tasks : list (M reply) }.

(** A worker that has just started, with what storage holds. *)
Definition boot (s : storage) : bg := {|
  heap := []; sPassword := None; sVault := None; lockTimer := None; timers := []; ntimers := 0;
  now := 0; store := s; pending := []; expiries := []; nrandom := 0; nuuid := 0;
  sent := []; badge := false; handled := [] |}.

Definition fire_lock (t : nat) (s : bg) : bg :=
  clearSession (with_timers (lockTimer s) (clearTimeout t (timers s)) (ntimers s) s).

Definition drop_expiry (id : jsstr) (s : bg) : bg :=
  with_pending (pending s) (List.filter (fun e => negb (bool_decide (e.1 = id))) (expiries s))
    (nuuid s) (badge s) (handled s) s.

(** Time stops at the next deadline, where the timer fires. *)
Definition quiet_until (t : Z) (s : bg) : Prop :=
  Forall (fun e => t <= e.2) (timers s) /\ Forall (fun e => t <= e.2) (expiries s).

Inductive step : config -> config -> Prop :=
| step_message c m sd s' t :
    run (handleMessage random uuid m sd) (st c) = (s', t) ->
    step c {| st := s'; tasks := tasks c ++ [t] |}
| step_resume c i m s' t :
    tasks c !! i = Some (Await m) -> run m (st c) = (s', t) ->
    step c {| st := s'; tasks := <[i := t]> (tasks c) |}
| step_answer c i q k a s' t :
    tasks c !! i = Some (Fetch q k) -> run (k a) (st c) = (s', t) ->
    step c {| st := s'; tasks := <[i := t]> (tasks c) |}
| step_lock c t d :
    (t, d) ∈ timers (st c) -> d <= now (st c) ->
    step c {| st := fire_lock t (st c); tasks := tasks c |}
| step_expire c id d s' t :
    (id, d) ∈ expiries (st c) -> d <= now (st c) -> run (expire id) (drop_expiry id (st c)) = (s', t) ->
    step c {| st := s'; tasks := tasks c |}
| step_time c t :
    now (st c) <= t -> quiet_until t (st c) ->
    step c {| st := with_now t (st c); tasks := tasks c |}.

Abbreviation steps := (rtc step).

Definition reachable (c : config) : Prop := exists s, steps {| st := boot s; tasks := [] |} c.

(** ** Hoare logic *)

Section WP.
Context (I : bg -> Prop).

Fixpoint wp {A} (m : M A) (Q : A -> bg -> Prop) (E : jsstr -> bg -> Prop) (s : bg) : Prop :=
  match m with
  | Ret a => Q a s
  | Throw e => E e s
  | Atom f => let '(s', m') := f s in wp m' Q E s'
  | Await m => I s /\ forall s', I s' -> wp m Q E s'
  | Fetch q k => I s /\ forall a s', I s' -> wp (k a) Q E s'
  end.

Lemma wp_bind {A B} (m : M A) (k : A -> M B) Q E s :
  wp m (fun a => wp (k a) Q E) E s -> wp (bind m k) Q E s.
Proof.
  revert s. induction m as [a|e|f IH|m IH|q g IH] using M_ind'; intros s; cbn [wp bind]; try done.
  - specialize (IH s). destruct (f s) as [s' m']. cbn in IH. apply IH.
  - intros [Hs Hk]. split; [done|]. intros s' Hs'. by apply IH, Hk.
  - intros [Hs Hk]. split; [done|]. intros a s' Hs'. by apply IH, Hk.
Qed.

Lemma wp_catch {A} (m : M A) (h : jsstr -> M A) Q E s :
  wp m Q (fun e => wp (h e) Q E) s -> wp (catch m h) Q E s.
Proof.
  revert s. induction m as [a|e|f IH|m IH|q g IH] using M_ind'; intros s; cbn [wp catch]; try done.
  - specialize (IH s). destruct (f s) as [s' m']. cbn in IH. apply IH.
  - intros [Hs Hk]. split; [done|]. intros s' Hs'. by apply IH, Hk.
  - intros [Hs Hk]. split; [done|]. intros a s' Hs'. by apply IH, Hk.
Qed.

Lemma wp_weaken {A} (m : M A) (Q Q' : A -> bg -> Prop) (E E' : jsstr -> bg -> Prop) s :
  (forall a s, Q a s -> Q' a s) -> (forall e s, E e s -> E' e s) -> wp m Q E s -> wp m Q' E' s.
Proof.
  intros HQ HE. revert s. induction m as [a|e|f IH|m IH|q g IH] using M_ind'; intros s; cbn [wp]; auto.
  - specialize (IH s). destruct (f s) as [s' m']. cbn in IH. apply IH.
  - intros [Hs Hk]. split; [done|]. intros s' Hs'. by apply IH, Hk.
  - intros [Hs Hk]. split; [done|]. intros a s' Hs'. by apply IH, Hk.
Qed.

(** A suspended handler keeps the invariant when it goes on. *)
Definition task_ok {A} (m : M A) : Prop :=
  match m with
  | Await m => forall s, I s -> wp m (fun _ => I) (fun _ => I) s
  | Fetch q k => forall a s, I s -> wp (k a) (fun _ => I) (fun _ => I) s
  | _ => True
  end.

Lemma wp_run {A} (m : M A) s s' t :
  wp m (fun _ => I) (fun _ => I) s -> run m s = (s', t) -> I s' /\ task_ok t.
Proof.
  revert s. induction m as [a|e|f IH|m IH|q g IH] using M_ind'; intros s; cbn [wp run].
  - intros H [= <- <-]. done.
  - intros H [= <- <-]. done.
  - specialize (IH s). destruct (f s) as [s1 m1]. cbn in IH. intros H E. by apply (IH s1).
  - intros [Hs Hk] [= <- <-]. done.
  - intros [Hs Hk] [= <- <-]. done.
Qed.

(** What has to be shown of the worker for an invariant. *)
Record inductive_inv : Prop := {
  inv_message : forall m sd s, I s -> wp (handleMessage random uuid m sd) (fun _ => I) (fun _ => I) s;
  inv_lock : forall s t d, I s -> (t, d) ∈ timers s -> d <= now s -> I (fire_lock t s);
  inv_expire : forall s id d, I s -> (id, d) ∈ expiries s -> d <= now s ->
    wp (expire id) (fun _ => I) (fun _ => I) (drop_expiry id s);
  inv_time : forall s t, I s -> now s <= t -> quiet_until t s -> I (with_now t s)
}.

Lemma inv_step c c' :
  inductive_inv -> step c c' -> I (st c) -> Forall task_ok (tasks c) -> I (st c') /\ Forall task_ok (tasks c').
Proof.
  intros [Hm Hl He Ht] Hstep Hs Hts. destruct Hstep as [c m sd s' t Er|c i m s' t Hi Er|c i q k a s' t Hi Er|c t d Hin Hd|c id d s' t Hin Hd Er|c t Hn Hq];
    cbn [st tasks].
  - destruct (wp_run _ _ _ _ (Hm m sd _ Hs) Er) as [H1 H2]. split; [done|]. apply Forall_app. by repeat constructor.
  - eapply Forall_lookup_1 in Hts as Hti; [|done]. destruct (wp_run _ _ _ _ (Hti _ Hs) Er) as [H1 H2].
    split; [done|]. by apply Forall_insert.
  - eapply Forall_lookup_1 in Hts as Hti; [|done]. destruct (wp_run _ _ _ _ (Hti a _ Hs) Er) as [H1 H2].
    split; [done|]. by apply Forall_insert.
  - split; [by apply (Hl _ _ d)|done].
  - destruct (wp_run _ _ _ _ (He _ _ d Hs Hin Hd) Er) as [H1 _]. done.
  - split; [by apply Ht|done].
Qed.

Lemma inv_reachable c : inductive_inv -> (forall s, I (boot s)) -> reachable c -> I (st c) /\ Forall task_ok (tasks c).
Proof.
  intros Hinv Hboot [s Hs]. remember {| st := boot s; tasks := [] |} as c0 eqn:E0.
  assert (I (st c0) /\ Forall task_ok (tasks c0)) as H0 by (subst; split; [apply Hboot|constructor]).
  clear E0. induction Hs as [|c0 c1 c2 H1 _ IH]; [done|]. apply IH. destruct H0. by eapply inv_step.
Qed.
End WP.
End System.

(** ** Schedules

    A run given by the choices of the scheduler, to execute. *)

Inductive choice :=
| Deliver (m : message) (sd : sender)
| Resume (i : nat)
| Answer (i : nat) (a : answer).

Section Schedule.
Context {C : Crypto} {V : VaultCrypto}.
Context (random : nat -> nat -> list Z) (uuid : nat -> jsstr).

Definition take_choice (c : config) (ch : choice) : config :=
  match ch with
  | Deliver m sd =>
      let '(s', t) := run (handleMessage random uuid m sd) (st c) in {| st := s'; tasks := tasks c ++ [t] |}
  | Resume i =>
      match tasks c !! i with
      | Some (Await m) => let '(s', t) := run m (st c) in {| st := s'; tasks := <[i := t]> (tasks c) |}
      | _ => c
      end
  | Answer i a =>
      match tasks c !! i with
      | Some (Fetch q k) => let '(s', t) := run (k a) (st c) in {| st := s'; tasks := <[i := t]> (tasks c) |}
      | _ => c
      end
  end.

Definition drive (c : config) (l : list choice) : config := foldl take_choice c l.

Lemma drive_steps c l : rtc (step random uuid) c (drive c l).
Proof.
  revert c. induction l as [|ch l IH]; intros c; [done|]. cbn [drive foldl].
  transitivity (take_choice c ch); [|apply IH]. destruct ch as [m sd|i|i a]; cbn [take_choice].
  - destruct (run _ _) as [s' t] eqn:E. apply rtc_once. by eapply step_message.
  - destruct (tasks c !! i) as [[]|] eqn:Ei; try done. destruct (run _ _) as [s' t] eqn:E.
    apply rtc_once. by eapply step_resume.
  - destruct (tasks c !! i) as [[]|] eqn:Ei; try done. destruct (run _ _) as [s' t] eqn:E.
    apply rtc_once. by eapply step_answer.
Qed.
End Schedule.
