(* ===== verification/Frame.v ===== *)
(** * Invariants of the worker

    Every handler of [Background] changes the state through few primitives. A
    predicate that the primitives keep ([framed]) is kept by every handler, at
    every point where another event can come in. *)

From stdpp Require Import gmap.
From S2P Require Import Prelude JsText Bytes Keys Tx Json Vault Background System.
Local Open Scope Z_scope.
Local Open Scope bg_scope.

Create HintDb keeps discriminated.

Section Frame.
Context {C : Crypto} {V : VaultCrypto}.
Context (random : nat -> nat -> list Z) (uuid : nat -> jsstr).
Context (I : bg -> Prop).

Definition asked (c : dapp_call) (origin : jsstr) (tabId : Z) (requestId : jsstr) (s : bg) : bg :=
  (run (ask_approval uuid c origin tabId requestId) s).1.

Definition approve (id : jsstr) (s : bg) : bg :=
  let s := drop_pending id s in
  with_pending (pending s) (expiries s) (nuuid s) (badge s) (handled s ++ [id]) s.

Record framed : Prop := {
  f_store : forall st n s, I s -> I (with_store st n s);
  f_heap : forall h s, I s -> I (with_heap h s);
  f_sent : forall l s, I s -> I (with_sent l s);
  f_set : forall p l s, I s -> I (setSession p l s);
  f_clear : forall s, I s -> I (clearSession s);
  f_persist : forall p l s, I s -> sPassword s = Some p -> I (with_session (Some p) (Some l) s);
  f_ask : forall c o t r s, I s -> I (asked c o t r s);
  f_drop : forall id p s, I s -> find_pending id s = Some p -> I (drop_pending id s);
  f_approve : forall id p s, I s -> find_pending id s = Some p -> I (approve id s);
  f_expiry : forall id s, I s -> I (drop_expiry id s)
}.

Definition keeps {A} (m : M A) : Prop := forall s, I s -> wp I m (fun _ => I) (fun _ => I) s.

Lemma keeps_ret {A} (a : A) : keeps (Ret a).
Proof. by intros s Hs. Qed.

Lemma keeps_throw {A} e : keeps (Throw (A := A) e).
Proof. by intros s Hs. Qed.

Lemma keeps_bind {A B} (m : M A) (k : A -> M B) : keeps m -> (forall a, keeps (k a)) -> keeps (bind m k).
Proof.
  intros Hm Hk s Hs. apply wp_bind. eapply wp_weaken; [| |by apply Hm].
  - intros a s' Hs'. by apply Hk.
  - done.
Qed.

Lemma keeps_catch {A} (m : M A) h : keeps m -> (forall e, keeps (h e)) -> keeps (catch m h).
Proof.
  intros Hm Hh s Hs. apply wp_catch. eapply wp_weaken; [| |by apply Hm].
  - done.
  - intros e s' Hs'. by apply Hh.
Qed.

Lemma keeps_get : keeps get.
Proof. by intros s Hs. Qed.

Lemma keeps_modify f : (forall s, I s -> I (f s)) -> keeps (modify f).
Proof. intros H s Hs. by apply H. Qed.

Lemma keeps_yield : keeps yield.
Proof. intros s Hs. split; [done|]. by intros s' Hs'. Qed.

Lemma keeps_of_option {A} e (o : option A) : keeps (of_option e o).
Proof. destruct o; [apply keeps_ret|apply keeps_throw]. Qed.

Lemma keeps_fetch {A} q (k : answer -> M A) : (forall a, keeps (k a)) -> keeps (Fetch q k).
Proof. intros H s Hs. split; [done|]. intros a s' Hs'. by apply H. Qed.

Hint Resolve keeps_ret keeps_throw keeps_get keeps_yield keeps_of_option : keeps.

Ltac keeps :=
  repeat first
  [ progress eauto with keeps
  | match goal with
    | |- keeps (bind _ _) => apply keeps_bind; [|intros ?]
    | |- keeps (catch _ _) => apply keeps_catch; [|intros ?]
    | |- keeps (Fetch _ _) => apply keeps_fetch; intros ?
    | |- keeps (match ?x with _ => _ end) => destruct x
    | |- keeps (if ?x then _ else _) => destruct x
    end ].

Context (F : framed).

Lemma keeps_alloc v : keeps (alloc v).
Proof. intros s Hs. cbn. by apply (f_heap F). Qed.

Lemma keeps_save v p : keeps (save_async random v p).
Proof.
  unfold save_async. keeps.
  - apply keeps_modify. intros s Hs. by apply (f_store F).
  - apply keeps_modify. intros s Hs. by apply (f_store F).
Qed.
Hint Resolve keeps_alloc keeps_save : keeps.

Lemma keeps_persist l : keeps (persistSession random l).
Proof.
  intros s Hs. unfold persistSession. apply wp_bind. cbn [wp get].
  destruct (sPassword s) as [[|u p]|] eqn:Ep; [done| |done].
  destruct (vault_at s l) as [v|]; [|done]. apply wp_bind. cbn [wp modify].
  apply keeps_save. by apply (f_persist F).
Qed.

Lemma keeps_send t r x : keeps (sendResultToTab t r x).
Proof.
  unfold sendResultToTab. destruct (t <? 0); [apply keeps_ret|]. apply keeps_modify.
  intros s Hs. by apply (f_sent F).
Qed.

Lemma keeps_ask c o t r : keeps (ask_approval uuid c o t r).
Proof. intros s Hs. apply (f_ask F c o t r s Hs). Qed.

Lemma keeps_upd l f : keeps (modify (upd_vault l f)).
Proof. apply keeps_modify. intros s Hs. by apply (f_heap F). Qed.

Lemma keeps_site o : keeps (modify (addConnectedSite o)).
Proof.
  apply keeps_modify. intros s Hs. unfold addConnectedSite. destruct (sVault s); [|done].
  destruct (isConnectedSite o s); [done|by apply (f_heap F)].
Qed.

Lemma keeps_set p l : keeps (modify (setSession p l)).
Proof. apply keeps_modify. intros s Hs. by apply (f_set F). Qed.

Lemma keeps_clear : keeps (modify clearSession).
Proof. apply keeps_modify. intros s Hs. by apply (f_clear F). Qed.

Lemma keeps_load p : keeps (load_async p).
Proof. unfold load_async. keeps. Qed.

Lemma keeps_session : keeps need_session.
Proof. unfold need_session. keeps. Qed.

Lemma keeps_deref l : keeps (deref l).
Proof. unfold deref. keeps. Qed.

Lemma keeps_first v : keeps (first_account v).
Proof. unfold first_account. keeps. Qed.
Hint Resolve keeps_persist keeps_send keeps_ask keeps_upd keeps_site keeps_set keeps_clear
  keeps_load keeps_session keeps_deref keeps_first : keeps.

Lemma keeps_find a v : keeps (find_account a v).
Proof. unfold find_account. keeps. Qed.

Lemma keeps_derive m i : keeps (derive m i).
Proof. unfold derive. keeps. Qed.

Lemma keeps_sign i o k : keeps (sign_tx i o k).
Proof. unfold sign_tx. keeps. Qed.

Lemma keeps_utxos a : keeps (fetch_utxos a).
Proof. unfold fetch_utxos, reply_utxos. keeps. Qed.

Lemma keeps_any q : keeps (fetch_any q).
Proof. unfold fetch_any. keeps. Qed.

Lemma keeps_assets k t : keeps (fetch_assets k t).
Proof. unfold fetch_assets. keeps. Qed.

Lemma keeps_payment us to a own e : keeps (plan_payment us to a own e).
Proof. unfold plan_payment. keeps. Qed.

Lemma keeps_amount us to a own e : keeps (plan_amount us to a own e).
Proof. unfold plan_amount, plan_payment. keeps. Qed.

Lemma keeps_token us d own : keeps (plan_token us d own).
Proof. unfold plan_token. keeps. Qed.

Lemma keeps_prepared a : keeps (reply_prepared a).
Proof. unfold reply_prepared. keeps. Qed.

Lemma keeps_txid a : keeps (reply_txid a).
Proof. unfold reply_txid. keeps. Qed.

Lemma keeps_broadcast h : keeps (broadcast h).
Proof. apply keeps_any. Qed.
Hint Resolve keeps_find keeps_derive keeps_sign keeps_utxos keeps_any keeps_assets keeps_payment keeps_amount
  keeps_token keeps_prepared keeps_txid keeps_broadcast : keeps.

Lemma keeps_approved p : keeps (handleApproved random p).
Proof. unfold handleApproved, approved_body. keeps. Qed.

Lemma keeps_message m sd : keeps (handleMessage random uuid m sd).
Proof.
  destruct m as [c id o]. unfold handleMessage. cbn [m_call].
  destruct c; unfold on_pending_approval, on_any_pending, on_wallet_info, on_create, on_unlock, on_add_account,
    on_export, on_query, on_asset_list, on_send_native, on_send_token, on_get_accounts, on_dapp; try (solve [keeps]).
  unfold on_approval_response. intros s Hs. apply wp_bind. cbn [wp get]. destruct (find_pending id0 s) as [p|] eqn:Ep; [|done].
  apply wp_bind. cbn [wp modify]. destruct approved.
  - apply wp_bind, wp_bind. cbn [wp modify]. apply keeps_approved. by apply (f_approve F id0 p).
  - apply keeps_bind; [apply keeps_send|intros; apply keeps_ret|by apply (f_drop F id0 p)].
Qed.

(** A framed predicate that timers and time keep holds in every reachable state. *)
Lemma framed_inv :
  (forall s t d, I s -> (t, d) ∈ timers s -> d <= now s -> I (fire_lock t s)) ->
  (forall s t, I s -> now s <= t -> quiet_until t s -> I (with_now t s)) ->
  inductive_inv random uuid I.
Proof.
  intros Hl Ht. split; [intros; by apply keeps_message|done| |done].
  intros s id d Hs Hin Hd. apply wp_bind. cbn [wp get].
  assert (I (drop_expiry id s)) as Hs' by by apply (f_expiry F).
  destruct (find_pending id (drop_expiry id s)) as [p|] eqn:Ep; [|done].
  apply wp_bind. cbn [wp modify]. apply keeps_send. by apply (f_drop F id p).
Qed.
End Frame.
