(* ===== verification/Worker.v ===== *)
(** * Theorems on the background worker

    Invariants of every reachable state of [System], and what single requests do
    when they run to their end ([exec]). *)

From stdpp Require Import gmap.
From S2P Require Import Prelude JsText Bytes Bech32 Keys Tx Utf8 Json Vault Background System Frame.
Local Open Scope Z_scope.
Local Open Scope bg_scope.

(** ** The lock timer *)

Definition LOCK_MS : Z := 30 * 60 * 1000.

Definition lock_inv (s : bg) : Prop :=
  (forall t d, (t, d) ∈ timers s -> lockTimer s = Some t /\ now s <= d <= now s + LOCK_MS)
  /\ (length (timers s) <= 1)%nat
  /\ (sPassword s <> None -> timers s <> [])
  /\ (sVault s <> None -> sPassword s <> None).

Lemma clearTimeout_all t (ts : list (nat * Z)) :
  (forall t' d, (t', d) ∈ ts -> t' = t) -> clearTimeout t ts = [].
Proof.
  intros H. induction ts as [|[t' d] ts IH]; [done|]. unfold clearTimeout in *. cbn [List.filter fst].
  rewrite (H t' d) by left. rewrite Nat.eqb_refl. cbn [negb]. apply IH. intros t2 d2 Hin. eapply H. by right.
Qed.

Lemma lock_timers_cleared s : lock_inv s ->
  match lockTimer s with Some t => clearTimeout t (timers s) | None => timers s end = [].
Proof.
  intros (H1 & _). destruct (lockTimer s) as [t|] eqn:E.
  - apply clearTimeout_all. intros t' d Hin. apply H1 in Hin as [Hin _]. congruence.
  - destruct (timers s) as [|[t d] ts]; [done|]. destruct (H1 t d ltac:(left)) as [Hc _]. congruence.
Qed.

Lemma lock_inv_locked s :
  timers s = [] -> sPassword s = None -> sVault s = None -> lock_inv s.
Proof.
  intros Ht Hp Hv. unfold lock_inv. rewrite Ht, Hp, Hv. split_and_all; try done.
  - intros t d []%elem_of_nil.
  - simpl. lia.
Qed.

Lemma lock_inv_clear s : lock_inv s -> lock_inv (clearSession s).
Proof.
  intros H. pose proof (lock_timers_cleared s H) as Hc. unfold clearSession. cbn [lockTimer with_session].
  destruct (lockTimer s); by apply lock_inv_locked.
Qed.

Lemma lock_inv_set p l s : lock_inv s -> lock_inv (setSession p l s).
Proof.
  intros H. pose proof (lock_timers_cleared s H) as Hc. unfold setSession, resetLockTimer.
  cbn [lockTimer with_session timers ntimers now]. rewrite Hc. unfold lock_inv, LOCK_MS.
  cbn [lockTimer with_timers with_session timers ntimers now sPassword sVault app].
  split_and_all; try done.
  intros t d [= -> ->]%list_elem_of_singleton. split; [done|lia].
Qed.

Lemma lock_framed uuid : framed uuid lock_inv.
Proof.
  split; try (intros; assumption).
  - intros. by apply lock_inv_set.
  - intros. by apply lock_inv_clear.
  - intros p l s (H1 & H2 & H3 & H4) Hp. unfold lock_inv. cbn. rewrite Hp in H3. done.
Qed.

Lemma lock_inductive {C : Crypto} {V : VaultCrypto} random uuid : inductive_inv random uuid lock_inv.
Proof.
  apply framed_inv; [apply lock_framed| |].
  - intros s t d H Hin Hd.
    assert (clearTimeout t (timers s) = []) as E.
    { destruct H as (H1 & _). destruct (H1 _ _ Hin) as [Ht _]. apply clearTimeout_all.
      intros t' d' Hin'. apply H1 in Hin' as [Ht' _]. congruence. }
    unfold fire_lock, clearSession. rewrite E. cbn [lockTimer with_session with_timers].
    destruct (lockTimer s); by apply lock_inv_locked.
  - intros s t (H1 & H2 & H3 & H4) Hn [Hq _]. unfold lock_inv. cbn [with_now timers lockTimer now sPassword sVault].
    split_and_all; try done. intros t' d Hin. destruct (H1 t' d Hin) as [Ht Hd]. split; [done|].
    rewrite Forall_forall in Hq. specialize (Hq _ Hin). cbn in Hq. lia.
Qed.

Lemma lock_boot s : lock_inv (boot s).
Proof. by apply lock_inv_locked. Qed.

(** C5. The wallet locks itself: in every reachable state, under any
    interleaving of requests, replies and timers, an unlocked session has exactly
    one armed lock timer, due within thirty minutes, and when that timer fires
    the session is gone. *)
Theorem session_auto_locks {C : Crypto} {V : VaultCrypto} (random : nat -> nat -> list Z) (uuid : nat -> jsstr)
    (c : config) :
  reachable random uuid c -> isUnlocked (st c) = true ->
  exists t d, timers (st c) = [(t, d)] /\ now (st c) <= d <= now (st c) + LOCK_MS
    /\ isUnlocked (fire_lock t (st c)) = false /\ getSession (fire_lock t (st c)) = None.
Proof.
  intros Hr Hu. destruct (inv_reachable _ _ _ _ (lock_inductive random uuid) lock_boot Hr) as [(H1 & H2 & H3 & _) _].
  unfold isUnlocked in Hu. destruct (sPassword (st c)) as [p|]; [|done].
  specialize (H3 ltac:(done)). destruct (timers (st c)) as [|[t d] [|]] eqn:Et; [done| |simpl in H2; lia].
  exists t, d. split; [done|]. destruct (H1 t d ltac:(left)) as [Hl Hd]. split; [done|].
  unfold fire_lock, clearSession. cbn [lockTimer with_session with_timers]. by rewrite Hl.
Qed.

(** ** Concrete runs *)

Definition sample_random (i n : nat) : list Z := replicate n (Z.of_nat i mod 256).
Definition sample_uuid (i : nat) : jsstr := to_string 10 (Z.of_nat i).

Definition popup : sender := {| s_origin := Some (js "chrome-extension://garuda"); s_url := None; s_tab := None |}.
Definition say (c : call) : message := {| m_call := c; m_id := None; m_origin := None |}.

(** Create a wallet and let the handler finish. *)
Definition created : config :=
  drive (C := toy) (V := toy_vault) sample_random sample_uuid {| st := boot ∅; tasks := [] |}
    [Deliver (say (wallet_create (js "abandon") (js "pw") None)) popup; Resume 0; Resume 0].

Lemma created_reachable : reachable (C := toy) (V := toy_vault) sample_random sample_uuid created.
Proof. exists ∅. apply drive_steps. Qed.

Lemma session_auto_locks_witness :
  exists t d, timers (st created) = [(t, d)] /\ now (st created) <= d <= now (st created) + LOCK_MS.
Proof.
  destruct (session_auto_locks (C := toy) (V := toy_vault) sample_random sample_uuid created created_reachable)
    as (t & d & H1 & H2 & _); [vm_compute; reflexivity|]. exists t, d. split; assumption.
Defined.

(** ** Approvals *)

Definition pending_ids (s : bg) : list jsstr := map fst (pending s).

(** Identifiers come from the generator, are pending at most once, and one that
    was executed is not pending any more. *)
Definition approval_inv (uuid : nat -> jsstr) (s : bg) : Prop :=
  NoDup (pending_ids s) /\ NoDup (handled s)
  /\ (forall id, id ∈ pending_ids s \/ id ∈ handled s -> exists i, (i < nuuid s)%nat /\ id = uuid i)
  /\ (forall id, id ∈ handled s -> id ∉ pending_ids s).

Definition drop_id (id : jsstr) (l : list (jsstr * PendingRequest)) : list (jsstr * PendingRequest) :=
  List.filter (fun e => negb (bool_decide (e.1 = id))) l.

Lemma elem_of_drop_id x id l : x ∈ map fst (drop_id id l) <-> x ∈ map fst l /\ x <> id.
Proof.
  induction l as [|[k p] l IH]; [split; [intros []%elem_of_nil|intros [[]%elem_of_nil _]]|].
  unfold drop_id in *. cbn [List.filter fst map]. rewrite elem_of_cons.
  case_bool_decide as Hk; cbn [negb map fst]; [|rewrite elem_of_cons]; rewrite IH; subst; intuition congruence.
Qed.

Lemma NoDup_drop_id id l : NoDup (map fst l) -> NoDup (map fst (drop_id id l)).
Proof.
  induction l as [|[k p] l IH]; [done|]. unfold drop_id in *. cbn [List.filter fst map]. rewrite NoDup_cons.
  intros [H1 H2]. case_bool_decide as Hk; cbn [negb map fst]; [by apply IH|]. apply NoDup_cons.
  split; [|by apply IH]. fold (drop_id id l). rewrite elem_of_drop_id. tauto.
Qed.

Lemma find_pending_elem id s p : find_pending id s = Some p -> id ∈ pending_ids s.
Proof.
  unfold find_pending, pending_ids. induction (pending s) as [|[k q] l IH]; [done|]. cbn [List.find fst map].
  case_bool_decide as Hk; [subst; left|]. intros H. right. by apply IH.
Qed.

Lemma find_pending_none id s : id ∉ pending_ids s -> find_pending id s = None.
Proof.
  unfold find_pending, pending_ids. induction (pending s) as [|[k q] l IH]; [done|]. cbn [List.find fst map].
  rewrite not_elem_of_cons. intros [H1 H2]. case_bool_decide; [done|by apply IH].
Qed.

Lemma approval_framed uuid : (forall i j, uuid i = uuid j -> i = j) -> framed uuid (approval_inv uuid).
Proof.
  intros Hinj. split; try (intros; assumption).
  - intros s H. unfold clearSession. cbn [lockTimer with_session]. by destruct (lockTimer s).
  - intros c o t r s (H1 & H2 & H3 & H4). unfold asked, approval_inv, pending_ids. cbn.
    fold (drop_id (uuid (nuuid s)) (pending s)).
    assert (forall id, id ∈ pending_ids s \/ id ∈ handled s -> id <> uuid (nuuid s)) as Hfresh.
    { intros id Hid ->. destruct (H3 _ Hid) as (i & Hi & E). apply Hinj in E. lia. }
    rewrite map_app. cbn [map fst]. split_and_all.
    + apply NoDup_app. split; [by apply NoDup_drop_id|]. split; [|apply NoDup_singleton].
      intros x [_ Hx]%elem_of_drop_id Hx'%list_elem_of_singleton. done.
    + done.
    + intros id. rewrite elem_of_app, list_elem_of_singleton. intros [[Hid| ->]|Hid].
      * apply elem_of_drop_id in Hid as [Hid _]. destruct (H3 id) as (i & Hi & ->); [by left|]. exists i. split; [lia|done].
      * exists (nuuid s). split; [lia|done].
      * destruct (H3 id) as (i & Hi & ->); [by right|]. exists i. split; [lia|done].
    + intros id Hid. rewrite elem_of_app, list_elem_of_singleton, elem_of_drop_id.
      intros [[Hp _]|Heq]; [by apply (H4 id)|]. apply (Hfresh id); [by right|done].
  - intros id p s (H1 & H2 & H3 & H4) Hf. unfold approval_inv, pending_ids. cbn. fold (drop_id id (pending s)).
    split_and_all; [by apply NoDup_drop_id|done| |].
    + intros x [[Hx _]%elem_of_drop_id|Hx]; apply H3; [by left|by right].
    + intros x Hx [Hp _]%elem_of_drop_id. by apply (H4 x).
  - intros id p s (H1 & H2 & H3 & H4) Hf%find_pending_elem. unfold approval_inv, pending_ids. cbn.
    fold (drop_id id (pending s)). split_and_all.
    + by apply NoDup_drop_id.
    + apply NoDup_app. split; [done|]. split; [|apply NoDup_singleton].
      intros x Hx ->%list_elem_of_singleton. by apply (H4 id).
    + intros x [[Hx _]%elem_of_drop_id|Hx]; [apply H3; by left|].
      apply elem_of_app in Hx as [Hx| ->%list_elem_of_singleton]; apply H3; [by right|by left].
    + intros x Hx [Hp Hne]%elem_of_drop_id. apply elem_of_app in Hx as [Hx|Hx%list_elem_of_singleton]; [|done].
      by apply (H4 x).
Qed.

Lemma approval_inductive {C : Crypto} {V : VaultCrypto} random uuid :
  (forall i j, uuid i = uuid j -> i = j) -> inductive_inv random uuid (approval_inv uuid).
Proof.
  intros Hinj. apply framed_inv; [by apply approval_framed| |done].
  intros s t d H _ _. unfold fire_lock, clearSession. cbn [lockTimer with_session with_timers].
  by destruct (lockTimer s).
Qed.

Lemma approval_boot uuid s : approval_inv uuid (boot s).
Proof.
  unfold approval_inv, pending_ids. cbn. split_and_all; try apply NoDup_nil_2.
  - intros id [[]%elem_of_nil|[]%elem_of_nil].
  - intros id []%elem_of_nil.
Qed.

(** C3. An approval is executed at most once: whatever the interleaving, no
    identifier is handed to [handleApproved] twice, and a further answer to one
    that was executed finds nothing and changes nothing. *)
Theorem approval_at_most_once {C : Crypto} {V : VaultCrypto} (random : nat -> nat -> list Z)
    (uuid : nat -> jsstr) (c : config) :
  (forall i j, uuid i = uuid j -> i = j) -> reachable random uuid c ->
  NoDup (handled (st c))
  /\ forall id b sd o r, id ∈ handled (st c) ->
       run (handleMessage random uuid {| m_call := approval_response id b; m_id := r; m_origin := o |} sd) (st c)
       = (st c, Ret (Result RNull)).
Proof.
  intros Hinj Hr.
  destruct (inv_reachable _ _ _ _ (approval_inductive random uuid Hinj) (approval_boot uuid) Hr)
    as [(H1 & H2 & H3 & H4) _].
  split; [done|]. intros id b sd o r Hid. cbn. by rewrite find_pending_none by by apply H4.
Qed.

Lemma sample_uuid_inj i j : sample_uuid i = sample_uuid j -> i = j.
Proof. unfold sample_uuid. intros H. apply to_string_inj in H; lia. Qed.

(** A site asks for the accounts and the user approves. *)
Definition approved_run : config :=
  drive (C := toy) (V := toy_vault) sample_random sample_uuid created
    [Deliver (say (garuda RequestAccounts)) {| s_origin := Some (js "https://dex"); s_url := None; s_tab := Some 4 |};
     Deliver (say (approval_response (sample_uuid 0) true)) popup; Resume 2; Resume 2].

Lemma approval_at_most_once_witness : NoDup (handled (st approved_run)) /\ handled (st approved_run) = [js "0"].
Proof.
  split; [|vm_compute; reflexivity].
  apply (approval_at_most_once (C := toy) (V := toy_vault) sample_random sample_uuid); [apply sample_uuid_inj|].
  destruct created_reachable as [s Hs]. exists s. etransitivity; [apply Hs|apply drive_steps].
Defined.
