(* ===== verification/Monotone.v ===== *)
(** * What the worker never undoes

    Relations between an earlier and a later state of the background worker. A
    relation that every primitive respects ([moving]) relates any two states of a
    run, whatever messages, replies and timers come in between. *)

From stdpp Require Import gmap.
From S2P Require Import Prelude JsText Bytes Keys Tx Json Vault Background System Frame Worker.
Local Open Scope Z_scope.
Local Open Scope bg_scope.

Create HintDb moves discriminated.

Section Monotone.
Context {C : Crypto} {V : VaultCrypto}.
Context (random : nat -> nat -> list Z) (uuid : nat -> jsstr).
Context (R : bg -> bg -> Prop) {PO : PreOrder R}.

(** Every atomic step of a process, from whatever state, respects [R]. *)
Fixpoint moves {A} (m : M A) : Prop :=
  match m with
  | Ret _ | Throw _ => True
  | Atom f => forall s, R s (f s).1 /\ moves (f s).2
  | Await m => moves m
  | Fetch q k => forall a, moves (k a)
  end.

Record moving : Prop := {
  m_store : forall st n s, R s (with_store st n s);
  m_heap : forall h s, R s (with_heap h s);
  m_sent : forall x s, R s (with_sent (sent s ++ [x]) s);
  m_session : forall p v s, R s (with_session p v s);
  m_timers : forall l t n s, R s (with_timers l t n s);
  m_now : forall t s, R s (with_now t s);
  m_ask : forall c o t r s, R s (asked uuid c o t r s);
  m_drop : forall id s, R s (drop_pending id s);
  m_handled : forall id s, R s (with_pending (pending s) (expiries s) (nuuid s) (badge s) (handled s ++ [id]) s);
  m_expiry : forall id s, R s (drop_expiry id s)
}.

Lemma moves_bind {A B} (m : M A) (k : A -> M B) : moves m -> (forall a, moves (k a)) -> moves (bind m k).
Proof.
  intros Hm Hk. induction m as [a|e|f IH|m IH|q g IH] using M_ind'; cbn [bind moves] in *; try done; auto.
  intros s. specialize (IH s). specialize (Hm s). destruct (f s) as [s' m']. cbn in *. destruct Hm. auto.
Qed.

Lemma moves_catch {A} (m : M A) h : moves m -> (forall e, moves (h e)) -> moves (catch m h).
Proof.
  intros Hm Hh. induction m as [a|e|f IH|m IH|q g IH] using M_ind'; cbn [catch moves] in *; try done; auto.
  intros s. specialize (IH s). specialize (Hm s). destruct (f s) as [s' m']. cbn in *. destruct Hm. auto.
Qed.

Lemma moves_run {A} (m : M A) s s' t : moves m -> run m s = (s', t) -> R s s' /\ moves t.
Proof.
  revert s. induction m as [a|e|f IH|m IH|q g IH] using M_ind'; intros s; cbn [moves run];
    try (intros H [= <- <-]; split; [reflexivity|done]).
  intros H E. specialize (H s). specialize (IH s). destruct (f s) as [s1 m1]. cbn in *. destruct H as [H1 H2].
  destruct (IH s1 H2 E) as [H3 H4]. split; [by transitivity s1|done].
Qed.

Lemma moves_ret {A} (a : A) : moves (Ret a). Proof. done. Qed.
Lemma moves_throw {A} e : moves (Throw (A := A) e). Proof. done. Qed.
Lemma moves_get : moves get. Proof. intros s. by split. Qed.
Lemma moves_yield : moves yield. Proof. done. Qed.
Lemma moves_of_option {A} e (o : option A) : moves (of_option e o). Proof. by destruct o. Qed.
Lemma moves_modify f : (forall s, R s (f s)) -> moves (modify f). Proof. intros H s. split; [apply H|done]. Qed.
Lemma moves_fetch {A} q (k : answer -> M A) : (forall a, moves (k a)) -> moves (Fetch q k). Proof. done. Qed.
Hint Resolve moves_ret moves_throw moves_get moves_yield moves_of_option : moves.

Ltac moves :=
  repeat first
  [ progress eauto with moves
  | match goal with
    | |- moves (bind _ _) => apply moves_bind; [|intros ?]
    | |- moves (catch _ _) => apply moves_catch; [|intros ?]
    | |- moves (Fetch _ _) => apply moves_fetch; intros ?
    | |- moves (match ?x with _ => _ end) => destruct x
    | |- moves (if ?x then _ else _) => destruct x
    end ].

Context (F : moving).

Lemma moves_alloc v : moves (alloc v). Proof. intros s. split; [apply (m_heap F)|done]. Qed.

Lemma moves_save v p : moves (save_async random v p).
Proof. unfold save_async. moves; apply moves_modify; intros s'; apply (m_store F). Qed.
Hint Resolve moves_alloc moves_save : moves.

Lemma moves_persist l : moves (persistSession random l).
Proof. unfold persistSession. moves. apply moves_modify. intros s. apply (m_session F). Qed.

Lemma moves_send t r x : moves (sendResultToTab t r x).
Proof. unfold sendResultToTab. destruct (t <? 0); [done|]. apply moves_modify. intros s. apply (m_sent F). Qed.

Lemma moves_ask c o t r : moves (ask_approval uuid c o t r).
Proof. intros s. split; [apply (m_ask F c o t r)|done]. Qed.

Lemma moves_upd l f : moves (modify (upd_vault l f)).
Proof. apply moves_modify. intros s. apply (m_heap F). Qed.

Lemma moves_site o : moves (modify (addConnectedSite o)).
Proof.
  apply moves_modify. intros s. unfold addConnectedSite. destruct (sVault s); [|reflexivity].
  destruct (isConnectedSite o s); [reflexivity|apply (m_heap F)].
Qed.

Lemma moves_set p l : moves (modify (setSession p l)).
Proof.
  apply moves_modify. intros s. unfold setSession, resetLockTimer. etransitivity; [apply (m_session F)|apply (m_timers F)].
Qed.

Lemma clear_moves s : R s (clearSession s).
Proof.
  unfold clearSession. transitivity (with_session None None s); [apply (m_session F)|].
  destruct (lockTimer (with_session None None s)); [apply (m_timers F)|reflexivity].
Qed.

Lemma moves_clear : moves (modify clearSession). Proof. apply moves_modify, clear_moves. Qed.
Lemma moves_drop id : moves (modify (drop_pending id)). Proof. apply moves_modify. intros s. apply (m_drop F). Qed.
Hint Resolve moves_persist moves_send moves_ask moves_upd moves_site moves_set moves_clear moves_drop : moves.

Lemma moves_approved p : moves (handleApproved random p).
Proof.
  unfold handleApproved, approved_body, find_account, first_account, deref, derive, sign_tx, fetch_utxos, reply_utxos,
    broadcast, fetch_any, plan_amount, plan_payment, plan_token, reply_prepared, reply_txid. moves.
Qed.
Hint Resolve moves_approved : moves.

Lemma moves_message m sd : moves (handleMessage random uuid m sd).
Proof.
  destruct m as [c id o]. unfold handleMessage. cbn [m_call].
  destruct c; unfold on_pending_approval, on_any_pending, on_wallet_info, on_create, on_unlock, on_add_account,
    on_export, on_query, on_asset_list, on_send_native, on_send_token, on_get_accounts, on_dapp, on_approval_response,
    need_session, load_async, find_account, first_account, deref, derive, sign_tx, fetch_utxos, reply_utxos, fetch_assets,
    broadcast, fetch_any, plan_payment, plan_token, reply_prepared; moves.
  apply moves_modify. intros s. apply (m_handled F).
Qed.

Lemma moves_expire id : moves (expire id).
Proof. unfold expire. moves. Qed.

(** Suspended handlers stay within [R], and so does every run. *)
Lemma moves_step c c' : step random uuid c c' -> Forall moves (tasks c) -> R (st c) (st c') /\ Forall moves (tasks c').
Proof.
  intros Hstep Hts. destruct Hstep as [c m sd s' t Er|c i m s' t Hi Er|c i q k a s' t Hi Er|c t d _ _|c id d s' t _ _ Er|c t _ _];
    cbn [st tasks].
  - destruct (moves_run _ _ _ _ (moves_message m sd) Er). split; [done|]. apply Forall_app. by repeat constructor.
  - eapply Forall_lookup_1 in Hts as Hti; [|done]. destruct (moves_run m _ _ _ Hti Er). split; [done|by apply Forall_insert].
  - eapply Forall_lookup_1 in Hts as Hti; [|done]. destruct (moves_run (k a) _ _ _ (Hti a) Er). split; [done|by apply Forall_insert].
  - split; [|done]. unfold fire_lock. etransitivity; [apply (m_timers F)|apply clear_moves].
  - destruct (moves_run _ _ _ _ (moves_expire id) Er) as [H _]. split; [|done].
    etransitivity; [apply (m_expiry F)|exact H].
  - split; [apply (m_now F)|done].
Qed.

Lemma moves_steps c c' : rtc (step random uuid) c c' -> Forall moves (tasks c) -> R (st c) (st c') /\ Forall moves (tasks c').
Proof.
  intros Hs. induction Hs as [c|c1 c2 c3 H1 _ IH]; intros Ht; [split; [reflexivity|done]|].
  destruct (moves_step _ _ H1 Ht) as [Ha Hb]. destruct (IH Hb) as [Hc Hd]. split; [by transitivity (st c2)|done].
Qed.

Lemma moves_reachable c c' : reachable random uuid c -> rtc (step random uuid) c c' -> R (st c) (st c').
Proof.
  intros [s Hs] Hc. destruct (moves_steps _ _ Hs ltac:(constructor)) as [_ Ht]. by destruct (moves_steps _ _ Hc Ht).
Qed.
End Monotone.
