(* ===== verification/Requests.v ===== *)
(** * What single requests do

    Requests of the background worker run to their end, without other events in
    between, against given replies of the API. *)

From stdpp Require Import gmap.
From S2P Require Import Prelude JsText Bytes Bech32 Keys Tx Coins Utf8 Json Vault Background System Worker.
Local Open Scope Z_scope.
Local Open Scope bg_scope.

(** The outcome of a run: a value, an exception, or a fetch without a reply. *)
Inductive outcome (A : Type) := Value (a : A) | Raised (e : jsstr) | Stuck.
Arguments Value {A} a.
Arguments Raised {A} e.
Arguments Stuck {A}.

(** The state reached, the requests made, the outcome. *)
Fixpoint exec {A} (m : M A) (replies : list answer) (s : bg) : bg * list request * outcome A :=
  match m with
  | Ret a => (s, [], Value a)
  | Throw e => (s, [], Raised e)
  | Atom f => let '(s', m') := f s in exec m' replies s'
  | Await m => exec m replies s
  | Fetch q k =>
      match replies with
      | a :: replies => let '(s', qs, o) := exec (k a) replies s in (s', q :: qs, o)
      | [] => (s, [q], Stuck)
      end
  end.

(** ** Payments *)


Definition sample_coins : list UTXO :=
  [{| txid := replicate 64 48; vout := 0; value := 700 |}; {| txid := replicate 64 49; vout := 1; value := 9000 |};
   {| txid := replicate 64 50; vout := 2; value := 50 |}].


(** A payment is refused exactly when there is no coin, or when all coins
    together do not cover the amount and the fee. *)
Theorem payment_refused_iff (us : list UTXO) (to own short : jsstr) (amt : Z) :
  Forall (fun u => 0 <= value u) us ->
  (exists e, plan_payment us to amt own short = Throw e) <-> us = [] \/ total us < amt + FEE.
Proof.
  intros Hv. unfold plan_payment. destruct us as [|u us]; [split; [by left|]; intros _; by eexists|].
  destruct (select_spec (amt + FEE) (u :: us) [] 0 eq_refl) as (n & E & Hall & _). rewrite E. cbn [app] in *.
  assert (total (take n (u :: us)) <= total (u :: us)) as Hle.
  { rewrite <- (take_drop n (u :: us)) at 2. rewrite total_app.
    pose proof (total_nonneg (drop n (u :: us)) ltac:(by apply Forall_drop)). lia. }
  destruct (Z.ltb_spec (total (take n (u :: us))) (amt + FEE)) as [Hlt|Hge].
  - split; [|intros _; by eexists]. intros _. right. rewrite <- (Hall Hlt). done.
  - split; [intros [e [=]]|]. intros [[=]|Hlt]. lia.
Qed.

Lemma payment_refused_iff_witness :
  exists e, plan_payment sample_coins (js "a") 9000 (js "b") (js "c") = Throw e.
Proof.
  apply payment_refused_iff; [repeat constructor; done|]. right. vm_compute. reflexivity.
Defined.

(** ** Running processes *)

Lemma find_fresh {A} (f : A -> bool) l x :
  f x = true -> (forall e, In e l -> f e = false) -> List.find f (l ++ [x]) = Some x.
Proof.
  intros Hx. induction l as [|y l IH]; intros H; cbn [app List.find]; [by rewrite Hx|].
  rewrite (H y) by (by left). apply IH. intros e He. apply H. by right.
Qed.

Lemma exec_bind {A B} (m : M A) (k : A -> M B) rs s :
  exec (bind m k) rs s =
  (fix go (m : M A) (rs : list answer) (s : bg) {struct m} : bg * list request * outcome B :=
     match m with
     | Ret a => exec (k a) rs s
     | Throw e => (s, [], Raised e)
     | Atom f => let '(s', m') := f s in go m' rs s'
     | Await m => go m rs s
     | Fetch q g =>
         match rs with
         | a :: rs => let '(s', qs, o) := go (g a) rs s in (s', q :: qs, o)
         | [] => (s, [q], Stuck)
         end
     end) m rs s.
Proof.
  revert rs s. induction m as [a|e|f IH|m IH|q g IH] using M_ind'; intros rs s; cbn [bind exec]; try done.
  - specialize (IH s). destruct (f s) as [s' m']. cbn in IH. apply IH.
  - destruct rs as [|a rs]; [done|]. by rewrite IH.
Qed.

Section Requests.
Context {C : Crypto} {V : VaultCrypto}.
Context (random : nat -> nat -> list Z) (uuid : nat -> jsstr).

(** The open session of [s] and its vault. *)
Definition session_of (s : bg) (p : jsstr) (l : nat) (v : VaultData) : Prop :=
  getSession s = Some (p, l) /\ vault_at s l = Some v.

Lemma exec_send_native (m : message) (sd : sender) (s : bg) (p : jsstr) (l : nat) (v : VaultData)
    (a : AccountMeta) (accs : list AccountMeta) (key : ExtDerivedKey) (to : jsstr) (amt : Z)
    (us sel : list UTXO) (outs : list TxOutput) (hex : jsstr) (e txid h : option jsstr) :
  m_call m = wallet_sendNative to amt ->
  session_of s p l v -> v_accounts v = a :: accs ->
  ext_deriveKey (v_mnemonic v) 0 (a_index a) = Some key ->
  plan_payment us to amt (a_address a) (js "Saldo tidak cukup") = Ret (sel, outs) ->
  ext_buildAndSignTx sel outs (ext_privateKey key) (ext_publicKey key) = Some hex ->
  exec (handleMessage random uuid m sd) [AUtxos (UList us); ABroadcast e txid h] s
  = (s, [ReqUtxos (a_address a); ReqBroadcast hex], Value (Result (RAnswer (ABroadcast e txid h)))).
Proof.
  intros Em [Hs Hv] Ha Hk Hp Hx. unfold handleMessage. rewrite Em. unfold on_send_native, need_session, deref, first_account, derive.
  cbn -[getSession vault_at ext_deriveKey plan_payment sign_tx js]. rewrite Hs.
  cbn -[getSession vault_at ext_deriveKey plan_payment sign_tx js]. rewrite Hv.
  cbn -[ext_deriveKey plan_payment sign_tx js]. rewrite Ha. cbn -[ext_deriveKey plan_payment sign_tx js]. rewrite Hk.
  cbn -[plan_payment sign_tx js]. rewrite Hp. cbn -[ext_buildAndSignTx js]. rewrite Hx. cbn. done.
Qed.

(** [wallet_sendNative] moves coins without asking: for any sender and
    origin, when the wallet is unlocked the request fetches the coins of the first
    account and broadcasts the signed payment; no approval is created and the
    worker's state is unchanged. *)
Theorem sendNative_needs_no_approval (m : message) (sd : sender) (s : bg) (p : jsstr) (l : nat) (v : VaultData)
    (a : AccountMeta) (accs : list AccountMeta) (key : ExtDerivedKey) (to : jsstr) (amt : Z)
    (us sel : list UTXO) (outs : list TxOutput) (hex : jsstr) (e txid h : option jsstr) :
  m_call m = wallet_sendNative to amt ->
  session_of s p l v -> v_accounts v = a :: accs ->
  ext_deriveKey (v_mnemonic v) 0 (a_index a) = Some key ->
  plan_payment us to amt (a_address a) (js "Saldo tidak cukup") = Ret (sel, outs) ->
  ext_buildAndSignTx sel outs (ext_privateKey key) (ext_publicKey key) = Some hex ->
  exec (handleMessage random uuid m sd) [AUtxos (UList us); ABroadcast e txid h] s
  = (s, [ReqUtxos (a_address a); ReqBroadcast hex], Value (Result (RAnswer (ABroadcast e txid h)))).
Proof. apply exec_send_native. Qed.

(** C17. A request of a page that needs approval does nothing else: it is refused
    with an exception, or answered at once to a connected site with the addresses,
    or filed as one new pending request; in no case is anything fetched, signed or
    broadcast. *)
Theorem dapp_request_waits (m : message) (sd : sender) (s : bg) (c : dapp_call) :
  m_call m = garuda c ->
  exists s' t, run (handleMessage random uuid m sd) s = (s', t)
  /\ ((exists e, t = Throw e /\ s' = s)
      \/ (exists l, t = Ret (Result (RAddresses l)) /\ s' = s /\ c = RequestAccounts
          /\ isConnectedSite (origin_of m sd) s = true)
      \/ (t = Ret Waiting /\ handled s' = handled s /\ sent s' = sent s /\ heap s' = heap s /\ store s' = store s
          /\ find_pending (uuid (nuuid s)) s'
             = Some {| p_id := uuid (nuuid s); p_call := c; p_origin := origin_of m sd; p_tabId := tab_of sd;
                       p_requestId := default [] (m_id m) |})).
Proof.
  intros Em. unfold handleMessage. rewrite Em. unfold on_dapp.
  assert (forall o t r, exists s', run (ask_approval uuid c o t r) s = (s', Ret Waiting)
    /\ handled s' = handled s /\ sent s' = sent s /\ heap s' = heap s /\ store s' = store s
    /\ find_pending (uuid (nuuid s)) s' = Some {| p_id := uuid (nuuid s); p_call := c; p_origin := o;
         p_tabId := t; p_requestId := r |}) as Hask.
  { intros o t r. eexists. split; [reflexivity|]. do 4 (split; [done|]). unfold find_pending. cbn [pending with_pending].
    rewrite find_fresh; [done|by rewrite bool_decide_eq_true_2|].
    intros e He%List.filter_In. destruct He as [_ He]. by apply negb_true_iff. }
  assert (forall o t r, exists s' t', run (ask_approval uuid c o t r) s = (s', t') /\ t' = Ret Waiting
    /\ handled s' = handled s /\ sent s' = sent s /\ heap s' = heap s /\ store s' = store s
    /\ find_pending (uuid (nuuid s)) s' = Some {| p_id := uuid (nuuid s); p_call := c; p_origin := o;
         p_tabId := t; p_requestId := r |}) as Hask'.
  { intros o t r. destruct (Hask o t r) as (s' & E & H'). exists s', (Ret Waiting). done. }
  clear Hask. unfold need_session.
  destruct c; cbn [bind get run of_option]; destruct (getSession s) as [[p l]|] eqn:Hs; cbn [bind of_option run get];
    try (destruct (isConnectedSite (origin_of m sd) s) eqn:Hc; cbn [negb]);
    try (destruct (_ || _)); unfold deref; cbn [bind get run of_option];
    try (destruct (vault_at s l); cbn [bind run of_option]);
    try (eexists s, _; split; [reflexivity|]; left; eexists; split; [reflexivity|done]);
    try (eexists s, _; split; [reflexivity|]; right; left; eexists; split_and_all; [reflexivity|done..]);
    edestruct Hask' as (s' & t' & E & H'); eexists s', t'; (split; [exact E|]); right; right; exact H'.
Qed.


(** ** Saving and unlocking *)

Definition random_ok : Prop := forall i n, bytes_ok (random i n) /\ length (random i n) = n.

Lemma exec_save {VL : VaultCryptoLaws V} {B} (v : VaultData) (p : jsstr) (k : unit -> M B) rs s :
  random_ok -> vault_ok v = true ->
  exists s', exec (bind (save_async random v p) k) rs s = exec (k tt) rs s'
    /\ loadVault p (store s') = Some v
    /\ exists st, s' = with_store st (S (S (nrandom s))) s.
Proof.
  intros Hr Hok. unfold save_async. cbn -[encrypt loadVault stringify vault_json].
  destruct (Hr (nrandom s) 32%nat) as [Hs Ls]. destruct (Hr (S (nrandom s)) 12%nat) as [Hi Li].
  destruct (save_load (random (nrandom s) 32) (random (S (nrandom s)) 12) v p (store s) Hs Hi Ls Li Hok)
    as (st' & Hsave & Hload). unfold saveVault in Hsave.
  destruct (encrypt _ _ _ p) as [e|]; [|done]. cbn [mbind option_bind] in Hsave. injection Hsave as Hst.
  cbn -[loadVault]. rewrite Hst. eexists. split; [reflexivity|]. split; [exact Hload|]. eexists. reflexivity.
Qed.

(** Creating a wallet replaces whatever was stored, for any sender: a
    [wallet_create] of any page or of the popup leaves a vault in storage that
    opens with the sender's password and holds the sender's phrase, and opens a
    session on it. *)
Theorem create_replaces_vault {VL : VaultCryptoLaws V} (m : message) (sd : sender) (s : bg)
    (mnemonic password : jsstr) (name : option jsstr) (key : ExtDerivedKey) :
  random_ok -> m_call m = wallet_create mnemonic password name ->
  ext_deriveKey mnemonic 0 0 = Some key -> vault_ok (fresh_vault mnemonic name key) = true ->
  exists s', exec (handleMessage random uuid m sd) [] s
             = (s', [], Value (Result (RAddress (Some (ext_address key)))))
    /\ loadVault password (store s') = Some (fresh_vault mnemonic name key)
    /\ sVault s' ≫= vault_at s' = Some (fresh_vault mnemonic name key).
Proof.
  intros Hr Em Hk Hok. unfold handleMessage. rewrite Em. unfold on_create, derive. rewrite Hk.
  cbn [bind of_option alloc exec].
  match goal with
  | |- context [exec (bind (save_async random ?v ?p) ?k) ?rs ?s] =>
      destruct (exec_save v p k rs s Hr Hok) as (s' & E & Hl & st & ->)
  end.
  rewrite E. cbn [bind exec modify]. eexists. split; [reflexivity|]. cbn [store setSession resetLockTimer with_timers with_session].
  split; [exact Hl|]. unfold vault_at. cbn -[lookup]. by rewrite lookup_app_r, Nat.sub_diag by lia.
Qed.

Lemma exec_unlock (m : message) (sd : sender) (s : bg) (password : jsstr) :
  m_call m = wallet_unlock password -> password <> [] ->
  match loadVault password (store s) with
  | Some v => exists s' l, exec (handleMessage random uuid m sd) [] s
                = (s', [], Value (Result (RAddress (a_address <$> head (v_accounts v)))))
                /\ session_of s' password l v /\ store s' = store s
  | None => exec (handleMessage random uuid m sd) [] s = (s, [], Raised (js "Password salah"))
  end.
Proof.
  intros Em Hp. unfold handleMessage. rewrite Em. unfold on_unlock, load_async.
  cbn -[loadVault js]. destruct (loadVault password (store s)) as [v|]; cbn -[loadVault js]; [|done].
  eexists _, (length (heap s)). split; [reflexivity|]. split; [|done]. unfold session_of, getSession, vault_at. cbn.
  destruct password; [done|]. split; [done|]. by rewrite lookup_app_r, Nat.sub_diag by lia.
Qed.

(** Unlocking: with a password that opens the stored vault the session holds
    that vault; with any other the request fails and the state is unchanged. *)
Theorem unlock_spec (m : message) (sd : sender) (s : bg) (password : jsstr) :
  m_call m = wallet_unlock password -> password <> [] ->
  match loadVault password (store s) with
  | Some v => exists s' l, exec (handleMessage random uuid m sd) [] s
                = (s', [], Value (Result (RAddress (a_address <$> head (v_accounts v)))))
                /\ session_of s' password l v /\ store s' = store s
  | None => exec (handleMessage random uuid m sd) [] s = (s, [], Raised (js "Password salah"))
  end.
Proof. apply exec_unlock. Qed.

(** ** Accounts *)

(** The accounts of a vault are the keys of its phrase, in order. *)
Definition accounts_ok (v : VaultData) : Prop :=
  forall i a, v_accounts v !! i = Some a ->
    a_index a = Z.of_nat i
    /\ exists key, ext_deriveKey (v_mnemonic v) 0 (Z.of_nat i) = Some key
       /\ a_address a = ext_address key /\ a_derivationPath a = ext_derivationPath key.

Lemma push_account_ok v a key :
  accounts_ok v -> ext_deriveKey (v_mnemonic v) 0 (Z.of_nat (length (v_accounts v))) = Some key ->
  a_index a = Z.of_nat (length (v_accounts v)) -> a_address a = ext_address key ->
  a_derivationPath a = ext_derivationPath key -> accounts_ok (push_account a v).
Proof.
  intros Hok Hk Hi Ha Hd i b. cbn [push_account v_accounts v_mnemonic]. rewrite lookup_app_Some.
  intros [Hb|[Hlen Hb]]; [by apply Hok|]. apply list_lookup_singleton_Some in Hb as [Hz <-].
  assert (i = length (v_accounts v)) as -> by lia. eauto.
Qed.

Lemma exec_add_account {VL : VaultCryptoLaws V} (m : message) (sd : sender) (s : bg) (p : jsstr) (l : nat)
    (v : VaultData) (key : ExtDerivedKey) :
  random_ok -> m_call m = wallet_addAccount -> session_of s p l v -> accounts_ok v ->
  ext_deriveKey (v_mnemonic v) 0 (Z.of_nat (length (v_accounts v))) = Some key ->
  (forall a, a_address a = ext_address key -> a_name a = account_name (Z.of_nat (length (v_accounts v)) + 1) ->
     a_derivationPath a = ext_derivationPath key -> vault_ok (push_account a v) = true) ->
  exists s' a v', exec (handleMessage random uuid m sd) [] s = (s', [], Value (Result (RAccount a)))
    /\ v' = push_account a v /\ accounts_ok v' /\ a_address a = ext_address key
    /\ session_of s' p l v' /\ loadVault p (store s') = Some v'.
Proof.
  intros Hr Em [Hs Hv] Hok Hk Hvok. unfold handleMessage. rewrite Em. unfold on_add_account, need_session, deref, derive.
  cbn -[getSession vault_at ext_deriveKey persistSession upd_vault]. rewrite Hs.
  cbn -[vault_at ext_deriveKey persistSession upd_vault]. rewrite Hv.
  cbn -[ext_deriveKey persistSession upd_vault]. rewrite Hk. cbn -[persistSession upd_vault account_name].
  set (a := {| a_name := _ |}). unfold persistSession. cbn [bind exec get].
  assert (exists u p', sPassword s = Some (u :: p') /\ p = u :: p' /\ sVault s = Some l) as (u & p' & Hp & -> & Hl).
  { unfold getSession in Hs. destruct (sPassword s) as [[|u p']|]; [done| |done].
    destruct (sVault s); [|done]. injection Hs as <- <-. eauto. }
  cbn [upd_vault with_heap sPassword]. rewrite Hp.
  assert (vault_at (upd_vault l (push_account a) s) l = Some (push_account a v)) as Hv'.
  { unfold vault_at, upd_vault. cbn [with_heap heap]. unfold vault_at in Hv. by rewrite list_lookup_alter_eq, Hv. }
  fold (upd_vault l (push_account a) s). rewrite Hv'. cbn [bind exec modify].
  match goal with
  | |- context [exec (bind (save_async random ?v ?p) ?k) ?rs ?s] =>
      destruct (exec_save v p k rs s Hr (Hvok a eq_refl eq_refl eq_refl)) as (s' & E & Hld & st' & ->)
  end.
  rewrite E. cbn [exec]. eexists _, a, (push_account a v). split; [reflexivity|]. split; [done|].
  split; [by eapply push_account_ok|]. split; [done|]. split; [|exact Hld].
  split; [cbn; by rewrite ?Hp|exact Hv'].
Qed.

(** Adding an account: the new account is the key of the next index of the
    same phrase, the vault stays well-formed, and the vault that is stored is the
    one of the session. *)
Theorem addAccount_spec {VL : VaultCryptoLaws V} (m : message) (sd : sender) (s : bg) (p : jsstr) (l : nat)
    (v : VaultData) (key : ExtDerivedKey) :
  random_ok -> m_call m = wallet_addAccount -> session_of s p l v -> accounts_ok v ->
  ext_deriveKey (v_mnemonic v) 0 (Z.of_nat (length (v_accounts v))) = Some key ->
  (forall a, a_address a = ext_address key -> a_name a = account_name (Z.of_nat (length (v_accounts v)) + 1) ->
     a_derivationPath a = ext_derivationPath key -> vault_ok (push_account a v) = true) ->
  exists s' a v', exec (handleMessage random uuid m sd) [] s = (s', [], Value (Result (RAccount a)))
    /\ v' = push_account a v /\ accounts_ok v' /\ a_address a = ext_address key
    /\ session_of s' p l v' /\ loadVault p (store s') = Some v'.
Proof. apply exec_add_account. Qed.
End Requests.

(** ** Concrete requests *)

Definition page : sender := {| s_origin := Some (js "https://evil.example"); s_url := None; s_tab := Some 9 |}.
Definition page_says (c : call) : message := {| m_call := c; m_id := None; m_origin := Some (js "https://evil.example") |}.

Lemma sample_random_ok : random_ok sample_random.
Proof.
  intros i n. unfold sample_random. split; [|by rewrite length_replicate].
  apply Forall_replicate. apply (uint8_ok (Z.of_nat i)).
Qed.

Definition sample_key : ExtDerivedKey := Eval vm_compute in
  match ext_deriveKey (C := toy) (js "abandon") 0 0 with
  | Some k => k
  | None => {| ext_privateKey := []; ext_publicKey := []; ext_address := []; ext_derivationPath := [] |}
  end.

Lemma sample_key_eq : ext_deriveKey (C := toy) (js "abandon") 0 0 = Some sample_key.
Proof. vm_compute. reflexivity. Qed.

Definition sample_v : VaultData := fresh_vault (js "abandon") None sample_key.

(** An unlocked worker. *)
Definition unlocked : bg := setSession (js "pw") 0 (with_heap [sample_v] (boot ∅)).

Definition sample_hex : jsstr := Eval vm_compute in
  default [] (ext_buildAndSignTx (C := toy) (take 2 sample_coins)
    [pay (ext_address sample_key) 5000; pay (ext_address sample_key) 3700] (ext_privateKey sample_key) (ext_publicKey sample_key)).

Lemma sendNative_needs_no_approval_witness :
  exec (handleMessage (C := toy) (V := toy_vault) sample_random sample_uuid
      (page_says (wallet_sendNative (ext_address sample_key) 5000)) page)
    [AUtxos (UList sample_coins); ABroadcast None (Some (js "id")) None] unlocked
  = (unlocked, [ReqUtxos (ext_address sample_key); ReqBroadcast sample_hex],
     Value (Result (RAnswer (ABroadcast None (Some (js "id")) None)))).
Proof.
  apply (sendNative_needs_no_approval (C := toy) (V := toy_vault) sample_random sample_uuid
    (page_says (wallet_sendNative (ext_address sample_key) 5000)) page unlocked (js "pw") 0 sample_v
    {| a_name := js "Akun 1"; a_address := ext_address sample_key; a_derivationPath := js "garuda-sha256"; a_index := 0 |}
    [] sample_key (ext_address sample_key) 5000 sample_coins (take 2 sample_coins)
    [pay (ext_address sample_key) 5000; pay (ext_address sample_key) 3700]).
  - reflexivity.
  - split; reflexivity.
  - reflexivity.
  - apply sample_key_eq.
  - reflexivity.
  - vm_compute. reflexivity.
Defined.

Lemma dapp_request_waits_witness :
  exists s' t, run (handleMessage (C := toy) (V := toy_vault) sample_random sample_uuid (page_says (garuda RequestAccounts)) page) unlocked
    = (s', t) /\ length (pending s') = 1%nat.
Proof.
  destruct (dapp_request_waits (C := toy) (V := toy_vault) sample_random sample_uuid (page_says (garuda RequestAccounts)) page unlocked
    RequestAccounts eq_refl) as (s' & t & E & _).
  exists s', t. split; [exact E|]. vm_compute in E. injection E as <- <-. reflexivity.
Defined.

(** The session with the page's origin connected. *)
Definition connected : bg := addConnectedSite (js "https://evil.example") unlocked.


Lemma create_replaces_vault_witness :
  exists s', exec (handleMessage (C := toy) (V := toy_vault) sample_random sample_uuid
      (page_says (wallet_create (js "abandon") (js "x") None)) page) [] unlocked
    = (s', [], Value (Result (RAddress (Some (ext_address sample_key)))))
    /\ loadVault (V := toy_vault) (js "x") (store s') = Some sample_v.
Proof.
  destruct (create_replaces_vault (C := toy) (V := toy_vault) sample_random sample_uuid
    (page_says (wallet_create (js "abandon") (js "x") None)) page unlocked (js "abandon") (js "x") None sample_key)
    as (s' & E & Hl & _); [apply sample_random_ok|reflexivity|apply sample_key_eq|vm_compute; reflexivity|].
  exists s'. split; assumption.
Defined.

Lemma unlock_spec_witness :
  exec (handleMessage (C := toy) (V := toy_vault) sample_random sample_uuid (page_says (wallet_unlock (js "no"))) page) [] unlocked
  = (unlocked, [], Raised (js "Password salah")).
Proof.
  exact (unlock_spec (C := toy) (V := toy_vault) sample_random sample_uuid (page_says (wallet_unlock (js "no"))) page unlocked
    (js "no") eq_refl ltac:(done)).
Defined.

(** A later save can be lost: of two accounts added one right after the
    other, the write of the first may reach storage last; then the session has
    three accounts and the stored vault only two. *)
Theorem concurrent_saves_lose_an_account :
  let c := drive (C := toy) (V := toy_vault) sample_random sample_uuid {| st := unlocked; tasks := [] |}
    [Deliver (page_says wallet_addAccount) page; Deliver (page_says wallet_addAccount) page; Resume 1; Resume 0] in
  (exists v, sVault (st c) ≫= vault_at (st c) = Some v /\ length (v_accounts v) = 3%nat)
  /\ exists v, loadVault (V := toy_vault) (js "pw") (store (st c)) = Some v /\ length (v_accounts v) = 2%nat.
Proof.
  split.
  - eexists. split; [vm_compute; reflexivity|reflexivity].
  - eexists. split; [vm_compute; reflexivity|reflexivity].
Qed.

Definition sample_key1 : ExtDerivedKey := Eval vm_compute in
  match ext_deriveKey (C := toy) (js "abandon") 0 1 with Some k => k | None => sample_key end.

Lemma sample_accounts_ok : accounts_ok (C := toy) sample_v.
Proof.
  intros [|i] a Ha; [|done]. injection Ha as <-. split; [done|]. exists sample_key.
  split; [apply sample_key_eq|]. split; vm_compute; reflexivity.
Qed.

Lemma addAccount_spec_witness :
  exists s' a, exec (handleMessage (C := toy) (V := toy_vault) sample_random sample_uuid (page_says wallet_addAccount) page) [] unlocked
    = (s', [], Value (Result (RAccount a))) /\ a_address a = ext_address sample_key1.
Proof.
  destruct (addAccount_spec (C := toy) (V := toy_vault) sample_random sample_uuid (page_says wallet_addAccount) page unlocked
    (js "pw") 0 sample_v sample_key1) as (s' & a & v' & E & _ & _ & Ha & _).
  - apply sample_random_ok.
  - reflexivity.
  - split; reflexivity.
  - apply sample_accounts_ok.
  - vm_compute. reflexivity.
  - intros a Ha Hn Hd. unfold vault_ok, push_account. cbn [v_mnemonic v_accounts v_connectedSites v_network].
    rewrite forallb_app. cbn [forallb]. unfold account_ok at 2. rewrite Ha, Hn, Hd. vm_compute. reflexivity.
  - exists s', a. split; assumption.
Defined.
