(* ===== verification/Popup.v ===== *)
(** * The popup of the extension

    src/extension/src/popup/App.tsx and its pages. A page is a process that sets
    its own state and the page shown, and sends messages to the background worker
    of [Background]; [play] runs it against the worker. Handlers read the state of
    the render they belong to, which is their argument. *)

From stdpp Require Import gmap.
From S2P Require Import Prelude JsText Amounts Numbers Locale Bytes Mnemonic Quiz Keys Tx Coins Json Vault Background System Worker Requests.
Local Open Scope Z_scope.

Inductive Page :=
| PLoading | PWelcome | PCreate | PImport | PHome | PApproval | PSend | PReceive | PDetailAset | PKeamanan
| PNotifikasi | PProfil | PBukuAlamat | PImportFrasa | PImportPrivat.

(** ** Messages *)

(** What the callback of [chrome.runtime.sendMessage] gets. *)
Inductive response := Reply (r : reply) | Failed (error : jsstr).

(** The end of the worker's listener: [.then(sendResponse).catch(...)]. *)
Definition listen (o : outcome reply) : option response :=
  match o with
  | Value r => Some (Reply r)
  | Raised e => Some (Failed (match e with [] => js "Unknown error" | _ => e end))
  | Stuck => None
  end.

Definition json_truthy (j : json) : bool :=
  match j with
  | JNull | JBool false | JStr [] => false
  | JNum n => negb (n =? 0)
  | JFrac x => negb (mant x =? 0)
  | _ => true
  end.

Definition result_truthy (r : result) : bool :=
  match r with
  | RNull | RMnemonic [] | RAnswer (AAssets None) => false
  | RBool b => b
  | RAnswer (AOther j) => json_truthy j
  | _ => true
  end.

(** [r?.result] and whether it counts as true; [r?.error]. *)
Definition result_of (r : response) : option result := match r with Reply (Result x) => Some x | _ => None end.
Definition ok (r : response) : bool := match result_of r with Some x => result_truthy x | None => false end.
Definition error_or (r : response) (d : jsstr) : jsstr := match r with Failed ((_ :: _) as e) => e | _ => d end.

(** The shapes the pages read. *)
Definition accounts_of (r : response) : list AccountMeta :=
  match result_of r with Some (RAccounts l) => l | _ => [] end.
Definition address_of (r : response) : option jsstr :=
  match result_of r with Some (RAddress ((Some (_ :: _)) as a)) => a | _ => None end.

(** ** Processes of a page *)

Record screen (A : Type) := { at_page : Page; closed : bool; own : A }.
Arguments Build_screen {A}.
Arguments at_page {A}.
Arguments closed {A}.
Arguments own {A}.

Inductive view (A : Type) : Type :=
| Done
| Set_ (f : screen A -> screen A) (k : view A)
| Msg (c : call) (k : response -> view A)
| Http (q : request) (k : answer -> view A)
| ClearStorage (k : view A)
| Fork (m k : view A).
Arguments Done {A}.
Arguments Set_ {A} f k.
Arguments Msg {A} c k.
Arguments Http {A} q k.
Arguments ClearStorage {A} k.
Arguments Fork {A} m k.
(** [Http] is a fetch of the page itself, [ClearStorage] is
    [chrome.storage.local.clear()], [Fork] starts a task that is not awaited. *)

Definition goto {A} (p : Page) (s : screen A) : screen A := {| at_page := p; closed := closed s; own := own s |}.
Definition upd {A} (f : A -> A) (s : screen A) : screen A := {| at_page := at_page s; closed := closed s; own := f (own s) |}.
Definition close {A} (s : screen A) : screen A := {| at_page := at_page s; closed := true; own := own s |}.

Section Popup.
Context {C : Crypto} {V : VaultCrypto}.
Context (random : nat -> nat -> list Z) (uuid : nat -> jsstr).

(** A page run to its end. Every message takes the replies of the API that the
    worker gets while it answers; the rest of them, the page, the worker and the
    requests made are returned. A task whose message is never answered stops. *)
Fixpoint play {A} (m : view A) (rs : list (list answer)) (s : screen A) (b : bg) :
    list (list answer) * screen A * bg * list request :=
  match m with
  | Done => (rs, s, b, [])
  | Set_ f k => play k rs (f s) b
  | Msg c k =>
      match rs with
      | [] => (rs, s, b, [])
      | r :: rs =>
          let '(b, qs, o) := exec (handleMessage random uuid (say c) popup) r b in
          match listen o with
          | Some x => let '(rs, s, b, qs') := play (k x) rs s b in (rs, s, b, qs ++ qs')
          | None => (rs, s, b, qs)
          end
      end
  | Http q k =>
      match rs with
      | (a :: _) :: rs => let '(rs, s, b, qs) := play (k a) rs s b in (rs, s, b, q :: qs)
      | _ => (rs, s, b, [q])
      end
  | ClearStorage k => play k rs s (with_store ∅ (nrandom b) b)
  | Fork m k =>
      let '(rs, s, b, qs) := play m rs s b in
      let '(rs, s, b, qs') := play k rs s b in (rs, s, b, qs ++ qs')
  end.
End Popup.

(** ** App.tsx *)

Section App.
Context {A : Type}.
(** The [approval] parameter of the popup's address. *)
Context (aid : option jsstr).

Definition vault_page : view A := Msg wallet_hasVault (fun v => Set_ (goto (if ok v then PHome else PWelcome)) Done).

Definition checkPending : view A :=
  let gate := Msg wallet_isUnlocked (fun u => if ok u then Set_ (goto PApproval) Done else vault_page) in
  if truthy aid then gate else Msg get_any_pending (fun p => if ok p then gate else vault_page).

Definition handleWalletReady : view A :=
  Msg get_any_pending (fun p => Set_ (goto (if truthy aid || ok p then PApproval else PHome)) Done).

(** The [onUnlocked] of the home page. *)
Definition onUnlocked : view A :=
  Msg get_any_pending (fun p => if truthy aid || ok p then Set_ (goto PApproval) Done else Done).
End App.

(** ** Home.tsx *)

Record home := {
  h_accounts : list AccountMeta; h_locked : bool; h_password : jsstr; h_loginErr : jsstr;
  h_balGrd : json; h_assets : list json; h_loading : bool
}.

Definition home_start : home := {|
  h_accounts := []; h_locked := false; h_password := []; h_loginErr := [];
  h_balGrd := JNum 0; h_assets := []; h_loading := false |}.

Definition h_with_loading (b : bool) (h : home) : home := {|
  h_accounts := h_accounts h; h_locked := h_locked h; h_password := h_password h; h_loginErr := h_loginErr h;
  h_balGrd := h_balGrd h; h_assets := h_assets h; h_loading := b |}.

Definition h_with_balance (bal : json) (assets : list json) (h : home) : home := {|
  h_accounts := h_accounts h; h_locked := h_locked h; h_password := h_password h; h_loginErr := h_loginErr h;
  h_balGrd := bal; h_assets := assets; h_loading := h_loading h |}.

Definition h_with_accounts (l : list AccountMeta) (h : home) : home := {|
  h_accounts := l; h_locked := h_locked h; h_password := h_password h; h_loginErr := h_loginErr h;
  h_balGrd := h_balGrd h; h_assets := h_assets h; h_loading := h_loading h |}.

Definition h_with_login (locked : bool) (password loginErr : jsstr) (h : home) : home := {|
  h_accounts := h_accounts h; h_locked := locked; h_password := password; h_loginErr := loginErr;
  h_balGrd := h_balGrd h; h_assets := h_assets h; h_loading := h_loading h |}.

(** [a.balance > 0] *)
Definition has_balance (a : json) : bool :=
  match a with
  | JObj fs => match field fs (js "balance") with
               | Some (JNum n) => 0 <? n
               | Some (JFrac x) => 0 <? mant x
               | _ => false
               end
  | _ => false
  end.

(** The body of [if (r.connected)]; [assets] that are no list stop it. *)
Definition show_balance (r : json) (h : home) : home :=
  match r with
  | JObj fs =>
      if match field fs (js "connected") with Some j => json_truthy j | None => false end then
        let bal := match field fs (js "balance_grd") with Some j => if json_truthy j then j else JNum 0 | None => JNum 0 end in
        let assets := match field fs (js "assets") with
                      | Some (JArr l) => List.filter has_balance l
                      | Some j => if json_truthy j then h_assets h else []
                      | None => []
                      end in
        h_with_balance bal assets h
      else h
  | _ => h
  end.

Definition loadBalance (addr : jsstr) : view home :=
  Set_ (upd (h_with_loading true))
    (Http (ReqConnect (Some addr)) (fun a =>
       match a with
       | AOther r => Set_ (upd (show_balance r)) (Set_ (upd (h_with_loading false)) Done)
       | _ => Set_ (upd (h_with_loading false)) Done
       end)).

Definition loadAccounts : view home :=
  Msg wallet_getAccounts (fun r =>
    let accs := accounts_of r in
    Set_ (upd (h_with_accounts accs))
      match accs with a :: _ => loadBalance (a_address a) | [] => Done end).

Definition home_mount : view home :=
  Msg wallet_isUnlocked (fun r =>
    if ok r then loadAccounts else Set_ (upd (fun h => h_with_login true (h_password h) (h_loginErr h) h)) Done).

Definition unlock (aid : option jsstr) (h : home) : view home :=
  Set_ (upd (fun h => h_with_login (h_locked h) (h_password h) [] h))
    (Msg (wallet_unlock (h_password h)) (fun r =>
       if ok r
       then Set_ (upd (fun h => h_with_login false [] (h_loginErr h) h)) (Fork loadAccounts (onUnlocked aid))
       else Set_ (upd (fun h => h_with_login (h_locked h) (h_password h) (js "Password salah") h)) Done)).

Definition lock : view home :=
  Msg wallet_lock (fun _ =>
    Set_ (upd (fun h => h_with_balance (JNum 0) [] (h_with_accounts [] (h_with_login true (h_password h) (h_loginErr h) h)))) Done).

(** ** Approval.tsx *)

Record approval := { ap_pending : option PendingRequest; ap_accounts : list (jsstr * jsstr) }.

Definition approval_mount (aid : option jsstr) : view approval :=
  let show r := match result_of r with
                | Some (RPending p) => Set_ (upd (fun a => {| ap_pending := Some p; ap_accounts := ap_accounts a |})) Done
                | _ => Done
                end in
  Fork (if truthy aid then Msg (get_pending_approval (default [] aid)) show else Msg get_any_pending show)
       (Msg get_wallet_info (fun r =>
          match result_of r with
          | Some (RInfo l) => Set_ (upd (fun a => {| ap_pending := ap_pending a; ap_accounts := l |})) Done
          | _ => Done
          end)).

Definition respond (approved : bool) (a : approval) : view approval :=
  match ap_pending a with
  | None => Done
  | Some p => Msg (approval_response (p_id p) approved) (fun _ => Set_ close Done)
  end.

Definition short_address (a : jsstr) : jsstr := take 14 a ++ js "..." ++ slice_last 6 a.

(** The rows a request is shown with: label and value. *)
Definition order_rows (assetId side : jsstr) (price amount : Z) (address : jsstr) : list (jsstr * jsstr) :=
  let total := dmul (of_Z price) (of_Z amount) in
  [(js "", if bool_decide (side = js "buy") then js "BUY" else js "SELL");
   (js "Jumlah", toLocale (of_Z amount));
   (js "Harga / Unit", toLocale (of_Z price) ++ js " GRD");
   (js "Total", toLocale total ++ js " GRD");
   (js "Dari Alamat", take 16 address ++ js "...")].

Definition transaction_rows (from to : jsstr) (amount : double) (memo : option jsstr) : list (jsstr * jsstr) :=
  [(js "Jumlah", double_text amount ++ js " GRD"); (js "Dari", short_address from); (js "Ke", short_address to)]
  ++ match memo with Some ((_ :: _) as m) => [(js "Memo", m)] | _ => [] end.

Definition token_rows (from to assetId : jsstr) (amount : double) : list (jsstr * jsstr) :=
  [(js "Jumlah", toLocale amount); (js "Asset ID", take 16 assetId ++ js "...");
   (js "Dari", short_address from); (js "Ke", short_address to)].

Definition sign_rows (msg address : jsstr) : list (jsstr * jsstr) :=
  [(js "Alamat", take 20 address ++ js "..."); (js "Pesan", msg)].

Definition detail (c : dapp_call) : list (jsstr * jsstr) :=
  match c with
  | RequestAccounts => []
  | PlaceOrder assetId side price amount address => order_rows assetId side price amount address
  | SendTransaction from to amount memo => transaction_rows from to amount memo
  | SendToken from to assetId amount => token_rows from to assetId amount
  | SignMessage msg address => sign_rows msg address
  end.

Definition methodLabel (c : dapp_call) : jsstr :=
  match c with
  | RequestAccounts => js "Permintaan Koneksi"
  | PlaceOrder _ _ _ _ _ => js "Konfirmasi Order DEX"
  | SignMessage _ _ => js "Tanda Tangan Pesan"
  | SendTransaction _ _ _ _ => js "Kirim GRD"
  | SendToken _ _ _ _ => js "Kirim Token"
  end.

(** ** Send.tsx *)

Inductive tipe := NATIVE | STABLECOIN | STABLECOIN_PEGGED | SAHAM.

Record send := {
  sd_address : jsstr; sd_amount : jsstr; sd_tipe : tipe; sd_assetId : jsstr; sd_balance : json;
  sd_sending : bool; sd_showConfirm : bool; sd_txid : jsstr; sd_error : jsstr
}.

Definition sd_with (balance : json) (sending showConfirm : bool) (txid error : jsstr) (s : send) : send := {|
  sd_address := sd_address s; sd_amount := sd_amount s; sd_tipe := sd_tipe s; sd_assetId := sd_assetId s;
  sd_balance := balance; sd_sending := sending; sd_showConfirm := showConfirm; sd_txid := txid; sd_error := error |}.

(** [r2.result.balance ?? 0] *)
Definition balance_field (r : response) : option json :=
  match result_of r with
  | Some (RAnswer (AOther (JObj fs))) =>
      Some (match field fs (js "balance") with None | Some JNull => JNum 0 | Some j => j end)
  | Some x => if result_truthy x then Some (JNum 0) else None
  | None => None
  end.

Definition send_mount : view send :=
  Msg wallet_getAccounts (fun r =>
    match accounts_of r with
    | a :: _ =>
        Msg (wallet_getAddressInfo (Some (a_address a))) (fun r2 =>
          match balance_field r2 with
          | Some j => Set_ (upd (fun s => sd_with j (sd_sending s) (sd_showConfirm s) (sd_txid s) (sd_error s) s)) Done
          | None => Done
          end)
    | [] => Done
    end).

(** [parseFloat(amount || "0")] *)
Definition amountNum (s : send) : double := parseFloat (match sd_amount s with [] => js "0" | t => t end).

Definition json_number (j : json) : double := match j with JNum n => of_Z n | JFrac x => Fin x | _ => NaN end.

(** [Math.floor(amountNum * 1e8) + FEE_SATOSHI <= balanceSatoshi] *)
Definition covered (s : send) : bool :=
  match units_floor (amountNum s) with
  | Some sat => dle (of_Z (sat + FEE)) (json_number (sd_balance s))
  | None => false
  end.

Definition canSend (s : send) : bool :=
  if negb (startsWith (sd_address s) (js "grd1")) || dle (amountNum s) (of_Z 0) then false else
  match sd_tipe s with NATIVE => covered s | _ => true end.

(** The reply: an error, or the transaction id to show. *)
Definition sent_id (r : response) : jsstr + jsstr :=
  match r with
  | Failed ((_ :: _) as e) => inr e
  | _ => match result_of r with
         | Some (RAnswer (ABroadcast e txid _)) =>
             if truthy txid then inl (default [] txid) else if truthy e then inr (default [] e) else inl (js "success")
         | _ => inl (js "success")
         end
  end.

Definition after_send (r : response) : view send :=
  match sent_id r with
  | inl txid => Set_ (upd (fun s => sd_with (sd_balance s) false false txid (sd_error s) s)) Done
  | inr e => Set_ (upd (fun s => sd_with (sd_balance s) false (sd_showConfirm s) (sd_txid s) e s)) Done
  end.

Definition handleSend (s : send) : view send :=
  if negb (canSend s) || sd_sending s then Done else
  Set_ (upd (fun s => sd_with (sd_balance s) true (sd_showConfirm s) (sd_txid s) [] s))
    match sd_tipe s, units_floor (amountNum s) with
    | NATIVE, Some sat => Msg (wallet_sendNative (sd_address s) sat) after_send
    | NATIVE, None => Done
    | _, _ => Msg (wallet_sendToken (sd_address s) (amountNum s) (sd_assetId s)) after_send
    end.

(** ** CreateWallet.tsx *)

Inductive create_step := CPassword | CShow | CVerify.

Record create := {
  c_step : create_step; c_mnemonic : jsstr; c_password : jsstr;
  c_pw : jsstr; c_cw : jsstr; c_agreed : bool;
  c_revealed : bool;
  c_idx : list nat; c_quiz : quiz; c_loading : bool; c_error : jsstr
}.
(** [c_pw] to [c_agreed] belong to the password step, [c_revealed] to the phrase
    step and the rest to the quiz; a step that is entered starts afresh. *)

Definition create_start : create := {|
  c_step := CPassword; c_mnemonic := []; c_password := []; c_pw := []; c_cw := []; c_agreed := false;
  c_revealed := false; c_idx := []; c_quiz := quiz_start; c_loading := false; c_error := [] |}.

Definition password_valid (s : create) : bool :=
  (8 <=? length (c_pw s))%nat && bool_decide (c_pw s = c_cw s) && c_agreed s.

Definition c_words (s : create) : list jsstr := split_sp [] (c_mnemonic s).

(** Another step, entered with the phrase, the password and the hidden words. *)
Definition enter (step : create_step) (mnemonic password : jsstr) (idx : list nat) : create := {|
  c_step := step; c_mnemonic := mnemonic; c_password := password; c_pw := []; c_cw := []; c_agreed := false;
  c_revealed := false; c_idx := idx; c_quiz := quiz_start; c_loading := false; c_error := [] |}.

Definition c_with (loading : bool) (error : jsstr) (s : create) : create := {|
  c_step := c_step s; c_mnemonic := c_mnemonic s; c_password := c_password s; c_pw := c_pw s; c_cw := c_cw s;
  c_agreed := c_agreed s; c_revealed := c_revealed s; c_idx := c_idx s; c_quiz := c_quiz s;
  c_loading := loading; c_error := error |}.

Inductive create_event :=
| ETyped (pw cw : jsstr) (agreed : bool)
| ESubmit (entropy : list Z)
| EReveal
| ENext (shuffle : list nat -> list nat)
| EBack
| EChoice (w : option jsstr).

(** The buttons of the steps; a button of another step is not there. *)
Definition create_next (e : create_event) (s : create) : create :=
  match c_step s, e with
  | CPassword, ETyped pw cw agreed =>
      {| c_step := CPassword; c_mnemonic := c_mnemonic s; c_password := c_password s; c_pw := pw; c_cw := cw;
         c_agreed := agreed; c_revealed := c_revealed s; c_idx := c_idx s; c_quiz := c_quiz s;
         c_loading := c_loading s; c_error := c_error s |}
  | CPassword, ESubmit entropy =>
      if password_valid s then enter CShow (ext_generateMnemonic entropy) (c_pw s) [] else s
  | CShow, EReveal =>
      {| c_step := CShow; c_mnemonic := c_mnemonic s; c_password := c_password s; c_pw := c_pw s; c_cw := c_cw s;
         c_agreed := c_agreed s; c_revealed := true; c_idx := c_idx s; c_quiz := c_quiz s;
         c_loading := c_loading s; c_error := c_error s |}
  | CShow, ENext shuffle =>
      if c_revealed s then enter CVerify (c_mnemonic s) (c_password s) (pickQuizIndices shuffle) else s
  | CShow, EBack => enter CPassword (c_mnemonic s) (c_password s) []
  | CVerify, EBack => if showSuccess (c_quiz s) && negb (c_loading s) then s else enter CShow (c_mnemonic s) (c_password s) []
  | CVerify, EChoice w =>
      {| c_step := CVerify; c_mnemonic := c_mnemonic s; c_password := c_password s; c_pw := c_pw s; c_cw := c_cw s;
         c_agreed := c_agreed s; c_revealed := c_revealed s; c_idx := c_idx s;
         c_quiz := handleChoice (c_words s) (c_idx s) w (c_quiz s); c_loading := c_loading s; c_error := c_error s |}
  | _, _ => s
  end.

(** The button of the success message, which is there once the quiz is solved. *)
Definition handleCreate (aid : option jsstr) (s : create) : view create :=
  match c_step s with
  | CVerify =>
      if showSuccess (c_quiz s) && negb (c_loading s) then
        Set_ (upd (c_with true []))
          (Msg (wallet_create (c_mnemonic s) (c_password s) None) (fun r =>
             match address_of r with
             | Some _ => Set_ (upd (fun s => c_with false (c_error s) s)) (handleWalletReady aid)
             | None => Set_ (upd (c_with false (error_or r (js "Gagal membuat wallet")))) Done
             end))
      else Done
  | _ => Done
  end.

(** ** ImportWallet, ImportAkunFrasa.tsx, ImportKunciPrivat.tsx *)

(** [s.replace(/\s+/g, " ")] *)
Fixpoint replace_ws (skip : bool) (s : jsstr) : jsstr :=
  match s with
  | [] => []
  | u :: s => if js_ws u then (if skip then replace_ws true s else 32 :: replace_ws true s) else u :: replace_ws false s
  end.

(** [phrase.trim().toLowerCase().replace(/\s+/g, " ")] *)
Definition clean (phrase : jsstr) : jsstr := replace_ws false (toLowerCase (trim phrase)).

(** [phrase.trim().split(/\s+/).length] *)
Definition word_count (phrase : jsstr) : nat :=
  match trim phrase with [] => O | t => length (split_ws false [] t) end.

Record import := {
  i_phrase : jsstr; i_pw : jsstr; i_cw : jsstr; i_error : jsstr; i_loading : bool; i_password_step : bool
}.

Definition i_with (error : jsstr) (loading step : bool) (s : import) : import := {|
  i_phrase := i_phrase s; i_pw := i_pw s; i_cw := i_cw s; i_error := error; i_loading := loading; i_password_step := step |}.

Definition import_valid (s : import) : bool :=
  (word_count (i_phrase s) =? 24)%nat && validateMnemonic (toLowerCase (trim (i_phrase s))).

(** The button of the first step. *)
Definition import_next (s : import) : import := if import_valid s then i_with (i_error s) (i_loading s) true s else s.

Definition doImport (aid : option jsstr) (s : import) : view import :=
  if (length (i_pw s) <? 8)%nat
  then Set_ (upd (fun s => i_with (js "Password minimal 8 karakter") (i_loading s) (i_password_step s) s)) Done else
  if negb (bool_decide (i_pw s = i_cw s))
  then Set_ (upd (fun s => i_with (js "Kata sandi tidak cocok") (i_loading s) (i_password_step s) s)) Done else
  Set_ (upd (fun s => i_with [] true (i_password_step s) s))
    (Msg (wallet_create (clean (i_phrase s)) (i_pw s) None) (fun r =>
       match address_of r with
       | Some _ => Set_ (upd (fun s => i_with (i_error s) false (i_password_step s) s)) (handleWalletReady aid)
       | None => Set_ (upd (fun s => i_with (error_or r (js "Gagal mengimpor dompet")) false (i_password_step s) s)) Done
       end)).

(** The two import pages share a state: an error and whether they are busy. *)
Record importer := { im_text : jsstr; im_name : jsstr; im_loading : bool; im_error : jsstr }.

Definition im_with (loading : bool) (error : jsstr) (s : importer) : importer :=
  {| im_text := im_text s; im_name := im_name s; im_loading := loading; im_error := error |}.

Definition add_account : view importer :=
  Set_ (upd (im_with true []))
    (Msg wallet_addAccount (fun r =>
       if ok r then Set_ (goto PHome) (Set_ (upd (fun s => im_with false (im_error s) s)) Done)
       else Set_ (upd (im_with false (error_or r (js "Gagal mengimpor akun")))) Done)).

Definition phrase_valid (s : importer) : bool :=
  let wc := word_count (im_text s) in
  ((wc =? 12)%nat || (wc =? 24)%nat) && validateMnemonic (toLowerCase (trim (im_text s))).

(** [clean] is computed from the phrase and not used. *)
Definition importPhrase (s : importer) : view importer := if phrase_valid s then add_account else Done.

Definition importKey (s : importer) : view importer := if hex64 (trim (im_text s)) then add_account else Done.

(** ** Keamanan.tsx, Profil.tsx *)

Record security := {
  se_pwStep : bool; se_pwInput : jsstr; se_pwError : jsstr; se_mnemonic : jsstr; se_showMnemonic : bool
}.

Definition handleViewMnemonic (s : security) : view security :=
  if negb (se_pwStep s)
  then Set_ (upd (fun s => {| se_pwStep := true; se_pwInput := se_pwInput s; se_pwError := se_pwError s;
                              se_mnemonic := se_mnemonic s; se_showMnemonic := se_showMnemonic s |})) Done else
  Set_ (upd (fun s => {| se_pwStep := se_pwStep s; se_pwInput := se_pwInput s; se_pwError := [];
                         se_mnemonic := se_mnemonic s; se_showMnemonic := se_showMnemonic s |}))
    (Msg (wallet_exportMnemonic (se_pwInput s)) (fun r =>
       match result_of r with
       | Some (RMnemonic ((_ :: _) as m)) =>
           Set_ (upd (fun s => {| se_pwStep := false; se_pwInput := []; se_pwError := se_pwError s;
                                  se_mnemonic := m; se_showMnemonic := true |})) Done
       | _ =>
           Set_ (upd (fun s => {| se_pwStep := se_pwStep s; se_pwInput := se_pwInput s;
                                  se_pwError := error_or r (js "Password salah");
                                  se_mnemonic := se_mnemonic s; se_showMnemonic := se_showMnemonic s |})) Done
       end)).

(** [handleReset] and the [handleLogout] of the profile, with the user's answer. *)
Definition handleReset {A} (confirmed : bool) : view A :=
  if confirmed then ClearStorage (Set_ (goto PWelcome) Done) else Done.
