(* ===== verification/Protocol.v ===== *)
(** * The protocol between pages, popup and worker

    The shapes of the worker's replies, and what an approval shown to the user
    stands for: messages of src/extension/src/background/index.ts as
    src/extension/src/popup reads them. *)

From stdpp Require Import gmap.
From S2P Require Import Prelude JsText Amounts Bytes Keys Tx Coins Json Vault Background System Frame Worker Monotone Requests Popup.
Local Open Scope Z_scope.
Local Open Scope bg_scope.

(** ** Types of replies *)

(** A value that a handler can return, whatever the states it meets and the
    replies it gets. *)
Inductive may_return {A} : M A -> A -> Prop :=
| mr_ret a : may_return (Ret a) a
| mr_atom f s a : may_return (f s).2 a -> may_return (Atom f) a
| mr_await m a : may_return m a -> may_return (Await m) a
| mr_fetch q k x a : may_return (k x) a -> may_return (Fetch q k) a.

Definition forwarded (a : answer) : bool := match a with AReject _ => false | _ => true end.

Definition TIPES : list jsstr := [js "STABLECOIN"; js "STABLECOIN_PEGGED"; js "SAHAM"].

(** The type of a reply to each request. *)
Definition reply_type (c : call) (r : reply) : bool :=
  match c, r with
  | (get_pending_approval _ | get_any_pending), Result (RNull | RPending _) => true
  | get_wallet_info, Result (RNull | RInfo (_ :: _)) => true
  | (wallet_hasVault | wallet_isUnlocked), Result (RBool _) => true
  | wallet_create _ _ _, Result (RAddress (Some _)) => true
  | wallet_unlock _, Result (RAddress _) => true
  | wallet_lock, Result (RBool b) => b
  | wallet_getAccounts, Result (RAccounts _) => true
  | wallet_addAccount, Result (RAccount _) => true
  | wallet_exportMnemonic _, Result (RMnemonic _) => true
  | (wallet_getBalance _ | wallet_getAddressInfo _ | wallet_sendNative _ _ | wallet_sendToken _ _ _),
    Result (RAnswer a) => forwarded a
  | wallet_getAssetList, Result (RAssets l) => forallb (fun x => bool_decide (x.2 ∈ TIPES)) l
  | garuda_getAccounts, Result (RAddresses _) => true
  | garuda RequestAccounts, (Result (RAddresses _) | Waiting) => true
  | garuda _, Waiting => true
  | approval_response _ _, Result (RNull | ROk) => true
  | _, _ => false
  end.

Lemma may_return_bind {A B} (m : M A) (k : A -> M B) b :
  may_return (bind m k) b -> exists a, may_return m a /\ may_return (k a) b.
Proof.
  revert b. induction m as [a|e|f IH|m IH|q g IH] using M_ind'; intros b H; cbn [bind] in H.
  - exists a. split; [constructor|done].
  - inversion H.
  - inversion H as [|f' s a' Ha| |]; subst. destruct (f s) as [s' m'] eqn:E. cbn in Ha. specialize (IH s b). rewrite E in IH.
    destruct (IH Ha) as (a & H1 & H2). exists a. split; [|done]. apply (mr_atom _ s). by rewrite E.
  - inversion H as [| |m' a' Ha|]; subst. destruct (IH b Ha) as (a & H1 & H2). exists a. split; [by constructor|done].
  - inversion H as [| | |q' k' x a' Ha]; subst. destruct (IH x b Ha) as (a & H1 & H2). exists a. split; [|done].
    by apply (mr_fetch _ _ x).
Qed.

Lemma may_return_ret {A} (a b : A) : may_return (Ret a) b -> b = a.
Proof. inversion 1. done. Qed.

Lemma may_return_throw {A} e (a : A) : ~ may_return (Throw e) a.
Proof. inversion 1. Qed.

Lemma may_return_fetch {A} q (k : answer -> M A) a : may_return (Fetch q k) a -> exists x, may_return (k x) a.
Proof. inversion 1; eauto. Qed.

Ltac returns :=
  repeat match goal with
  | H : may_return (bind _ _) _ |- _ => apply may_return_bind in H as (? & ? & ?)
  | H : may_return (Ret _) _ |- _ => apply may_return_ret in H; subst
  | H : may_return (Throw _) _ |- _ => by apply may_return_throw in H
  | H : may_return (Fetch _ _) _ |- _ => apply may_return_fetch in H as [? ?]
  | H : may_return (match ?x with _ => _ end) _ |- _ => destruct x eqn:?
  | H : may_return (if ?x then _ else _) _ |- _ => destruct x eqn:?
  | H : may_return (let '(_, _) := ?x in _) _ |- _ => destruct x eqn:?
  end.

Section Types.
Context {C : Crypto} {V : VaultCrypto}.
Context (random : nat -> nat -> list Z) (uuid : nat -> jsstr).

Lemma fetch_any_type q a : may_return (fetch_any q) a -> forwarded a = true.
Proof. unfold fetch_any. intros H. returns; done. Qed.

Lemma fetch_assets_type k t l : may_return (fetch_assets k t) l -> Forall (fun x => x.2 = t) l.
Proof.
  unfold fetch_assets. intros H. apply may_return_fetch in H as [x H].
  destruct x as [| |[l'|]| | | |]; apply may_return_ret in H; subst; try constructor.
  apply Forall_map. apply Forall_true. done.
Qed.

Lemma assets_typed t l : t ∈ TIPES -> Forall (fun x : option jsstr * jsstr * jsstr * jsstr => x.2 = t) l ->
  forallb (fun x => bool_decide (x.2 ∈ TIPES)) l = true.
Proof.
  intros Ht Hl. apply forallb_forall. intros x Hx. rewrite Forall_forall in Hl. apply list_elem_of_In in Hx.
  apply bool_decide_eq_true_2. by rewrite (Hl x Hx).
Qed.

Lemma ask_type c o t q r : may_return (ask_approval uuid c o t q) r -> r = Waiting.
Proof. unfold ask_approval. inversion 1 as [|f s a Ha| |]; subst. by apply may_return_ret in Ha. Qed.

Lemma dapp_type c o t q r : may_return (on_dapp uuid c o t q) r -> reply_type (garuda c) r = true.
Proof.
  destruct c; unfold on_dapp; intros H; returns; try done;
    match goal with H : may_return (ask_approval _ _ _ _ _) _ |- _ => by apply ask_type in H as -> end.
Qed.

End Types.

(** ** What is shown is what is approved *)

(** A pending request that existed before is the same request as long as it is
    pending; one that is gone does not come back. *)
Definition unchanged (uuid : nat -> jsstr) (s s' : bg) : Prop :=
  (nuuid s <= nuuid s')%nat
  /\ forall i p, (i < nuuid s)%nat -> find_pending (uuid i) s' = Some p -> find_pending (uuid i) s = Some p.

#[local] Instance unchanged_preorder uuid : PreOrder (unchanged uuid).
Proof.
  split; [by split|]. intros s1 s2 s3 [N1 H1] [N2 H2]. split; [lia|].
  intros i p Hi Hp. apply H1; [done|]. apply H2; [lia|done].
Qed.

Lemma find_drop id id' l :
  List.find (fun e : jsstr * PendingRequest => bool_decide (e.1 = id)) (drop_id id' l)
  = if bool_decide (id = id') then None else List.find (fun e => bool_decide (e.1 = id)) l.
Proof.
  induction l as [|[k p] l IH]; [by case_bool_decide|]. unfold drop_id in *. cbn [List.filter List.find fst].
  destruct (decide (k = id')) as [->|Hk].
  - rewrite (bool_decide_eq_true_2 (id' = id')) by done. cbn [negb]. rewrite IH.
    destruct (decide (id = id')) as [->|Hne]; [by rewrite !bool_decide_eq_true_2|].
    rewrite !(bool_decide_eq_false_2 (id = id')), (bool_decide_eq_false_2 (id' = id)) by congruence. done.
  - rewrite (bool_decide_eq_false_2 (k = id')) by done. cbn [negb List.find fst]. rewrite IH.
    destruct (decide (k = id)) as [->|Hkid]; [by rewrite bool_decide_eq_true_2, bool_decide_eq_false_2|].
    by rewrite (bool_decide_eq_false_2 (k = id)).
Qed.

Lemma find_pending_drop id id' s :
  find_pending id (drop_pending id' s) = if bool_decide (id = id') then None else find_pending id s.
Proof.
  unfold find_pending, drop_pending. cbn [pending with_pending]. fold (drop_id id' (pending s)).
  rewrite find_drop. by case_bool_decide.
Qed.

Lemma find_pending_asked uuid c o t r s id : id <> uuid (nuuid s) ->
  find_pending id (asked uuid c o t r s) = find_pending id s.
Proof.
  intros Hne. unfold asked, find_pending. cbn. fold (drop_id (uuid (nuuid s)) (pending s)).
  assert (forall l, List.find (fun e : jsstr * PendingRequest => bool_decide (e.1 = id))
            (l ++ [(uuid (nuuid s), {| p_id := uuid (nuuid s); p_call := c; p_origin := o; p_tabId := t; p_requestId := r |})])
          = List.find (fun e => bool_decide (e.1 = id)) l) as Happ.
  { intros l. induction l as [|e l IH]; cbn [app List.find fst]; [by rewrite bool_decide_eq_false_2|]. by rewrite IH. }
  rewrite Happ, find_drop, bool_decide_eq_false_2 by done. done.
Qed.

Lemma unchanged_moving uuid : (forall i j, uuid i = uuid j -> i = j) -> moving uuid (unchanged uuid).
Proof.
  intros Hinj. split; try (intros; split; [done|]; intros i p' _ H; exact H).
  - intros c o t r s. split; [cbn; lia|]. intros i p Hi. rewrite find_pending_asked; [done|].
    intros E%Hinj. lia.
  - intros id s. split; [done|]. intros i p _. rewrite find_pending_drop. by case_bool_decide.
Qed.

(** Every pending request is filed under its own identifier. *)
Definition keyed (s : bg) : Prop := forall id p, find_pending id s = Some p -> p_id p = id.

Lemma keyed_framed uuid : framed uuid keyed.
Proof.
  split; try (intros; assumption).
  - intros s H. unfold clearSession. cbn [lockTimer with_session]. by destruct (lockTimer s).
  - intros c o t r s H id p. destruct (decide (id = uuid (nuuid s))) as [->|Hne];
      [|rewrite find_pending_asked by done; apply H].
    unfold asked, find_pending. cbn. rewrite find_fresh; [by intros [= <-]|by rewrite bool_decide_eq_true_2|].
    intros e He%List.filter_In. destruct He as [_ He]. by apply negb_true_iff.
  - intros id p s H _ id' p'. rewrite find_pending_drop. case_bool_decide; [done|apply H].
  - intros id p s H _ id' p'. change (find_pending id' (approve id s)) with (find_pending id' (drop_pending id s)).
    rewrite find_pending_drop. case_bool_decide; [done|apply H].
Qed.

Lemma keyed_inductive {C : Crypto} {V : VaultCrypto} random uuid : inductive_inv random uuid keyed.
Proof.
  apply framed_inv; [apply keyed_framed| |done].
  intros s t d H _ _. unfold fire_lock, clearSession. cbn [lockTimer with_session with_timers].
  by destruct (lockTimer s).
Qed.

Lemma approve_runs {C : Crypto} {V : VaultCrypto} random uuid id p sd s :
  find_pending id s = Some p ->
  run (handleMessage random uuid (say (approval_response id true)) sd) s
  = run (handleApproved random p ;;; Ret (Result ROk)) (approve id s).
Proof. intros H. unfold handleMessage, on_approval_response. cbn -[handleApproved find_pending]. by rewrite H. Qed.

Lemma no_approval_runs {C : Crypto} {V : VaultCrypto} random uuid id b sd s :
  find_pending id s = None ->
  run (handleMessage random uuid (say (approval_response id b)) sd) s = (s, Ret (Result RNull)).
Proof. intros H. unfold handleMessage, on_approval_response. cbn -[find_pending]. by rewrite H. Qed.

(** The two requests the approval page makes. *)
Definition shows (q : call) : bool := match q with get_pending_approval _ | get_any_pending => true | _ => false end.

Lemma shown_pending {C : Crypto} {V : VaultCrypto} random uuid q sd s s' p :
  keyed s -> NoDup (pending_ids s) -> shows q = true ->
  run (handleMessage random uuid (say q) sd) s = (s', Ret (Result (RPending p))) ->
  s' = s /\ find_pending (p_id p) s = Some p.
Proof.
  intros Hk Hnd Hq. destruct q; try done; unfold handleMessage, on_pending_approval, on_any_pending; cbn -[find_pending].
  - destruct (find_pending id s) as [p'|] eqn:E; [|done]. intros [= <- <-]. split; [done|]. by rewrite (Hk _ _ E).
  - destruct (pending s) as [|[k p'] l] eqn:E; [done|]. intros [= <- <-]. split; [done|].
    assert (find_pending k s = Some p') as Hf by (unfold find_pending; rewrite E; cbn; by rewrite bool_decide_eq_true_2).
    by rewrite (Hk _ _ Hf).
Qed.

(** C4. What the user approves is what was shown: take a reachable state in which
    the approval page gets a request [p] to show, and any later state, whatever
    messages, replies and timers came in between. Approving then executes exactly
    [p], with the recipient, the amount and the origin that were shown, or, when
    [p] has been answered or has timed out, nothing at all. *)
Theorem shown_is_executed {C : Crypto} {V : VaultCrypto} (random : nat -> nat -> list Z) (uuid : nat -> jsstr)
    (q : call) (sd : sender) (c c' : config) (s : bg) (p : PendingRequest) :
  (forall i j, uuid i = uuid j -> i = j) -> reachable random uuid c -> shows q = true ->
  run (handleMessage random uuid (say q) sd) (st c) = (s, Ret (Result (RPending p))) ->
  rtc (step random uuid) c c' ->
  run (handleMessage random uuid (say (approval_response (p_id p) true)) sd) (st c')
    = run (handleApproved random p ;;; Ret (Result ROk)) (approve (p_id p) (st c'))
  \/ run (handleMessage random uuid (say (approval_response (p_id p) true)) sd) (st c') = (st c', Ret (Result RNull)).
Proof.
  intros Hinj Hr Hq Hrun Hs.
  destruct (inv_reachable _ _ _ _ (keyed_inductive random uuid) ltac:(by intros s0 id0 p0) Hr) as [Hk _].
  destruct (inv_reachable _ _ _ _ (approval_inductive random uuid Hinj) (approval_boot uuid) Hr) as [(Hnd & _ & Hid & _) _].
  destruct (shown_pending random uuid q sd _ _ p Hk Hnd Hq Hrun) as [_ Hp].
  destruct (Hid (p_id p)) as (i & Hi & Ei); [left; by eapply find_pending_elem|].
  destruct (moves_reachable random uuid _ (unchanged_moving uuid Hinj) _ _ Hr Hs) as [_ Hu].
  destruct (find_pending (p_id p) (st c')) as [p'|] eqn:E; [left|right; by apply no_approval_runs].
  rewrite Ei in E. specialize (Hu i p' Hi E). rewrite <- Ei in Hu. rewrite Hp in Hu. injection Hu as <-.
  apply approve_runs. by rewrite Ei.
Qed.

(** A site asks to be connected. *)
Definition asked_run : config :=
  drive (C := toy) (V := toy_vault) sample_random sample_uuid created
    [Deliver (say (garuda RequestAccounts)) {| s_origin := Some (js "https://dex"); s_url := None; s_tab := Some 4 |}].

Definition asked_request : PendingRequest := {|
  p_id := js "0"; p_call := RequestAccounts; p_origin := js "https://dex"; p_tabId := 4; p_requestId := [] |}.

Lemma shown_is_executed_witness :
  run (handleMessage (C := toy) (V := toy_vault) sample_random sample_uuid (say (approval_response (js "0") true)) popup) (st asked_run)
    = run (handleApproved (C := toy) (V := toy_vault) sample_random asked_request ;;; Ret (Result ROk)) (approve (js "0") (st asked_run))
  \/ run (handleMessage (C := toy) (V := toy_vault) sample_random sample_uuid (say (approval_response (js "0") true)) popup) (st asked_run)
    = (st asked_run, Ret (Result RNull)).
Proof.
  apply (shown_is_executed (C := toy) (V := toy_vault) sample_random sample_uuid get_any_pending popup asked_run asked_run
    (st asked_run) asked_request).
  - apply sample_uuid_inj.
  - destruct created_reachable as [s Hs]. exists s. etransitivity; [apply Hs|apply drive_steps].
  - reflexivity.
  - vm_compute. reflexivity.
  - apply rtc_refl.
Defined.


(** Answering one of two requests clears the badge and the popup's address
    although the other one is still pending. *)
Lemma badge_cleared_early :
  let site o := {| s_origin := Some o; s_url := None; s_tab := Some 4 |} in
  let c := drive (C := toy) (V := toy_vault) sample_random sample_uuid created
    [Deliver (say (garuda RequestAccounts)) (site (js "https://a")); Deliver (say (garuda RequestAccounts)) (site (js "https://b"));
     Deliver (say (approval_response (sample_uuid 0) false)) popup] in
  badge (st c) = false /\ pending_ids (st c) = [sample_uuid 1].
Proof. vm_compute. done. Qed.
