(* ===== verification/PopupProofs.v ===== *)
(** * Theorems on the popup

    The pages of [Popup] run against the worker of [Background]. *)

From stdpp Require Import gmap.
From S2P Require Import Prelude JsText Amounts Numbers Locale Bytes Bech32 Mnemonic Quiz Keys Tx Coins Json Vault Background System Worker Requests Popup.
Local Open Scope Z_scope.

(** ** The phrase *)

Lemma join_split_ws s :
  (forall cur, join_sp (split_ws false cur s) = cur ++ replace_ws false s) /\ join_sp (split_ws true [] s) = replace_ws true s.
Proof.
  induction s as [|u s [IH1 IH2]]; [split; [intros cur; by rewrite app_nil_r|done]|].
  cbn [split_ws replace_ws]. destruct (js_ws u); split; try done.
  - intros cur. rewrite <- IH2. destruct (split_ws true [] s) as [|w ws] eqn:E; [|done].
    exfalso. clear -E. induction s as [|u s IH]; [done|]. cbn [split_ws] in E. destruct (js_ws u); [by apply IH|].
    assert (forall cur, split_ws false cur s <> []) as H; [|by destruct (H _ E)].
    clear. induction s as [|u s IH]; intros cur; [done|]. cbn [split_ws]. destruct (js_ws u); [done|apply IH].
  - intros cur. rewrite IH1, <- app_assoc. done.
Qed.

Lemma clean_join phrase : clean phrase = join_sp (split_ws false [] (toLowerCase (trim phrase))).
Proof. unfold clean. by rewrite (proj1 (join_split_ws _)). Qed.

Lemma capital_ws u : 65 <= u <= 90 -> js_ws u = false.
Proof.
  intros Hu. apply not_true_is_false. unfold js_ws. rewrite !orb_true_iff, !andb_true_iff, !Z.eqb_eq, !Z.leb_le. lia.
Qed.

Lemma lower_ws u : js_ws (lower_unit u) = js_ws u.
Proof.
  unfold lower_unit. destruct ((65 <=? u) && (u <=? 90)) eqn:E.
  - apply andb_true_iff in E as [H1%Z.leb_le H2%Z.leb_le].
    rewrite (capital_ws u), (letter_ws (u + 32)) by (unfold letter; lia). done.
  - destruct (Z.eqb_spec u 0x212A) as [->|]; done.
Qed.

Lemma trim_start_lower s : trim_start (toLowerCase s) = toLowerCase (trim_start s).
Proof.
  induction s as [|u s IH]; [done|]. cbn [toLowerCase map trim_start]. rewrite lower_ws. by destruct (js_ws u).
Qed.

Lemma toLowerCase_reverse s : toLowerCase (reverse s) = reverse (toLowerCase s).
Proof. unfold toLowerCase, reverse. by rewrite <- !rev_alt, map_rev. Qed.

Lemma trim_lower s : trim (toLowerCase s) = toLowerCase (trim s).
Proof. unfold trim. by rewrite trim_start_lower, <- toLowerCase_reverse, trim_start_lower, toLowerCase_reverse. Qed.

Lemma trim_start_idem s : trim_start (trim_start s) = trim_start s.
Proof. induction s as [|u s IH]; [done|]. cbn [trim_start]. destruct (js_ws u) eqn:E; [done|]. cbn [trim_start]. by rewrite E. Qed.

(** Text without white space at its front keeps it when its end is cut. *)
Lemma trim_end_front s : trim_start s = s ->
  trim_start (reverse (trim_start (reverse s))) = reverse (trim_start (reverse s)).
Proof.
  intros H. destruct s as [|u s]; [done|]. cbn [trim_start] in H. destruct (js_ws u) eqn:E.
  - exfalso. assert (length (trim_start s) <= length s)%nat as Hl.
    { clear. induction s as [|u s IH]; [done|]. cbn [trim_start]. destruct (js_ws u); cbn [length]; lia. }
    rewrite H in Hl. cbn in Hl. lia.
  - rewrite reverse_cons. assert (exists t, trim_start (reverse s ++ [u]) = t ++ [u]) as [t ->].
    { clear H. induction (reverse s) as [|v r IH]; [exists []; cbn; by rewrite E|]. cbn [app trim_start].
      destruct (js_ws v); [done|]. by exists (v :: r). }
    rewrite reverse_snoc. cbn [trim_start]. by rewrite E.
Qed.

Lemma trim_idem s : trim (trim s) = trim s.
Proof.
  unfold trim. rewrite (trim_end_front (trim_start s)) by apply trim_start_idem.
  rewrite reverse_involutive, trim_start_idem. done.
Qed.

Lemma lower_idem s : toLowerCase (toLowerCase s) = toLowerCase s.
Proof.
  unfold toLowerCase. rewrite map_map. apply map_ext. intros u. unfold lower_unit at 2 3.
  destruct ((65 <=? u) && (u <=? 90)) eqn:E.
  - apply andb_true_iff in E as [H1%Z.leb_le H2%Z.leb_le]. apply letter_lower. unfold letter. lia.
  - destruct (Z.eqb_spec u 0x212A) as [->|Hn]; [done|]. unfold lower_unit. by rewrite E, (proj2 (Z.eqb_neq u 0x212A) Hn).
Qed.

Lemma validate_words t : validateMnemonic (toLowerCase (trim t)) = true ->
  let ws := split_ws false [] (toLowerCase (trim t)) in length ws = 24%nat /\ Forall (fun w => w ∈ WORDLIST) ws.
Proof.
  unfold validateMnemonic. rewrite trim_lower, trim_idem, lower_idem. cbn zeta.
  destruct (length _ =? 24)%nat eqn:El; [|done]. cbn [negb]. rewrite forallb_forall. intros H.
  split; [by apply Nat.eqb_eq|]. apply Forall_forall. intros w Hw%list_elem_of_In. apply H in Hw. by apply bool_decide_eq_true in Hw.
Qed.


Definition shouting : import := {|
  i_phrase := map (fun u => if (97 <=? u) && (u <=? 122) then u - 32 else if u =? 32 then 10 else u)
                (generateMnemonic (seqZ 200 24)) ++ [32; 32];
  i_pw := []; i_cw := []; i_error := []; i_loading := false; i_password_step := false |}.


(** ** Creating a wallet *)

Lemma split_sp_word cur w s : Forall letter w -> split_sp cur (w ++ s) = split_sp (cur ++ w) s.
Proof.
  intros H. revert cur. induction H as [|u w Hu _ IH]; intros cur; [by rewrite app_nil_r|]. cbn [app split_sp].
  rewrite (proj2 (Z.eqb_neq u 32)) by (unfold letter in Hu; lia). rewrite IH, <- app_assoc. done.
Qed.

Lemma split_sp_join ws : ws <> [] -> Forall is_word ws -> split_sp [] (join_sp ws) = ws.
Proof.
  intros Hne Hw. induction Hw as [|w ws [_ Hl] Hw IH]; [done|]. destruct ws as [|w' ws].
  - cbn [join_sp]. rewrite <- (app_nil_r w) at 1. by rewrite split_sp_word.
  - cbn [join_sp]. rewrite split_sp_word by done. cbn [app split_sp]. change (32 =? 32) with true. cbn iota.
    f_equal. by apply IH.
Qed.

Definition entropy_ok (e : list Z) : Prop := bytes_ok e /\ length e = 24%nat.

Definition event_ok (e : create_event) : Prop :=
  match e with ESubmit entropy => entropy_ok entropy | ENext shuffle => forall l, shuffle l ≡ₚ l | _ => True end.

(** The states of the page: buttons, and the replies of the worker. *)
Inductive create_reach : create -> Prop :=
| cr_start : create_reach create_start
| cr_event e s : event_ok e -> create_reach s -> create_reach (create_next e s)
| cr_reply loading error s : create_reach s -> create_reach (c_with loading error s).

(** A phrase made of 24 random bytes. *)
Definition generated (m : jsstr) : Prop := exists e, entropy_ok e /\ m = ext_generateMnemonic e.

Definition create_inv (s : create) : Prop :=
  (c_step s <> CPassword -> generated (c_mnemonic s) /\ (8 <= length (c_password s))%nat)
  /\ (c_step s = CVerify -> exists sh, (forall l, sh l ≡ₚ l) /\ c_idx s = pickQuizIndices sh
        /\ quiz_ok (c_words s) (c_idx s) (c_quiz s)).

Lemma pick_nonempty sh : (forall l, sh l ≡ₚ l) -> pickQuizIndices sh <> [].
Proof. intros Hsh E. destruct (pick_facts sh Hsh) as [Hl _]. by rewrite E in Hl. Qed.

Lemma create_inv_reach s : create_reach s -> create_inv s.
Proof.
  induction 1 as [|e s He _ IH|loading error s _ IH]; [by split| |exact IH]. pose proof IH as [I1 I2].
  unfold create_next. destruct (c_step s) eqn:Es, e as [pw cw ag|en| |sh| |w]; try exact IH.
  - by split.
  - destruct (password_valid s) eqn:Ep; [|exact IH]. split; [|done]. intros _. cbn.
    unfold password_valid in Ep. rewrite !andb_true_iff in Ep. destruct Ep as [[H1%Nat.leb_le _] _].
    split; [by exists en|done].
  - split; [|done]. intros _. by apply I1.
  - destruct (c_revealed s); [|exact IH]. split; [intros _; by apply I1|]. intros _. exists sh. split; [done|].
    split; [done|]. apply quiz_start_ok. by apply pick_nonempty.
  - by split.
  - destruct (showSuccess (c_quiz s) && negb (c_loading s)); [exact IH|]. split; [|done]. intros _. by apply I1.
  - split; [intros _; by apply I1|]. intros _. destruct (I2 eq_refl) as (sh & Hsh & Hi & Hq).
    exists sh. split; [done|]. split; [done|]. cbn. by apply handleChoice_ok.
Qed.

Lemma generated_words m : generated m ->
  validateMnemonic m = true /\ length (split_sp [] m) = 24%nat /\ m = join_sp (split_sp [] m).
Proof.
  intros (e & [Hb Hl] & ->).
  assert (ext_generateMnemonic e = generateMnemonic e) as ->.
  { unfold ext_generateMnemonic, generateMnemonic. f_equal. apply map_ext_in. intros b Hin%list_elem_of_In.
    rewrite Z.mod_small; [done|]. by apply (proj1 (Forall_forall _ _) Hb). }
  unfold generateMnemonic. pose proof (entropy_words e) as Hw.
  assert (length (map (fun b => WORDLIST !!! Z.to_nat (b mod 256)) e) = 24%nat) as Hlen by by rewrite length_map.
  set (ws := map _ e) in *. assert (split_sp [] (join_sp ws) = ws) as ->.
  { apply split_sp_join; [by intros ->|]. eapply Forall_impl; [exact Hw|]. apply wordlist_is_word. }
  split; [by apply validate_join|done].
Qed.

(** The first message a page sends. *)
Fixpoint first_msg {A} (m : view A) : option call :=
  match m with
  | Done | Http _ _ => None
  | Set_ _ k | ClearStorage k => first_msg k
  | Msg c _ => Some c
  | Fork m _ => first_msg m
  end.

(** C11. A wallet is created only from a verified phrase: in every reachable state
    of the creation page, a request to create a wallet carries a phrase of 24
    random words that passes validation, of which the user has found all six
    hidden words, and a password of at least eight characters. *)
Theorem created_phrase_verified (aid : option jsstr) (s : create) (c : call) :
  create_reach s -> first_msg (handleCreate aid s) = Some c ->
  exists m p, c = wallet_create m p None /\ validateMnemonic m = true /\ (8 <= length p)%nat
    /\ length (c_idx s) = 6%nat /\ NoDup (c_idx s)
    /\ forall i, i ∈ c_idx s -> exists w, split_sp [] m !! i = Some w /\ answers (c_quiz s) !! i = Some w.
Proof.
  intros Hr Hc. destruct (create_inv_reach s Hr) as [I1 I2]. unfold handleCreate in Hc.
  destruct (c_step s) eqn:Es; [done..|]. destruct (showSuccess (c_quiz s)) eqn:Eq; [|done]. cbn [andb] in Hc.
  destruct (c_loading s); [done|]. cbn in Hc. injection Hc as <-.
  destruct I1 as [Hg Hp]; [done|]. destruct (I2 eq_refl) as (sh & Hsh & Hi & Hok & Hs).
  destruct (generated_words _ Hg) as (Hv & Hl & _). destruct (pick_facts sh Hsh) as (F1 & F2 & _ & F4).
  eexists _, _. split; [reflexivity|]. split; [done|]. split; [done|]. rewrite Hi. split; [done|]. split; [done|].
  intros i Hin. rewrite Eq in Hs. symmetry in Hs. rewrite Hi in Hs.
  destruct (proj1 (allAnswered_spec _ _) Hs i Hin) as [w Ew]. exists w. split; [|done]. by apply Hok.
Qed.

(** A user who makes no mistake. *)
Definition created_state : create :=
  let e := repeat 7 24 in
  let s := foldl (fun s e => create_next e s) create_start
             [ETyped (js "rahasia123") (js "rahasia123") true; ESubmit e; EReveal; ENext (fun l => l)] in
  foldl (fun s _ => create_next (EChoice (Some (WORDLIST !!! 7%nat))) s) s (seq 0 6).

Lemma created_state_reach : create_reach created_state.
Proof.
  unfold created_state. cbn [foldl seq].
  repeat (apply cr_event; [first [done|intros l; reflexivity|split; [repeat constructor; done|done]]|]). constructor.
Qed.

Lemma created_phrase_verified_witness :
  exists m p, first_msg (handleCreate None created_state) = Some (wallet_create m p None) /\ validateMnemonic m = true.
Proof.
  destruct (created_phrase_verified None created_state (wallet_create (c_mnemonic created_state) (js "rahasia123") None))
    as (m & p & E & Hv & _); [apply created_state_reach|vm_compute; reflexivity|].
  exists m, p. injection E as <- <-. split; [vm_compute; reflexivity|exact Hv].
Defined.

(** ** Pages against the worker *)

Section Pages.
Context {C : Crypto} {V : VaultCrypto}.
Context (random : nat -> nat -> list Z) (uuid : nat -> jsstr).

Lemma exec_any_pending rs b :
  exec (handleMessage random uuid (say get_any_pending) popup) rs b
  = (b, [], Value (Result (match pending b with (_, p) :: _ => RPending p | [] => RNull end))).
Proof. done. Qed.

Definition has_pending (b : bg) : bool := match pending b with [] => false | _ => true end.

Lemma play_ready {A} aid r rs (S : screen A) b :
  play random uuid (handleWalletReady aid) (r :: rs) S b
  = (rs, goto (if truthy aid || has_pending b then PApproval else PHome) S, b, []).
Proof.
  unfold handleWalletReady. cbn [play]. rewrite exec_any_pending. cbn [listen play app]. unfold has_pending.
  by destruct (pending b) as [|[k p] l].
Qed.

Lemma play_unlocked {A} aid r rs (S : screen A) b :
  play random uuid (onUnlocked aid) (r :: rs) S b
  = (rs, if truthy aid || has_pending b then goto PApproval S else S, b, []).
Proof.
  unfold onUnlocked. cbn [play]. rewrite exec_any_pending. cbn [listen play app]. unfold has_pending.
  destruct (pending b) as [|[k p] l]; cbn; by destruct (truthy aid).
Qed.

Lemma foldl_app_head {A} (f : A -> jsstr) u a l : exists v r, foldl (fun r d => r ++ f d) (u :: a) l = v :: r.
Proof. revert u a. induction l as [|x l IH]; intros u a; [by exists u, a|]. cbn [foldl app]. apply IH. Qed.

Lemma address_nonempty m i key : ext_deriveKey m 0 i = Some key -> exists u a, ext_address key = u :: a.
Proof.
  unfold ext_deriveKey. destruct (getPublicKey _) as [pk|]; [|done]. intros [= <-]. cbn [ext_address].
  apply (foldl_app_head (fun d => charset_at d)).
Qed.

(** C12. A wallet that is created can be opened again: when the request of the
    creation page has been answered, the stored vault opens with the password that
    was chosen and holds the phrase that was shown, the wallet is unlocked, and
    the popup shows its home page, or the approval page when a request waits. *)
Theorem create_page_stores {VL : VaultCryptoLaws V} (aid : option jsstr) (S : screen create) (b : bg)
    (m p : jsstr) (key : ExtDerivedKey) :
  random_ok random -> first_msg (handleCreate aid (own S)) = Some (wallet_create m p None) ->
  ext_deriveKey m 0 0 = Some key -> vault_ok (fresh_vault m None key) = true ->
  exists S' b', play random uuid (handleCreate aid (own S)) [[]; []] S b = ([], S', b', [])
    /\ loadVault p (store b') = Some (fresh_vault m None key)
    /\ isUnlocked b' = true
    /\ at_page S' = if truthy aid || has_pending b' then PApproval else PHome.
Proof.
  intros Hr Hf Hk Hok. unfold handleCreate in *. destruct (c_step (own S)); [done..|].
  destruct (showSuccess (c_quiz (own S)) && negb (c_loading (own S))); [|done]. cbn [first_msg] in Hf. injection Hf as -> ->.
  destruct (create_replaces_vault random uuid (say (wallet_create m p None)) popup b m p None key Hr eq_refl Hk Hok)
    as (b' & E & Hl & Hv).
  destruct (address_nonempty _ _ _ Hk) as (u & a & Ha).
  cbn [play]. rewrite E. cbn [listen]. unfold address_of. cbn [result_of]. rewrite Ha. cbn [play].
  rewrite play_ready. eexists _, b'. split; [reflexivity|]. split; [exact Hl|]. split; [|done].
  revert E. unfold handleMessage, on_create, derive. cbn [m_call say]. rewrite Hk. cbn [bind of_option alloc exec].
  match goal with
  | |- context [exec (bind (save_async random ?v ?p) ?k) ?rs ?s] =>
      destruct (exec_save random v p k rs s Hr Hok) as (s' & E & _ & st & ->)
  end.
  rewrite E. cbn [bind exec modify]. intros [= <-]. done.
Qed.

Lemma exec_accounts b p l v rs : session_of b p l v ->
  exec (handleMessage random uuid (say wallet_getAccounts) popup) rs b = (b, [], Value (Result (RAccounts (v_accounts v)))).
Proof.
  intros [Hs Hv]. unfold handleMessage, need_session, deref. cbn -[getSession vault_at]. rewrite Hs.
  cbn -[vault_at]. by rewrite Hv.
Qed.

(** Loading the balance leaves the login and the accounts alone. *)
Definition balance_only (f : home -> home) : Prop :=
  forall h, h_locked (f h) = h_locked h /\ h_accounts (f h) = h_accounts h /\ h_loginErr (f h) = h_loginErr h.

Lemma play_balance addr reply rs (S : screen home) b :
  exists f, balance_only f
    /\ play random uuid (loadBalance addr) ([reply] :: rs) S b = (rs, upd f S, b, [ReqConnect (Some addr)]).
Proof.
  unfold loadBalance. cbn [play].
  assert (balance_only (fun h => h_with_loading false (h_with_loading true h))) as H0 by done.
  destruct reply as [e|r|l|e d|e d u|e t h|j]; try (eexists; split; [exact H0|]; by destruct S).
  exists (fun h => h_with_loading false (show_balance j (h_with_loading true h))). split; [|by destruct S].
  intros h. destruct j; cbn; try done. by repeat case_match.
Qed.

(** C15. Unlocking in the popup: with a password that opens the stored vault the
    page shows that vault's accounts, the session holds the vault, and a waiting
    request is shown next; with any other password the page says so and stays as
    it was, and neither the worker nor storage changes. *)
Theorem unlock_page (aid : option jsstr) (S : screen home) (b : bg) (reply : answer) :
  h_password (own S) <> [] ->
  match loadVault (h_password (own S)) (store b) with
  | Some v =>
      v_accounts v <> [] ->
      exists S' b' l qs, play random uuid (unlock aid (own S)) [[]; []; [reply]; []] S b = ([], S', b', qs)
        /\ session_of b' (h_password (own S)) l v /\ store b' = store b
        /\ h_locked (own S') = false /\ h_accounts (own S') = v_accounts v /\ h_loginErr (own S') = []
        /\ at_page S' = if truthy aid || has_pending b' then PApproval else at_page S
  | None =>
      play random uuid (unlock aid (own S)) [[]] S b
      = ([], upd (h_with_login (h_locked (own S)) (h_password (own S)) (js "Password salah")) S, b, [])
  end.
Proof.
  intros Hp. pose proof (exec_unlock random uuid (say (wallet_unlock (h_password (own S)))) popup b _ eq_refl Hp) as H.
  destruct (loadVault (h_password (own S)) (store b)) as [v|].
  - intros Hv. destruct H as (b' & l & E & Hs & Hst). unfold unlock. cbn [play]. rewrite E. cbn [listen ok result_of result_truthy play].
    unfold loadAccounts at 1. cbn [play]. rewrite (exec_accounts b' _ l v) by done. cbn [listen accounts_of result_of play].
    destruct (v_accounts v) as [|a accs] eqn:Ea; [done|].
    match goal with
    | |- context [play random uuid (loadBalance ?ad) ?rs ?S' ?b0] =>
        destruct (play_balance ad reply [[]] S' b0) as (f & Hf & ->)
    end.
    rewrite play_unlocked. eexists _, b', l, _. split; [reflexivity|]. split; [done|]. split; [done|].
    match goal with |- context [upd f ?S0] => destruct (Hf (own S0)) as (F1 & F2 & F3) end.
    destruct (truthy aid || has_pending b'); cbn [at_page own goto upd] in *; rewrite F1, F2, F3; done.
  - unfold unlock. cbn [play]. rewrite H. cbn [listen ok result_of play]. done.
Qed.

(** ** The import pages *)

(** The import pages import nothing: whatever valid phrase or private key was
    typed, the account that is added, stored and reported as success is the next
    one of the phrase the wallet already has. *)
Theorem import_pages_ignore_input {VL : VaultCryptoLaws V} (S : screen importer) (m : view importer) (b : bg) (p : jsstr)
    (l : nat) (v : VaultData) (key : ExtDerivedKey) :
  random_ok random -> session_of b p l v -> accounts_ok v ->
  (phrase_valid (own S) = true /\ m = importPhrase (own S)) \/ (hex64 (trim (im_text (own S))) = true /\ m = importKey (own S)) ->
  ext_deriveKey (v_mnemonic v) 0 (Z.of_nat (length (v_accounts v))) = Some key ->
  (forall a, a_address a = ext_address key -> a_name a = account_name (Z.of_nat (length (v_accounts v)) + 1) ->
     a_derivationPath a = ext_derivationPath key -> vault_ok (push_account a v) = true) ->
  exists S' b' a, play random uuid m [[]] S b = ([], S', b', [])
    /\ at_page S' = PHome /\ im_error (own S') = []
    /\ a_address a = ext_address key /\ session_of b' p l (push_account a v) /\ loadVault p (store b') = Some (push_account a v).
Proof.
  intros Hr Hs Hok Hm Hk Hv.
  assert (m = add_account) as -> by (unfold importPhrase, importKey in Hm; destruct Hm as [[-> ->]|[-> ->]]; done).
  destruct (exec_add_account random uuid (say wallet_addAccount) popup b p l v key Hr eq_refl Hs Hok Hk Hv)
    as (b' & a & v' & E & -> & _ & Ha & Hs' & Hl).
  unfold add_account. cbn [play]. rewrite E. cbn [listen ok result_of result_truthy play].
  eexists _, b', a. split; [reflexivity|]. done.
Qed.

(** ** Deleting the wallet *)

(** Deleting the wallet leaves it unlocked: after the security page has
    cleared storage and the popup shows the welcome page, the worker's session
    still holds the vault, and the next account that is added, by any sender,
    writes the whole vault back to storage. *)
Theorem reset_keeps_session {VL : VaultCryptoLaws V} {A} (S : screen A) (b : bg) (m : message) (sd : sender) (p : jsstr)
    (l : nat) (v : VaultData) (key : ExtDerivedKey) :
  random_ok random -> session_of b p l v -> accounts_ok v -> m_call m = wallet_addAccount ->
  ext_deriveKey (v_mnemonic v) 0 (Z.of_nat (length (v_accounts v))) = Some key ->
  (forall a, a_address a = ext_address key -> a_name a = account_name (Z.of_nat (length (v_accounts v)) + 1) ->
     a_derivationPath a = ext_derivationPath key -> vault_ok (push_account a v) = true) ->
  exists S' b', play random uuid (handleReset true) [] S b = ([], S', b', [])
    /\ at_page S' = PWelcome /\ hasVault (store b') = false /\ session_of b' p l v
    /\ exists b'' a, exec (handleMessage random uuid m sd) [] b' = (b'', [], Value (Result (RAccount a)))
       /\ loadVault p (store b'') = Some (push_account a v).
Proof.
  intros Hr Hs Hok Em Hk Hv. eexists _, _. split; [reflexivity|]. split; [done|]. split; [done|]. split; [exact Hs|].
  destruct (exec_add_account random uuid m sd (with_store ∅ (nrandom b) b) p l v key Hr Em Hs Hok Hk Hv)
    as (b'' & a & v' & E & -> & _ & _ & _ & Hl). exists b'', a. done.
Qed.

(** ** Sending *)

Lemma covered_spec (s : send) sat n :
  units_floor (amountNum s) = Some sat -> 0 <= sat -> sat + FEE < 2 ^ 51 -> 0 < n < 2 ^ 51 -> sd_balance s = JNum n ->
  covered s = (sat + FEE <=? n).
Proof.
  intros Hu Hs Hlt Hn Hb. unfold covered. rewrite Hu, Hb. cbn [json_number].
  destruct (of_Z_exact (sat + FEE)) as (x & Ex & Nx & Dx); [unfold FEE in *; lia|].
  destruct (of_Z_exact n) as (y & Ey & Ny & Dy); [lia|]. rewrite Ex, Ey. cbn [dle]. rewrite Nx, Ny.
  destruct (Z.leb_spec (sat + FEE) n); [apply Z.leb_le|apply Z.leb_gt]; nia.
Qed.

End Pages.

(** ** Concrete pages *)

Definition create_screen : screen create := {| at_page := PCreate; closed := false; own := created_state |}.

Definition key_of (m : jsstr) : ExtDerivedKey :=
  default sample_key (ext_deriveKey (C := toy) m 0 0).

Lemma create_page_stores_witness :
  exists S' b', play (C := toy) (V := toy_vault) sample_random sample_uuid (handleCreate None (own create_screen)) [[]; []] create_screen (boot ∅)
      = ([], S', b', [])
    /\ isUnlocked b' = true /\ at_page S' = if truthy None || has_pending b' then PApproval else PHome.
Proof.
  destruct (create_page_stores (C := toy) (V := toy_vault) sample_random sample_uuid None create_screen (boot ∅)
    (c_mnemonic created_state) (js "rahasia123") (key_of (c_mnemonic created_state))) as (S' & b' & E & _ & Hu & Hp).
  - apply sample_random_ok.
  - vm_compute. reflexivity.
  - vm_compute. reflexivity.
  - vm_compute. reflexivity.
  - exists S', b'. split; [exact E|]. split; assumption.
Defined.

(** The lock screen over a stored vault. *)
Definition stored : bg := with_session None None (st created).
Definition lock_screen (pw : jsstr) : screen home :=
  {| at_page := PHome; closed := false; own := h_with_login true pw [] home_start |}.

Lemma unlock_page_witness :
  exists S' b' l qs,
    play (C := toy) (V := toy_vault) sample_random sample_uuid (unlock None (own (lock_screen (js "pw")))) [[]; []; [AReject []]; []]
      (lock_screen (js "pw")) stored = ([], S', b', qs)
    /\ session_of b' (js "pw") l sample_v /\ h_locked (own S') = false /\ h_accounts (own S') = v_accounts sample_v.
Proof.
  pose proof (unlock_page (C := toy) (V := toy_vault) sample_random sample_uuid None (lock_screen (js "pw")) stored (AReject [])) as H.
  assert (loadVault (V := toy_vault) (js "pw") (store stored) = Some sample_v) as E by (vm_compute; reflexivity).
  change (h_password (own (lock_screen (js "pw")))) with (js "pw") in H. rewrite E in H.
  destruct H as (S' & b' & l & qs & E' & Hs & _ & Hl & Ha & _); [discriminate|discriminate|].
  exists S', b', l, qs. split; [exact E'|]. split; [exact Hs|]. split; assumption.
Defined.

Definition import_screen : screen importer := {|
  at_page := PImportPrivat; closed := false;
  own := {| im_text := replicate 64 97; im_name := js "Akun Impor"; im_loading := false; im_error := [] |} |}.

Lemma sample_vault_ok a :
  a_address a = ext_address sample_key1 -> a_name a = account_name 2 -> a_derivationPath a = ext_derivationPath sample_key1 ->
  vault_ok (push_account a sample_v) = true.
Proof.
  intros Ha Hn Hd. unfold vault_ok, push_account. cbn [v_mnemonic v_accounts v_connectedSites v_network].
  rewrite forallb_app. cbn [forallb]. unfold account_ok at 2. rewrite Ha, Hn, Hd. vm_compute. reflexivity.
Qed.

Lemma import_pages_ignore_input_witness :
  exists S' b' a, play (C := toy) (V := toy_vault) sample_random sample_uuid (importKey (own import_screen)) [[]] import_screen unlocked
      = ([], S', b', []) /\ a_address a = ext_address sample_key1.
Proof.
  destruct (import_pages_ignore_input (C := toy) (V := toy_vault) sample_random sample_uuid import_screen (importKey (own import_screen))
    unlocked (js "pw") 0 sample_v sample_key1) as (S' & b' & a & E & _ & _ & Ha & _).
  - apply sample_random_ok.
  - split; reflexivity.
  - apply sample_accounts_ok.
  - right. split; vm_compute; reflexivity.
  - vm_compute. reflexivity.
  - intros a. apply sample_vault_ok.
  - exists S', b', a. split; assumption.
Defined.

Lemma reset_keeps_session_witness :
  exists S' b', play (C := toy) (V := toy_vault) sample_random sample_uuid (handleReset true) [] import_screen unlocked = ([], S', b', [])
    /\ hasVault (store b') = false /\ session_of b' (js "pw") 0 sample_v.
Proof.
  destruct (reset_keeps_session (C := toy) (V := toy_vault) sample_random sample_uuid import_screen unlocked (page_says wallet_addAccount) page
    (js "pw") 0 sample_v sample_key1) as (S' & b' & E & _ & Hh & Hs & _).
  - apply sample_random_ok.
  - split; reflexivity.
  - apply sample_accounts_ok.
  - reflexivity.
  - vm_compute. reflexivity.
  - intros a. apply sample_vault_ok.
  - exists S', b'. split; [exact E|]. split; assumption.
Defined.

(** A payment of 0.00005 GRD out of [sample_coins]. *)
Definition send_screen : screen send := {|
  at_page := PSend; closed := false;
  own := {| sd_address := ext_address sample_key; sd_amount := js "0.00005"; sd_tipe := NATIVE; sd_assetId := js "native-grd";
            sd_balance := JNum (total sample_coins); sd_sending := false; sd_showConfirm := true; sd_txid := []; sd_error := [] |} |}.


(** ** What the approval page shows *)

(** The asset of an order is not shown: requests for different assets look the
    same. *)
Lemma order_asset_hidden a1 a2 side price amount address :
  detail (PlaceOrder a1 side price amount address) = detail (PlaceOrder a2 side price amount address).
Proof. done. Qed.

(** Recipients that agree in their first 14 and last 6 characters look the same. *)
Lemma recipient_abbreviated from to1 to2 amount memo :
  take 14 to1 = take 14 to2 -> slice_last 6 to1 = slice_last 6 to2 ->
  detail (SendTransaction from to1 amount memo) = detail (SendTransaction from to2 amount memo).
Proof. intros H1 H2. unfold detail, transaction_rows, short_address. by rewrite H1, H2. Qed.

(** A popup opened for a request that is gone shows no request and answers
    nothing. *)
Lemma stale_approval_page {C : Crypto} {V : VaultCrypto} random uuid id (S : screen approval) b :
  id <> [] -> find_pending id b = None -> ap_pending (own S) = None ->
  exists S', play random uuid (approval_mount (Some id)) [[]; []] S b = ([], S', b, [])
    /\ ap_pending (own S') = None /\ forall approved, respond approved (own S') = Done.
Proof.
  intros Hid Hf Hn. unfold approval_mount. destruct id as [|u id]; [done|]. cbn [truthy default play].
  unfold handleMessage, on_pending_approval. cbn -[on_wallet_info find_pending]. rewrite Hf. cbn -[on_wallet_info].
  unfold on_wallet_info. cbn -[getSession].
  destruct (getSession b ≫= _) as [v|]; [|exists S; by unfold respond; rewrite Hn].
  destruct (v_accounts v); [exists S; by unfold respond; rewrite Hn|].
  eexists. split; [reflexivity|]. cbn. unfold respond. cbn. by rewrite Hn.
Qed.
