(* ===== verification/Endpoints.v ===== *)
(** * Requests and the server's routes

    The paths the wallets request, src/extension/src/background/index.ts and
    src/mobile/utils/garuda-api.ts, against the routes the server registers in
    src/api/main.go. The server's multiplexer (Go's [ServeMux]) serves a path that
    is registered as it is, that continues a registered path ending in a slash, or
    that is one without its slash (by a redirect); any other path gets a text that
    is no JSON. Paths with empty or dot segments, which are redirected to their
    clean form, are none of the wallets'. *)

From stdpp Require Import gmap.
From S2P Require Import Prelude JsText Amounts Bytes Keys Tx Coins Json Vault Background System Worker Requests.
Local Open Scope Z_scope.

Local Open Scope string_scope.
Definition route_strings : list String.string :=
 ["/api/healthz"; "/api/metrics";
  "/api/blockchain/stats"; "/api/blockchain/blocks"; "/api/blockchain/blocks/"; "/api/blockchain/transactions";
  "/api/blockchain/transactions/"; "/api/blockchain/address/"; "/api/blockchain/search"; "/api/blockchain/stocks";
  "/api/blockchain/stock/"; "/api/blockchain/tokens"; "/api/blockchain/token/"; "/api/blockchain/pool/";
  "/api/blockchain/orderbook/"; "/api/blockchain/mining"; "/api/blockchain/top-miners"; "/api/blockchain/wallets";
  "/api/blockchain/wallet/"; "/api/blockchain/supply"; "/api/blockchain/stablecoins"; "/api/blockchain/trade-history/";
  "/api/blockchain/asset-holders/"; "/api/blockchain/presales"; "/api/blockchain/presale/"; "/api/blockchain/apbn";
  "/api/blockchain/stream";
  "/api/dex/wallet/create"; "/api/dex/wallet/connect"; "/api/dex/deposit"; "/api/dex/withdraw"; "/api/dex/order";
  "/api/dex/swap"; "/api/dex/oracle-swap"; "/api/dex/cross-swap"; "/api/dex/prepare-transfer"; "/api/dex/receive-grd";
  "/api/dex/presale/create"; "/api/dex/presale/buy"; "/api/dex/presale/close"; "/api/dex/order/cancel";
  "/api/dex/my-orders/"; "/api/dex/trades/"; "/api/dex/price-history/"; "/api/dex/live-price/"; "/api/dex/mm-status";
  "/api/dex/fee-stats";
  "/api/dex/qris/create"; "/api/dex/qris/status/"; "/api/dex/qris/confirm"; "/api/dex/qris/pending";
  "/api/exchange-rates"; "/api/exchange-rates/convert"; "/api/exchange-rates/currencies"; "/api/blockchain/peg/";
  "/api/admin/rotate-key"; "/api/admin/security-status"; "/api/admin/health";
  "/api/cbdc/mint"; "/api/cbdc/burn"; "/api/cbdc/issue"; "/api/cbdc/transfer"; "/api/cbdc/wallet/create"; "/api/cbdc/supply/";
  "/api/asset/logos"; "/api/asset/metadata/"; "/api/asset/doc/"; "/api/asset/logo/";
  "/api/dividend/declare"; "/api/dividend/history/";
  "/api/dex/order/prepare"; "/api/broadcast"; "/api/wallet/utxos"; "/api/wallet/watchonly"; "/api/blockchain/mine";
  "/api/quantum/address"; "/api/cbdc/info"; "/api/cbdc/stateroot"; "/api/oracle/status"; "/api/oracle/rates";
  "/api/cbdc/security"].
Local Close Scope string_scope.

Definition ROUTES : list jsstr := Eval vm_compute in map js route_strings.

Definition ends_slash (s : jsstr) : bool := match last s with Some u => u =? 47 | None => false end.

Definition route_matches (path pattern : jsstr) : bool :=
  if ends_slash pattern then startsWith path pattern || bool_decide (path ++ [47] = pattern)
  else bool_decide (path = pattern).

(** The path of a URL, without its query. *)
Fixpoint path_of (url : jsstr) : jsstr :=
  match url with [] => [] | u :: s => if u =? 63 then [] else u :: path_of s end.

Definition served (url : jsstr) : bool := existsb (route_matches (path_of url)) ROUTES.

(** ** The worker *)

(** [`${addr}`] of a missing address. *)
Definition text_or_undefined (a : option jsstr) : jsstr := default (js "undefined") a.

Definition request_url (q : request) : jsstr :=
  match q with
  | ReqConnect _ => js "/api/dex/wallet/connect"
  | ReqAddress a => js "/api/address/" ++ text_or_undefined a
  | ReqAssets kind => js "/api/" ++ kind
  | ReqUtxos a => js "/api/utxos/" ++ a
  | ReqPrepareToken _ _ _ _ => js "/api/token/transfer/prepare"
  | ReqPrepareOrder _ _ _ _ _ => js "/api/dex/order/prepare"
  | ReqBroadcast _ => js "/api/broadcast"
  end.

(** No registered path agrees with [prefix] as far as both go. *)
Definition no_route (prefix : jsstr) : bool :=
  forallb (fun r => negb (bool_decide (take (length r) prefix = take (length prefix) r))) ROUTES.

Lemma route_agrees path prefix rest r :
  path = prefix ++ rest -> route_matches path r = true -> take (length r) prefix = take (length prefix) r.
Proof.
  intros -> H. unfold route_matches in H. destruct (ends_slash r).
  - apply orb_true_iff in H as [H|H]; unfold startsWith in H; apply bool_decide_eq_true in H.
    2: { rewrite <- H, <- app_assoc, take_app_length, take_ge; [done|]. rewrite !length_app. lia. }
    transitivity (take (length prefix) (take (length r) (prefix ++ rest))); [|by rewrite H].
    rewrite take_take, Nat.min_comm, <- take_take, take_app_length. done.
  - apply bool_decide_eq_true in H as <-. rewrite take_app_length.
    apply take_ge. rewrite length_app. lia.
Qed.

Lemma not_served prefix rest : (forall u, u ∈ prefix -> u <> 63) -> no_route prefix = true -> served (prefix ++ rest) = false.
Proof.
  intros Hp Hr. unfold served. apply not_true_iff_false. rewrite existsb_exists. intros (r & Hin & Hm).
  assert (path_of (prefix ++ rest) = prefix ++ path_of rest) as E.
  { clear Hr Hm. induction prefix as [|u p IH]; [done|]. cbn [app path_of].
    rewrite (proj2 (Z.eqb_neq u 63)) by (apply Hp; left). f_equal. apply IH. intros v Hv. apply Hp. by right. }
  unfold no_route in Hr. rewrite forallb_forall in Hr. specialize (Hr r Hin).
  apply (route_agrees _ _ _ _ E) in Hm. rewrite bool_decide_eq_true_2 in Hr; done.
Qed.

Lemma not_served_bool prefix rest :
  forallb (fun u => negb (u =? 63)) prefix && no_route prefix = true -> served (prefix ++ rest) = false.
Proof.
  intros [H1 H2]%andb_true_iff. apply not_served; [|done]. rewrite forallb_forall in H1.
  intros u Hu%list_elem_of_In. specialize (H1 u Hu). by apply negb_true_iff, Z.eqb_neq in H1.
Qed.

Lemma utxos_not_served a : served (request_url (ReqUtxos a)) = false.
Proof. apply not_served_bool. vm_compute. reflexivity. Qed.

Lemma address_not_served a : served (request_url (ReqAddress a)) = false.
Proof. apply not_served_bool. vm_compute. reflexivity. Qed.

Lemma prepare_not_served i n f t : served (request_url (ReqPrepareToken i n f t)) = false.
Proof. vm_compute. reflexivity. Qed.

Lemma assets_not_served k : k ∈ [js "stablecoins"; js "pegged-stablecoins"; js "stocks"] -> served (request_url (ReqAssets k)) = false.
Proof.
  intros H. repeat (apply elem_of_cons in H as [->|H]; [vm_compute; reflexivity|]). by apply elem_of_nil in H.
Qed.

(** ** The worker with this server *)

(** A run in which every request gets the server's reply. *)
Fixpoint exec_api {A} (api : request -> answer) (m : M A) (s : bg) : bg * list request * outcome A :=
  match m with
  | Ret a => (s, [], Value a)
  | Throw e => (s, [], Raised e)
  | Atom f => let '(s', m') := f s in exec_api api m' s'
  | Await m => exec_api api m s
  | Fetch q k => let '(s', qs, o) := exec_api api (k (api q)) s in (s', q :: qs, o)
  end.

(** A path without a route is answered with [404 page not found], which
    [r.json()] rejects. *)
Definition go_server (api : request -> answer) : Prop :=
  forall q, served (request_url q) = false -> exists e, api q = AReject e.

(** C31. The extension cannot pay through the repository's server: the paths it
    asks for coins, for token transfers and for the lists of assets have no
    route there, so that [wallet_sendNative] and [wallet_sendToken] fail for every
    unlocked wallet, recipient and amount before anything is signed, and the list
    of assets is always empty. *)
Theorem worker_routes_missing {C : Crypto} {V : VaultCrypto} (random : nat -> nat -> list Z) (uuid : nat -> jsstr)
    (api : request -> answer) (s : bg) (p : jsstr) (l : nat) (v : VaultData) (a : AccountMeta) (accs : list AccountMeta)
    (key : ExtDerivedKey) (sd : sender) (to assetId : jsstr) (amt : Z) (amount : double) :
  go_server api -> session_of s p l v -> v_accounts v = a :: accs ->
  ext_deriveKey (v_mnemonic v) 0 (a_index a) = Some key ->
  (exists e, exec_api api (handleMessage random uuid (say (wallet_sendNative to amt)) sd) s
             = (s, [ReqUtxos (a_address a)], Raised e))
  /\ (exists e, exec_api api (handleMessage random uuid (say (wallet_sendToken to amount assetId)) sd) s
             = (s, [ReqPrepareToken assetId amount (a_address a) to], Raised e))
  /\ exists qs, exec_api api (handleMessage random uuid (say wallet_getAssetList) sd) s = (s, qs, Value (Result (RAssets []))).
Proof.
  intros Hapi [Hs Hv] Ha Hk. unfold handleMessage. cbn [m_call say].
  split; [|split].
  - destruct (Hapi _ (utxos_not_served (a_address a))) as [e He]. exists e.
    unfold on_send_native, need_session, deref, first_account, derive, fetch_utxos.
    cbn -[getSession vault_at ext_deriveKey plan_payment sign_tx]. rewrite Hs.
    cbn -[vault_at ext_deriveKey plan_payment sign_tx]. rewrite Hv. cbn -[ext_deriveKey plan_payment sign_tx].
    rewrite Ha. cbn -[ext_deriveKey plan_payment sign_tx]. rewrite Hk. cbn -[plan_payment sign_tx]. by rewrite He.
  - destruct (Hapi _ (prepare_not_served assetId amount (a_address a) to)) as [e He]. exists e.
    unfold on_send_token, need_session, deref, first_account, derive.
    cbn -[getSession vault_at ext_deriveKey plan_token sign_tx]. rewrite Hs.
    cbn -[vault_at ext_deriveKey plan_token sign_tx]. rewrite Hv. cbn -[ext_deriveKey plan_token sign_tx].
    rewrite Ha. cbn -[ext_deriveKey plan_token sign_tx]. rewrite Hk. cbn -[plan_token sign_tx]. by rewrite He.
  - eexists. unfold on_asset_list, fetch_assets. cbn [bind exec_api].
    edestruct (Hapi (ReqAssets (js "stablecoins"))) as [e1 ->]; [apply assets_not_served; left|].
    cbn [bind exec_api].
    edestruct (Hapi (ReqAssets (js "pegged-stablecoins"))) as [e2 ->]; [apply assets_not_served; right; left|].
    cbn [bind exec_api].
    edestruct (Hapi (ReqAssets (js "stocks"))) as [e3 ->]; [apply assets_not_served; right; right; left|]. reflexivity.
Qed.

Definition sample_api (q : request) : answer :=
  if served (request_url q) then ABroadcast None (Some (js "id")) None else AReject (js "SyntaxError").

Lemma worker_routes_missing_witness :
  exists e, exec_api sample_api (handleMessage (C := toy) (V := toy_vault) sample_random sample_uuid
      (say (wallet_sendNative (js "grd1q") 5000)) popup) unlocked
    = (unlocked, [ReqUtxos (ext_address sample_key)], Raised e).
Proof.
  apply (worker_routes_missing (C := toy) (V := toy_vault) sample_random sample_uuid sample_api unlocked (js "pw") 0 sample_v
    {| a_name := js "Akun 1"; a_address := ext_address sample_key; a_derivationPath := js "garuda-sha256"; a_index := 0 |}
    [] sample_key popup (js "grd1q") [] 5000 NaN).
  - intros q Hq. unfold sample_api. rewrite Hq. exists (js "SyntaxError"). reflexivity.
  - split; reflexivity.
  - reflexivity.
  - apply sample_key_eq.
Defined.
