(* ===== verification/Bridge.v ===== *)
(** * The page side of the extension

    src/extension/src/inpage/index.ts (the provider a page calls) and
    src/extension/src/content/index.ts (the relay between the page and the
    worker), as the events they react to. *)

From stdpp Require Import gmap.
From S2P Require Import Prelude JsText Amounts Bytes Keys Tx Json Vault Background System.
Local Open Scope Z_scope.

(** What the promise of a call settles with; [None] is [undefined]. *)
Definition settled := (option result + jsstr)%type.

(** [window.postMessage] data of the two scripts. *)
Inductive page_data :=
| GARUDA_REQUEST (id : jsstr) (c : call)
| GARUDA_RESPONSE (id : jsstr) (result : option result) (error : option jsstr)
| OTHER.

(** ** Content script *)

Record content := { waiting : list jsstr }.

Inductive output :=
| ToPage (d : page_data)
| ToWorker (m : message).

Definition REFRESH : jsstr := js "Extension perlu di-refresh. Tutup tab ini dan buka ulang.".

(** The window listener: [own] is [e.source === window], [valid] is
    [isContextValid()], [threw] the exception of [sendMessage], if any. *)
Definition on_window_message (origin : jsstr) (own valid : bool) (threw : option jsstr) (d : page_data) : list output :=
  if negb own then [] else
  match d with
  | GARUDA_REQUEST id c =>
      if negb valid then [ToPage (GARUDA_RESPONSE id None (Some REFRESH))]
      else match threw with
           | Some e => [ToPage (GARUDA_RESPONSE id None (Some (match e with [] => js "Extension error" | _ => e end)))]
           | None => [ToWorker {| m_call := c; m_id := Some id; m_origin := Some origin |}]
           end
  | _ => []
  end.

(** The worker's reply as the callback sees it: nothing, an object, or
    [chrome.runtime.lastError]. *)
Inductive worker_reply :=
| LastError (e : jsstr)
| NoReply
| Reply (r : reply)
| Failed (e : jsstr).

Definition on_worker_reply (id : jsstr) (r : worker_reply) (st : content) : content * list output :=
  match r with
  | LastError e => (st, [ToPage (GARUDA_RESPONSE id None (Some e))])
  | Reply Waiting => ({| waiting := id :: List.filter (fun i => negb (bool_decide (i = id))) (waiting st) |}, [])
  | Reply (Result r) => (st, [ToPage (GARUDA_RESPONSE id (Some r) None)])
  | Failed e => (st, [ToPage (GARUDA_RESPONSE id None (Some e))])
  | NoReply => (st, [ToPage (GARUDA_RESPONSE id None None)])
  end.

(** The [GARUDA_APPROVAL_RESULT] the worker sends to the tab. *)
Definition on_approval_result (id : jsstr) (r : result + jsstr) (st : content) : content * list output :=
  if bool_decide (id ∈ waiting st)
  then ({| waiting := List.filter (fun i => negb (bool_decide (i = id))) (waiting st) |},
        [ToPage (GARUDA_RESPONSE id (match r with inl x => Some x | inr _ => None end)
                                    (match r with inr e => Some e | inl _ => None end))])
  else (st, []).

(** ** Provider *)

Record provider := {
  callbacks : list jsstr;
  outcomes : list (jsstr * settled)
}.

(** [sendToBackground]; [id] is the random identifier it makes.  A [Map] keeps the
    place of a key that is set again. *)
Definition sendToBackground (id : jsstr) (c : call) (p : provider) : provider * page_data :=
  ({| callbacks := if bool_decide (id ∈ callbacks p) then callbacks p else callbacks p ++ [id];
      outcomes := outcomes p |}, GARUDA_REQUEST id c).

Definition forget (id : jsstr) (l : list jsstr) : list jsstr :=
  List.filter (fun i => negb (bool_decide (i = id))) l.

Definition settle (id : jsstr) (o : settled) (p : provider) : provider :=
  if bool_decide (id ∈ callbacks p)
  then {| callbacks := forget id (callbacks p); outcomes := outcomes p ++ [(id, o)] |} else p.

(** The window listener of the provider: an error that is not empty rejects. *)
Definition on_response (own : bool) (d : page_data) (p : provider) : provider :=
  if negb own then p else
  match d with
  | GARUDA_RESPONSE id r e =>
      settle id (match e with Some ((_ :: _) as e) => inr e | _ => inl r end) p
  | _ => p
  end.

(** The five minute timeout of one call. *)
Definition on_timeout (id : jsstr) (p : provider) : provider := settle id (inr (js "Request timeout")) p.

(** The methods of [window.garuda]. *)
Definition requestAccounts : call := garuda RequestAccounts.
Definition getAccounts : call := garuda_getAccounts.
Definition getBalance (address : option jsstr) : call := wallet_getBalance address.
Definition placeOrder (assetId side : jsstr) (price amount : Z) (address : jsstr) : call :=
  garuda (PlaceOrder assetId side price amount address).
Definition signMessage (msg address : jsstr) : call := garuda (SignMessage msg address).
Definition sendTransaction (from to : jsstr) (amount : double) (memo : option jsstr) : call :=
  garuda (SendTransaction from to amount memo).
Definition sendToken (from to assetId : jsstr) (amount : double) : call := garuda (SendToken from to assetId amount).

(** ** The provider settles every call at most once *)

Inductive provider_event :=
| Call (id : jsstr) (c : call)
| Message (own : bool) (d : page_data)
| Timeout (id : jsstr).

Definition provider_step (p : provider) (e : provider_event) : provider :=
  match e with
  | Call id c => (sendToBackground id c p).1
  | Message own d => on_response own d p
  | Timeout id => on_timeout id p
  end.

(** The identifiers of the calls, in order. *)
Definition called (es : list provider_event) : list jsstr :=
  omap (fun e => match e with Call id _ => Some id | _ => None end) es.

Definition provider_init : provider := {| callbacks := []; outcomes := [] |}.

Definition provider_inv (ids : list jsstr) (p : provider) : Prop :=
  NoDup (map fst (outcomes p) ++ callbacks p)
  /\ forall id, id ∈ ids <-> id ∈ map fst (outcomes p) ++ callbacks p.

Lemma elem_of_forget x id l : x ∈ forget id l <-> x ∈ l /\ x <> id.
Proof.
  unfold forget. induction l as [|y l IH]; [split; [intros []%elem_of_nil|intros [[]%elem_of_nil _]]|].
  cbn [List.filter]. rewrite elem_of_cons. case_bool_decide; cbn [negb]; [|rewrite elem_of_cons];
    rewrite IH; subst; intuition congruence.
Qed.

Lemma NoDup_forget id l : NoDup l -> NoDup (forget id l).
Proof.
  unfold forget. induction l as [|y l IH]; [done|]. cbn [List.filter]. rewrite NoDup_cons. intros [H1 H2].
  case_bool_decide; cbn [negb]; [by apply IH|]. apply NoDup_cons. split; [|by apply IH].
  fold (forget id l). rewrite elem_of_forget. tauto.
Qed.

Lemma settle_inv ids id o p : provider_inv ids p -> provider_inv ids (settle id o p).
Proof.
  intros [H1 H2]. unfold settle. case_bool_decide as Hin; [|done].
  unfold provider_inv. cbn [outcomes callbacks]. rewrite map_app. cbn [map fst].
  apply NoDup_app in H1 as (N1 & N2 & N3). split.
  - apply NoDup_app. split; [|split].
    + apply NoDup_app. split; [done|]. split; [|apply NoDup_singleton].
      intros x Hx ->%list_elem_of_singleton. by apply (N2 id).
    + intros x Hx. rewrite elem_of_forget. apply elem_of_app in Hx as [Hx|Hx%list_elem_of_singleton].
      * intros [Hc _]. by apply (N2 x).
      * tauto.
    + by apply NoDup_forget.
  - intros x. rewrite H2, !elem_of_app, list_elem_of_singleton, elem_of_forget.
    destruct (decide (x = id)) as [-> |]; tauto.
Qed.

Lemma provider_run es p ids :
  NoDup (ids ++ called es) -> provider_inv ids p -> provider_inv (ids ++ called es) (foldl provider_step p es).
Proof.
  revert p ids. induction es as [|e es IH]; intros p ids Hn Hp; cbn [foldl called]; [by rewrite app_nil_r|].
  destruct e as [id c|own d|id]; cbn [omap list_omap provider_step] in *.
  - change (called (Call id c :: es)) with ([id] ++ called es) in *. rewrite app_assoc in Hn |- *.
    pose proof Hn as Hn'.
    apply IH; [done|]. destruct Hp as [H1 H2]. unfold provider_inv, sendToBackground. cbn [fst outcomes callbacks].
    assert (id ∉ map fst (outcomes p) ++ callbacks p) as Hf.
    { rewrite <- H2. intros Hx. apply NoDup_app in Hn' as (Hn' & _). apply NoDup_app in Hn' as (_ & Hd & _).
      by apply (Hd id Hx), list_elem_of_singleton. }
    rewrite bool_decide_eq_false_2 by (rewrite elem_of_app in Hf; tauto). rewrite app_assoc. split.
    + apply NoDup_app. split; [done|]. split; [|apply NoDup_singleton].
      by intros x Hx ->%list_elem_of_singleton.
    + intros x. rewrite !elem_of_app, list_elem_of_singleton, H2, elem_of_app. tauto.
  - apply IH; [done|]. unfold on_response. destruct own; cbn [negb]; [|done].
    destruct d as [id c|id r e|]; [done| |done]. by apply settle_inv.
  - apply IH; [done|]. by apply settle_inv.
Qed.

(** C19. Whatever messages, timeouts and calls a page sees, in whatever order, as
    long as the identifiers of its calls differ: no call settles twice, only calls
    that were made settle, and a call is either settled or still in the callback
    table. *)
Theorem provider_settles_once (es : list provider_event) :
  NoDup (called es) ->
  let p := foldl provider_step provider_init es in
  NoDup (map fst (outcomes p)) /\ NoDup (callbacks p)
  /\ forall id, id ∈ called es <->
       (id ∈ map fst (outcomes p) /\ id ∉ callbacks p) \/ (id ∈ callbacks p /\ id ∉ map fst (outcomes p)).
Proof.
  intros Hn p.
  assert (provider_inv [] provider_init) as H0 by (split; [constructor|done]).
  destruct (provider_run es provider_init [] Hn H0) as [H1 H2].
  cbn [app] in H2. fold p in H1, H2. apply NoDup_app in H1 as (N1 & N2 & N3).
  split; [done|]. split; [done|]. intros id. rewrite H2, elem_of_app. specialize (N2 id). tauto.
Qed.

Lemma provider_settles_once_witness :
  let es := [Call (js "a") getAccounts; Call (js "b") requestAccounts;
             Message true (GARUDA_RESPONSE (js "b") None None); Timeout (js "b"); Timeout (js "a")] in
  NoDup (map fst (outcomes (foldl provider_step provider_init es))).
Proof. intros es. apply (provider_settles_once es). by apply (bool_decide_unpack _); vm_compute. Defined.

(** ** A call from the page to the worker and back *)

(** The provider receives what the content script posts. *)
Definition deliver (os : list output) (p : provider) : provider :=
  foldl (fun p o => match o with ToPage d => on_response true d p | ToWorker _ => p end) p os.

Lemma settle_called id c o p :
  id ∉ callbacks p ->
  settle id o (sendToBackground id c p).1
  = {| callbacks := callbacks p; outcomes := outcomes p ++ [(id, o)] |}.
Proof.
  intros H. unfold sendToBackground, settle. cbn [fst callbacks outcomes].
  rewrite (bool_decide_eq_false_2 _ H).
  rewrite bool_decide_eq_true_2 by (apply elem_of_app; right; by apply list_elem_of_singleton).
  f_equal. unfold forget. rewrite List.filter_app. cbn [List.filter].
  rewrite bool_decide_eq_true_2 by done. cbn [negb]. rewrite app_nil_r.
  fold (forget id (callbacks p)). induction (callbacks p) as [|x l IH]; [done|].
  unfold forget. cbn [List.filter]. rewrite bool_decide_eq_false_2 by (intros ->; apply H; left).
  cbn [negb]. f_equal. apply IH. intros Hx. apply H. by right.
Qed.

Lemma approval_once id r st :
  let '(st1, _) := on_approval_result id r st in on_approval_result id r st1 = (st1, []).
Proof.
  unfold on_approval_result. case_bool_decide as H; [|by rewrite bool_decide_eq_false_2].
  cbn [waiting]. rewrite bool_decide_eq_false_2; [done|].
  fold (forget id (waiting st)). rewrite elem_of_forget. tauto.
Qed.

(** A call made through the provider, of any method whatever, reaches the
    worker with the page's origin and the call's identifier and nothing removed;
    an immediate reply settles exactly this call with the worker's result; a
    reply that asks to wait leaves it open, the approval result later settles it,
    and a second approval result for it is dropped. *)
Theorem page_call_relayed (origin id : jsstr) (c : call) (p : provider) (st : content) :
  id ∉ callbacks p ->
  let '(p1, d) := sendToBackground id c p in
  let done o := {| callbacks := callbacks p; outcomes := outcomes p ++ [(id, o)] |} in
  on_window_message origin true true None d = [ToWorker {| m_call := c; m_id := Some id; m_origin := Some origin |}]
  /\ (forall r, deliver (on_worker_reply id (Reply (Result r)) st).2 p1 = done (inl (Some r)))
  /\ (forall e, e <> [] -> deliver (on_worker_reply id (Failed e) st).2 p1 = done (inr e))
  /\ (on_worker_reply id (Reply Waiting) st).2 = []
  /\ forall r, r <> inr [] ->
       let st1 := (on_worker_reply id (Reply Waiting) st).1 in
       let '(st2, os) := on_approval_result id r st1 in
       deliver os p1 = done (match r with inl x => inl (Some x) | inr e => inr e end)
       /\ on_approval_result id r st2 = (st2, []).
Proof.
  intros H. destruct (sendToBackground id c p) as [p1 d] eqn:E.
  assert (p1 = (sendToBackground id c p).1) as -> by (by rewrite E).
  assert (d = GARUDA_REQUEST id c) as -> by (injection E; congruence). intros done.
  split; [reflexivity|]. split; [intros r; by apply settle_called|].
  split; [intros [|x e] He; [congruence|by apply settle_called]|]. split; [reflexivity|].
  intros r Hr st1. pose proof (approval_once id r st1) as Hd.
  destruct (on_approval_result id r st1) as [st2 os] eqn:E2. split; [|assumption].
  revert E2. unfold on_approval_result. rewrite bool_decide_eq_true_2 by (subst st1; cbn [fst on_worker_reply waiting]; left).
  intros [= _ <-]. cbn [deliver foldl on_response negb].
  destruct r as [x|[|y e]]; [|congruence|]; by apply settle_called.
Qed.

Lemma page_call_relayed_witness :
  on_window_message (js "https://a.example") true true None
    (sendToBackground (js "1") (wallet_sendNative (js "grd1x") 5) provider_init).2
  = [ToWorker {| m_call := wallet_sendNative (js "grd1x") 5; m_id := Some (js "1");
                 m_origin := Some (js "https://a.example") |}].
Proof.
  apply (page_call_relayed (js "https://a.example") (js "1") (wallet_sendNative (js "grd1x") 5) provider_init {| waiting := [] |}).
  by apply (bool_decide_unpack _); vm_compute.
Defined.
