(* ===== verification/Store.v ===== *)
(** * The mobile application's world

    The mobile wallet keeps text under keys in two stores, the device's secure
    store and AsyncStorage, talks to the node's API with [fetch] and reads the
    clock. The stores are packages outside the repository: they are the interface
    [KV]. A computation is a function of the world that returns the world it
    leaves, also when it throws. *)

From stdpp Require Import gmap.
From S2P Require Import Prelude JsText Amounts.
Local Open Scope Z_scope.

(** ** Key-value stores *)

Class KV := {
  kv : Type;
  getItem : kv -> jsstr -> option jsstr;
  setItem : kv -> jsstr -> jsstr -> kv;
  removeItem : kv -> jsstr -> kv
}.

(** What both packages document: a read gives the last value written. *)
Class KVLaws (K : KV) := {
  get_set : forall s k v, getItem (setItem s k v) k = Some v;
  get_set_ne : forall s k k' v, k <> k' -> getItem (setItem s k v) k' = getItem s k';
  get_remove : forall s k, getItem (removeItem s k) k = None;
  get_remove_ne : forall s k k', k <> k' -> getItem (removeItem s k) k' = getItem s k'
}.

Definition map_kv : KV := {|
  kv := gmap (list Z) (list Z);
  getItem s k := s !! k;
  setItem s k v := <[k := v]> s;
  removeItem s k := delete k s
|}.

#[export] Instance map_kv_laws : KVLaws map_kv.
Proof.
  split; cbn; intros.
  - by rewrite lookup_insert_eq.
  - by rewrite lookup_insert_ne.
  - by rewrite lookup_delete_eq.
  - by rewrite lookup_delete_ne.
Qed.

(** ** Values of the API *)

Local Set Warnings "-register-all".

(** A JavaScript value as [JSON.parse] and object literals make them; numbers are
    doubles. *)
Inductive val : Type :=
| VUndef
| VNull
| VBool (b : bool)
| VNum (n : double)
| VStr (s : jsstr)
| VArr (l : list val)
| VObj (fields : list (jsstr * val)).

Record http_request := { h_path : jsstr; h_method : jsstr; h_body : option val }.

(** A reply: the promise of [fetch] rejects, or there is a response whose body
    reads as text and parses as JSON, or fails to. *)
Inductive http_reply :=
| Rejected (e : jsstr)
| Response (status : Z) (statusText : jsstr) (text : option jsstr) (json : val + jsstr).

(** ** The world *)

Section World.
Context {K : KV}.

Record world := {
  web : bool;
  secure : kv;
  async : kv;
  replies : list http_reply;
  requests : list http_request;
  clock : Z
}.

Definition IO (A : Type) : Type := world -> world * (A + jsstr).

Definition ret {A} (a : A) : IO A := fun w => (w, inl a).
Definition throw {A} (e : jsstr) : IO A := fun w => (w, inr e).
Definition bind {A B} (m : IO A) (k : A -> IO B) : IO B :=
  fun w => match m w with (w', inl a) => k a w' | (w', inr e) => (w', inr e) end.

(** [try { m } catch (e) { h }] *)
Definition try {A} (m : IO A) (h : jsstr -> IO A) : IO A :=
  fun w => match m w with (w', inr e) => h e w' | r => r end.

Definition gets {A} (f : world -> A) : IO A := fun w => (w, inl (f w)).

Definition set_secure (s : kv) (w : world) : world :=
  {| web := web w; secure := s; async := async w; replies := replies w; requests := requests w; clock := clock w |}.
Definition set_async (s : kv) (w : world) : world :=
  {| web := web w; secure := secure w; async := s; replies := replies w; requests := requests w; clock := clock w |}.

(** AsyncStorage *)
Definition asyncGet (k : jsstr) : IO (option jsstr) := gets (fun w => getItem (async w) k).
Definition asyncSet (k v : jsstr) : IO unit := fun w => (set_async (setItem (async w) k v) w, inl tt).
Definition asyncRemove (k : jsstr) : IO unit := fun w => (set_async (removeItem (async w) k) w, inl tt).

(** SecureStore *)
Definition secureStoreGet (k : jsstr) : IO (option jsstr) := gets (fun w => getItem (secure w) k).
Definition secureStoreSet (k v : jsstr) : IO unit := fun w => (set_secure (setItem (secure w) k v) w, inl tt).
Definition secureStoreDelete (k : jsstr) : IO unit := fun w => (set_secure (removeItem (secure w) k) w, inl tt).

(** [fetch]: the next reply, and the request on record; no reply left stands for
    a network that is down. *)
Definition fetch (q : http_request) : IO http_reply :=
  fun w => let w' rs := {| web := web w; secure := secure w; async := async w; replies := rs;
                           requests := requests w ++ [q]; clock := clock w |} in
           match replies w with
           | r :: rs => (w' rs, inl r)
           | [] => (w' [], inl (Rejected (js "Network request failed")))
           end.
End World.
Arguments world K : clear implicits.

Declare Scope io_scope.
Delimit Scope io_scope with io.
Notation "'let!' x := m 'in' k" := (bind m (fun x => k))
  (at level 10, x pattern, m at level 100, k at level 200) : io_scope.
Notation "m ;;! k" := (bind m (fun _ => k)) (at level 100, right associativity) : io_scope.

(** A value that counts as true. *)
Definition text_truthy (o : option jsstr) : bool := match o with Some (_ :: _) => true | _ => false end.

Definition vtruthy (v : val) : bool :=
  match v with
  | VUndef | VNull => false
  | VBool b => b
  | VNum n => negb (dsign n =? 0)
  | VStr s => match s with [] => false | _ => true end
  | VArr _ | VObj _ => true
  end.

(** [v[k]]; a property of [undefined] or [null] is a TypeError, of another value
    without that property [undefined]. *)
Fixpoint vlookup (fs : list (jsstr * val)) (k : jsstr) : val :=
  match fs with
  | [] => VUndef
  | (k', v) :: fs => if bool_decide (k = k') then v else vlookup fs k
  end.

Definition vprop (v : val) (k : jsstr) : val := match v with VObj fs => vlookup fs k | _ => VUndef end.

Definition vfield {K : KV} (v : val) (k : jsstr) : IO val :=
  match v with
  | VUndef | VNull => throw (js "TypeError")
  | _ => ret (vprop v k)
  end.

(** [a ?? b] *)
Definition vor (a b : val) : val := match a with VUndef | VNull => b | _ => a end.
