(* ===== verification/WalletStorage.v ===== *)
(** * The mobile wallet's storage

    src/mobile/utils/wallet-storage.ts. Operations run on the world of Store.v;
    the abstract wallet they implement is the record [StoredWallet] itself with
    list operations, and WalletProofs.v relates the two. *)

From stdpp Require Import gmap.
From S2P Require Import Prelude JsText Bytes Keys Utf8 Json Vault Store.
Local Open Scope Z_scope.
Local Open Scope io_scope.

(** ** Keys *)

Definition MNEMONIC : jsstr := Eval vm_compute in js "garuda_wallet_mnemonic".
Definition ADDRESS : jsstr := Eval vm_compute in js "garuda_wallet_address".
Definition ACCOUNTS : jsstr := Eval vm_compute in js "garuda_accounts_list".
Definition QUANTUM_ADDRESS : jsstr := Eval vm_compute in js "garuda_quantum_address".
Definition WALLET_EXISTS : jsstr := Eval vm_compute in js "garuda_wallet_exists".
Definition PASSWORD_HASH : jsstr := Eval vm_compute in js "garuda_password_hash".
Definition PASSWORD_SALT : jsstr := Eval vm_compute in js "garuda_password_salt".
Definition ACTIVE : jsstr := Eval vm_compute in js "garuda_active_account_id".
Definition TRUE : jsstr := Eval vm_compute in js "true".
Definition imported_key (accountId : jsstr) : jsstr := js "garuda_imported_key_" ++ accountId.

(** ** Accounts *)

Record WalletAccount := {
  w_id : jsstr;
  w_name : jsstr;
  w_address : jsstr;
  w_publicKey : jsstr;
  w_accountIndex : Z;
  w_quantumAddress : option jsstr
}.

Record StoredWallet := {
  mnemonic : jsstr;
  accounts : list WalletAccount;
  activeAccountId : jsstr
}.

(** A property that is [undefined] is not printed. *)
Definition wallet_account_json (a : WalletAccount) : json :=
  JObj ([(js "id", JStr (w_id a)); (js "name", JStr (w_name a)); (js "address", JStr (w_address a));
         (js "publicKey", JStr (w_publicKey a)); (js "accountIndex", JNum (w_accountIndex a))]
        ++ match w_quantumAddress a with Some q => [(js "quantumAddress", JStr q)] | None => [] end).

Definition wallet_account_of (j : json) : option WalletAccount :=
  fs ← as_obj (Some j);
  id ← as_str (field fs (js "id")); name ← as_str (field fs (js "name")); addr ← as_str (field fs (js "address"));
  pk ← as_str (field fs (js "publicKey")); i ← as_num (field fs (js "accountIndex"));
  q ← match field fs (js "quantumAddress") with
      | None => Some None
      | Some j => Some <$> as_str (Some j)
      end;
  Some {| w_id := id; w_name := name; w_address := addr; w_publicKey := pk; w_accountIndex := i;
          w_quantumAddress := q |}.

Definition print_accounts (l : list WalletAccount) : jsstr := stringify (JArr (map wallet_account_json l)).

(** [accountsJson ? JSON.parse(accountsJson) : []], on lists of accounts. *)
Definition parse_accounts (o : option jsstr) : option (list WalletAccount) :=
  if text_truthy o then
    j ← json_parse (default [] o); l ← as_arr (Some j); mapM wallet_account_of l
  else Some [].

Section Operations.
Context {K : KV} {C : Crypto}.

Definition secureSet (key value : jsstr) : IO unit :=
  let! web := gets web in if (web : bool) then asyncSet key value else secureStoreSet key value.

Definition secureGet (key : jsstr) : IO (option jsstr) :=
  let! web := gets web in if (web : bool) then asyncGet key else secureStoreGet key.

Definition secureDelete (key : jsstr) : IO unit :=
  let! web := gets web in if (web : bool) then asyncRemove key else secureStoreDelete key.

Definition read_accounts : IO (list WalletAccount) :=
  let! accountsJson := secureGet ACCOUNTS in
  match parse_accounts accountsJson with Some l => ret l | None => throw (js "SyntaxError") end.

Definition saveWallet (mnemonic : jsstr) (firstAccount : WalletAccount) : IO unit :=
  secureSet MNEMONIC mnemonic ;;!
  secureSet ACCOUNTS (print_accounts [firstAccount]) ;;!
  secureSet ADDRESS (w_address firstAccount) ;;!
  asyncSet ACTIVE (w_id firstAccount) ;;!
  secureSet WALLET_EXISTS TRUE.

(** [activeAccountId || accounts[0]?.id || ""] *)
Definition active_or_first (active : option jsstr) (l : list WalletAccount) : jsstr :=
  if text_truthy active then default [] active else default [] (w_id <$> head l).

Definition loadWallet : IO (option StoredWallet) :=
  try (let! exists_ := secureGet WALLET_EXISTS in
       if negb (text_truthy exists_) then ret None else
       let! mnemonic := secureGet MNEMONIC in
       if negb (text_truthy mnemonic) then ret None else
       let! accounts := read_accounts in
       let! active := asyncGet ACTIVE in
       ret (Some {| mnemonic := default [] mnemonic; accounts := accounts;
                    activeAccountId := active_or_first active accounts |}))
    (fun _ => ret None).

Definition hasWallet : IO bool :=
  let! exists_ := secureGet WALLET_EXISTS in ret (bool_decide (exists_ = Some TRUE)).

(** [accounts.find(a => a.id === id)] *)
Definition find_id (id : jsstr) (l : list WalletAccount) : option WalletAccount :=
  List.find (fun a => bool_decide (w_id a = id)) l.

Definition getActiveAccount : IO (option WalletAccount) :=
  try (let! wallet := loadWallet in
       match wallet with
       | None => ret None
       | Some w => ret (match find_id (activeAccountId w) (accounts w) with
                        | Some a => Some a
                        | None => head (accounts w)
                        end)
       end)
    (fun _ => ret None).

Definition getMnemonic : IO (option jsstr) := secureGet MNEMONIC.

Definition addAccount (account : WalletAccount) : IO unit :=
  let! accounts := read_accounts in
  secureSet ACCOUNTS (print_accounts (accounts ++ [account])).

Definition setActiveAccount (accountId : jsstr) : IO unit := asyncSet ACTIVE accountId.

Definition rename (newName : jsstr) (a : WalletAccount) : WalletAccount :=
  {| w_id := w_id a; w_name := newName; w_address := w_address a; w_publicKey := w_publicKey a;
     w_accountIndex := w_accountIndex a; w_quantumAddress := w_quantumAddress a |}.

(** Rename the first account of that id; [None] when there is none. *)
Fixpoint rename_first (accountId newName : jsstr) (l : list WalletAccount) : option (list WalletAccount) :=
  match l with
  | [] => None
  | a :: l => if bool_decide (w_id a = accountId) then Some (rename newName a :: l)
              else l' ← rename_first accountId newName l; Some (a :: l')
  end.

Definition updateAccountName (accountId newName : jsstr) : IO unit :=
  let! accounts := read_accounts in
  match rename_first accountId newName accounts with
  | Some l => secureSet ACCOUNTS (print_accounts l)
  | None => ret tt
  end.

Definition removeAccount (accountId : jsstr) : IO unit :=
  let! accounts := read_accounts in
  if (length accounts <=? 1)%nat then ret tt else
  let remaining := List.filter (fun a => negb (bool_decide (w_id a = accountId))) accounts in
  secureSet ACCOUNTS (print_accounts remaining) ;;!
  let! activeId := asyncGet ACTIVE in
  if bool_decide (activeId = Some accountId) then
    match remaining with
    | a :: _ => asyncSet ACTIVE (w_id a)
    | [] => throw (js "TypeError")
    end
  else ret tt.

(** ** Password *)

(** SHA-256 of the bytes, hashed again 99999 times. *)
Definition stretch (combined : list Z) : list Z := N.iter 99999 sha256 (sha256 combined).

Definition stretchPassword (password saltHex : jsstr) : IO jsstr :=
  match hex_pairs saltHex with
  | [] => throw (js "TypeError")
  | ps =>
      let saltBytes := map (fun h => uint8 (default 0 (parseInt h 16))) ps in
      let combined := utf8_encode password ++ saltBytes in
      ret (toHex (stretch combined))
  end.

(** [random] is what [crypto.getRandomValues] draws. *)
Definition savePasswordHash (random : list Z) (password : jsstr) : IO unit :=
  let saltHex := toHex random in
  let! hashHex := stretchPassword password saltHex in
  secureSet PASSWORD_SALT saltHex ;;!
  secureSet PASSWORD_HASH hashHex.

Definition verifyPassword (password : jsstr) : IO bool :=
  let! saltHex := secureGet PASSWORD_SALT in
  let! stored := secureGet PASSWORD_HASH in
  if negb (text_truthy saltHex) || negb (text_truthy stored) then ret false else
  let! hashHex := stretchPassword password (default [] saltHex) in
  ret (bool_decide (Some hashHex = stored)).

Definition hasPassword : IO bool := let! h := secureGet PASSWORD_HASH in ret (text_truthy h).

Definition saveQuantumAddress (address : jsstr) : IO unit := secureSet QUANTUM_ADDRESS address.
Definition getQuantumAddress : IO (option jsstr) := secureGet QUANTUM_ADDRESS.
Definition saveImportedKey (accountId privateKeyHex : jsstr) : IO unit :=
  secureSet (imported_key accountId) privateKeyHex.
Definition getImportedKey (accountId : jsstr) : IO (option jsstr) := secureGet (imported_key accountId).

Definition clearWallet : IO unit :=
  secureDelete MNEMONIC ;;!
  secureDelete ACCOUNTS ;;!
  secureDelete ADDRESS ;;!
  secureDelete QUANTUM_ADDRESS ;;!
  secureDelete PASSWORD_HASH ;;!
  secureDelete PASSWORD_SALT ;;!
  secureDelete WALLET_EXISTS ;;!
  asyncRemove ACTIVE.
End Operations.
