(* ===== verification/WalletProofs.v ===== *)
(** * Correctness of the mobile wallet's storage

    The operations of WalletStorage.v refine list operations on the abstract
    wallet [StoredWallet], whatever the platform and the rest of the stores. *)

From stdpp Require Import gmap.
From S2P Require Import Prelude JsText Bytes Keys Utf8 Json Vault Store WalletStorage.
Local Open Scope Z_scope.
Local Open Scope io_scope.

(** ** Running operations *)

Section Views.
Context {K : KV}.

(** What the wallet's reads see in a world. *)
Definition sget (w : world K) (k : jsstr) : option jsstr := getItem (if web w then async w else secure w) k.
Definition aget (w : world K) (k : jsstr) : option jsstr := getItem (async w) k.

Definition sset (k v : jsstr) (w : world K) : world K :=
  if web w then set_async (setItem (async w) k v) w else set_secure (setItem (secure w) k v) w.
Definition aset (k v : jsstr) (w : world K) : world K := set_async (setItem (async w) k v) w.
Definition sdel (k : jsstr) (w : world K) : world K :=
  if web w then set_async (removeItem (async w) k) w else set_secure (removeItem (secure w) k) w.
Definition adel (k : jsstr) (w : world K) : world K := set_async (removeItem (async w) k) w.

Lemma run_secureGet k w : secureGet k w = (w, inl (sget w k)).
Proof. unfold secureGet, sget, bind, gets. by destruct (web w). Qed.
Lemma run_secureSet k v w : secureSet k v w = (sset k v w, inl tt).
Proof. unfold secureSet, sset, bind, gets. by destruct (web w). Qed.
Lemma run_secureDelete k w : secureDelete k w = (sdel k w, inl tt).
Proof. unfold secureDelete, sdel, bind, gets. by destruct (web w). Qed.
Lemma run_asyncGet k w : asyncGet k w = (w, inl (aget w k)).
Proof. done. Qed.
Lemma run_asyncSet k v w : asyncSet k v w = (aset k v w, inl tt).
Proof. done. Qed.
Lemma run_asyncRemove k w : asyncRemove k w = (adel k w, inl tt).
Proof. done. Qed.

Lemma bind_inl {A B} (m : IO A) (k : A -> IO B) (w w' : world K) a :
  m w = (w', inl a) -> bind m k w = k a w'.
Proof. intros H. unfold bind. by rewrite H. Qed.

Lemma bind_inr {A B} (m : IO A) (k : A -> IO B) (w w' : world K) e :
  m w = (w', inr e) -> bind m k w = (w', inr e).
Proof. intros H. unfold bind. by rewrite H. Qed.

Lemma try_inl {A} (m : IO A) h (w w' : world K) a : m w = (w', inl a) -> try m h w = (w', inl a).
Proof. intros H. unfold try. by rewrite H. Qed.

Context {L : KVLaws K}.

Lemma sget_sset k v w : sget (sset k v w) k = Some v.
Proof. unfold sget, sset. destruct (web w) eqn:E; cbn; rewrite E; apply get_set. Qed.
Lemma sget_sset_ne k k' v w : k <> k' -> sget (sset k v w) k' = sget w k'.
Proof. intros. unfold sget, sset. destruct (web w) eqn:E; cbn; rewrite E; by apply get_set_ne. Qed.
Lemma sget_aset_ne k k' v w : k <> k' -> sget (aset k v w) k' = sget w k'.
Proof. intros. unfold sget, aset. cbn. destruct (web w); [by apply get_set_ne|done]. Qed.
Lemma aget_aset k v w : aget (aset k v w) k = Some v.
Proof. apply get_set. Qed.
Lemma aget_sset_ne k k' v w : k <> k' -> aget (sset k v w) k' = aget w k'.
Proof. intros. unfold aget, sset. destruct (web w); cbn; [by apply get_set_ne|done]. Qed.
Lemma sget_sdel k w : sget (sdel k w) k = None.
Proof. unfold sget, sdel. destruct (web w) eqn:E; cbn; rewrite E; apply get_remove. Qed.
Lemma sget_sdel_ne k k' w : k <> k' -> sget (sdel k w) k' = sget w k'.
Proof. intros. unfold sget, sdel. destruct (web w) eqn:E; cbn; rewrite E; by apply get_remove_ne. Qed.
Lemma sget_adel_ne k k' w : k <> k' -> sget (adel k w) k' = sget w k'.
Proof. intros. unfold sget, adel. cbn. destruct (web w); [by apply get_remove_ne|done]. Qed.
End Views.

(** Read through the writes: the keys are different constants. *)
Ltac key_ne := let H := fresh in intros H; vm_compute in H; discriminate H.

Ltac reads :=
  repeat first
    [ rewrite sget_sset | rewrite aget_aset | rewrite sget_sdel
    | rewrite sget_sset_ne by key_ne | rewrite sget_aset_ne by key_ne | rewrite aget_sset_ne by key_ne
    | rewrite sget_sdel_ne by key_ne | rewrite sget_adel_ne by key_ne ].

Ltac runs :=
  repeat first
    [ rewrite run_secureGet | rewrite run_secureSet | rewrite run_secureDelete
    | rewrite run_asyncGet | rewrite run_asyncSet | rewrite run_asyncRemove
    | erewrite bind_inl by (first [apply run_secureGet | apply run_secureSet | apply run_secureDelete
        | apply run_asyncGet | apply run_asyncSet | apply run_asyncRemove | reflexivity]) ].

(** ** Accounts as text *)

Definition account_text (a : WalletAccount) : bool :=
  units (w_id a) && units (w_name a) && units (w_address a) && units (w_publicKey a)
  && match w_quantumAddress a with Some q => units q | None => true end.

Lemma wallet_account_roundtrip a : wallet_account_of (wallet_account_json a) = Some a.
Proof. destruct a as [i n ad p ix [q|]]; reflexivity. Qed.

Lemma parse_print l :
  forallb account_text l = true -> parse_accounts (Some (print_accounts l)) = Some l.
Proof.
  intros Hl. unfold parse_accounts, print_accounts.
  assert (json_ok (JArr (map wallet_account_json l)) = true) as Hok.
  { cbn [json_ok]. rewrite forallb_map, forallb_forall in *. intros a Ha. specialize (Hl a Ha).
    unfold account_text in Hl. rewrite !andb_true_iff in Hl. destruct Hl as [[[[A1 A2] A3] A4] A5].
    destruct a as [i n ad p ix [q|]]; cbn [w_id w_name w_address w_publicKey w_quantumAddress] in *;
      cbn [wallet_account_json json_ok forallb fst snd w_id w_name w_address w_publicKey w_quantumAddress
           w_accountIndex app]; by rewrite A1, A2, A3, A4, ?A5. }
  assert (text_truthy (Some (stringify (JArr (map wallet_account_json l)))) = true) as -> by done.
  change (default [] (Some ?x)) with x. rewrite json_parse_stringify by done. cbn [mbind option_bind as_arr].
  by apply mapM_map_some, wallet_account_roundtrip.
Qed.

(** ** The abstract wallet *)

Inductive wop :=
| AddAccount (a : WalletAccount)
| SetActive (id : jsstr)
| Rename (id name : jsstr)
| Remove (id : jsstr).

Definition ids (w : StoredWallet) : list jsstr := map w_id (accounts w).

Definition without (id : jsstr) (l : list WalletAccount) : list WalletAccount :=
  List.filter (fun a => negb (bool_decide (w_id a = id))) l.

Definition spec_op (op : wop) (w : StoredWallet) : StoredWallet :=
  match op with
  | AddAccount a => {| mnemonic := mnemonic w; accounts := accounts w ++ [a]; activeAccountId := activeAccountId w |}
  | SetActive id => {| mnemonic := mnemonic w; accounts := accounts w; activeAccountId := id |}
  | Rename id name =>
      {| mnemonic := mnemonic w;
         accounts := map (fun a => if bool_decide (w_id a = id) then rename name a else a) (accounts w);
         activeAccountId := activeAccountId w |}
  | Remove id =>
      if (length (accounts w) <=? 1)%nat then w else
      {| mnemonic := mnemonic w; accounts := without id (accounts w);
         activeAccountId := if bool_decide (activeAccountId w = id)
                            then default [] (w_id <$> head (without id (accounts w))) else activeAccountId w |}
  end.

Definition account_good (a : WalletAccount) : bool := account_text a && negb (bool_decide (w_id a = [])).

Definition wallet_good (w : StoredWallet) : Prop :=
  mnemonic w <> [] /\ accounts w <> [] /\ forallb account_good (accounts w) = true /\ NoDup (ids w)
  /\ activeAccountId w <> [].

Definition op_good (op : wop) (w : StoredWallet) : Prop :=
  match op with
  | AddAccount a => account_good a = true /\ w_id a ∉ ids w
  | SetActive id => id <> []
  | Rename _ name => units name = true
  | Remove _ => True
  end.

Fixpoint ops_good (ops : list wop) (w : StoredWallet) : Prop :=
  match ops with
  | [] => True
  | op :: ops => op_good op w /\ ops_good ops (spec_op op w)
  end.

#[export] Instance op_good_dec op w : Decision (op_good op w).
Proof. destruct op; cbn; apply _. Defined.
#[export] Instance ops_good_dec ops w : Decision (ops_good ops w).
Proof. revert w. induction ops as [|op ops IH]; intros w; cbn; apply _. Defined.

(** ** List facts *)

Lemma without_ids id l : map w_id (without id l) = List.filter (fun i => negb (bool_decide (i = id))) (map w_id l).
Proof.
  induction l as [|a l IH]; [done|]. cbn [map without List.filter]. case_bool_decide; cbn [negb map]; [done|].
  f_equal. exact IH.
Qed.

Lemma NoDup_keep (f : jsstr -> bool) (l : list jsstr) : NoDup l -> NoDup (List.filter f l).
Proof. rewrite !NoDup_ListNoDup. apply List.NoDup_filter. Qed.

Lemma without_nonempty id l : NoDup (map w_id l) -> (1 < length l)%nat -> without id l <> [].
Proof.
  destruct l as [|a [|b l]]; cbn [length]; [lia|lia|]. intros Hn _. cbn [map] in Hn.
  apply NoDup_cons in Hn as [Hn _]. unfold without. cbn [List.filter].
  repeat case_bool_decide; cbn [negb]; try done. exfalso. apply Hn. apply elem_of_cons. left. congruence.
Qed.

Lemma rename_first_spec id name l :
  NoDup (map w_id l) ->
  match rename_first id name l with
  | Some l' => l' = map (fun a => if bool_decide (w_id a = id) then rename name a else a) l
  | None => map (fun a => if bool_decide (w_id a = id) then rename name a else a) l = l
  end.
Proof.
  induction l as [|a l IH]; [done|]. cbn [map rename_first]. intros [Ha Hn]%NoDup_cons. specialize (IH Hn).
  case_bool_decide as E.
  - f_equal. rewrite <- (map_id l) at 1. apply map_ext_in. intros b Hb. subst id. rewrite bool_decide_eq_false_2; [done|].
    intros Eb. apply Ha. rewrite <- Eb. apply list_elem_of_In. by apply in_map.
  - destruct (rename_first id name l) as [l'|]; cbn [mbind option_bind]; by rewrite IH.
Qed.

Lemma rename_ids id name l :
  map w_id (map (fun a => if bool_decide (w_id a = id) then rename name a else a) l) = map w_id l.
Proof. rewrite map_map. apply map_ext. intros a. by case_bool_decide. Qed.

(** ** Refinement *)

Section Refinement.
Context {K : KV} {L : KVLaws K}.

Definition run_op (op : wop) : IO unit :=
  match op with
  | AddAccount a => addAccount a
  | SetActive id => setActiveAccount id
  | Rename id name => updateAccountName id name
  | Remove id => removeAccount id
  end.

Fixpoint run_ops (ops : list wop) : IO unit :=
  match ops with [] => ret tt | op :: ops => run_op op ;;! run_ops ops end.

(** The stores of [W] hold the wallet [w]. *)
Definition holds (W : world K) (w : StoredWallet) : Prop :=
  sget W WALLET_EXISTS = Some TRUE /\ sget W MNEMONIC = Some (mnemonic w)
  /\ sget W ACCOUNTS = Some (print_accounts (accounts w)) /\ aget W ACTIVE = Some (activeAccountId w).

Lemma good_text l : forallb account_good l = true -> forallb account_text l = true.
Proof.
  rewrite !forallb_forall. intros H a Ha. specialize (H a Ha). unfold account_good in H.
  by apply andb_true_iff in H as [].
Qed.

Lemma run_read W w : holds W w -> wallet_good w -> read_accounts W = (W, inl (accounts w)).
Proof.
  intros (_ & _ & Ha & _) (_ & _ & Ht & _). unfold read_accounts. runs. rewrite Ha.
  by rewrite parse_print by by apply good_text.
Qed.

Lemma op_refines op W w :
  holds W w -> wallet_good w -> op_good op w ->
  exists W', run_op op W = (W', inl tt) /\ holds W' (spec_op op w).
Proof.
  intros Hh Hg Ho. pose proof (run_read W w Hh Hg) as Hr. destruct Hh as (H1 & H2 & H3 & H4).
  destruct op as [a|id|id name|id]; cbn [run_op spec_op].
  - unfold addAccount. rewrite (bind_inl _ _ _ _ _ Hr). runs. eexists. split; [done|].
    unfold holds. cbn [mnemonic accounts activeAccountId]. reads. done.
  - eexists. split; [done|]. unfold holds. fold (aset ACTIVE id W). cbn [mnemonic accounts activeAccountId]. reads. done.
  - unfold updateAccountName. rewrite (bind_inl _ _ _ _ _ Hr).
    destruct Hg as (_ & _ & _ & Hn & _). pose proof (rename_first_spec id name (accounts w) Hn) as Hs.
    destruct (rename_first id name (accounts w)) as [l|].
    + runs. eexists. split; [done|]. unfold holds. cbn [mnemonic accounts activeAccountId]. subst l. reads. done.
    + eexists. split; [done|]. unfold holds. cbn [mnemonic accounts activeAccountId]. by rewrite Hs.
  - unfold removeAccount. rewrite (bind_inl _ _ _ _ _ Hr).
    destruct (Nat.leb_spec (length (accounts w)) 1); [by eexists|].
    fold (without id (accounts w)). runs. reads. rewrite H4.
    destruct Hg as (_ & _ & _ & Hn & _). pose proof (without_nonempty id (accounts w) Hn ltac:(lia)) as Hne.
    unfold holds. cbn [mnemonic accounts activeAccountId].
    destruct (decide (activeAccountId w = id)) as [E|E].
    + rewrite !bool_decide_eq_true_2 by congruence. destruct (without id (accounts w)) as [|b l]; [done|].
      runs. eexists. split; [done|]. reads. done.
    + rewrite !bool_decide_eq_false_2 by congruence. eexists. split; [done|]. reads. done.
Qed.
End Refinement.

(** Goodness of the abstract wallet is kept. *)
Lemma spec_op_good op w : wallet_good w -> op_good op w -> wallet_good (spec_op op w).
Proof.
  intros (H1 & H2 & H3 & H4 & H5) Ho. unfold wallet_good, ids in *.
  destruct op as [a|id|id name|id]; cbn [spec_op mnemonic accounts activeAccountId] in *.
  - destruct Ho as [Ha Hf]. split_and_all; try done.
    + by destruct (accounts w).
    + rewrite forallb_app. cbn [forallb]. by rewrite H3, Ha.
    + rewrite map_app. apply NoDup_app. split; [done|]. split; [|apply NoDup_singleton].
      by intros x Hx ->%list_elem_of_singleton.
  - done.
  - split_and_all; try done.
    + by destruct (accounts w).
    + rewrite forallb_map, forallb_forall in *. intros a Ha. specialize (H3 a Ha). case_bool_decide; [|done].
      unfold account_good, account_text in *. destruct a as [ai an ad ap ax aq].
      cbn [rename w_id w_name w_address w_publicKey w_quantumAddress op_good] in *.
      rewrite Ho. by destruct (units ai), (units an).
    + by rewrite rename_ids.
  - destruct (Nat.leb_spec (length (accounts w)) 1); [done|]. cbn [mnemonic accounts activeAccountId].
    pose proof (without_nonempty id (accounts w) H4 ltac:(lia)) as Hne.
    assert (forallb account_good (without id (accounts w)) = true) as Hg.
    { rewrite forallb_forall in *. intros a Ha. apply H3. by apply List.filter_In in Ha as []. }
    split_and_all; try done.
    + rewrite without_ids. by apply NoDup_keep.
    + case_bool_decide; [|done]. destruct (without id (accounts w)) as [|b l]; [done|].
      cbn in Hg |- *. apply andb_true_iff in Hg as [Hg _]. unfold account_good in Hg.
      apply andb_true_iff in Hg as [_ Hg]. by case_bool_decide.
Qed.

Definition first_wallet (m : jsstr) (a : WalletAccount) : StoredWallet :=
  {| mnemonic := m; accounts := [a]; activeAccountId := w_id a |}.

Lemma first_wallet_good m a : m <> [] -> account_good a = true -> wallet_good (first_wallet m a).
Proof.
  intros Hm Ha. unfold wallet_good, ids, first_wallet. cbn [mnemonic accounts activeAccountId map forallb].
  rewrite Ha. split_and_all; try done; [apply NoDup_singleton|].
  unfold account_good in Ha. apply andb_true_iff in Ha as [_ Ha]. by case_bool_decide.
Qed.

(** The pairs of a hexadecimal text are its bytes. *)
Lemma hex_pairs_toHex bs :
  bytes_ok bs -> map (fun h => uint8 (default 0 (parseInt h 16))) (hex_pairs (toHex bs)) = bs.
Proof.
  induction 1 as [|b bs Hb Hbs IH]; [done|]. unfold toHex in *. cbn [map concat].
  pose (f b := match padStart 2 48 (to_string 16 b) with
               | [x; y] => negb (line_end x) && negb (line_end y)
               | _ => false
               end).
  assert (f b = true) as Hf by (apply all_byte_pairs; [vm_compute; reflexivity|done]).
  destruct (hex_byte b Hb) as (x & y & E & Ev). unfold f in Hf. rewrite E in *.
  apply andb_true_iff in Hf as [Hx%negb_true_iff Hy%negb_true_iff].
  cbn [app hex_pairs]. rewrite Hx, Hy. cbn [map]. by rewrite Ev, IH.
Qed.

Lemma toHex_inj a b : bytes_ok a -> bytes_ok b -> toHex a = toHex b -> a = b.
Proof. intros Ha Hb E. by rewrite <- (fromHex_toHex a Ha), <- (fromHex_toHex b Hb), E. Qed.

Section Main.
Context {K : KV} {L : KVLaws K} {C : Crypto}.

Lemma ops_refine ops W w :
  holds W w -> wallet_good w -> ops_good ops w ->
  exists W', run_ops ops W = (W', inl tt) /\ holds W' (foldl (fun w op => spec_op op w) w ops)
    /\ wallet_good (foldl (fun w op => spec_op op w) w ops).
Proof.
  revert W w. induction ops as [|op ops IH]; intros W w Hh Hg Ho; [by exists W|].
  destruct Ho as [Ho Hos]. destruct (op_refines op W w Hh Hg Ho) as (W1 & E1 & Hh1).
  destruct (IH W1 (spec_op op w) Hh1) as (W' & E' & H'); [by apply spec_op_good|done|].
  exists W'. cbn [run_ops foldl]. rewrite (bind_inl _ _ _ _ _ E1). done.
Qed.

Lemma run_save m a W : exists W', saveWallet m a W = (W', inl tt) /\ holds W' (first_wallet m a).
Proof.
  eexists. unfold saveWallet. runs. split; [done|]. unfold holds, first_wallet.
  cbn [mnemonic accounts activeAccountId]. reads. done.
Qed.

Lemma run_load W w : holds W w -> wallet_good w -> loadWallet W = (W, inl (Some w)).
Proof.
  intros Hh Hg. pose proof (run_read W w Hh Hg) as Hr. destruct Hh as (H1 & H2 & H3 & H4).
  destruct Hg as (G1 & _ & _ & _ & G5). apply try_inl. runs. rewrite H1.
  change (negb (text_truthy (Some TRUE))) with false. cbv iota. runs. rewrite H2.
  destruct w as [m accs act]. cbn [mnemonic accounts activeAccountId] in *.
  destruct m as [|x m]; [done|]. cbn [text_truthy negb].
  rewrite (bind_inl _ _ _ _ _ Hr). runs. rewrite H4. unfold active_or_first.
  destruct act as [|y act]; [done|]. reflexivity.
Qed.

Lemma active_found W w a :
  holds W w -> wallet_good w -> find_id (activeAccountId w) (accounts w) = Some a ->
  getActiveAccount W = (W, inl (Some a)).
Proof.
  intros Hh Hg E. unfold getActiveAccount. apply try_inl. rewrite (bind_inl _ _ _ _ _ (run_load W w Hh Hg)).
  by rewrite E.
Qed.

Lemma run_active W w :
  holds W w -> wallet_good w -> exists a, getActiveAccount W = (W, inl (Some a)) /\ a ∈ accounts w
    /\ (activeAccountId w ∈ ids w -> w_id a = activeAccountId w).
Proof.
  intros Hh Hg. pose proof (run_load W w Hh Hg) as Hl. unfold getActiveAccount.
  destruct (find_id (activeAccountId w) (accounts w)) as [a|] eqn:E.
  - apply List.find_some in E as E'. destruct E' as [Hin He].
    exists a. split; [|split].
    + by apply (active_found W w).
    + by apply list_elem_of_In.
    + intros _. by case_bool_decide.
  - destruct (accounts w) as [|a l] eqn:Ea; [by destruct Hg as (_ & Hg & _)|].
    exists a. split; [|split].
    + apply try_inl. rewrite (bind_inl _ _ _ _ _ Hl), Ea, E. done.
    + left.
    + unfold ids. rewrite Ea. intros Hin. exfalso. apply list_elem_of_In, in_map_iff in Hin as (b & Hb & Hin).
      apply (List.find_none _ _ E) in Hin. by case_bool_decide.
Qed.


(** ** Password *)

(** The hash that is stored. *)
Definition stretched (password : jsstr) (salt : list Z) : list Z := stretch (utf8_encode password ++ salt).

Context {CL : CryptoLaws C}.

Lemma iter_sha256 n x : exists y, N.iter n sha256 (sha256 x) = sha256 y.
Proof.
  rewrite <- (N2Nat.id n), N2Nat.inj_iter, Nat2N.id.
  induction (N.to_nat n) as [|k [y IH]]; [by exists x|]. exists (sha256 y). cbn [Nat.iter nat_rect]. f_equal. exact IH.
Qed.

Lemma stretched_bytes p salt : bytes_ok (stretched p salt) /\ length (stretched p salt) = 32%nat.
Proof.
  unfold stretched. unfold stretch. destruct (iter_sha256 99999 (utf8_encode p ++ salt)) as [y ->].
  split; [apply sha256_bytes|apply sha256_length].
Qed.

#[global] Opaque stretch.
Lemma run_stretch p salt W :
  bytes_ok salt -> salt <> [] -> stretchPassword p (toHex salt) W = (W, inl (toHex (stretched p salt))).
Proof.
  intros Hs Hne. pose proof (hex_pairs_toHex salt Hs) as Hp. unfold stretchPassword, stretched.
  destruct (hex_pairs (toHex salt)) as [|h hs]; [by destruct salt|]. unfold ret. by rewrite Hp.
Qed.

Lemma hex_truthy bs : bytes_ok bs -> bs <> [] -> text_truthy (Some (toHex bs)) = true.
Proof.
  intros Hb Hne. pose proof (length_toHex bs Hb). destruct (toHex bs); [|done]. by destruct bs; simpl in *.
Qed.

Lemma stretched_nonempty p salt : stretched p salt <> [].
Proof. intros E. destruct (stretched_bytes p salt) as [_ Hl]. by rewrite E in Hl. Qed.

Lemma run_savePassword salt p W :
  bytes_ok salt -> salt <> [] ->
  savePasswordHash salt p W
  = (sset PASSWORD_HASH (toHex (stretched p salt)) (sset PASSWORD_SALT (toHex salt) W), inl tt).
Proof.
  intros Hs Hne. unfold savePasswordHash. rewrite (bind_inl _ _ _ _ _ (run_stretch p salt W Hs Hne)). by runs.
Qed.

(** The stores of [W] hold the hash of [p]. *)
Definition guarded (W : world K) (salt : list Z) (p : jsstr) : Prop :=
  sget W PASSWORD_SALT = Some (toHex salt) /\ sget W PASSWORD_HASH = Some (toHex (stretched p salt)).

Lemma run_hasPassword W salt p : guarded W salt p -> hasPassword W = (W, inl true).
Proof.
  intros [_ H]. unfold hasPassword. runs. rewrite H. rewrite hex_truthy; [reflexivity|apply stretched_bytes|apply stretched_nonempty].
Qed.

Lemma run_verify W salt p p' :
  guarded W salt p -> bytes_ok salt -> salt <> [] ->
  verifyPassword p' W = (W, inl (bool_decide (stretched p' salt = stretched p salt))).
Proof.
  intros [H1 H2] Hs Hne. unfold verifyPassword. runs. rewrite H1, H2. rewrite hex_truthy by done.
  rewrite hex_truthy; [|apply stretched_bytes|apply stretched_nonempty]. cbn [negb orb].
  change (default [] (Some ?x)) with x. rewrite (bind_inl _ _ _ _ _ (run_stretch p' salt _ Hs Hne)). unfold ret.
  generalize (stretched_bytes p' salt) (stretched_bytes p salt).
  generalize (stretched p' salt) (stretched p salt). intros h' h [Hb' _] [Hb _].
  do 2 f_equal. apply bool_decide_ext. split; [|by intros ->]. intros [= E]. by apply toHex_inj.
Qed.

(** A password opens the wallet exactly when its stretched hash, under the
    stored salt, is that of the password that was set: the same password always
    does, and the answer depends on nothing but the two hashes. *)
Theorem password_verifies (random : list Z) (p p' : jsstr) (W : world K) :
  bytes_ok random -> length random = 32%nat ->
  exists W', savePasswordHash random p W = (W', inl tt) /\ hasPassword W' = (W', inl true)
    /\ verifyPassword p' W' = (W', inl (bool_decide (stretched p' random = stretched p random))).
Proof.
  intros Hr Hl. assert (random <> []) as Hne by by destruct random.
  eexists. split; [by apply run_savePassword|].
  assert (guarded (sset PASSWORD_HASH (toHex (stretched p random)) (sset PASSWORD_SALT (toHex random) W)) random p)
    as Hg by (unfold guarded; reads; split; reflexivity).
  split; [by eapply run_hasPassword|by apply run_verify].
Qed.

Lemma imported_key_ne id k : take 16 k <> js "garuda_imported_" -> k <> imported_key id.
Proof. intros H ->. by apply H. Qed.

(** [clearWallet] does not remove everything: afterwards there is no wallet
    and no password, but the private key of an imported account is still in the
    store, for every account that had one. *)
Theorem clearWallet_keeps_imported_keys (W : world K) (id key : jsstr) :
  sget W (imported_key id) = Some key ->
  exists W', clearWallet W = (W', inl tt)
    /\ loadWallet W' = (W', inl None) /\ hasWallet W' = (W', inl false)
    /\ (forall p, verifyPassword p W' = (W', inl false))
    /\ getImportedKey id W' = (W', inl (Some key)).
Proof.
  intros Hk. eexists. unfold clearWallet. runs. split; [reflexivity|].
  unfold loadWallet, hasWallet, verifyPassword, getImportedKey. split_and_all.
  - apply try_inl. runs. reads. reflexivity.
  - runs. reads. reflexivity.
  - intros p. runs. reads. reflexivity.
  - runs. rewrite sget_adel_ne by (apply imported_key_ne; key_ne).
    do 7 (rewrite sget_sdel_ne by (apply imported_key_ne; key_ne)). by rewrite Hk.
Qed.
End Main.

(** ** Witnesses *)

Definition no_items : @kv map_kv := (∅ : gmap (list Z) (list Z)).

Definition empty_device (w : bool) : world map_kv :=
  {| web := w; secure := no_items; async := no_items; replies := []; requests := []; clock := 0 |}.

Definition sample_account (id : jsstr) (i : Z) : WalletAccount :=
  {| w_id := id; w_name := js "Akun"; w_address := js "grd1q"; w_publicKey := js "02"; w_accountIndex := i;
     w_quantumAddress := None |}.


Lemma password_verifies_witness :
  exists W', savePasswordHash (C := toy) (replicate 32 7) (js "rahasia") (empty_device false) = (W', inl tt)
    /\ hasPassword W' = (W', inl true).
Proof.
  destruct (password_verifies (C := toy) (replicate 32 7) (js "rahasia") (js "x") (empty_device false))
    as (W' & E & Hh & _); [by apply Forall_replicate|reflexivity|]. exists W'. split; [exact E|exact Hh].
Defined.

Lemma clearWallet_keeps_imported_keys_witness :
  exists W', clearWallet (sset (imported_key (js "imported-1")) (js "aa") (empty_device false)) = (W', inl tt)
    /\ getImportedKey (js "imported-1") W' = (W', inl (Some (js "aa"))).
Proof.
  destruct (clearWallet_keeps_imported_keys (C := toy)
    (sset (imported_key (js "imported-1")) (js "aa") (empty_device false)) (js "imported-1") (js "aa"))
    as (W' & E & _ & _ & _ & Hk); [vm_compute; reflexivity|]. exists W'. split; [exact E|exact Hk].
Defined.
