(* ===== verification/Api.v ===== *)
(** * The mobile API client

    src/mobile/utils/garuda-api.ts: one request per call, the reply decoded or an
    exception. The headers are the same for every request and are not recorded;
    a request body is recorded as the value that is serialised. *)

From S2P Require Import Prelude JsText Amounts Numbers Locale Utf8 Json Store.
Local Open Scope Z_scope.
Local Open Scope io_scope.

(** ** Conversions of the language *)

(** The number a text with a radix prefix stands for. *)
Definition radix_literal (r : Z) (s : jsstr) : double :=
  let ds := digit_prefix r s in
  if bool_decide (ds <> [] /\ length ds = length s) then of_Z (num_value r ds) else NaN.

(** [Number(s)] *)
Definition number_of_text (s : jsstr) : double :=
  let s := trim s in
  let prefix := take 2 s in
  if bool_decide (s = []) then of_Z 0
  else if bool_decide (prefix = js "0x" \/ prefix = js "0X") then radix_literal 16 (drop 2 s)
  else if bool_decide (prefix = js "0o" \/ prefix = js "0O") then radix_literal 8 (drop 2 s)
  else if bool_decide (prefix = js "0b" \/ prefix = js "0B") then radix_literal 2 (drop 2 s)
  else let '(d, r) := decimal_literal s in if bool_decide (r = []) then d else NaN.

(** The number of the text of an array element; in such a text a number reads
    back as itself. *)
Fixpoint number_in_array (v : val) : double :=
  match v with
  | VUndef | VNull => of_Z 0
  | VBool _ | VObj _ => NaN
  | VNum n => n
  | VStr s => number_of_text s
  | VArr [] => of_Z 0
  | VArr [x] => number_in_array x
  | VArr _ => NaN
  end.

(** [Number(v)] *)
Definition to_number (v : val) : double :=
  match v with
  | VUndef => NaN
  | VBool b => of_Z (Z.b2z b)
  | _ => number_in_array v
  end.

(** [parseFloat(String(v))]; the text of an array starts with that of its first
    element. *)
Fixpoint parse_text_of (v : val) : double :=
  match v with
  | VNum n => n
  | VStr s => parseFloat s
  | VArr (x :: _) => parse_text_of x
  | _ => NaN
  end.

(** The value of a document; of a repeated property the last counts. *)
Fixpoint to_val (j : json) : val :=
  match j with
  | JNull => VNull
  | JBool b => VBool b
  | JNum n => VNum (of_Z n)
  | JFrac x => VNum (Fin x)
  | JStr s => VStr s
  | JArr l => VArr (map to_val l)
  | JObj fs => VObj (reverse (map (fun f => (f.1, to_val f.2)) fs))
  end.

(** [String(v)] *)
Fixpoint val_text (v : val) : jsstr :=
  match v with
  | VUndef => js "undefined"
  | VNull => js "null"
  | VBool b => if b then js "true" else js "false"
  | VNum x => double_text x
  | VStr s => s
  | VArr l =>
      (fix join (l : list val) : jsstr :=
         match l with
         | [] => []
         | v :: l =>
             match v with VUndef | VNull => [] | _ => val_text v end ++ match l with [] => [] | _ => [44] ++ join l end
         end) l
  | VObj _ => js "[object Object]"
  end.

(** [v > 0] *)
Definition vpositive (v : val) : bool := dlt (of_Z 0) (to_number v).

Definition uri_unreserved (b : Z) : bool :=
  ((48 <=? b) && (b <=? 57)) || ((65 <=? b) && (b <=? 90)) || ((97 <=? b) && (b <=? 122))
  || existsb (Z.eqb b) (js "-_.!~*'()").

Definition upper_hex (d : Z) : Z := if d <? 10 then 48 + d else 55 + d.

Definition percent (b : Z) : jsstr := if uri_unreserved b then [b] else [37; upper_hex (b / 16); upper_hex (b mod 16)].

Definition isArray (v : val) : bool := match v with VArr _ => true | _ => false end.

Section Client.
Context {K : KV}.

(** [encodeURIComponent]: a lone surrogate throws. *)
Definition encodeURIComponent (s : jsstr) : IO jsstr :=
  if well_formed s then ret (concat (map percent (utf8_encode s))) else throw (js "URIError").

(** ** Requests *)

Definition BASE (web : bool) : jsstr :=
  if web then js "http://localhost:5000" else js "http://192.168.20.155:5000".

Definition api_error (path : jsstr) (status : Z) (txt : jsstr) : jsstr :=
  js "API " ++ path ++ [32; 0x2192; 32] ++ to_string 10 status ++ js ": " ++ txt.

Definition apiFetch (path : jsstr) (method : jsstr) (body : option val) : IO val :=
  let! web := gets web in
  let! res := fetch {| h_path := BASE web ++ path; h_method := method; h_body := body |} in
  match res with
  | Rejected e => throw e
  | Response status statusText text json =>
      if negb ((200 <=? status) && (status <=? 299)) then
        throw (api_error path status (default statusText text))
      else match json with inl v => ret v | inr e => throw e end
  end.

Definition apiGet (path : jsstr) : IO val := apiFetch path (js "GET") None.
Definition apiPost (path : jsstr) (params : val) : IO val := apiFetch path (js "POST") (Some params).

(** ** Helpers *)

(** [sat / 1e8] *)
Definition satoshiToGRD (sat : double) : double := ddiv sat (of_Z 100000000).

(** [x.toFixed(k)] *)
Definition fixed_text (k : nat) (x : double) : jsstr :=
  match x with Fin x => toFixed k x | NaN => js "NaN" | Inf neg => (if neg then [45] else []) ++ js "Infinity" end.

Definition formatGRD (sat : double) : jsstr :=
  let grd := satoshiToGRD sat in
  if dle grd (of_Z 0) && dle (of_Z 0) grd then js "0 GRD"
  else if dlt grd (parseFloat (js "0.001")) then fixed_text 8 grd ++ js " GRD"
  else if dlt grd (of_Z 1) then fixed_text 6 grd ++ js " GRD"
  else toLocaleString 0 4 grd ++ js " GRD".

(** Balances of 0.00000099, 0.5 and 12345.67891234 GRD. *)
Example formatGRD_texts :
  formatGRD (of_Z 99) = js "0.00000099 GRD" /\ formatGRD (of_Z 50000000) = js "0.500000 GRD"
  /\ formatGRD (of_Z 1234567891234) = js "12.345,6789 GRD".
Proof. vm_compute. done. Qed.

Definition shortAddr (addr : jsstr) : jsstr :=
  if (length addr <? 12)%nat then addr else take 10 addr ++ js "..." ++ drop (length addr - 6) addr.

Definition toSat (v : val) : val :=
  match v with
  | VNum _ => v
  | _ => match parse_text_of v with
         | NaN => VNum (of_Z 0)
         | f => match dmul f (of_Z 100000000) with
                | Fin y => VNum (of_Z (math_round y))
                | d => VNum d
                end
         end
  end.

(** The properties [...v] copies. *)
Definition spread (v : val) : list (jsstr * val) :=
  match v with
  | VObj fs => fs
  | VArr l => imap (fun i x => (to_string 10 (Z.of_nat i), x)) l
  | VStr s => imap (fun i c => (to_string 10 (Z.of_nat i), VStr [c])) s
  | _ => []
  end.

(** [{...fs, k: v}] *)
Fixpoint put (fs : list (jsstr * val)) (k : jsstr) (v : val) : list (jsstr * val) :=
  match fs with
  | [] => [(k, v)]
  | (k', v') :: fs => if bool_decide (k = k') then (k, v) :: fs else (k', v') :: put fs k v
  end.

Lemma lookup_put fs k v k' : vlookup (put fs k v) k' = if bool_decide (k' = k) then v else vlookup fs k'.
Proof.
  induction fs as [|[k1 v1] fs IH]; cbn [put vlookup]; [done|].
  destruct (bool_decide (k = k1)) eqn:E; cbn [vlookup].
  - apply bool_decide_eq_true in E as <-. by case_bool_decide.
  - apply bool_decide_eq_false in E. rewrite IH. destruct (bool_decide (k' = k1)) eqn:E1; [|done].
    apply bool_decide_eq_true in E1 as ->. rewrite bool_decide_eq_false_2; [done|congruence].
Qed.

(** [Array.isArray(data) ? data : data.k ?? []] *)
Definition list_or (data : val) (k : jsstr) : IO val :=
  if isArray data then ret data else let! x := vfield data k in ret (vor x (VArr [])).

(** ** Endpoints *)

Definition getBlockchainStats : IO val := apiGet (js "/api/blockchain/stats").

Definition getAddressInfo (address : jsstr) : IO val :=
  let! raw := apiGet (js "/api/blockchain/address/" ++ address) in
  let! balance := vfield raw (js "balance") in
  let! received := vfield raw (js "received") in
  let! sent := vfield raw (js "sent") in
  let! txs := vfield raw (js "transactions") in
  let fs := put (spread raw) (js "balance") (toSat balance) in
  let fs := put fs (js "received") (toSat received) in
  let fs := put fs (js "sent") (toSat sent) in
  ret (VObj (put fs (js "transactions") (if isArray txs then txs else VArr []))).

Definition getUTXOs (address : jsstr) : IO val :=
  let! data := apiGet (js "/api/wallet/utxos?address=" ++ address) in list_or data (js "utxos").

Definition broadcastTx (hex : jsstr) : IO val := apiPost (js "/api/broadcast") (VObj [(js "hex", VStr hex)]).

Definition getLatestBlocks (limit : Z) : IO val :=
  let! data := apiGet (js "/api/blockchain/blocks?limit=" ++ to_string 10 limit) in list_or data (js "blocks").

Definition getLatestTransactions (limit : Z) : IO val :=
  let! data := apiGet (js "/api/blockchain/transactions?limit=" ++ to_string 10 limit) in
  list_or data (js "transactions").

Definition searchChain (q : jsstr) : IO val :=
  let! e := encodeURIComponent q in apiGet (js "/api/blockchain/search?q=" ++ e).

Definition getAssets : IO val :=
  let! data := apiGet (js "/api/blockchain/stocks") in list_or data (js "assets").

Definition getAssetDetail (id : jsstr) : IO val :=
  try (apiGet (js "/api/blockchain/stock/" ++ id)) (fun _ => ret VNull).

Definition getAssetOrderbook (id : jsstr) : IO val := apiGet (js "/api/blockchain/orderbook/" ++ id).
Definition placeDEXOrder (params : val) : IO val := apiPost (js "/api/dex/order") params.
Definition cbdcTransfer (params : val) : IO val := apiPost (js "/api/cbdc/transfer") params.
Definition getStablecoins : IO val := apiGet (js "/api/blockchain/stablecoins").
Definition getMiningInfo : IO val := apiGet (js "/api/blockchain/mining").

(** ** Assets *)

Record AssetEntry := { e_assetId : val; e_symbol : val; e_name : val }.

Fixpoint map_io {A B} (f : A -> IO B) (l : list A) : IO (list B) :=
  match l with
  | [] => ret []
  | x :: l => let! y := f x in let! ys := map_io f l in ret (y :: ys)
  end.

(** [v.map(f)]: a value without [map] throws. *)
Definition each {B} (v : val) (f : val -> IO B) : IO (list B) :=
  match v with VArr l => map_io f l | _ => throw (js "TypeError") end.

Definition pick2 (v : val) (k1 k2 : jsstr) : IO val :=
  let! a := vfield v k1 in
  match a with
  | VUndef | VNull => let! b := vfield v k2 in ret (vor b (VStr []))
  | _ => ret a
  end.

Definition getStablecoinList : IO (list AssetEntry) :=
  let! data := apiGet (js "/api/blockchain/stablecoins") in
  let list := if isArray data then data else vor (vprop data (js "stablecoins")) (VArr []) in
  each list (fun s =>
    let! a := pick2 s (js "assetId") (js "asset_id") in
    let! b := pick2 s (js "symbol") (js "kode") in
    let! c := pick2 s (js "name") (js "nama") in
    ret {| e_assetId := a; e_symbol := b; e_name := c |}).

Definition RATE : val := VNum (parseFloat (js "0.001")).

(** The oracle's answer, when it is a list that starts with a positive rate. *)
Definition oracle_rate (data : val) : IO (option val) :=
  match data with
  | VArr (x :: _) =>
      let! r := vfield x (js "grd_per_unit") in if vpositive r then ret (Some r) else ret None
  | _ => ret None
  end.

Definition peg_rate (data : val) : IO val :=
  let! g := vfield data (js "peg_rate_grd") in
  if vtruthy g && vpositive g then ret g else
  let! r := vfield data (js "peg_rate") in
  if vtruthy r && vpositive r then ret r else ret RATE.

Definition getStablecoinPegRate (assetId : jsstr) (symbol : option jsstr) : IO val :=
  let! live := if text_truthy symbol
               then try (let! data := apiGet (js "/api/oracle/rates?symbol=" ++ default [] symbol) in oracle_rate data)
                        (fun _ => ret None)
               else ret None in
  match live with
  | Some r => ret r
  | None => try (let! data := apiGet (js "/api/blockchain/peg/" ++ assetId) in peg_rate data) (fun _ => ret RATE)
  end.

Fixpoint filter_io {A} (f : A -> IO bool) (l : list A) : IO (list A) :=
  match l with
  | [] => ret []
  | x :: l => let! b := f x in let! ys := filter_io f l in ret (if (b : bool) then x :: ys else ys)
  end.

Definition is_text (v : val) (s : jsstr) : bool := match v with VStr t => bool_decide (t = s) | _ => false end.

Definition getPeggedStablecoinList : IO (list AssetEntry) :=
  let! data := apiGet (js "/api/blockchain/tokens") in
  let list := match data with VArr l => l | _ => [] end in
  let! pegged := filter_io (fun t => let! ty := vfield t (js "type") in ret (is_text ty (js "STABLECOIN_PEGGED"))) list in
  map_io (fun s =>
    let! a := pick2 s (js "assetId") (js "asset_id") in
    let! b := vfield s (js "symbol") in
    let! c := vfield s (js "name") in
    ret {| e_assetId := a; e_symbol := vor b (VStr []); e_name := vor c (VStr []) |}) pegged.

Definition getStockList : IO (list AssetEntry) :=
  let! data := apiGet (js "/api/blockchain/stocks") in
  let list := if isArray data then data
              else vor (vor (vprop data (js "assets")) (vprop data (js "stocks"))) (VArr []) in
  each list (fun s =>
    let! a := pick2 s (js "assetId") (js "asset_id") in
    let! b := pick2 s (js "kode") (js "symbol") in
    let! c := pick2 s (js "nama") (js "name") in
    ret {| e_assetId := a; e_symbol := b; e_name := c |}).

Definition prepareTokenTransfer (params : val) : IO val := apiPost (js "/api/dex/prepare-transfer") params.
Definition receiveGRD (params : val) : IO val := apiPost (js "/api/dex/receive-grd") params.
Definition crossSwap (params : val) : IO val := apiPost (js "/api/dex/cross-swap") params.
Definition dexSwap (params : val) : IO val := apiPost (js "/api/dex/swap") params.
Definition dexPlaceOrder (params : val) : IO val := apiPost (js "/api/dex/order") params.

Definition getMyDexOrders (address : jsstr) : IO val :=
  let! data := apiGet (js "/api/dex/my-orders/" ++ address ++ js "?status=open") in list_or data (js "orders").

Definition cancelDexOrder (orderId address : jsstr) : IO val :=
  apiPost (js "/api/dex/order/cancel") (VObj [(js "order_id", VStr orderId); (js "address", VStr address)]).

Definition getDexWalletInfo (address : jsstr) : IO val :=
  try (apiGet (js "/api/dex/wallet/connect?address=" ++ address))
    (fun _ => ret (VObj [(js "connected", VBool false); (js "address", VStr address);
                         (js "balance_grd", VNum (of_Z 0)); (js "assets", VArr [])])).

(** [try { ... Array.isArray(data) ? data : [] } catch { [] }] *)
Definition list_or_empty (path : jsstr) : IO val :=
  try (let! data := apiGet path in ret (if isArray data then data else VArr [])) (fun _ => ret (VArr [])).

Definition getTradeHistory (assetId : jsstr) : IO val := list_or_empty (js "/api/dex/trades/" ++ assetId).

Definition getPriceHistory (assetId timeframe : jsstr) (limit : Z) : IO val :=
  list_or_empty (js "/api/dex/price-history/" ++ assetId ++ js "?timeframe=" ++ timeframe ++ js "&limit="
                 ++ to_string 10 limit).

Definition getOracleRates (symbol : option jsstr) : IO val :=
  let url := if text_truthy symbol then js "/api/oracle/rates?symbol=" ++ default [] symbol
             else js "/api/oracle/rates" in
  try (apiGet url) (fun _ => ret (VArr [])).

Definition getPresales : IO val := list_or_empty (js "/api/blockchain/presales").

Definition getPresaleDetail (assetId : jsstr) : IO val :=
  try (apiGet (js "/api/blockchain/presale/" ++ assetId)) (fun _ => ret VNull).

Definition buyPresale (params : val) : IO val := apiPost (js "/api/dex/presale/buy") params.
Definition getDividendHistory (assetId : jsstr) : IO val := list_or_empty (js "/api/dividend/history/" ++ assetId).
End Client.

(** ** What the callers rely on *)

Section Guarantees.
Context {K : KV}.

Lemma try_total {A} (m : IO A) (a : A) (w : world K) :
  exists w' b, try m (fun _ => ret a) w = (w', inl b) /\ (b = a \/ m w = (w', inl b)).
Proof. unfold try. destruct (m w) as [w' [b|e]]; [by exists w', b; auto|exists w', a; auto]. Qed.

Lemma vfield_run v k (w : world K) :
  vfield v k w = (w, inr (js "TypeError")) \/ vfield v k w = (w, inl (vprop v k)).
Proof. destruct v; auto. Qed.

Lemma RATE_positive : vpositive RATE = true.
Proof. vm_compute. reflexivity. Qed.

(** Both readers leave the world alone and give positive rates. *)
Lemma peg_rate_run data (w : world K) :
  exists r, peg_rate data w = (w, r) /\ forall v, r = inl v -> vpositive v = true.
Proof.
  unfold peg_rate, bind. destruct (vfield_run data (js "peg_rate_grd") w) as [-> | ->]; [by eexists|].
  set (g := vprop data _). destruct (vtruthy g && vpositive g) eqn:E1.
  { eexists. split; [reflexivity|]. intros v [= <-]. by apply andb_true_iff in E1 as []. }
  destruct (vfield_run data (js "peg_rate") w) as [-> | ->]; [by eexists|].
  set (r := vprop data (js "peg_rate")). destruct (vtruthy r && vpositive r) eqn:E2; eexists; (split; [reflexivity|]);
    intros v [= <-]; [by apply andb_true_iff in E2 as []|apply RATE_positive].
Qed.

Lemma oracle_rate_run data (w : world K) :
  exists r, oracle_rate data w = (w, r) /\ forall v, r = inl (Some v) -> vpositive v = true.
Proof.
  unfold oracle_rate. destruct data as [| | | | |[|x l]|]; try (by eexists). unfold bind.
  destruct (vfield_run x (js "grd_per_unit") w) as [-> | ->]; [by eexists|].
  set (r := vprop x _). destruct (vpositive r) eqn:E; eexists; (split; [reflexivity|]); intros v [= <-]. done.
Qed.

Lemma apiGet_one p (w : world K) : length (requests (apiGet p w).1) = (length (requests w) + 1)%nat.
Proof.
  unfold apiGet, apiFetch, bind, gets, fetch.
  destruct (replies w) as [|[e|st stt tx [v|e]] rs]; unfold throw, ret; cbv beta iota zeta;
    try (destruct ((200 <=? st) && (st <=? 299)); cbn [negb]); cbn [fst requests]; by rewrite length_app.
Qed.

(** One guarded request with such a reader. *)
Lemma guarded_run {A} (p : jsstr) (f : val -> IO A) (a : A) (P : A -> Prop) (w : world K) :
  (forall d w, exists r, f d w = (w, r) /\ forall v, r = inl v -> P v) -> P a ->
  exists w' v, try (let! data := apiGet p in f data) (fun _ => ret a) w = (w', inl v) /\ P v
    /\ length (requests w') = (length (requests w) + 1)%nat.
Proof.
  intros Hf Ha. pose proof (apiGet_one p w) as Hr. unfold try, bind.
  destruct (apiGet p w) as [w1 [d|e]]; cbn [fst] in Hr; [|by exists w1, a].
  destruct (Hf d w1) as ([v|e] & -> & Hv); [|by exists w1, a]. exists w1, v. split; [done|]. split; [by apply Hv|done].
Qed.

(** The rate of a stablecoin is always a positive number: whatever the two
    endpoints answer, also errors and malformed data, [getStablecoinPegRate]
    returns, after at most two requests, a value that compares above zero. *)
Theorem pegRate_positive (assetId : jsstr) (symbol : option jsstr) (w : world K) :
  exists w' v, getStablecoinPegRate assetId symbol w = (w', inl v) /\ vpositive v = true
    /\ (length (requests w') <= length (requests w) + 2)%nat.
Proof.
  pose proof (guarded_run (js "/api/blockchain/peg/" ++ assetId) peg_rate RATE (fun v => vpositive v = true)) as Hpeg.
  assert (forall w, exists w' o, (if text_truthy symbol
     then try (let! data := apiGet (js "/api/oracle/rates?symbol=" ++ default [] symbol) in oracle_rate data)
              (fun _ => ret None)
     else ret None) w = (w', inl o) /\ (forall v, o = Some v -> vpositive v = true)
     /\ (length (requests w') <= length (requests w) + 1)%nat) as Hor.
  { intros w0. destruct (text_truthy symbol).
    - destruct (guarded_run (js "/api/oracle/rates?symbol=" ++ default [] symbol) oracle_rate None
        (fun o => forall v, o = Some v -> vpositive v = true) w0) as (w1 & o & E & Ho & Hl).
      { intros d w1. destruct (oracle_rate_run d w1) as (r & E & Hr). exists r. split; [done|].
        intros o -> v ->. by apply Hr. }
      { done. }
      exists w1, o. split_and_all; [done|done|lia].
    - exists w0, None. split_and_all; [done|done|lia]. }
  unfold getStablecoinPegRate. unfold bind at 1. destruct (Hor w) as (w1 & o & -> & Ho & Hl).
  destruct o as [v|]; [exists w1, v; split_and_all; [done|by apply Ho|lia]|].
  destruct (Hpeg w1) as (w2 & v & -> & Hv & Hl2); [apply peg_rate_run|apply RATE_positive|].
  exists w2, v. split_and_all; [done|done|lia].
Qed.
End Guarantees.
