(* ===== verification/MobileRoutes.v ===== *)
(** * The mobile client's requests and the server's routes

    Every request of src/mobile/utils/garuda-api.ts, against the routes of
    Endpoints.v: the path has a handler in src/api/main.go. *)

From stdpp Require Import gmap.
From S2P Require Import Prelude JsText Amounts Utf8 Store Api Endpoints.
Local Open Scope Z_scope.
Local Open Scope io_scope.

(** The requests a computation adds all go to paths the server handles. *)
Definition routed {K : KV} {A} (m : IO A) : Prop :=
  forall W : world K, web (m W).1 = web W /\ exists qs, requests (m W).1 = requests W ++ qs
    /\ Forall (fun q => exists url, h_path q = BASE (web W) ++ url /\ served url = true) qs.

Section Closure.
Context {K : KV}.

Lemma routed_ret {A} (a : A) : routed (K := K) (ret a).
Proof. intros W. split; [done|]. exists []. by rewrite app_nil_r. Qed.

Lemma routed_throw {A} e : routed (K := K) (throw (A := A) e).
Proof. intros W. split; [done|]. exists []. by rewrite app_nil_r. Qed.

Lemma routed_after {A B} (m : IO A) (m' : IO B) (W W1 : world K) x :
  routed m -> routed m' -> m W = (W1, x) ->
  web (m' W1).1 = web W /\ exists qs, requests (m' W1).1 = requests W ++ qs
    /\ Forall (fun q => exists url, h_path q = BASE (web W) ++ url /\ served url = true) qs.
Proof.
  intros Hm Hm' E. destruct (Hm W) as (E1 & q1 & R1 & F1), (Hm' W1) as (E2 & q2 & R2 & F2). rewrite E in *. cbn [fst] in *.
  split; [congruence|]. exists (q1 ++ q2). rewrite R2, R1, <- app_assoc. split; [done|]. apply Forall_app. split; [done|]. by rewrite <- E1.
Qed.

Lemma routed_bind {A B} (m : IO A) (k : A -> IO B) : routed m -> (forall a, routed (k a)) -> routed (K := K) (bind m k).
Proof.
  intros Hm Hk W. unfold bind. destruct (m W) as [W1 [a|e]] eqn:E; [by apply (routed_after m _ W W1 (inl a))|].
  pose proof (Hm W) as H. by rewrite E in H.
Qed.

Lemma routed_try {A} (m : IO A) h : routed m -> (forall e, routed (h e)) -> routed (K := K) (try m h).
Proof.
  intros Hm Hk W. unfold try. destruct (m W) as [W1 [a|e]] eqn:E; [|by apply (routed_after m _ W W1 (inr e))].
  pose proof (Hm W) as H. by rewrite E in H.
Qed.

Lemma routed_vfield v k : routed (K := K) (vfield v k).
Proof. destruct v; first [apply routed_throw|apply routed_ret]. Qed.

Lemma routed_map_io {A B} (f : A -> IO B) l : (forall a, routed (f a)) -> routed (K := K) (map_io f l).
Proof.
  intros Hf. induction l as [|a l IH]; [apply routed_ret|]. cbn [map_io].
  apply routed_bind; [apply Hf|]. intros b. apply routed_bind; [exact IH|]. intros bs. apply routed_ret.
Qed.

Lemma routed_fetch url method body : served url = true ->
  routed (K := K) (apiFetch url method body).
Proof.
  intros Hu W. unfold apiFetch, bind, gets, fetch.
  assert (forall (W1 : world K) (x : val + jsstr), web W1 = web W ->
    requests W1 = requests W ++ [{| h_path := BASE (web W) ++ url; h_method := method; h_body := body |}] ->
    web (W1, x).1 = web W /\ exists qs, requests (W1, x).1 = requests W ++ qs
      /\ Forall (fun q => exists url, h_path q = BASE (web W) ++ url /\ served url = true) qs) as H.
  { intros W1 x E1 E2. split; [done|]. eexists. split; [exact E2|]. apply Forall_singleton. by exists url. }
  destruct (replies W) as [|[e|status st tx [v|e]] rs]; [by apply H|by apply H| |]; (destruct (negb _); by apply H).
Qed.

Lemma routed_encode s : routed (K := K) (encodeURIComponent s).
Proof. unfold encodeURIComponent. destruct (well_formed s); [apply routed_ret|apply routed_throw]. Qed.
End Closure.

Create HintDb routed.
#[export] Hint Resolve routed_ret routed_throw routed_bind routed_try routed_vfield routed_map_io routed_encode : routed.

(** ** Paths *)

Definition plain (p : jsstr) : bool := forallb (fun u => negb (u =? 63)) p.

Lemma path_plain p rest : plain p = true -> path_of (p ++ rest) = p ++ path_of rest.
Proof.
  induction p as [|u p IH]; [done|]. cbn [plain forallb app path_of]. intros [Hu Hp]%andb_true_iff.
  apply negb_true_iff in Hu. rewrite Hu. f_equal. by apply IH.
Qed.

(** A registered path that ends in a slash serves everything below. *)
Lemma served_below p rest :
  plain p && ends_slash p && bool_decide (p ∈ ROUTES) = true -> served (p ++ rest) = true.
Proof.
  intros [[Hp Hs]%andb_true_iff Hr%bool_decide_eq_true]%andb_true_iff. unfold served. apply existsb_exists. exists p.
  split; [by apply list_elem_of_In|]. unfold route_matches. rewrite Hs, path_plain by done.
  unfold startsWith. by rewrite take_app_length, bool_decide_eq_true_2.
Qed.

(** After a question mark nothing matters. *)
Lemma served_query p rest : existsb (Z.eqb 63) p && served p = true -> served (p ++ rest) = true.
Proof.
  intros [Hp Hs]%andb_true_iff. unfold served in *. assert (path_of (p ++ rest) = path_of p) as ->; [|exact Hs].
  clear Hs. induction p as [|u p IH]; [done|]. cbn [existsb app path_of] in *. rewrite (Z.eqb_sym 63 u) in Hp.
  destruct (u =? 63); [done|]. f_equal. by apply IH.
Qed.

(** ** Calls *)

Section Calls.
Context {K : KV}.

Inductive api_call :=
| CStats | CAddressInfo (a : jsstr) | CUtxos (a : jsstr) | CBroadcast (hex : jsstr) | CBlocks (n : Z) | CTransactions (n : Z)
| CSearch (q : jsstr) | CStocks | CStock (id : jsstr) | COrderbook (id : jsstr) | CPlaceOrder (v : val) | CCbdcTransfer (v : val)
| CStablecoins | CMining | CStablecoinList | CPegRate (id : jsstr) (symbol : option jsstr) | CPeggedList | CStockList
| CPrepareTransfer (v : val) | CReceiveGRD (v : val) | CCrossSwap (v : val) | CSwap (v : val) | CDexOrder (v : val)
| CMyOrders (a : jsstr) | CCancelOrder (id a : jsstr) | CWalletInfo (a : jsstr) | CTrades (id : jsstr)
| CPrices (id timeframe : jsstr) (n : Z) | CRates (symbol : option jsstr) | CPresales | CPresale (id : jsstr) | CBuyPresale (v : val)
| CDividends (id : jsstr).

Definition ignore {A} (m : IO A) : IO unit := m ;;! ret tt.

(** The function of garuda-api.ts a call stands for. *)
Definition perform (c : api_call) : IO (K := K) unit :=
  match c with
  | CStats => ignore getBlockchainStats
  | CAddressInfo a => ignore (getAddressInfo a)
  | CUtxos a => ignore (getUTXOs a)
  | CBroadcast hex => ignore (broadcastTx hex)
  | CBlocks n => ignore (getLatestBlocks n)
  | CTransactions n => ignore (getLatestTransactions n)
  | CSearch q => ignore (searchChain q)
  | CStocks => ignore getAssets
  | CStock id => ignore (getAssetDetail id)
  | COrderbook id => ignore (getAssetOrderbook id)
  | CPlaceOrder v => ignore (placeDEXOrder v)
  | CCbdcTransfer v => ignore (cbdcTransfer v)
  | CStablecoins => ignore getStablecoins
  | CMining => ignore getMiningInfo
  | CStablecoinList => ignore getStablecoinList
  | CPegRate id symbol => ignore (getStablecoinPegRate id symbol)
  | CPeggedList => ignore getPeggedStablecoinList
  | CStockList => ignore getStockList
  | CPrepareTransfer v => ignore (prepareTokenTransfer v)
  | CReceiveGRD v => ignore (receiveGRD v)
  | CCrossSwap v => ignore (crossSwap v)
  | CSwap v => ignore (dexSwap v)
  | CDexOrder v => ignore (dexPlaceOrder v)
  | CMyOrders a => ignore (getMyDexOrders a)
  | CCancelOrder id a => ignore (cancelDexOrder id a)
  | CWalletInfo a => ignore (getDexWalletInfo a)
  | CTrades id => ignore (getTradeHistory id)
  | CPrices id timeframe n => ignore (getPriceHistory id timeframe n)
  | CRates symbol => ignore (getOracleRates symbol)
  | CPresales => ignore getPresales
  | CPresale id => ignore (getPresaleDetail id)
  | CBuyPresale v => ignore (buyPresale v)
  | CDividends id => ignore (getDividendHistory id)
  end.

Lemma routed_get url : served url = true -> routed (K := K) (apiGet url).
Proof. apply routed_fetch. Qed.

Lemma routed_post url v : served url = true -> routed (K := K) (apiPost url v).
Proof. apply routed_fetch. Qed.

Lemma routed_list_or v k : routed (K := K) (list_or v k).
Proof. unfold list_or. destruct (isArray v); auto with routed. Qed.

Lemma routed_pick2 v k1 k2 : routed (K := K) (pick2 v k1 k2).
Proof. unfold pick2. apply routed_bind; [auto with routed|]. intros []; auto with routed. Qed.

Lemma routed_each {B} v (f : val -> IO B) : (forall a, routed (f a)) -> routed (K := K) (each v f).
Proof. intros Hf. destruct v; try apply routed_throw. by apply routed_map_io. Qed.

Lemma routed_filter_io {A} (f : A -> IO bool) l : (forall a, routed (f a)) -> routed (K := K) (filter_io f l).
Proof.
  intros Hf. induction l as [|a l IH]; [apply routed_ret|]. cbn [filter_io].
  apply routed_bind; [apply Hf|]. intros b. apply routed_bind; [exact IH|]. intros bs. apply routed_ret.
Qed.

Lemma routed_oracle v : routed (K := K) (oracle_rate v).
Proof.
  unfold oracle_rate. destruct v as [| | | | |[|x l]|]; auto with routed.
  apply routed_bind; [auto with routed|]. intros r. destruct (vpositive r); auto with routed.
Qed.

Lemma routed_peg v : routed (K := K) (peg_rate v).
Proof.
  unfold peg_rate. apply routed_bind; [auto with routed|]. intros g. destruct (_ && _); [auto with routed|].
  apply routed_bind; [auto with routed|]. intros r. destruct (_ && _); auto with routed.
Qed.

Lemma routed_list_or_empty url : served url = true -> routed (K := K) (list_or_empty url).
Proof.
  intros Hu. unfold list_or_empty. apply routed_try; [|auto with routed]. apply routed_bind; [by apply routed_get|].
  auto with routed.
Qed.

Lemma routed_ignore {A} (m : IO A) : routed m -> routed (K := K) (ignore m).
Proof. intros Hm. unfold ignore. auto with routed. Qed.
End Calls.

#[export] Hint Resolve routed_get routed_post routed_list_or routed_pick2 routed_each routed_filter_io routed_oracle routed_peg
  routed_list_or_empty : routed.

(** The path of a request is a registered one, or literal up to its query. *)
Ltac route :=
  lazymatch goal with
  | |- served (_ ++ _) = true => first [apply served_below; vm_compute; reflexivity|apply served_query; vm_compute; reflexivity]
  | |- served _ = true => vm_compute; reflexivity
  end.

#[export] Hint Unfold getBlockchainStats getAddressInfo getUTXOs broadcastTx getLatestBlocks getLatestTransactions searchChain
  getAssets getAssetDetail getAssetOrderbook placeDEXOrder cbdcTransfer getStablecoins getMiningInfo getStablecoinList
  getStablecoinPegRate getPeggedStablecoinList getStockList prepareTokenTransfer receiveGRD crossSwap dexSwap dexPlaceOrder
  getMyDexOrders cancelDexOrder getDexWalletInfo getTradeHistory getPriceHistory getOracleRates getPresales getPresaleDetail
  buyPresale getDividendHistory : routed.

#[export] Hint Extern 1 (served _ = true) => route : routed.

Section Routes.
Context {K : KV}.

End Routes.
