(* ===== verification/Pages.v ===== *)
(** * Wallet set-up and accounts: the mobile pages

    The handlers behind the buttons of the mobile pages that create, import, open
    and export wallets and accounts (src/mobile/app). A handler is a computation
    on the world whose value says what the user sees; flags that only drive the
    display are left out, the ones that guard a handler are arguments. *)

From stdpp Require Import gmap.
From S2P Require Import Prelude JsText Amounts Bytes Mnemonic Keys Utf8 Json Vault Store WalletStorage.
Local Open Scope Z_scope.
Local Open Scope io_scope.

(** What a handler leaves on the screen. *)
Inductive ui :=
| Ignored
| ErrorText (msg : jsstr)
| Alert (title msg : jsstr)
| Route (path : jsstr).

Section Handlers.
Context {K : KV} {C : Crypto}.

(** [await deriveKey(...)]: the promise rejects when the key is refused. *)
Definition derive_io (mnemonic : jsstr) (i : Z) : IO DerivedKey :=
  match deriveKey mnemonic i with Some k => ret k | None => throw (js "CryptoError") end.

Definition or_text (s d : jsstr) : jsstr := match s with [] => d | _ => s end.

(** [`account-${i}`] *)
Definition account_id (i : Z) : jsstr := js "account-" ++ to_string 10 i.

Definition first_account (key : DerivedKey) (qkey : DerivedQuantumKey) : WalletAccount :=
  {| w_id := js "account-0"; w_name := js "Akun 1"; w_address := address key; w_publicKey := publicKeyHex key;
     w_accountIndex := 0; w_quantumAddress := Some (q_address qkey) |}.

(** ** New wallets *)

(** buat-kata-sandi.tsx: the phrase and the password go to the set-up context. *)
Definition handleSubmit (entropy : list Z) (password confirmPassword : jsstr) (agreed : bool) :
    option (jsstr * jsstr) * ui :=
  if (8 <=? length password)%nat && bool_decide (password = confirmPassword) && agreed
  then (Some (generateMnemonic entropy, password), Route (js "/frasa-pemulihan")) else (None, Ignored).

(** dompet-siap.tsx; [random] is drawn for the password's salt. *)
Definition handleOpen (random : list Z) (mnemonic password : jsstr) (saving : bool) : IO ui :=
  if saving then ret Ignored else
  try (let! key := derive_io mnemonic 0 in
       let qkey := deriveQuantumKey mnemonic 0 in
       saveWallet mnemonic (first_account key qkey) ;;!
       saveQuantumAddress (q_address qkey) ;;!
       (match password with [] => ret tt | _ => savePasswordHash random password end) ;;!
       ret (Route (js "/beranda")))
    (fun _ => ret Ignored).

(** set-password-only.tsx *)
Definition handleSave (random : list Z) (password confirm : jsstr) (saving : bool) : IO ui :=
  if negb ((8 <=? length password)%nat && bool_decide (password = confirm)) || saving then ret Ignored else
  try (savePasswordHash random password ;;! ret (Route (js "/beranda"))) (fun _ => ret Ignored).

(** ** Imports *)

(** [phrase.trim() === "" ? 0 : phrase.trim().split(/\s+/).length] *)
Definition wordCount (phrase : jsstr) : nat :=
  match trim phrase with [] => O | p => length (split_ws false [] p) end.

(** impor-dompet.tsx *)
Definition handleImportWallet (phrase : jsstr) (loading : bool) : IO ui :=
  if negb ((wordCount phrase =? 24)%nat && validateMnemonic (trim phrase)) || loading then ret Ignored else
  try (let! key := derive_io (trim phrase) 0 in
       let qkey := deriveQuantumKey (trim phrase) 0 in
       saveWallet (trim phrase) (first_account key qkey) ;;!
       saveQuantumAddress (q_address qkey) ;;!
       ret (Route (js "/set-password-only")))
    (fun _ => ret (ErrorText (js "Gagal mengimpor dompet. Periksa frasa pemulihan."))).

Definition account_count (w : option StoredWallet) : Z :=
  match w with Some w => Z.of_nat (length (accounts w)) | None => 0 end.

Definition success (name tail : jsstr) : ui := Alert (js "Berhasil") (js "Akun " ++ [34] ++ name ++ [34] ++ tail).

(** impor-akun-frasa.tsx *)
Definition handleImportPhrase (phrase name : jsstr) (loading : bool) : IO ui :=
  if negb (((wordCount phrase =? 12)%nat || (wordCount phrase =? 24)%nat) && validateMnemonic (trim phrase)) || loading
  then ret Ignored else
  try (let! wallet := loadWallet in
       let accountIndex := account_count wallet in
       let! key := derive_io (trim phrase) 0 in
       let qkey := deriveQuantumKey (trim phrase) 0 in
       let! now := gets clock in
       let accountId := js "imported-frasa-" ++ to_string 10 now in
       let newAccount := {| w_id := accountId; w_name := or_text (trim name) (js "Akun Impor");
                            w_address := address key; w_publicKey := publicKeyHex key;
                            w_accountIndex := accountIndex; w_quantumAddress := Some (q_address qkey) |} in
       addAccount newAccount ;;!
       setActiveAccount accountId ;;!
       ret (success (w_name newAccount) (js " berhasil diimpor dari frasa pemulihan.")))
    (fun _ => ret (ErrorText (js "Gagal mengimpor. Periksa frasa pemulihan Anda."))).

(** impor-kunci-privat.tsx *)
Definition handleImportKey (privateKey name : jsstr) (loading : bool) : IO ui :=
  if negb (hex64 (trim privateKey)) || loading then ret Ignored else
  try (let! wallet := loadWallet in
       let accountIndex := account_count wallet in
       let hex := toLowerCase (trim privateKey) in
       match deriveKeyFromPrivate hex with
       | None => throw (js "CryptoError")
       | Some (address, publicKeyHex) =>
           let! now := gets clock in
           let accountId := js "imported-" ++ to_string 10 now in
           let newAccount := {| w_id := accountId; w_name := or_text (trim name) (js "Akun Impor");
                                w_address := address; w_publicKey := publicKeyHex;
                                w_accountIndex := accountIndex; w_quantumAddress := None |} in
           addAccount newAccount ;;!
           saveImportedKey accountId hex ;;!
           setActiveAccount accountId ;;!
           ret (success (w_name newAccount) (js " berhasil diimpor."))
       end)
    (fun _ => ret (ErrorText (js "Kunci privat tidak valid. Pastikan 64 karakter hex."))).

(** ** Accounts *)

(** buat-akun.tsx *)
Definition handleCreate (name : jsstr) : IO ui :=
  match trim name with
  | [] => ret (Alert (js "Nama Diperlukan") (js "Masukkan nama untuk akun ini."))
  | nm =>
      try (let! wallet := loadWallet in
           match wallet with
           | None => ret (Alert (js "Error") (js "Dompet tidak ditemukan. Buat dompet terlebih dahulu."))
           | Some w =>
               let accountIndex := Z.of_nat (length (accounts w)) in
               let! derived := derive_io (mnemonic w) accountIndex in
               let newAccount := {| w_id := account_id accountIndex; w_name := nm; w_address := address derived;
                                    w_publicKey := publicKeyHex derived; w_accountIndex := accountIndex;
                                    w_quantumAddress := None |} in
               addAccount newAccount ;;!
               setActiveAccount (w_id newAccount) ;;!
               ret (success nm (js " berhasil dibuat."))
           end)
        (fun _ => ret (Alert (js "Gagal") (js "Terjadi kesalahan saat membuat akun. Coba lagi.")))
  end.

(** beranda.tsx, the private key of an account: the two keys that are shown, or
    the error. *)
Definition revealKey (pkPassword : jsstr) (account : option WalletAccount) : IO (option (jsstr * jsstr) * ui) :=
  let! ok := verifyPassword pkPassword in
  if negb ok then ret (None, ErrorText (js "Kata sandi salah")) else
  let! mnemonic := getMnemonic in
  if text_truthy mnemonic then
    let idx := default 0 (w_accountIndex <$> account) in
    let! key := derive_io (default [] mnemonic) idx in
    let qkey := deriveQuantumKey (default [] mnemonic) idx in
    ret (Some (privateKeyHex key, q_secretKeyHex qkey), Route [])
  else ret (None, Route []).

(** ** Unlocking *)

Definition MAX_ATTEMPTS : Z := 5.

(** unlock.tsx: the number of attempts the page remembers, and what is shown. *)
Definition handleUnlock (password : jsstr) (attempts : Z) : IO (Z * ui) :=
  match trim password with
  | [] => ret (attempts, Ignored)
  | _ =>
      let! pwSet := hasPassword in
      if negb pwSet then ret (attempts, Route (js "/set-password-only")) else
      let! ok := verifyPassword password in
      if (ok : bool) then ret (attempts, Route (js "/beranda")) else
      let newAttempts := attempts + 1 in
      if MAX_ATTEMPTS <=? newAttempts
      then ret (newAttempts, Alert (js "Terlalu Banyak Percobaan")
        (js "Kamu telah salah memasukkan password 5 kali. Gunakan frasa pemulihan untuk reset dompet."))
      else ret (newAttempts, ErrorText (js "Password salah. " ++ to_string 10 (MAX_ATTEMPTS - newAttempts)
                                        ++ js " percobaan tersisa."))
  end.

(** The reset of the same page, when it is confirmed. *)
Definition handleReset (confirmed : bool) : IO ui :=
  if confirmed then clearWallet ;;! ret (Route (js "/")) else ret Ignored.
End Handlers.
