(* ===== verification/PagesProofs.v ===== *)
(** * What the mobile pages do to the wallet

    Theorems on the handlers of Pages.v, on top of the refinement of
    WalletProofs.v. *)

From stdpp Require Import gmap.
From S2P Require Import Prelude JsText Amounts Bytes Mnemonic Keys Utf8 Json Vault Store WalletStorage WalletProofs Pages.
Local Open Scope Z_scope.
Local Open Scope io_scope.

Section Accounts.
Context {K : KV} {L : KVLaws K} {C : Crypto}.

(** The wallet with an account appended and selected. *)
Definition with_account (a : WalletAccount) (w : StoredWallet) : StoredWallet :=
  {| mnemonic := mnemonic w; accounts := accounts w ++ [a]; activeAccountId := w_id a |}.

Lemma add_and_select a W w :
  holds W w -> wallet_good w ->
  exists W', (addAccount a ;;! setActiveAccount (w_id a)) W = (W', inl tt) /\ holds W' (with_account a w)
    /\ (forall k, k <> ACCOUNTS -> k <> ACTIVE -> sget W' k = sget W k).
Proof.
  intros Hh Hg. pose proof (run_read W w Hh Hg) as Hr. destruct Hh as (H1 & H2 & H3 & H4).
  assert (addAccount a W = (sset ACCOUNTS (print_accounts (accounts w ++ [a])) W, inl tt)) as E.
  { unfold addAccount. rewrite (bind_inl _ _ _ _ _ Hr). by rewrite run_secureSet. }
  eexists. rewrite (bind_inl _ _ _ _ _ E). unfold setActiveAccount. rewrite run_asyncSet. split; [reflexivity|].
  split.
  - unfold holds, with_account. cbn [mnemonic accounts activeAccountId]. reads. done.
  - intros k Hk1 Hk2. by rewrite sget_aset_ne, sget_sset_ne by congruence.
Qed.

Lemma derive_run m i key (W : world K) : deriveKey m i = Some key -> derive_io m i W = (W, inl key).
Proof. intros H. unfold derive_io. by rewrite H. Qed.

Lemma bind_assoc {A B D} (m : IO A) (k : A -> IO B) (h : B -> IO D) (W : world K) :
  bind m (fun a => bind (k a) h) W = bind (bind m k) h W.
Proof. unfold bind. by destruct (m W) as [? []]. Qed.

(** The account [handleCreate] makes. *)
Definition created (i : Z) (name : jsstr) (key : DerivedKey) : WalletAccount :=
  {| w_id := account_id i; w_name := name; w_address := address key; w_publicKey := publicKeyHex key;
     w_accountIndex := i; w_quantumAddress := None |}.

Lemma create_run name W w key :
  holds W w -> wallet_good w -> trim name <> [] ->
  deriveKey (mnemonic w) (Z.of_nat (length (accounts w))) = Some key ->
  exists W', handleCreate name W = (W', inl (success (trim name) (js " berhasil dibuat.")))
    /\ holds W' (with_account (created (Z.of_nat (length (accounts w))) (trim name) key) w).
Proof.
  intros Hh Hg Hn Hk. set (a := created _ _ _).
  destruct (add_and_select a W w Hh Hg) as (W' & E & Hh' & _).
  exists W'. split; [|done]. unfold handleCreate. destruct (trim name) as [|c nm] eqn:En; [done|].
  apply try_inl. rewrite (bind_inl _ _ _ _ _ (run_load W w Hh Hg)).
  rewrite (bind_inl _ _ _ _ _ (derive_run _ _ _ W Hk)). cbv zeta. rewrite bind_assoc.
  by rewrite (bind_inl _ _ _ _ _ E).
Qed.

(** Account [j] of the list has the identifier, the index and the key of [j]. *)
Definition numbered (w : StoredWallet) : Prop :=
  forall j a, accounts w !! j = Some a ->
    w_id a = account_id (Z.of_nat j) /\ w_accountIndex a = Z.of_nat j
    /\ exists key, deriveKey (mnemonic w) (Z.of_nat j) = Some key /\ w_address a = address key
       /\ w_publicKey a = publicKeyHex key.

Lemma account_id_inj i j : 0 <= i -> 0 <= j -> account_id i = account_id j -> i = j.
Proof. intros Hi Hj H. apply (app_inv_head (js "account-")) in H. by apply to_string_inj in H. Qed.

Lemma numbered_ids w : numbered w -> NoDup (ids w).
Proof.
  intros H. apply NoDup_alt. intros i j x Hi Hj. unfold ids in *.
  rewrite list_lookup_fmap in Hi, Hj.
  destruct (accounts w !! i) as [a|] eqn:Ea; [|done]. destruct (accounts w !! j) as [b|] eqn:Eb; [|done].
  injection Hi as Hi. injection Hj as Hj. destruct (H i a Ea) as [Ha _]. destruct (H j b Eb) as [Hb _].
  assert (account_id (Z.of_nat i) = account_id (Z.of_nat j)) as E%account_id_inj by congruence; lia.
Qed.

(** New accounts keep the numbering: in a wallet whose account number [j] has
    the identifier, the index and the keys of [j], [handleCreate] adds the account
    of the next number, selects it, and the wallet stays numbered, so its
    identifiers stay distinct. *)
Theorem create_keeps_numbering (name : jsstr) (W : world K) (w : StoredWallet) (key : DerivedKey) :
  holds W w -> wallet_good w -> numbered w -> trim name <> [] ->
  deriveKey (mnemonic w) (Z.of_nat (length (accounts w))) = Some key ->
  exists W' w', handleCreate name W = (W', inl (success (trim name) (js " berhasil dibuat.")))
    /\ holds W' w' /\ numbered w' /\ NoDup (ids w') /\ length (accounts w') = S (length (accounts w))
    /\ activeAccountId w' = account_id (Z.of_nat (length (accounts w))).
Proof.
  intros Hh Hg Hnum Hn Hk. destruct (create_run name W w key Hh Hg Hn Hk) as (W' & E & Hh').
  exists W'. eexists. split; [exact E|]. split; [exact Hh'|].
  assert (numbered (with_account (created (Z.of_nat (length (accounts w))) (trim name) key) w)) as Hnum'.
  { intros j a Hj. cbn [with_account accounts mnemonic] in *. apply lookup_app_Some in Hj as [Hj|[Hj Ha]].
    - by apply Hnum.
    - destruct (j - length (accounts w))%nat eqn:Ej; [|done]. injection Ha as <-.
      assert (j = length (accounts w)) as -> by lia. cbn. split_and_all; [done|done|]. by exists key. }
  split; [done|]. split; [by apply numbered_ids|]. split; [|done].
  cbn [with_account accounts]. rewrite length_app. cbn. lia.
Qed.

Lemma without_length id l :
  NoDup (map w_id l) -> id ∈ map w_id l -> S (length (without id l)) = length l.
Proof.
  induction l as [|a l IH]; cbn [map]; [by intros _ ?%elem_of_nil|].
  intros [Ha Hn]%NoDup_cons [Hid|Hid]%elem_of_cons; cbn [without List.filter length].
  - rewrite bool_decide_eq_true_2 by done. cbn [negb]. f_equal. clear IH. subst id.
    induction l as [|b l IH]; [done|]. cbn [map] in *. apply not_elem_of_cons in Ha as [Hb Ha].
    apply NoDup_cons in Hn as [_ Hn]. cbn [List.filter]. rewrite bool_decide_eq_false_2 by congruence.
    cbn [negb length]. f_equal. by apply IH.
  - rewrite bool_decide_eq_false_2 by (intros E; by rewrite E in Ha). cbn [negb length]. f_equal. by apply IH.
Qed.

(** An account created after a removal repeats an existing one: in a numbered
    wallet, when an account other than the last is removed and a new one is
    created, the new account has the identifier, the index and the address of the
    account that was last before. *)
Theorem create_after_remove_repeats (i : nat) (name : jsstr) (W : world K) (w : StoredWallet) :
  holds W w -> wallet_good w -> numbered w -> (S i < length (accounts w))%nat -> trim name <> [] ->
  exists W' w' old new, (removeAccount (account_id (Z.of_nat i)) ;;! handleCreate name) W
      = (W', inl (success (trim name) (js " berhasil dibuat.")))
    /\ holds W' w' /\ accounts w' = without (account_id (Z.of_nat i)) (accounts w) ++ [new]
    /\ old ∈ without (account_id (Z.of_nat i)) (accounts w)
    /\ w_id old = w_id new /\ w_accountIndex old = w_accountIndex new /\ w_address old = w_address new.
Proof.
  intros Hh Hg Hnum Hi Hn. set (id := account_id (Z.of_nat i)). set (n := length (accounts w)) in *.
  destruct (op_refines (Remove id) W w Hh Hg I) as (W1 & E1 & Hh1).
  pose proof (spec_op_good (Remove id) w Hg I) as Hg1. cbn [spec_op] in Hh1, Hg1.
  rewrite (proj2 (Nat.leb_gt _ _)) in Hh1, Hg1 by (fold n; lia).
  set (w1 := {| mnemonic := _; accounts := _; activeAccountId := _ |}) in Hh1, Hg1.
  destruct (lookup_lt_is_Some_2 (accounts w) i ltac:(fold n; lia)) as [ai Ei].
  destruct (lookup_lt_is_Some_2 (accounts w) (n - 1) ltac:(fold n; lia)) as [old Eo].
  destruct (Hnum _ _ Ei) as [Hid _]. destruct (Hnum _ _ Eo) as (Ho1 & Ho2 & key & Hk & Ha & _).
  assert (length (accounts w1) = (n - 1)%nat) as Hlen.
  { cbn [w1 accounts]. pose proof (without_length id (accounts w)) as Hw. fold n in Hw.
    destruct Hg as (_ & _ & _ & Hnd & _). specialize (Hw Hnd).
    enough (id ∈ map w_id (accounts w)) as He by (specialize (Hw He); lia).
    apply list_elem_of_lookup. exists i.
    rewrite list_lookup_fmap, Ei. cbn. by rewrite Hid. }
  destruct (create_run name W1 w1 key Hh1 Hg1 Hn) as (W' & E' & Hh'); [by rewrite Hlen|].
  exists W'. eexists. exists old. eexists. rewrite (bind_inl _ _ _ _ _ E1). split; [exact E'|].
  split; [exact Hh'|]. split; [reflexivity|].
  assert (w_id old <> id) as Hne.
  { rewrite Ho1. unfold id. intros E%account_id_inj; lia. }
  split_and_all.
  - apply list_elem_of_In, List.filter_In. split; [apply list_elem_of_In; by eapply list_elem_of_lookup_2|].
    by rewrite bool_decide_eq_false_2.
  - cbn [created w_id]. by rewrite Ho1, Hlen.
  - cbn [created w_accountIndex]. by rewrite Ho2, Hlen.
  - exact Ha.
Qed.
End Accounts.

(** ** Set-up and unlocking *)

Section Unlock.
Context {K : KV} {L : KVLaws K} {C : Crypto} {CL : CryptoLaws C}.

Lemma unlock_run salt p p' attempts (W : world K) :
  guarded W salt p -> bytes_ok salt -> salt <> [] -> trim p' <> [] ->
  exists n u, handleUnlock p' attempts W = (W, inl (n, u))
    /\ (if bool_decide (stretched p' salt = stretched p salt) then n = attempts /\ u = Route (js "/beranda")
        else n = attempts + 1 /\ u <> Route (js "/beranda")).
Proof.
  intros Hg Hs Hne Ht. unfold handleUnlock. destruct (trim p') as [|c t]; [done|].
  rewrite (bind_inl _ _ _ _ _ (run_hasPassword W salt p Hg)). cbn [negb].
  rewrite (bind_inl _ _ _ _ _ (run_verify W salt p p' Hg Hs Hne)).
  clear Hg. destruct (bool_decide _); [by eexists _, _|]. destruct (MAX_ATTEMPTS <=? attempts + 1); by eexists _, _.
Qed.

Lemma run_open random mnemonic password key (W : world K) :
  deriveKey mnemonic 0 = Some key -> bytes_ok random -> random <> [] ->
  exists W', handleOpen random mnemonic password false W = (W', inl (Route (js "/beranda")))
    /\ holds W' (first_wallet mnemonic (Pages.first_account key (deriveQuantumKey mnemonic 0)))
    /\ (password <> [] -> guarded W' random password).
Proof.
  intros Hk Hr Hne. set (a := Pages.first_account _ _). destruct (run_save mnemonic a W) as (W1 & E1 & H1 & H2 & H3 & H4).
  set (q := q_address (deriveQuantumKey mnemonic 0)).
  set (W2 := sset QUANTUM_ADDRESS q W1).
  unfold handleOpen. destruct password as [|c pw].
  - exists W2. split; [|split; [unfold holds, W2; reads; done|done]].
    apply try_inl. rewrite (bind_inl _ _ _ _ _ (derive_run _ _ _ W Hk)). cbv zeta.
    rewrite (bind_inl _ _ _ _ _ E1). unfold saveQuantumAddress.
    by rewrite (bind_inl _ _ _ _ _ (run_secureSet QUANTUM_ADDRESS q W1)).
  - exists (sset PASSWORD_HASH (toHex (stretched (c :: pw) random)) (sset PASSWORD_SALT (toHex random) W2)).
    split; [|split; [unfold holds, W2; reads; done|intros _; unfold guarded; reads; split; reflexivity]].
    apply try_inl. rewrite (bind_inl _ _ _ _ _ (derive_run _ _ _ W Hk)). cbv zeta.
    rewrite (bind_inl _ _ _ _ _ E1). unfold saveQuantumAddress.
    rewrite (bind_inl _ _ _ _ _ (run_secureSet QUANTUM_ADDRESS q W1)).
    by rewrite (bind_inl _ _ _ _ _ (run_savePassword random _ W2 Hr Hne)).
Qed.


(** A password of blanks locks the user out: the set-up accepts eight
    spaces, and unlocking ignores every attempt with a blank password, in every
    state of the device. *)
Theorem blank_password_locks_out (entropy : list Z) :
  let p := replicate 8 32 in
  handleSubmit entropy p p true = (Some (generateMnemonic entropy, p), Route (js "/frasa-pemulihan"))
  /\ forall attempts (W : world K), handleUnlock p attempts W = (W, inl (attempts, Ignored)).
Proof. intros p. split; [reflexivity|]. intros attempts W. reflexivity. Qed.
End Unlock.

(** ** Imported keys *)

Section Imported.
Context {K : KV} {L : KVLaws K} {C : Crypto} {CL : CryptoLaws C}.

Definition imported (W : world K) (w : StoredWallet) (name addr pub : jsstr) : WalletAccount :=
  {| w_id := js "imported-" ++ to_string 10 (clock W); w_name := or_text (trim name) (js "Akun Impor");
     w_address := addr; w_publicKey := pub; w_accountIndex := Z.of_nat (length (accounts w));
     w_quantumAddress := None |}.

Lemma imported_key_key id : imported_key id <> ACCOUNTS /\ imported_key id <> ACTIVE /\ imported_key id <> MNEMONIC
  /\ imported_key id <> WALLET_EXISTS /\ imported_key id <> PASSWORD_SALT /\ imported_key id <> PASSWORD_HASH.
Proof. split_and_all; apply not_eq_sym, imported_key_ne; key_ne. Qed.

(** The state after an import: the account is stored and selected, and its key is
    kept under its own name. *)
Lemma import_key_run pk name (W : world K) w addr pub :
  holds W w -> wallet_good w -> hex64 (trim pk) = true ->
  deriveKeyFromPrivate (toLowerCase (trim pk)) = Some (addr, pub) ->
  let a := imported W w name addr pub in
  exists W', handleImportKey pk name false W = (W', inl (success (w_name a) (js " berhasil diimpor.")))
    /\ holds W' (with_account a w) /\ sget W' (imported_key (w_id a)) = Some (toLowerCase (trim pk))
    /\ sget W' PASSWORD_SALT = sget W PASSWORD_SALT /\ sget W' PASSWORD_HASH = sget W PASSWORD_HASH.
Proof.
  intros Hh Hg Hx Hk a. destruct (imported_key_key (w_id a)) as (K1 & K2 & K3 & K4 & K5 & K6).
  pose proof (run_read W w Hh Hg) as Hr.
  set (W1 := sset ACCOUNTS (print_accounts (accounts w ++ [a])) W).
  set (W2 := sset (imported_key (w_id a)) (toLowerCase (trim pk)) W1).
  exists (aset ACTIVE (w_id a) W2). split; [|split; [|split; [|split]]].
  - unfold handleImportKey. rewrite Hx. cbn [negb orb]. apply try_inl.
    rewrite (bind_inl _ _ _ _ _ (run_load W w Hh Hg)). cbv zeta. rewrite Hk.
    rewrite (bind_inl (gets clock) _ W W (clock W) eq_refl). cbn [account_count]. fold a.
    assert (addAccount a W = (W1, inl tt)) as E.
    { unfold addAccount. rewrite (bind_inl _ _ _ _ _ Hr). by rewrite run_secureSet. }
    unfold a in E at 1. unfold imported in E. rewrite (bind_inl _ _ _ _ _ E).
    unfold saveImportedKey. rewrite (bind_inl _ _ _ _ _ (run_secureSet _ _ W1)). reflexivity.
  - destruct Hh as (H1 & H2 & H3 & H4). unfold holds, with_account. cbn [mnemonic accounts activeAccountId].
    unfold W2, W1. rewrite aget_aset. rewrite !sget_aset_ne by key_ne. rewrite !(sget_sset_ne (imported_key _)) by done.
    rewrite sget_sset. rewrite !sget_sset_ne by key_ne. done.
  - rewrite sget_aset_ne by congruence. apply sget_sset.
  - unfold W2, W1. rewrite sget_aset_ne by key_ne. rewrite sget_sset_ne by done. by rewrite sget_sset_ne by key_ne.
  - unfold W2, W1. rewrite sget_aset_ne by key_ne. rewrite sget_sset_ne by done. by rewrite sget_sset_ne by key_ne.
Qed.

(** The private key shown for an imported account is not its key: after a
    private key is imported, the stored account has the address of that key, but
    the page that reveals the key of the account shows the key of the wallet's own
    phrase at the account's place in the list, whatever was imported. *)
Theorem imported_account_reveals_other_key (pk name pw addr pub : jsstr) (salt : list Z) (W : world K)
    (w : StoredWallet) (k : DerivedKey) :
  holds W w -> wallet_good w -> hex64 (trim pk) = true ->
  deriveKeyFromPrivate (toLowerCase (trim pk)) = Some (addr, pub) ->
  guarded W salt pw -> bytes_ok salt -> salt <> [] ->
  deriveKey (mnemonic w) (Z.of_nat (length (accounts w))) = Some k ->
  exists W' a, handleImportKey pk name false W = (W', inl (success (w_name a) (js " berhasil diimpor.")))
    /\ holds W' (with_account a w) /\ w_address a = addr
    /\ getImportedKey (w_id a) W' = (W', inl (Some (toLowerCase (trim pk))))
    /\ exists q, revealKey pw (Some a) W' = (W', inl (Some (privateKeyHex k, q), Route [])).
Proof.
  intros Hh Hg Hx Hk Hpw Hs Hne Hd.
  destruct (import_key_run pk name W w addr pub Hh Hg Hx Hk) as (W' & E & Hh' & Hi & Hs1 & Hs2).
  exists W', (imported W w name addr pub). split; [exact E|]. split; [exact Hh'|]. split; [reflexivity|].
  split; [unfold getImportedKey; by rewrite run_secureGet, Hi|].
  assert (guarded W' salt pw) as Hg' by (destruct Hpw; split; congruence).
  exists (q_secretKeyHex (deriveQuantumKey (mnemonic w) (Z.of_nat (length (accounts w))))).
  unfold revealKey. rewrite (bind_inl _ _ _ _ _ (run_verify W' salt pw pw Hg' Hs Hne)).
  rewrite bool_decide_eq_true_2 by reflexivity. cbn [negb].
  destruct Hh' as (_ & Hm & _). cbn [with_account mnemonic] in Hm. destruct Hg as (Hmn & _).
  unfold getMnemonic. rewrite (bind_inl _ _ _ _ _ (run_secureGet MNEMONIC W')), Hm.
  destruct (mnemonic w) as [|c m]; [done|]. cbn [text_truthy].
  cbv zeta. rewrite (bind_inl _ _ _ _ _ (derive_run _ _ k W' Hd)). reflexivity.
Qed.
End Imported.

(** ** Witnesses *)

(** A device with a wallet of three accounts. *)
Definition no_key : DerivedKey :=
  {| privateKey := []; publicKey := []; address := []; privateKeyHex := []; publicKeyHex := [] |}.

Definition sample_key (i : Z) : DerivedKey := default no_key (deriveKey (C := toy) (js "abandon ability") i).

Definition sample_created (i : Z) : WalletAccount := created i (js "Akun") (sample_key i).

Definition sample_wallet : StoredWallet :=
  Eval vm_compute in
    {| mnemonic := js "abandon ability"; accounts := map sample_created [0; 1; 2];
       activeAccountId := account_id 0 |}.

Definition device_of (w : StoredWallet) : world map_kv :=
  sset WALLET_EXISTS TRUE (sset MNEMONIC (mnemonic w) (sset ACCOUNTS (print_accounts (accounts w))
    (aset ACTIVE (activeAccountId w) (empty_device false)))).

Lemma device_holds w : holds (device_of w) w.
Proof. unfold holds, device_of. reads. done. Qed.

Lemma sample_good : wallet_good sample_wallet.
Proof.
  split; [done|]. split; [done|]. split; [vm_compute; reflexivity|].
  split; [by apply (bool_decide_unpack _); vm_compute|done].
Qed.

Lemma sample_numbered : numbered (C := toy) sample_wallet.
Proof.
  intros [|[|[|j]]] a Hj; try done; injection Hj as <-; (split; [vm_compute; reflexivity|]);
    (split; [reflexivity|]); eexists; (split; [vm_compute; reflexivity|]); split; vm_compute; reflexivity.
Qed.

Lemma create_keeps_numbering_witness :
  exists W' w', handleCreate (C := toy) (js "Akun 4") (device_of sample_wallet)
      = (W', inl (success (js "Akun 4") (js " berhasil dibuat.")))
    /\ holds W' w' /\ numbered (C := toy) w'.
Proof.
  destruct (create_keeps_numbering (C := toy) (js "Akun 4") (device_of sample_wallet) sample_wallet
    (sample_key 3))
    as (W' & w' & E & Hh & Hn & _);
    [apply device_holds|apply sample_good|apply sample_numbered|done|vm_compute; reflexivity|].
  exists W', w'. split; [exact E|]. split; [exact Hh|exact Hn].
Defined.

Lemma create_after_remove_repeats_witness :
  exists W' w' old new, (removeAccount (account_id 1) ;;! handleCreate (C := toy) (js "Akun 4")) (device_of sample_wallet)
      = (W', inl (success (js "Akun 4") (js " berhasil dibuat.")))
    /\ accounts w' = without (account_id 1) (accounts sample_wallet) ++ [new] /\ w_id old = w_id new.
Proof.
  destruct (create_after_remove_repeats (C := toy) 1 (js "Akun 4") (device_of sample_wallet) sample_wallet)
    as (W' & w' & old & new & E & _ & Ha & _ & Hi & _);
    [apply device_holds|apply sample_good|apply sample_numbered|vm_compute; lia|done|].
  exists W', w', old, new. split; [exact E|]. split; [exact Ha|exact Hi].
Defined.


Definition sample_import : jsstr * jsstr := default ([], []) (deriveKeyFromPrivate (C := toy) (replicate 64 97)).

Lemma imported_account_reveals_other_key_witness :
  let W := sset PASSWORD_HASH (toHex (stretched (C := toy) (js "rahasia1") (replicate 32 7)))
    (sset PASSWORD_SALT (toHex (replicate 32 7)) (device_of sample_wallet)) in
  exists W' a, handleImportKey (C := toy) (replicate 64 97) (js "Impor") false W
    = (W', inl (success (w_name a) (js " berhasil diimpor."))) /\ holds W' (with_account a sample_wallet).
Proof.
  intros W. destruct (imported_account_reveals_other_key (C := toy) (replicate 64 97) (js "Impor") (js "rahasia1")
    sample_import.1 sample_import.2 (replicate 32 7) W sample_wallet (sample_key 3))
    as (W' & a & E & Hh & _).
  - destruct (device_holds sample_wallet) as (H1 & H2 & H3 & H4). unfold holds, W. reads.
    exact (conj H1 (conj H2 (conj H3 H4))).
  - apply sample_good.
  - vm_compute. reflexivity.
  - vm_compute. reflexivity.
  - unfold guarded, W. reads. split; reflexivity.
  - by apply Forall_replicate.
  - done.
  - vm_compute. reflexivity.
  - exists W', a. split; [exact E|exact Hh].
Defined.
