(* ===== verification/HomeScreen.v ===== *)
(** * The home screen of the mobile wallet

    [BerandaScreen] of src/mobile/app/beranda.tsx: what it shows of the wallet, and
    the computations that set it. Each of them stops at its [await]s, so several
    can be under way at once; a step of the model settles one pending promise and
    runs the code up to the next one. A call of wallet-storage.ts takes effect when
    its promise settles. *)

From stdpp Require Import gmap.
From S2P Require Import Prelude JsText Amounts Keys Store WalletStorage WalletProofs Api Pages PagesProofs.
Local Open Scope Z_scope.
Local Open Scope io_scope.

Record WalletItem := {
  i_id : jsstr;
  i_label : jsstr;
  i_initial : jsstr;
  i_address : jsstr;
  i_accountIndex : Z
}.

Record home := {
  activeWallet : jsstr;
  walletItems : list WalletItem;
  walletAddress : jsstr;
  quantumAddress : jsstr;
  walletName : jsstr;
  balanceSatoshi : val;
  txHistory : val;
  balanceLoading : bool;
  liveStablecoins : list AssetEntry;
  liveStocks : list AssetEntry;
  assetsLoading : bool
}.

Definition home_start : home := {|
  activeWallet := js "account-0"; walletItems := []; walletAddress := []; quantumAddress := [];
  walletName := js "Akun 1"; balanceSatoshi := VNum (of_Z 0); txHistory := VArr []; balanceLoading := false;
  liveStablecoins := []; liveStocks := []; assetsLoading := false |}.

(** Where a computation waits. *)
Inductive waiting :=
| MountLoad
| MountQuantum
| MountInfo (address : jsstr)
| AssetCoins
| AssetStocks (sc : list AssetEntry)
| RefreshInfo (address : jsstr)
| SwitchSet (id : jsstr)
| SwitchLoad (id : jsstr)
| SwitchInfo (address : jsstr).

Definition set_account (id : jsstr) (a : WalletAccount) (s : home) : home := {|
  activeWallet := id; walletItems := walletItems s; walletAddress := w_address a; quantumAddress := quantumAddress s;
  walletName := w_name a; balanceSatoshi := balanceSatoshi s; txHistory := txHistory s; balanceLoading := true;
  liveStablecoins := liveStablecoins s; liveStocks := liveStocks s; assetsLoading := assetsLoading s |}.

Definition set_active (id : jsstr) (s : home) : home := {|
  activeWallet := id; walletItems := walletItems s; walletAddress := walletAddress s; quantumAddress := quantumAddress s;
  walletName := walletName s; balanceSatoshi := balanceSatoshi s; txHistory := txHistory s;
  balanceLoading := balanceLoading s; liveStablecoins := liveStablecoins s; liveStocks := liveStocks s;
  assetsLoading := assetsLoading s |}.

Definition set_items (l : list WalletItem) (s : home) : home := {|
  activeWallet := activeWallet s; walletItems := l; walletAddress := walletAddress s; quantumAddress := quantumAddress s;
  walletName := walletName s; balanceSatoshi := balanceSatoshi s; txHistory := txHistory s;
  balanceLoading := balanceLoading s; liveStablecoins := liveStablecoins s; liveStocks := liveStocks s;
  assetsLoading := assetsLoading s |}.

Definition set_quantum (q : option jsstr) (s : home) : home :=
  if text_truthy q then {|
    activeWallet := activeWallet s; walletItems := walletItems s; walletAddress := walletAddress s;
    quantumAddress := default [] q; walletName := walletName s; balanceSatoshi := balanceSatoshi s;
    txHistory := txHistory s; balanceLoading := balanceLoading s; liveStablecoins := liveStablecoins s;
    liveStocks := liveStocks s; assetsLoading := assetsLoading s |}
  else s.

Definition set_info (balance txs : val) (loading : bool) (s : home) : home := {|
  activeWallet := activeWallet s; walletItems := walletItems s; walletAddress := walletAddress s;
  quantumAddress := quantumAddress s; walletName := walletName s; balanceSatoshi := balance; txHistory := txs;
  balanceLoading := loading; liveStablecoins := liveStablecoins s; liveStocks := liveStocks s;
  assetsLoading := assetsLoading s |}.

Definition set_assets (sc st : list AssetEntry) (loading : bool) (s : home) : home := {|
  activeWallet := activeWallet s; walletItems := walletItems s; walletAddress := walletAddress s;
  quantumAddress := quantumAddress s; walletName := walletName s; balanceSatoshi := balanceSatoshi s;
  txHistory := txHistory s; balanceLoading := balanceLoading s; liveStablecoins := sc; liveStocks := st;
  assetsLoading := loading |}.

(** [info.balance ?? 0] and [info.transactions ?? []] *)
Definition info_balance (info : val) : val := vor (vprop info (js "balance")) (VNum (of_Z 0)).
Definition info_txs (info : val) : val := vor (vprop info (js "transactions")) (VArr []).

Section Screen.
Context {K : KV} (toUpperCase : jsstr -> jsstr).

Definition item_of (acc : WalletAccount) : WalletItem :=
  {| i_id := w_id acc; i_label := w_name acc; i_initial := toUpperCase (take 1 (w_name acc));
     i_address := w_address acc; i_accountIndex := w_accountIndex acc |}.

(** The label in the header. *)
Definition currentWallet (s : home) : jsstr :=
  match List.find (fun i => bool_decide (i_id i = activeWallet s)) (walletItems s) with
  | Some i => i_label i
  | None => match walletItems s with i :: _ => i_label i | [] => walletName s end
  end.

(** The first effects: both start at once. *)
Definition mount (s : home) : home * list waiting :=
  (set_assets (liveStablecoins s) (liveStocks s) true s, [AssetCoins; MountLoad]).

Definition refreshBalance (s : home) : list waiting :=
  match walletAddress s with [] => [] | a => [RefreshInfo a] end.

Definition handleSwitchAccount (id : jsstr) : list waiting := [SwitchSet id].

Definition mount_loaded (wallet : option StoredWallet) (s : home) : home * list waiting :=
  match wallet with
  | None => (s, [])
  | Some w =>
      let s := set_active (activeAccountId w) (set_items (map item_of (accounts w)) s) in
      match (match find_id (activeAccountId w) (accounts w) with Some a => Some a | None => head (accounts w) end) with
      | None => (s, [])
      | Some active =>
          let s := set_account (activeAccountId w) active s in
          if text_truthy (w_quantumAddress active)
          then (set_quantum (w_quantumAddress active) s, [MountInfo (w_address active)])
          else (s, [MountQuantum; MountInfo (w_address active)])
      end
  end.

Definition switch_loaded (id : jsstr) (wallet : option StoredWallet) (s : home) : home * list waiting :=
  match wallet with
  | None => (s, [])
  | Some w =>
      match find_id id (accounts w) with
      | None => (s, [])
      | Some active => (set_account (activeWallet s) active s, [SwitchInfo (w_address active)])
      end
  end.

(** The promise a computation waits for settles: the screen after the code that
    follows, and where the computation waits next. *)
Definition resume (t : waiting) (s : home) : IO (home * list waiting) :=
  match t with
  | MountLoad => try (let! wallet := loadWallet in ret (mount_loaded wallet s)) (fun _ => ret (s, []))
  | MountQuantum => try (let! qa := getQuantumAddress in ret (set_quantum qa s, [])) (fun _ => ret (s, []))
  | MountInfo a =>
      try (let! info := getAddressInfo a in ret (set_info (info_balance info) (info_txs info) false s, []))
        (fun _ => ret (set_info (balanceSatoshi s) (txHistory s) false s, []))
  | AssetCoins =>
      try (let! sc := getStablecoinList in ret (s, [AssetStocks sc]))
        (fun _ => ret (set_assets (liveStablecoins s) (liveStocks s) false s, []))
  | AssetStocks sc =>
      try (let! st := getStockList in ret (set_assets sc st false s, []))
        (fun _ => ret (set_assets (liveStablecoins s) (liveStocks s) false s, []))
  | RefreshInfo a =>
      try (let! info := getAddressInfo a in ret (set_info (info_balance info) (info_txs info) (balanceLoading s) s, []))
        (fun _ => ret (s, []))
  | SwitchSet id => try (setActiveAccount id ;;! ret (set_active id s, [SwitchLoad id])) (fun _ => ret (s, []))
  | SwitchLoad id => try (let! wallet := loadWallet in ret (switch_loaded id wallet s)) (fun _ => ret (s, []))
  | SwitchInfo a =>
      try (let! info := getAddressInfo a in ret (set_info (info_balance info) (info_txs info) false s, []))
        (fun _ => ret (set_info (VNum (of_Z 0)) (VArr []) false s, []))
  end.

(** ** Steps *)

Record screen_state := { sc_home : home; sc_waiting : list waiting; sc_world : world K }.

Inductive screen_event :=
| Refresh
| Switch (id : jsstr)
| Settle (i : nat) (reply : http_reply).

Definition with_reply (r : http_reply) (W : world K) : world K :=
  {| web := web W; secure := secure W; async := async W; replies := [r]; requests := requests W; clock := clock W |}.

Definition screen_next (x : screen_state) (e : screen_event) : screen_state :=
  match e with
  | Refresh =>
      {| sc_home := sc_home x; sc_waiting := sc_waiting x ++ refreshBalance (sc_home x); sc_world := sc_world x |}
  | Switch id =>
      {| sc_home := sc_home x; sc_waiting := sc_waiting x ++ handleSwitchAccount id; sc_world := sc_world x |}
  | Settle i r =>
      match sc_waiting x !! i with
      | None => x
      | Some t =>
          match resume t (sc_home x) (with_reply r (sc_world x)) with
          | (W', inl (s', ts)) => {| sc_home := s'; sc_waiting := delete i (sc_waiting x) ++ ts; sc_world := W' |}
          | (W', inr _) => {| sc_home := sc_home x; sc_waiting := delete i (sc_waiting x); sc_world := W' |}
          end
      end
  end.

Definition screen_init (W : world K) : screen_state :=
  let '(s, ts) := mount home_start in {| sc_home := s; sc_waiting := ts; sc_world := W |}.

Definition screen_run (W : world K) (es : list screen_event) : screen_state := foldl screen_next (screen_init W) es.
End Screen.

(** ** Calls that leave the stores alone *)

Section Reading.
Context {K : KV}.

Definition same_stores (W W' : world K) : Prop := web W' = web W /\ secure W' = secure W /\ async W' = async W.

Definition reading {A} (m : IO A) : Prop := forall W, same_stores W (m W).1.

Lemma reading_ret {A} (a : A) : reading (ret a).
Proof. done. Qed.
Lemma reading_throw {A} e : reading (throw (A := A) e).
Proof. done. Qed.
Lemma reading_gets {A} (f : world K -> A) : reading (gets f).
Proof. done. Qed.
Lemma reading_fetch q : reading (fetch q).
Proof. intros W. unfold fetch. by destruct (replies W). Qed.

Lemma reading_bind {A B} (m : IO A) (k : A -> IO B) : reading m -> (forall a, reading (k a)) -> reading (bind m k).
Proof.
  intros Hm Hk W. unfold bind. specialize (Hm W). destruct (m W) as [W1 [a|e]]; [|done]. specialize (Hk a W1).
  destruct Hm as (H1 & H2 & H3), Hk as (H4 & H5 & H6). cbn [fst] in *. rewrite H1 in H4. rewrite H2 in H5. rewrite H3 in H6. done.
Qed.

Lemma reading_try {A} (m : IO A) h : reading m -> (forall e, reading (h e)) -> reading (try m h).
Proof.
  intros Hm Hh W. unfold try. specialize (Hm W). destruct (m W) as [W1 [a|e]]; [done|]. specialize (Hh e W1).
  destruct Hm as (H1 & H2 & H3), Hh as (H4 & H5 & H6). cbn [fst] in *. rewrite H1 in H4. rewrite H2 in H5. rewrite H3 in H6. done.
Qed.

Lemma reading_vfield v k : reading (vfield v k).
Proof. by destruct v. Qed.

Lemma reading_map_io {A B} (f : A -> IO B) l : (forall a, reading (f a)) -> reading (map_io f l).
Proof.
  intros Hf. induction l as [|a l IH]; [apply reading_ret|]. cbn [map_io].
  apply reading_bind; [apply Hf|]. intros b. apply reading_bind; [exact IH|]. intros bs. apply reading_ret.
Qed.
End Reading.

Create HintDb reading.
#[export] Hint Resolve reading_ret reading_throw reading_gets reading_fetch reading_bind reading_try reading_vfield : reading.

Section Readers.
Context {K : KV}.

Lemma reading_apiGet path : reading (apiGet path).
Proof.
  unfold apiGet, apiFetch. apply reading_bind; [auto with reading|]. intros web. apply reading_bind; [auto with reading|].
  intros [e|status st tx [v|e]]; [auto with reading| |]; destruct (negb _); auto with reading.
Qed.

Lemma reading_pick2 v k1 k2 : reading (pick2 v k1 k2).
Proof. unfold pick2. apply reading_bind; [auto with reading|]. intros []; auto with reading. Qed.

Lemma reading_each {B} v (f : val -> IO B) : (forall a, reading (f a)) -> reading (each v f).
Proof. intros Hf. destruct v; try apply reading_throw. by apply reading_map_io. Qed.

#[local] Hint Resolve reading_apiGet reading_pick2 reading_each : reading.

Lemma reading_coins : reading getStablecoinList.
Proof. unfold getStablecoinList. auto 10 with reading. Qed.

Lemma reading_stocks : reading getStockList.
Proof. unfold getStockList. auto 10 with reading. Qed.
End Readers.

(** ** Runs of the screen on a stored wallet *)

(** The address a computation asks the server about. *)
Definition asks (t : waiting) : option jsstr :=
  match t with MountInfo a | RefreshInfo a | SwitchInfo a => Some a | _ => None end.

Section Runs.
Context {K : KV} {L : KVLaws K} (toUpperCase : jsstr -> jsstr).
Context (w : StoredWallet) (W0 : world K) (server : jsstr -> http_reply).

(** Settled promises in any order; the server's answers to one question are the
    same during the run, and the user picks accounts of the list. *)
Inductive runs_to : screen_state (K := K) -> Prop :=
| run_init : runs_to (screen_init W0)
| run_refresh x : runs_to x -> runs_to (screen_next toUpperCase x Refresh)
| run_switch x id : runs_to x -> id ∈ ids w -> runs_to (screen_next toUpperCase x (Switch id))
| run_settle x i t r :
    runs_to x -> sc_waiting x !! i = Some t -> (forall a, asks t = Some a -> r = server a) ->
    runs_to (screen_next toUpperCase x (Settle i r)).

(** What the screen shows of an address: the balance and the transactions. *)
Definition answered (a : jsstr) : option (val * val) :=
  match (getAddressInfo a (with_reply (server a) W0)).2 with
  | inl info => Some (info_balance info, info_txs info)
  | inr _ => None
  end.

Lemma holds_same W W' v : same_stores W W' -> holds W v -> holds W' v.
Proof. intros (H1 & H2 & H3). unfold holds, sget, aget. by rewrite H1, H2, H3. Qed.

Lemma info_run a W : exists W',
  getAddressInfo a (with_reply (server a) W) = (W', (getAddressInfo a (with_reply (server a) W0)).2) /\ same_stores W W'.
Proof.
  unfold getAddressInfo, apiGet, apiFetch, bind, gets, fetch, with_reply, throw, ret. cbn -[js].
  destruct (server a) as [e|status st tx [v|e]]; [by eexists| |].
  - destruct (negb _); [by eexists|]. destruct v; by eexists.
  - destruct (negb _); by eexists.
Qed.

(** The wallet with another active account. *)
Definition active_at (id : jsstr) : StoredWallet := spec_op (SetActive id) w.

Definition known (a : jsstr) : Prop := exists acc, acc ∈ accounts w /\ w_address acc = a.

Definition task_ok (t : waiting) : Prop :=
  match t with
  | MountInfo a | RefreshInfo a | SwitchInfo a => known a
  | SwitchSet id | SwitchLoad id => id ∈ ids w
  | _ => True
  end.

(** What the screen shows is of the stored wallet: address and name belong to one
    account, balance and history are the server's for one account, or nothing. *)
Definition shows (s : home) : Prop :=
  (walletAddress s = [] \/ exists acc, acc ∈ accounts w /\ walletAddress s = w_address acc /\ walletName s = w_name acc)
  /\ ((balanceSatoshi s, txHistory s) = (VNum (of_Z 0), VArr [])
      \/ exists a, known a /\ answered a = Some (balanceSatoshi s, txHistory s)).

(** Once the first load is through, the highlighted account is the stored one. *)
Definition highlights (x : screen_state) (id : jsstr) : Prop :=
  MountLoad ∈ sc_waiting x
  \/ walletItems (sc_home x) = map (item_of toUpperCase) (accounts w) /\ activeWallet (sc_home x) = id.

Definition screen_ok (x : screen_state) : Prop :=
  Forall task_ok (sc_waiting x) /\ shows (sc_home x)
  /\ exists id, id <> [] /\ holds (sc_world x) (active_at id) /\ highlights x id.

Hypothesis Hgood : wallet_good w.

Lemma id_nonempty id : id ∈ ids w -> id <> [].
Proof.
  intros Hin. destruct Hgood as (_ & _ & Ha & _). unfold ids in Hin. apply list_elem_of_In, in_map_iff in Hin as (a & <- & Hin).
  rewrite forallb_forall in Ha. specialize (Ha a Hin). unfold account_good in Ha. apply andb_true_iff in Ha as [_ Ha].
  by case_bool_decide.
Qed.

Lemma active_good id : id <> [] -> wallet_good (active_at id).
Proof. intros Hid. by apply spec_op_good. Qed.

Lemma load_at id W : id <> [] -> holds W (active_at id) -> loadWallet W = (W, inl (Some (active_at id))).
Proof. intros Hid Hh. apply run_load; [done|by apply active_good]. Qed.

Lemma find_known id l a : find_id id l = Some a -> a ∈ l /\ w_id a = id.
Proof.
  unfold find_id. intros [Hin Hb]%List.find_some. apply list_elem_of_In in Hin. split; [done|].
  by apply bool_decide_eq_true in Hb.
Qed.

Lemma reply_holds r W v : holds W v -> holds (with_reply r W) v.
Proof. by apply holds_same. Qed.

Lemma known_account acc : acc ∈ accounts w -> known (w_address acc).
Proof. intros H. by exists acc. Qed.

(** The screen after the request for an address has been answered, whichever
    computation sent it. *)
Lemma shows_info s a loading :
  shows s -> known a ->
  match answered a with
  | Some (b, t) => shows (set_info b t loading s)
  | None => shows (set_info (balanceSatoshi s) (txHistory s) loading s)
            /\ shows (set_info (VNum (of_Z 0)) (VArr []) loading s)
  end.
Proof.
  intros [H1 H2] Hk. destruct (answered a) as [[b t]|] eqn:E.
  - split; [exact H1|]. right. by exists a.
  - split; [by split|]. split; [exact H1|by left].
Qed.

Lemma resume_info t a s W :
  asks t = Some a -> known a -> shows s ->
  exists W' s', resume toUpperCase t s (with_reply (server a) W) = (W', inl (s', [])) /\ same_stores W W'
    /\ shows s' /\ walletItems s' = walletItems s /\ activeWallet s' = activeWallet s.
Proof.
  intros Ht Hk Hs. destruct (info_run a W) as (W' & E & Hw).
  pose proof (fun l => shows_info s a l Hs Hk) as Hi. unfold answered in Hi.
  destruct (getAddressInfo a (with_reply (server a) W0)).2 as [info|e]; destruct t; try done; injection Ht as ->;
    unfold resume, try, bind; rewrite E; eexists _, _; (split; [reflexivity|]); (split; [exact Hw|]);
    (split; [|done]); first [exact (Hi _)|apply (Hi _)|exact Hs].
Qed.

(** A computation resumed in a good state: it does not fail, and what it does to
    the screen and the stored wallet. *)
Definition resumed (t : waiting) (s : home) (id : jsstr) (r : world K * ((home * list waiting) + jsstr)) : Prop :=
  exists W' s' ts id', r = (W', inl (s', ts)) /\ Forall task_ok ts /\ shows s' /\ id' <> [] /\ holds W' (active_at id')
    /\ (t = MountLoad /\ walletItems s' = map (item_of toUpperCase) (accounts w) /\ activeWallet s' = id'
        \/ t <> MountLoad /\ walletItems s' = walletItems s /\ (activeWallet s = id -> activeWallet s' = id')).

Lemma shows_quantum q s : shows s -> shows (set_quantum q s).
Proof. unfold set_quantum. by destruct (text_truthy q). Qed.

Lemma mount_resumed s id W : shows s -> id <> [] -> holds W (active_at id) ->
  resumed MountLoad s id (resume toUpperCase MountLoad s W).
Proof.
  intros [_ Hb] Hid Hh. unfold resume, try, bind. rewrite (load_at id W Hid Hh).
  assert (exists acc, acc ∈ accounts w
    /\ (match find_id id (accounts w) with Some a => Some a | None => head (accounts w) end) = Some acc) as (acc & Hin & E).
  { destruct (find_id id (accounts w)) as [a|] eqn:E; [exists a; by apply find_known in E as []|].
    destruct Hgood as (_ & Hne & _). destruct (accounts w) as [|a l]; [done|]. exists a. split; [left|done]. }
  unfold mount_loaded. cbn [activeAccountId accounts active_at spec_op]. rewrite E.
  destruct (text_truthy (w_quantumAddress acc)) eqn:Eq; eexists _, _, _, id; (split; [reflexivity|]).
  - split; [apply Forall_singleton; by apply known_account|]. split; [apply shows_quantum; split; [right; by exists acc|done]|].
    split; [done|]. split; [done|]. left. unfold set_quantum. by rewrite Eq.
  - split; [apply Forall_cons; split; [done|]; apply Forall_singleton; by apply known_account|].
    split; [split; [right; by exists acc|done]|]. split; [done|]. split; [done|]. by left.
Qed.

Lemma active_written id id' W : holds W (active_at id) -> holds (aset ACTIVE id' W) (active_at id').
Proof.
  intros (H1 & H2 & H3 & H4). unfold holds. cbn [mnemonic accounts activeAccountId active_at spec_op] in *. reads. done.
Qed.

Lemma set_run id s W :
  resume toUpperCase (SwitchSet id) s W = (aset ACTIVE id W, inl (set_active id s, [SwitchLoad id])).
Proof. done. Qed.

Lemma load_run id id' s W : id <> [] -> holds W (active_at id) ->
  resume toUpperCase (SwitchLoad id') s W = (W, inl (switch_loaded id' (Some (active_at id)) s)).
Proof. intros Hid Hh. unfold resume, try, bind. by rewrite (load_at id W Hid Hh). Qed.

Lemma switch_load_resumed s id id' W : shows s -> id <> [] -> id' ∈ ids w -> holds W (active_at id) ->
  resumed (SwitchLoad id') s id (resume toUpperCase (SwitchLoad id') s W).
Proof.
  intros [Ha Hb] Hid Hin Hh. rewrite (load_run id) by done. unfold switch_loaded. cbn [accounts active_at spec_op].
  destruct (find_id id' (accounts w)) as [acc|] eqn:E; eexists _, _, _, id; (split; [reflexivity|]).
  - apply find_known in E as [Hacc _]. split; [apply Forall_singleton; by apply known_account|].
    split; [split; [right; by exists acc|done]|]. split; [done|]. split; [done|]. by right.
  - split; [done|]. split; [done|]. split; [done|]. split; [done|]. by right.
Qed.

Lemma switch_set_resumed s id id' W : shows s -> id' ∈ ids w -> holds W (active_at id) ->
  resumed (SwitchSet id') s id (resume toUpperCase (SwitchSet id') s W).
Proof.
  intros Hs Hin Hh. eexists _, _, _, id'. split; [apply set_run|].
  split; [by apply Forall_singleton|]. split; [done|]. split; [by apply id_nonempty|].
  split; [by apply (active_written id)|by right].
Qed.

Lemma other_resumed t s id W :
  match t with AssetCoins | AssetStocks _ | MountQuantum => True | _ => False end ->
  shows s -> id <> [] -> holds W (active_at id) -> resumed t s id (resume toUpperCase t s W).
Proof.
  intros Ht Hs Hid Hh. pose proof reading_coins as R1. pose proof reading_stocks as R2.
  assert (reading (resume toUpperCase t s)) as Hm.
  { destruct t; try done; unfold resume, getQuantumAddress, secureGet, asyncGet, secureStoreGet;
      (apply reading_try; [apply reading_bind|]); auto with reading.
    apply reading_bind; [auto with reading|]. intros []; auto with reading. }
  assert (exists s' ts, (resume toUpperCase t s W).2 = inl (s', ts) /\ Forall task_ok ts /\ shows s'
     /\ walletItems s' = walletItems s /\ activeWallet s' = activeWallet s) as (s' & ts & E & Hts & Hs' & Hi & Ha).
  { destruct t; try done; unfold resume, try, bind.
    - unfold getQuantumAddress. rewrite run_secureGet. eexists _, _. split; [reflexivity|]. split; [done|].
      split; [by apply shows_quantum|]. unfold set_quantum. by destruct (text_truthy _).
    - destruct (getStablecoinList W) as [W' [sc|e]]; eexists _, _; (split; [reflexivity|]); [|done].
      split; [by apply Forall_singleton|done].
    - destruct (getStockList W) as [W' [st|e]]; by eexists _, _. }
  specialize (Hm W). destruct (resume toUpperCase t s W) as [W' r]. cbn in E. subst r.
  exists W', s', ts, id. split; [done|]. split; [done|]. split; [done|]. split; [done|].
  split; [by apply (holds_same W)|]. right. split; [by destruct t|]. split; [done|]. congruence.
Qed.

Lemma resume_ok t s id W r :
  task_ok t -> shows s -> id <> [] -> holds W (active_at id) -> (forall a, asks t = Some a -> r = server a) ->
  resumed t s id (resume toUpperCase t s (with_reply r W)).
Proof.
  intros Ht Hs Hid Hh Hr. pose proof (reply_holds r W _ Hh) as Hh'. destruct (asks t) as [a|] eqn:Ea.
  - rewrite (Hr a eq_refl). assert (known a) as Hk by (destruct t; try done; by injection Ea as ->).
    destruct (resume_info t a s W Ea Hk Hs) as (W' & s' & E & Hw & Hs' & Hi & Hact).
    exists W', s', [], id. split; [done|]. split; [done|]. split; [done|]. split; [done|].
    split; [by apply (holds_same W)|]. right. split; [by destruct t|]. split; [done|]. congruence.
  - destruct t; try done; try (by apply other_resumed).
    + by apply mount_resumed.
    + by apply switch_set_resumed.
    + by apply switch_load_resumed.
Qed.

Lemma elem_of_delete_ne {A} (l : list A) i x y : l !! i = Some x -> x <> y -> y ∈ l -> y ∈ delete i l.
Proof.
  intros Hi Hne Hy. rewrite <- (take_drop_middle l i x Hi) in Hy. rewrite delete_take_drop.
  rewrite elem_of_app, elem_of_cons in Hy. rewrite elem_of_app.
  destruct Hy as [Hy|[Hy|Hy]]; [by left|by subst|by right].
Qed.

Lemma screen_sound x : holds W0 w -> runs_to x -> screen_ok x.
Proof.
  intros H0. induction 1 as [|x _ IH|x id _ IH Hin|x i t r _ IH Hi Hr].
  - split; [by repeat constructor|]. split; [split; by left|]. exists (activeAccountId w).
    split; [apply Hgood|]. split; [exact H0|]. left. by right; left.
  - destruct IH as (H1 & H2 & id & Hid & Hh & Hl). split; [|split; [done|]].
    + apply Forall_app. split; [done|]. unfold refreshBalance. destruct (walletAddress (sc_home x)) eqn:E; [done|].
      apply Forall_singleton. destruct H2 as [[H2|(acc & Hacc & Ha & _)] _]; [congruence|]. exists acc. by rewrite <- E.
    + exists id. split; [done|]. split; [done|]. destruct Hl as [Hl|Hl]; [left; apply elem_of_app; by left|by right].
  - destruct IH as (H1 & H2 & id' & Hid & Hh & Hl). split; [|split; [done|]].
    + apply Forall_app. split; [done|]. by apply Forall_singleton.
    + exists id'. split; [done|]. split; [done|]. destruct Hl as [Hl|Hl]; [left; apply elem_of_app; by left|by right].
  - destruct IH as (H1 & H2 & id & Hid & Hh & Hl). unfold screen_next. rewrite Hi.
    assert (task_ok t) as Ht by (rewrite Forall_forall in H1; by apply H1, (list_elem_of_lookup_2 _ i)).
    destruct (resume_ok t (sc_home x) id (sc_world x) r Ht H2 Hid Hh Hr) as (W' & s' & ts & id' & E & Hts & Hs' & Hid' & Hh' & Hc).
    rewrite E. split; [apply Forall_app; split; [|done]; rewrite delete_take_drop; apply Forall_app; split; [by apply Forall_take|by apply Forall_drop]|].
    split; [done|]. exists id'. split; [done|]. split; [done|]. destruct Hc as [(-> & Hc)|(Hne & Hit & Hac)]; [by right|].
    destruct Hl as [Hl|[Hl1 Hl2]].
    + left. apply elem_of_app. left. by apply (elem_of_delete_ne _ _ t).
    + right. cbn. rewrite Hit. auto.
Qed.

(** ** Switching *)

Definition info_shown (a : jsstr) : val * val := default (VNum (of_Z 0), VArr []) (answered a).

Lemma switch_prefix x id0 id acc r1 r2 :
  holds (sc_world x) (active_at id0) -> id ∈ ids w -> find_id id (accounts w) = Some acc ->
  exists W', foldl (screen_next toUpperCase) x
      [Switch id; Settle (length (sc_waiting x)) r1; Settle (length (sc_waiting x)) r2]
    = {| sc_home := set_account id acc (sc_home x); sc_waiting := sc_waiting x ++ [SwitchInfo (w_address acc)];
         sc_world := W' |} /\ holds W' (active_at id).
Proof.
  intros Hh Hin Hf. destruct x as [s l W]. cbn [sc_world sc_waiting sc_home] in *. cbn [foldl].
  set (W1 := aset ACTIVE id (with_reply r1 W)).
  assert (holds W1 (active_at id)) as Hh1 by (apply (active_written id0), reply_holds, Hh).
  exists (with_reply r2 W1). split; [|by apply reply_holds].
  unfold screen_next at 3, handleSwitchAccount. cbn [sc_world sc_waiting sc_home].
  unfold screen_next at 2. cbn [sc_world sc_waiting sc_home]. rewrite list_lookup_middle by done. rewrite set_run.
  rewrite delete_middle, app_nil_r.
  unfold screen_next. cbn [sc_world sc_waiting sc_home]. rewrite list_lookup_middle by done.
  rewrite (load_run id id) by (try apply reply_holds; try done; by apply id_nonempty).
  unfold switch_loaded. cbn [accounts active_at spec_op]. rewrite Hf. by rewrite delete_middle, app_nil_r.
Qed.

Lemma settle_info x i a :
  sc_waiting x !! i = Some (SwitchInfo a) ->
  exists W', screen_next toUpperCase x (Settle i (server a))
    = {| sc_home := set_info (info_shown a).1 (info_shown a).2 false (sc_home x); sc_waiting := delete i (sc_waiting x);
         sc_world := W' |} /\ same_stores (sc_world x) W'.
Proof.
  intros Hi. unfold screen_next. rewrite Hi. destruct (info_run a (sc_world x)) as (W' & E & Hw). exists W'.
  split; [|done]. unfold resume, try, bind, info_shown, answered. rewrite E.
  destruct (getAddressInfo a (with_reply (server a) W0)).2; cbn; by rewrite app_nil_r.
Qed.

Lemma foldl_three {A B} (f : A -> B -> A) x a b c l : foldl f x (a :: b :: c :: l) = foldl f (foldl f x [a; b; c]) l.
Proof. done. Qed.


(** A switch that is left to finish shows the account: from a screen with
    nothing pending, after the three calls of [handleSwitchAccount] have settled
    the account is stored as active, and its address and name are shown with the
    server's balance for it, or zero when the server does not answer. *)
Theorem switch_shows_account (x : screen_state) (id : jsstr) (acc : WalletAccount) (r1 r2 : http_reply) :
  holds W0 w -> runs_to x -> sc_waiting x = [] -> id ∈ ids w -> find_id id (accounts w) = Some acc ->
  let y := foldl (screen_next toUpperCase) x
    [Switch id; Settle 0 r1; Settle 0 r2; Settle 0 (server (w_address acc))] in
  sc_home y = set_info (info_shown (w_address acc)).1 (info_shown (w_address acc)).2 false (set_account id acc (sc_home x))
  /\ sc_waiting y = [] /\ holds (sc_world y) (active_at id).
Proof.
  intros H0 Hx Hq Hin Hf y. destruct (screen_sound x H0 Hx) as (_ & _ & id0 & _ & Hh & _).
  destruct (switch_prefix x id0 id acc r1 r2 Hh Hin Hf) as (W1 & E1 & Hh1). rewrite Hq in E1. cbn [length app] in E1.
  unfold y. rewrite foldl_three, E1. cbn [foldl].
  destruct (settle_info {| sc_home := set_account id acc (sc_home x); sc_waiting := [SwitchInfo (w_address acc)];
    sc_world := W1 |} 0 (w_address acc) eq_refl) as (W2 & -> & Hw). split; [done|]. split; [done|]. by apply (holds_same W1).
Qed.

(** A late answer puts one account's balance under another: the user switches
    to one account and, before its balance has arrived, to a second one; when the
    second answer arrives first, the screen ends up with nothing pending, the
    second account highlighted and named, and the balance and history of the first. *)
Theorem late_answer_shows_other_balance (x : screen_state) (id1 id2 : jsstr) (acc1 acc2 : WalletAccount)
    (r1 r2 r3 r4 : http_reply) :
  holds W0 w -> runs_to x -> sc_waiting x = [] -> id1 ∈ ids w -> id2 ∈ ids w ->
  find_id id1 (accounts w) = Some acc1 -> find_id id2 (accounts w) = Some acc2 ->
  let y := foldl (screen_next toUpperCase) x
    [Switch id1; Settle 0 r1; Settle 0 r2; Switch id2; Settle 1 r3; Settle 1 r4;
     Settle 1 (server (w_address acc2)); Settle 0 (server (w_address acc1))] in
  sc_waiting y = [] /\ activeWallet (sc_home y) = id2 /\ walletAddress (sc_home y) = w_address acc2
  /\ walletName (sc_home y) = w_name acc2 /\ balanceLoading (sc_home y) = false
  /\ (balanceSatoshi (sc_home y), txHistory (sc_home y)) = info_shown (w_address acc1).
Proof.
  intros H0 Hx Hq Hin1 Hin2 Hf1 Hf2 y. destruct (screen_sound x H0 Hx) as (_ & _ & id0 & _ & Hh & _).
  destruct (switch_prefix x id0 id1 acc1 r1 r2 Hh Hin1 Hf1) as (W1 & E1 & Hh1). rewrite Hq in E1. cbn [length app] in E1.
  unfold y. rewrite foldl_three, E1. set (x1 := Build_screen_state _ _ _).
  destruct (switch_prefix x1 id1 id2 acc2 r3 r4 Hh1 Hin2 Hf2) as (W2 & E2 & Hh2). cbn [length sc_waiting x1] in E2.
  rewrite foldl_three, E2. clear y Hq E1 E2. cbn [foldl].
  destruct (settle_info (Build_screen_state (set_account id2 acc2 (sc_home x1))
    ([SwitchInfo (w_address acc1)] ++ [SwitchInfo (w_address acc2)]) W2) 1 (w_address acc2) eq_refl) as (W3 & -> & _).
  cbn [sc_home sc_waiting]. set (x3 := Build_screen_state _ _ _).
  destruct (settle_info x3 0 (w_address acc1) eq_refl) as (W4 & -> & _). by destruct (info_shown (w_address acc1)).
Qed.
End Runs.

(** ** A screen of the sample wallet *)

(** A server whose balances tell the addresses apart. *)
Definition sample_server (a : jsstr) : http_reply :=
  Response 200 (js "OK") None (inl (VObj [(js "balance", VNum (of_Z (default 0 (last a))))])).

Definition offline : http_reply := Rejected (js "Network request failed").

Definition sample_account (n : nat) : WalletAccount := default (Build_WalletAccount [] [] [] [] 0 None) (accounts sample_wallet !! n).

(** The first calls have settled: no assets, the wallet and its balance. *)
Definition settled_once (r : http_reply) (x : screen_state (K := map_kv)) : screen_state := screen_next id x (Settle 0 r).

Definition sample_screen : screen_state :=
  settled_once (sample_server (w_address (sample_account 0)))
    (settled_once offline (settled_once offline (settled_once offline (screen_init (device_of sample_wallet))))).

Lemma sample_screen_quiet : sc_waiting sample_screen = [].
Proof. vm_compute. reflexivity. Qed.

Lemma sample_screen_runs : runs_to id sample_wallet (device_of sample_wallet) sample_server sample_screen.
Proof.
  unfold sample_screen, settled_once.
  apply (run_settle _ _ _ _ _ _ (MountInfo (w_address (sample_account 0)))); [|vm_compute; reflexivity|by intros a [= <-]].
  apply (run_settle _ _ _ _ _ _ MountQuantum); [|vm_compute; reflexivity|done].
  apply (run_settle _ _ _ _ _ _ MountLoad); [|vm_compute; reflexivity|done].
  apply (run_settle _ _ _ _ _ _ AssetCoins); [apply run_init|reflexivity|done].
Qed.


Lemma switch_shows_account_witness :
  let y := foldl (screen_next id) sample_screen
    [Switch (account_id 1); Settle 0 offline; Settle 0 offline; Settle 0 (sample_server (w_address (sample_account 1)))] in
  sc_waiting y = [] /\ holds (sc_world y) (active_at sample_wallet (account_id 1)).
Proof.
  refine (proj2 (switch_shows_account id sample_wallet (device_of sample_wallet) sample_server sample_good sample_screen
    (account_id 1) (sample_account 1) offline offline (device_holds _) sample_screen_runs sample_screen_quiet _ _)).
  - by apply (bool_decide_unpack _); vm_compute.
  - vm_compute. reflexivity.
Defined.

Lemma late_answer_shows_other_balance_witness :
  let y := foldl (screen_next id) sample_screen
    [Switch (account_id 1); Settle 0 offline; Settle 0 offline; Switch (account_id 2); Settle 1 offline; Settle 1 offline;
     Settle 1 (sample_server (w_address (sample_account 2))); Settle 0 (sample_server (w_address (sample_account 1)))] in
  activeWallet (sc_home y) = account_id 2
  /\ (balanceSatoshi (sc_home y), txHistory (sc_home y))
     = info_shown (device_of sample_wallet) sample_server (w_address (sample_account 1)).
Proof.
  destruct (late_answer_shows_other_balance id sample_wallet (device_of sample_wallet) sample_server sample_good sample_screen
    (account_id 1) (account_id 2) (sample_account 1) (sample_account 2) offline offline offline offline
    (device_holds _) sample_screen_runs sample_screen_quiet) as (_ & H1 & _ & _ & _ & H2).
  - by apply (bool_decide_unpack _); vm_compute.
  - by apply (bool_decide_unpack _); vm_compute.
  - vm_compute. reflexivity.
  - vm_compute. reflexivity.
  - exact (conj H1 H2).
Defined.
