(* ===== verification/Setup.v ===== *)
(** * The set-up of the mobile wallet

    The pages from src/mobile/app/buat-kata-sandi.tsx over frasa-pemulihan.tsx,
    verifikasi-frasa.tsx and izin-penggunaan.tsx to dompet-siap.tsx, the stack the
    router keeps them on, and the set-up context
    (src/mobile/context/WalletSetupContext.tsx) they share. [router.push] mounts a
    page on top, [router.replace] in the place of the top one, and going back
    unmounts the top one. *)

From stdpp Require Import gmap.
From S2P Require Import Prelude JsText Bytes Mnemonic Quiz Keys Store WalletStorage WalletProofs Pages PagesProofs.
Local Open Scope Z_scope.
Local Open Scope io_scope.

Inductive wpage :=
| WPassword
| WPhrase (revealed : bool)
| WVerify (idx : list nat) (q : quiz) (modalDismissed : bool)
| WPermit
| WReady
| WHome.

Record wizard := { wz_mnemonic : jsstr; wz_password : jsstr; wz_stack : list wpage }.

Definition wizard_start : wizard := {| wz_mnemonic := []; wz_password := []; wz_stack := [WPassword] |}.

(** [mnemonic ? mnemonic.split(" ") : []] *)
Definition wz_words (m : jsstr) : list jsstr := match m with [] => [] | _ => split_sp [] m end.

Inductive wevent :=
| WSubmit (entropy : list Z) (password confirm : jsstr) (agreed : bool)
| WReveal
| WNext (shuffle : list nat -> list nat)
| WChoice (w : option jsstr)
| WDismiss
| WContinue
| WOpen (random : list Z)
| WBack.

Definition with_stack (l : list wpage) (w : wizard) : wizard :=
  {| wz_mnemonic := wz_mnemonic w; wz_password := wz_password w; wz_stack := l |}.

(** The verification page: the choices, the message and the button below. *)
Definition verify_next (e : wevent) (words : list jsstr) (idx : list nat) (q : quiz) (dismissed : bool) : list wpage :=
  match e with
  | WChoice w => [WVerify idx (handleChoice words idx w q) dismissed]
  | WDismiss =>
      if showSuccess q
      then [WVerify idx {| answers := answers q; wrongFlash := wrongFlash q; showSuccess := false |} true]
      else [WVerify idx q dismissed]
  | WContinue => if dismissed then [WPermit; WVerify idx q dismissed] else [WVerify idx q dismissed]
  | _ => [WVerify idx q dismissed]
  end.

Section Setup.
Context {K : KV} {C : Crypto}.

(** buat-kata-sandi.tsx: [handleSubmit] fills the context and pushes the next
    page. *)
Definition password_next (entropy : list Z) (password confirm : jsstr) (agreed : bool) (w : wizard) : wizard :=
  match handleSubmit entropy password confirm agreed with
  | (Some (m, pw), _) => {| wz_mnemonic := m; wz_password := pw; wz_stack := WPhrase false :: wz_stack w |}
  | (None, _) => w
  end.

(** frasa-pemulihan.tsx: [revealed && router.push(...)]; the quiz draws its words
    when it is mounted. *)
Definition phrase_next (shuffle : list nat -> list nat) (revealed : bool) (w : wizard) : wizard :=
  if revealed then with_stack (WVerify (pickQuizIndices shuffle) quiz_start false :: wz_stack w) w else w.

(** izin-penggunaan.tsx *)
Definition permit_next (w : wizard) : wizard := with_stack (WReady :: wz_stack w) w.

(** dompet-siap.tsx: [handleOpen], then [clear()] and [router.replace]. *)
Definition ready_next (random : list Z) (below : list wpage) (w : wizard) (W : world K) : wizard * world K :=
  match handleOpen random (wz_mnemonic w) (wz_password w) false W with
  | (W', inl (Route _)) => ({| wz_mnemonic := []; wz_password := []; wz_stack := WHome :: below |}, W')
  | (W', _) => (w, W')
  end.

(** What the user does on the page on top; only the last page writes to the
    device. *)
Definition wizard_next (e : wevent) (s : wizard * world K) : wizard * world K :=
  let '(w, W) := s in
  match wz_stack w with
  | [] => s
  | p :: below =>
      match e, p with
      | WBack, _ => (with_stack (match below with [] => [p] | _ => below end) w, W)
      | WSubmit entropy password confirm agreed, WPassword => (password_next entropy password confirm agreed w, W)
      | WReveal, WPhrase _ => (with_stack (WPhrase true :: below) w, W)
      | WNext shuffle, WPhrase revealed => (phrase_next shuffle revealed w, W)
      | _, WVerify idx q dismissed =>
          (with_stack (verify_next e (wz_words (wz_mnemonic w)) idx q dismissed ++ below) w, W)
      | WContinue, WPermit => (permit_next w, W)
      | WOpen random, WReady => ready_next random below w W
      | _, _ => s
      end
  end.
End Setup.

Ltac open_steps := unfold wizard_next, password_next, phrase_next, permit_next, ready_next.

(** ** What the pages guarantee *)

(** The page was reached by an honest draw: 24 random bytes, and a shuffle that
    reorders. *)
Definition event_ok (e : wevent) : Prop :=
  match e with
  | WSubmit entropy _ _ _ => length entropy = 24%nat
  | WNext shuffle => forall l, shuffle l ≡ₚ l
  | _ => True
  end.

Definition verify_ok (words : list jsstr) (idx : list nat) (q : quiz) (dismissed : bool) : Prop :=
  (length idx = 6%nat /\ NoDup idx)
  /\ (forall i w, answers q !! i = Some w -> i ∈ idx /\ words !! i = Some w)
  /\ (showSuccess q || dismissed = true -> allAnswered idx (answers q) = true).

Inductive shape (words : list jsstr) : list wpage -> Prop :=
| shape_password : shape words [WPassword]
| shape_phrase r : shape words [WPhrase r; WPassword]
| shape_verify idx q d : verify_ok words idx q d -> shape words [WVerify idx q d; WPhrase true; WPassword]
| shape_permit idx q : verify_ok words idx q true -> shape words [WPermit; WVerify idx q true; WPhrase true; WPassword]
| shape_ready idx q :
    verify_ok words idx q true -> shape words [WReady; WPermit; WVerify idx q true; WPhrase true; WPassword].

(** The first page stays at the bottom of the stack. *)
Definition rooted (l : list wpage) : Prop := exists pre, l = pre ++ [WPassword] /\ WPassword ∉ pre.

(** The context is cleared, or holds what some submission of the first page put
    there and the pages of that submission are on the stack. *)
Definition wizard_ok (es : list wevent) (w : wizard) : Prop :=
  rooted (wz_stack w)
  /\ (wz_mnemonic w = [] /\ wz_password w = []
      \/ exists entropy, WSubmit entropy (wz_password w) (wz_password w) true ∈ es /\ length entropy = 24%nat
           /\ (8 <= length (wz_password w))%nat /\ wz_mnemonic w = generateMnemonic entropy
           /\ shape (wz_words (wz_mnemonic w)) (wz_stack w)).

Lemma verify_choice words idx q d w :
  verify_ok words idx q d -> verify_ok words idx (handleChoice words idx w q) d.
Proof.
  intros (Hi & Ha & Hs). split; [done|]. destruct (allAnswered idx (answers q)) eqn:E.
  - assert (handleChoice words idx w q = q) as ->; [|done].
    unfold handleChoice. pose proof (active_spec idx (answers q)) as H. destruct (activeQuizIndex _ _) as [i|]; [|done].
    destruct H as [H1 H2]. by rewrite (allAnswered_false idx _ i H1 H2) in E.
  - destruct (showSuccess q || d) eqn:Es; [by specialize (Hs eq_refl)|]. apply orb_false_iff in Es as [Es ->].
    assert (quiz_ok words idx (handleChoice words idx w q)) as [Ha' Hs'] by (apply handleChoice_ok; split; [exact Ha|congruence]).
    split; [done|]. rewrite orb_false_r. congruence.
Qed.

Lemma rooted_cons p l : p <> WPassword -> rooted l -> rooted (p :: l).
Proof. intros Hp (pre & -> & Hn). exists (p :: pre). split; [done|]. rewrite not_elem_of_cons. auto. Qed.

Lemma rooted_tail p q l : rooted (p :: q :: l) -> p <> WPassword /\ rooted (q :: l).
Proof.
  intros ([|p' pre] & E & Hn); [done|]. injection E as <- E. rewrite E. apply not_elem_of_cons in Hn as [H1 H2].
  split; [congruence|]. by exists pre.
Qed.

Lemma rooted_bottom l : rooted (WPassword :: l) -> l = [].
Proof. intros ([|p pre] & E & Hn); [by injection E|]. injection E as <- _. rewrite elem_of_cons in Hn. naive_solver. Qed.

Section Guarantees.
Context {K : KV} {C : Crypto}.
Implicit Types (w : wizard) (W : world K).

Lemma step_rooted e w W : rooted (wz_stack w) -> rooted (wz_stack (wizard_next e (w, W)).1).
Proof.
  intros Hr. open_steps. destruct (wz_stack w) as [|p l] eqn:El; [cbn; congruence|].
  assert (p = WPassword \/ rooted l) as Hl.
  { destruct l as [|p' l]; [|right; by apply rooted_tail in Hr as [_ Hr]]. destruct Hr as ([|p1 [|p2 pre]] & E & _); cbn in E; left; congruence. }
  assert (forall p', p' <> WPassword -> p <> WPassword -> rooted (p' :: l)) as Hnew.
  { intros p' Hp' Hp. apply rooted_cons; [done|]. by destruct Hl. }
  destruct e, p; cbn [fst wz_stack with_stack]; try (by rewrite El); try (by apply Hnew); try (by apply rooted_cons);
    try (destruct l as [|p' l]; [done|by apply rooted_tail in Hr as [_ Hr]]); cbn [verify_next].
  - destruct (handleSubmit _ _ _ _) as [[[m pw]|] u]; cbn [fst wz_stack]; [by apply rooted_cons|by rewrite El].
  - destruct revealed; cbn [fst wz_stack]; [by apply rooted_cons|by rewrite El].
  - destruct (showSuccess q); by apply Hnew.
  - destruct modalDismissed; [by apply rooted_cons|done].
  - destruct (handleOpen _ _ _ _ _) as [W' [[]|]]; cbn [fst wz_stack]; try (by rewrite El). by apply Hnew.
Qed.

Lemma submit_facts entropy p c agreed m pw u :
  handleSubmit entropy p c agreed = (Some (m, pw), u) ->
  agreed = true /\ c = p /\ pw = p /\ (8 <= length p)%nat /\ m = generateMnemonic entropy.
Proof.
  unfold handleSubmit. destruct (_ && _ && _) eqn:E; [|done]. intros [= <- <- _].
  apply andb_true_iff in E as [[H1%Nat.leb_le H2%bool_decide_eq_true]%andb_true_iff ->]. done.
Qed.

(** From the pages of a submission, every event but opening and submitting
    leads to the pages of that submission. *)
Lemma step_shape e w W :
  event_ok e -> shape (wz_words (wz_mnemonic w)) (wz_stack w) ->
  match e with
  | WSubmit _ _ _ _ | WOpen _ => True
  | _ => exists l, (wizard_next e (w, W)).1 = with_stack l w /\ shape (wz_words (wz_mnemonic w)) l
  end.
Proof.
  intros He Hs. open_steps.
  assert (with_stack (wz_stack w) w = w) as Hw by by destruct w.
  inversion Hs as [E|r E|idx q d Hv E|idx q Hv E|idx q Hv E]; rewrite <- E in *; destruct e; try done;
    try (eexists; split; [reflexivity|by constructor]); try (exists (wz_stack w); rewrite <- E; split; [done|by constructor]).
  - destruct r; [|by eexists]. eexists. split; [reflexivity|]. constructor.
    destruct (pick_facts shuffle He) as (Hl & Hnd & _). split; [done|]. cbn. split; [|done].
    intros i v. by rewrite lookup_empty.
  - eexists. split; [reflexivity|]. constructor. by apply verify_choice.
  - cbn [verify_next]. destruct (showSuccess q) eqn:Eq; eexists; (split; [reflexivity|]); constructor; [|done].
    destruct Hv as (H1 & H2 & H3). split; [exact H1|]. split; [exact H2|]. intros _. apply H3. by rewrite Eq.
  - cbn [verify_next]. destruct d; eexists; (split; [reflexivity|]); by constructor.
Qed.

Lemma cleared_step e w W :
  wz_mnemonic w = [] -> wz_password w = [] ->
  match e with
  | WSubmit _ _ _ _ => True
  | _ => wz_mnemonic (wizard_next e (w, W)).1 = [] /\ wz_password (wizard_next e (w, W)).1 = []
  end.
Proof.
  intros Hm Hp. destruct e; try done; open_steps; (destruct (wz_stack w) as [|p l]; [done|]); destruct p; try done.
  - by destruct revealed.
  - by destruct (handleOpen _ _ _ _ _) as [W' [[]|]].
Qed.

Lemma submit_step es entropy p c agreed w W :
  length entropy = 24%nat -> wizard_ok es w ->
  wizard_ok (WSubmit entropy p c agreed :: es) (wizard_next (WSubmit entropy p c agreed) (w, W)).1.
Proof.
  intros He [Hr Hc].
  assert (wizard_ok (WSubmit entropy p c agreed :: es) w) as Hstay.
  { split; [done|]. destruct Hc as [Hc|(e' & Hin & Hc)]; [by left|]. right. exists e'. split; [by right|done]. }
  open_steps. destruct (wz_stack w) as [|t l] eqn:El; [done|].
  destruct t; try done.
  2:{ cbn [fst verify_next]. replace (with_stack _ w) with w; [done|]. destruct w; cbn in El; by subst. }
  destruct (handleSubmit _ _ _ _) as [[[m pw]|] u] eqn:E; [|done]. apply submit_facts in E as (-> & -> & -> & H8 & ->).
  apply rooted_bottom in Hr as ->. split; cbn [fst wz_stack wz_mnemonic wz_password].
  - exists [WPhrase false]. split; [done|]. rewrite list_elem_of_singleton. done.
  - right. exists entropy. split; [left|]. split_and_all; try done. constructor.
Qed.

Lemma open_step es random w W :
  wizard_ok es w -> wizard_ok (WOpen random :: es) (wizard_next (WOpen random) (w, W)).1.
Proof.
  intros [Hr Hc]. split; [by apply step_rooted|].
  destruct Hc as [[Hm Hp]|(e' & Hin & Hl & H8 & Hm & Hs)]; [left; by apply (cleared_step (WOpen random))|].
  assert (forall w', w' = w -> exists entropy, WSubmit entropy (wz_password w') (wz_password w') true ∈ WOpen random :: es
      /\ length entropy = 24%nat /\ (8 <= length (wz_password w'))%nat /\ wz_mnemonic w' = generateMnemonic entropy
      /\ shape (wz_words (wz_mnemonic w')) (wz_stack w')) as Hstay.
  { intros w' ->. exists e'. split; [by right|]. done. }
  open_steps. inversion Hs as [E|r E|idx q d Hv E|idx q Hv E|idx q Hv E]; try (right; by apply Hstay).
  - right. apply Hstay. cbn [fst verify_next app]. destruct w; cbn in E |- *. by subst.
  - destruct (handleOpen _ _ _ _ _) as [W' [[]|]]; cbn [fst]; try (right; by apply Hstay). by left.
Qed.

Lemma step_ok es e w W : event_ok e -> wizard_ok es w -> wizard_ok (e :: es) (wizard_next e (w, W)).1.
Proof.
  intros He Hok. destruct (match e with WSubmit _ _ _ _ | WOpen _ => true | _ => false end) eqn:Ee.
  - destruct e; try done; [by apply submit_step|by apply open_step].
  - destruct Hok as [Hr Hc]. split; [by apply step_rooted|].
    destruct Hc as [[Hm Hp]|(e' & Hin & Hl & H8 & Hm & Hs)].
    + left. pose proof (cleared_step e w W Hm Hp). by destruct e.
    + right. exists e'. assert (exists l, (wizard_next e (w, W)).1 = with_stack l w /\ shape (wz_words (wz_mnemonic w)) l)
        as (l & -> & Hl').
      { pose proof (step_shape e w W He Hs). by destruct e. }
      split; [by right|]. done.
Qed.

Definition wizard_run (es : list wevent) (W : world K) : wizard * world K :=
  foldl (fun s e => wizard_next e s) (wizard_start, W) es.

Lemma run_ok es W : Forall event_ok es -> wizard_ok (reverse es) (wizard_run es W).1.
Proof.
  unfold wizard_run. induction es as [|e es IH] using rev_ind; intros H.
  - split; [exists []; split; [done|apply not_elem_of_nil]|by left].
  - apply Forall_app in H as [H1 H2]. rewrite Forall_singleton in H2. rewrite foldl_app, reverse_snoc. cbn [foldl].
    specialize (IH H1). destruct (foldl _ _ es) as [w W'] in *. by apply step_ok.
Qed.

(** C13. The last page of the set-up is reached with a checked phrase: whatever the
    user does on the pages, when the page that stores the wallet is on top, either
    the context has been cleared by an earlier opening, or it holds a password of
    eight characters or more that was confirmed and a valid phrase drawn for it,
    and on the stack below is the quiz of this phrase with all six hidden words
    found. *)
Theorem ready_page_checked (es : list wevent) (W : world K) :
  Forall event_ok es ->
  let w := (wizard_run es W).1 in
  head (wz_stack w) = Some WReady ->
  (wz_mnemonic w = [] /\ wz_password w = [])
  \/ exists entropy idx q,
      WSubmit entropy (wz_password w) (wz_password w) true ∈ es /\ wz_mnemonic w = generateMnemonic entropy
      /\ validateMnemonic (wz_mnemonic w) = true /\ (8 <= length (wz_password w))%nat
      /\ WVerify idx q true ∈ wz_stack w /\ length idx = 6%nat /\ NoDup idx
      /\ forall i, i ∈ idx -> is_Some (answers q !! i) /\ answers q !! i = wz_words (wz_mnemonic w) !! i.
Proof.
  intros He w Ht. destruct (run_ok es W He) as [_ Hc]. fold w in Hc.
  destruct Hc as [Hc|(entropy & Hin & Hl & H8 & Hm & Hs)]; [by left|right].
  inversion Hs as [E|r E|idx q d Hv E|idx q Hv E|idx q ((Hi & Hnd) & Ha & Hd) E]; rewrite <- E in Ht; try done.
  exists entropy, idx, q. split; [by rewrite <- (reverse_involutive es), elem_of_reverse|].
  split_and_all; try done.
  - rewrite Hm. apply validate_join; [by rewrite length_map|apply entropy_words].
  - by right; right; left.
  - intros i Hii. rewrite orb_true_r in Hd. destruct (proj1 (allAnswered_spec _ _) (Hd eq_refl) i Hii) as [v Ev].
    rewrite Ev. split; [done|]. symmetry. by apply (Ha i v).
Qed.

(** ** Opening twice *)

Context {L : KVLaws K}.

Lemma load_empty a W : holds W (first_wallet [] a) -> loadWallet W = (W, inl None).
Proof. intros (H1 & H2 & _). apply try_inl. runs. rewrite H1. cbn. runs. by rewrite H2. Qed.

(** Going back after the set-up destroys the wallet: once the wallet has been
    opened, the context is cleared but the page with the permissions is still below
    the home page. Back, continue and open store the wallet of the empty phrase in
    the place of the phrase just created, and the device then loads no wallet,
    although it still claims to have one. *)
Theorem back_after_setup_loses_wallet (random random' : list Z) (key key' : DerivedKey) (below : list wpage)
    (w : wizard) (W : world K) :
  wz_stack w = WReady :: WPermit :: below -> wz_mnemonic w <> [] ->
  deriveKey (wz_mnemonic w) 0 = Some key -> deriveKey [] 0 = Some key' ->
  account_good (Pages.first_account key (deriveQuantumKey (wz_mnemonic w) 0)) = true ->
  bytes_ok random -> random <> [] -> bytes_ok random' -> random' <> [] ->
  exists w1 W1 w2 W2,
    wizard_next (WOpen random) (w, W) = (w1, W1) /\ head (wz_stack w1) = Some WHome
    /\ (exists v, loadWallet W1 = (W1, inl (Some v)) /\ mnemonic v = wz_mnemonic w)
    /\ foldl (fun s e => wizard_next e s) (w1, W1) [WBack; WContinue; WOpen random'] = (w2, W2)
    /\ sget W2 MNEMONIC = Some [] /\ loadWallet W2 = (W2, inl None) /\ hasWallet W2 = (W2, inl true).
Proof.
  intros Hst Hm Hk Hk' Ha Hr Hne Hr' Hne'.
  destruct (run_open random (wz_mnemonic w) (wz_password w) key W Hk Hr Hne) as (W1 & E1 & Hh1 & _).
  destruct (run_open random' [] [] key' W1 Hk' Hr' Hne') as (W2 & E2 & Hh2 & _).
  eexists _, W1, _, W2. split; [open_steps; rewrite Hst, E1; reflexivity|]. split; [done|].
  split; [eexists; split; [apply run_load; [exact Hh1|by apply first_wallet_good]|done]|].
  split; [cbn [foldl wizard_next permit_next wz_stack with_stack]; unfold ready_next, permit_next, with_stack; cbn [wz_mnemonic wz_password];
    rewrite E2; reflexivity|].
  split; [by destruct Hh2 as (_ & H & _)|]. split; [by apply (load_empty _ _ Hh2)|].
  destruct Hh2 as (H & _). unfold hasWallet. runs. by rewrite H.
Qed.
End Guarantees.

Definition sample_entropy : list Z := seqZ 200 24.
Definition sample_phrase : jsstr := Eval vm_compute in generateMnemonic sample_entropy.

(** A set-up up to the last page: the six hidden words are the first ones. *)
Definition sample_events : list wevent :=
  [WSubmit sample_entropy (js "rahasia1") (js "rahasia1") true; WReveal; WNext id]
  ++ map (fun i => WChoice (wz_words sample_phrase !! i)) (seq 0 6) ++ [WDismiss; WContinue; WContinue].

Lemma sample_events_ok : Forall event_ok sample_events.
Proof.
  unfold sample_events. rewrite !Forall_app, Forall_map. split; [|split].
  - apply Forall_cons. split; [reflexivity|]. apply Forall_cons. split; [exact I|]. apply Forall_singleton. by intros l.
  - by apply Forall_forall.
  - repeat constructor.
Qed.

Lemma ready_page_checked_witness :
  let w := (wizard_run (K := map_kv) (C := toy) sample_events (empty_device false)).1 in
  head (wz_stack w) = Some WReady
  /\ (wz_mnemonic w = [] /\ wz_password w = []
      \/ exists entropy idx q,
          WSubmit entropy (wz_password w) (wz_password w) true ∈ sample_events /\ wz_mnemonic w = generateMnemonic entropy
          /\ validateMnemonic (wz_mnemonic w) = true /\ (8 <= length (wz_password w))%nat
          /\ WVerify idx q true ∈ wz_stack w /\ length idx = 6%nat /\ NoDup idx
          /\ forall i, i ∈ idx -> is_Some (answers q !! i) /\ answers q !! i = wz_words (wz_mnemonic w) !! i).
Proof.
  pose proof (ready_page_checked (C := toy) sample_events (empty_device false) sample_events_ok) as T.
  cbv zeta in T |- *. assert (head (wz_stack (wizard_run (K := map_kv) (C := toy) sample_events (empty_device false)).1) = Some WReady)
    as H by (vm_compute; reflexivity).
  exact (conj H (T H)).
Defined.

Definition sample_ready : wizard :=
  {| wz_mnemonic := js "abandon ability"; wz_password := js "rahasia1"; wz_stack := [WReady; WPermit] |}.

Lemma back_after_setup_loses_wallet_witness :
  exists w2 W2,
    foldl (fun s e => wizard_next (C := toy) e s) (sample_ready, empty_device false)
      [WOpen (replicate 32 7); WBack; WContinue; WOpen (replicate 32 9)] = (w2, W2)
    /\ loadWallet W2 = (W2, inl None).
Proof.
  destruct (back_after_setup_loses_wallet (C := toy) (replicate 32 7) (replicate 32 9) (sample_key 0)
    (default (sample_key 0) (deriveKey (C := toy) [] 0)) [] sample_ready (empty_device false))
    as (w1 & W1 & w2 & W2 & E1 & _ & _ & E2 & _ & E3 & _);
    [reflexivity|done|vm_compute; reflexivity|vm_compute; reflexivity|vm_compute; reflexivity
    |by apply Forall_replicate|done|by apply Forall_replicate|done|].
  exists w2, W2. split; [|exact E3]. rewrite <- E2. cbn [foldl]. rewrite E1. reflexivity.
Defined.
