(* ===== verification/Send.v ===== *)
(** * Payments and swaps of the mobile application

    The handlers that build, sign and broadcast transactions: the send page
    (src/mobile/app/kirim.tsx) and the swap forms of the home page
    (src/mobile/app/beranda.tsx). *)

From stdpp Require Import gmap.
From S2P Require Import Prelude JsText Amounts Bytes Mnemonic Keys Tx Coins Utf8 Json Vault Store WalletStorage Api Pages.
Local Open Scope Z_scope.
Local Open Scope io_scope.

(** ** Unspent outputs of the API *)

(** An unspent output of the API with its two amounts: [value] in units, and
    [amount] as [Math.round(u.amount * 1e8)] units. *)
Record coin := { c_txid : jsstr; c_vout : Z; c_value : Z; c_units : Z }.

Definition vinteger (v : val) : option Z :=
  match v with
  | VNum (Fin x) => if frac_n x mod frac_d x =? 0 then Some (frac_n x / frac_d x) else None
  | _ => None
  end.

Definition vtext (v : val) : option jsstr := match v with VStr s => Some s | _ => None end.

(** The declared type of an unspent output; another value is not read further. *)
Definition coin_of (v : val) : option coin :=
  t ← vtext (vprop v (js "txid")); o ← vinteger (vprop v (js "vout")); x ← vinteger (vprop v (js "value"));
  u ← match vprop v (js "amount") with VNum d => units_round d | _ => None end;
  Some {| c_txid := t; c_vout := o; c_value := x; c_units := u |}.

Definition coins_of (v : val) : option (list coin) := match v with VArr l => mapM coin_of l | _ => None end.

(** The inputs the two forms sign. *)
Definition by_value (c : coin) : UTXO := {| txid := c_txid c; vout := c_vout c; value := c_value c |}.
Definition by_amount (c : coin) : UTXO := {| txid := c_txid c; vout := c_vout c; value := c_units c |}.

Inductive tipe := NATIVE | STABLECOIN | STABLECOIN_PEGGED | SAHAM.

#[export] Instance tipe_eq_dec : EqDecision tipe.
Proof. solve_decision. Defined.

Section Payments.
Context {K : KV} {C : Crypto}.

Definition getCoins (address : jsstr) : IO (list coin) :=
  let! v := getUTXOs address in
  match coins_of v with Some l => ret l | None => throw (js "TypeError") end.

(** [await buildAndSignTx(...)] and its quantum counterpart. *)
Definition sign_io (o : option jsstr) : IO jsstr :=
  match o with Some hex => ret hex | None => throw (js "CryptoError") end.

Definition need_wallet : IO StoredWallet :=
  let! w := loadWallet in match w with Some w => ret w | None => throw (js "Wallet tidak ditemukan") end.

(** ** The send page *)

Record send_page := {
  s_address : jsstr;
  s_amount : jsstr;
  s_tipe : tipe;
  s_assetId : jsstr;
  s_myAddress : jsstr;
  s_balance : double;
  s_sending : bool
}.

Definition amountNum (p : send_page) : double :=
  parseFloat (match s_amount p with [] => js "0" | a => a end).

Definition amountSatoshi (p : send_page) : option Z := units_floor (amountNum p).

Definition canSend (p : send_page) : bool :=
  if negb (bool_decide (take 4 (s_address p) = js "grd1")) || dle (amountNum p) (of_Z 0) then false
  else match s_tipe p with
       | NATIVE => match amountSatoshi p with
                   | Some sat => dle (dadd (of_Z sat) (of_Z FEE)) (s_balance p)
                   | None => false
                   end
       | _ => true
       end.

Inductive sent := SentTx (txid : val) | SendFailed (msg : jsstr) | SendIgnored.

(** The inputs and outputs of a native payment: there is no test that the
    collected coins cover amount and fee. *)
Definition native_plan (p : send_page) (utxos : list UTXO) (sat : Z) : list UTXO * list TxOutput :=
  let needed := sat + FEE in
  let '(selected, collected) := select needed utxos [] 0 in
  (selected, [pay (s_address p) sat] ++ change_out (s_myAddress p) (collected - needed)).

Definition send_native (p : send_page) (sat : Z) : IO val :=
  let! wallet := need_wallet in
  let! key := derive_io (mnemonic wallet) 0 in
  let! utxos := getCoins (s_myAddress p) in
  match utxos with
  | [] => throw (js "Tidak ada UTXO tersedia")
  | _ =>
      let '(selected, outputs) := native_plan p (map by_value utxos) sat in
      let! rawHex := sign_io (buildAndSignTx selected outputs (privateKey key) (publicKey key)) in
      let! result := broadcastTx rawHex in
      vfield result (js "txid")
  end.

(** [if (prep.error || !prep.opreturn_data) throw new Error(prep.error ?? ...)] *)
Definition check_prepared (prep : val) : IO jsstr :=
  let! e := vfield prep (js "error") in
  let! d := vfield prep (js "opreturn_data") in
  if vtruthy e || negb (vtruthy d)
  then throw (match e with VUndef | VNull => js "Gagal prepare transfer" | VStr s => s | _ => js "Error" end)
  else match d with VStr s => ret s | _ => throw (js "TypeError") end.

Definition send_token (p : send_page) : IO val :=
  let! wallet := need_wallet in
  let! key := derive_io (mnemonic wallet) 0 in
  let! prep := prepareTokenTransfer (VObj [(js "asset_id", VStr (s_assetId p)); (js "amount", VNum (amountNum p));
                                           (js "from", VStr (s_myAddress p)); (js "to", VStr (s_address p))]) in
  let! data := check_prepared prep in
  let! utxos := getCoins (s_myAddress p) in
  match utxos with
  | [] => throw (js "Tidak ada UTXO (butuh sedikit GRD untuk fee)")
  | _ =>
      let '(feeUtxos, feeCollected) := select (FEE + 546) (map by_value utxos) [] 0 in
      if feeCollected <? FEE then throw (js "Saldo GRD tidak cukup untuk fee") else
      let feeOuts := [data_out (Some data)] ++ change_out (s_myAddress p) (feeCollected - FEE) in
      let! rawHex := sign_io (buildAndSignTx feeUtxos feeOuts (privateKey key) (publicKey key)) in
      let! result := broadcastTx rawHex in
      vfield result (js "txid")
  end.

Definition handleSend (p : send_page) : IO sent :=
  if negb (canSend p) || s_sending p then ret SendIgnored else
  try (let! t := match s_tipe p, amountSatoshi p with
                 | NATIVE, Some sat => send_native p sat
                 | NATIVE, None => throw (js "RangeError")
                 | _, _ => send_token p
                 end in
       ret (SentTx t))
    (fun e => ret (SendFailed e)).

(** ** The swap forms *)

Definition CBDC_RESERVE : jsstr := js "grd1qhaclxgx8xhzxjmwg8meuwp7k2ut53t0equ002s".

(** [parseFloat(text) || 0] *)
Definition qty_of (text : jsstr) : double := match parseFloat text with NaN => of_Z 0 | d => d end.

(** The coins of a payment to the reserve: the quantum coins when there are any,
    the classical ones when the quantum coins do not reach. The result is the
    selection, whether there were quantum coins, and the list that was tried
    first. *)
Definition reserve_coins (needed : Z) (qUtxos utxos : list UTXO) : (list UTXO * Z) * bool * list UTXO :=
  let useQuantum := negb (bool_decide (qUtxos = [])) in
  let source := if useQuantum then qUtxos else utxos in
  let '(sel, collected) := select needed source [] 0 in
  if (collected <? needed) && useQuantum
  then (select needed utxos [] 0, useQuantum, source) else ((sel, collected), useQuantum, source).

(** Pay [amountSat] to the reserve; [quantum] is the test that picks the
    quantum key, on the selection and the list tried first. *)
Definition pay_reserve (quantum : list UTXO -> list UTXO -> bool) (amountSat : option Z) (walletAddress : jsstr) : IO unit :=
  let! wallet := need_wallet in
  let! key := derive_io (mnemonic wallet) 0 in
  let qkey := deriveQuantumKey (mnemonic wallet) 0 in
  let! qUtxos := try (getCoins (q_address qkey)) (fun _ => ret []) in
  let! utxos := getCoins walletAddress in
  if bool_decide (utxos = [] /\ qUtxos = []) then throw (js "Tidak ada UTXO tersedia") else
  match amountSat with
  | None => throw (js "Saldo GRD tidak cukup")
  | Some amountSat =>
      let needed := amountSat + FEE in
      let '((sel, collected), useQuantum, source) :=
        reserve_coins needed (map by_amount qUtxos) (map by_amount utxos) in
      if collected <? needed then throw (js "Saldo GRD tidak cukup") else
      let changeAddr := if useQuantum then q_address qkey else walletAddress in
      let outs := [pay CBDC_RESERVE amountSat] ++ change_out changeAddr (collected - needed) in
      let! hex := sign_io (if useQuantum && quantum sel source
                           then buildAndSignQuantumTx sel outs (q_secretKey qkey) (q_publicKey qkey)
                           else buildAndSignTx sel outs (privateKey key) (publicKey key)) in
      broadcastTx hex ;;! ret tt
  end.

Definition throw_error (res : val) : IO unit :=
  let! e := vfield res (js "error") in
  if vtruthy e then throw (match e with VStr s => s | _ => js "Error" end) else ret tt.

Definition swap_params (direction : jsstr) (assetId : jsstr) (amount : double) (walletAddress : jsstr) (price : val) : val :=
  VObj [(js "direction", VStr direction); (js "asset_id", VStr assetId); (js "amount", VNum amount);
        (js "address", VStr walletAddress); (js "price", price)].

Definition floor_double (d : double) : double := match d with Fin x => of_Z (math_floor x) | _ => d end.

(** StablecoinForm: [selUtxos === sourceUtxos] compares two different arrays. The
    text of the success alert is left out. *)
Definition same_array (sel source : list UTXO) : bool := false.

Definition handleSwap (buy : bool) (amount : jsstr) (assetId : jsstr) (assetPegRate : double) (walletAddress : jsstr) : IO ui :=
  let qty := qty_of amount in
  let pegRate := VNum (if dlt (of_Z 0) assetPegRate then assetPegRate else parseFloat (js "0.001")) in
  if bool_decide (walletAddress = []) || dle qty (of_Z 0) then ret Ignored else
  try ((if buy then pay_reserve same_array (units_round qty) walletAddress else ret tt) ;;!
       let! res := dexSwap (swap_params (if buy then js "buy" else js "sell") assetId
                              (if buy then qty else floor_double qty) walletAddress pegRate) in
       throw_error res ;;!
       ret (Alert (js "Swap Berhasil") []))
    (fun e => ret (Alert (js "Swap Gagal") e)).

Record token := { t_assetId : jsstr; t_tipe : tipe }.

Definition order_params (side : jsstr) (assetId : jsstr) (qty rate : double) (walletAddress : jsstr) : val :=
  VObj [(js "order_type", VStr (js "market")); (js "side", VStr side); (js "asset_id", VStr assetId);
        (js "amount", VNum qty); (js "price", VNum rate); (js "address", VStr walletAddress)].

Definition cross_params (payType : jsstr) (payId : jsstr) (receiveType : jsstr) (receiveId : jsstr) (qty : double)
    (walletAddress : jsstr) : val :=
  VObj [(js "pay_type", VStr payType); (js "pay_asset_id", VStr payId); (js "receive_type", VStr receiveType);
        (js "receive_asset_id", VStr receiveId); (js "amount", VNum qty); (js "address", VStr walletAddress)].

(** TabSwap: the quantum key is used when every coin of the list tried first is
    in the selection, by number. *)
Definition same_length (sel source : list UTXO) : bool := (length sel =? length source)%nat.

Definition confirm_body (pay receive : token) (qty rate : double) (walletAddress : jsstr) : IO unit :=
  match t_tipe pay, t_tipe receive with
  | NATIVE, STABLECOIN =>
      pay_reserve same_length (units_round qty) walletAddress ;;!
      dexSwap (swap_params (js "buy") (t_assetId receive) qty walletAddress (VNum rate)) ;;! ret tt
  | NATIVE, SAHAM =>
      pay_reserve same_length (units_round (dmul qty rate)) walletAddress ;;!
      dexPlaceOrder (order_params (js "buy") (t_assetId receive) qty rate walletAddress) ;;! ret tt
  | SAHAM, NATIVE =>
      dexPlaceOrder (order_params (js "sell") (t_assetId pay) qty rate walletAddress) ;;! ret tt
  | STABLECOIN, NATIVE =>
      let! res := dexSwap (swap_params (js "sell") (t_assetId pay) qty walletAddress (VNum rate)) in throw_error res
  | STABLECOIN, SAHAM =>
      let! res := crossSwap (cross_params (js "STABLECOIN") (t_assetId pay) (js "SAHAM") (t_assetId receive) qty walletAddress) in
      throw_error res
  | SAHAM, STABLECOIN =>
      let! res := crossSwap (cross_params (js "SAHAM") (t_assetId pay) (js "STABLECOIN") (t_assetId receive) qty walletAddress) in
      throw_error res
  | _, _ => ret tt
  end.

Definition handleConfirm (payToken : token) (receiveToken : option token) (payAmount : jsstr) (rate : double)
    (walletAddress : jsstr) : IO ui :=
  let qty := qty_of payAmount in
  match receiveToken with
  | None => ret Ignored
  | Some receive =>
      if bool_decide (walletAddress = []) || dle qty (of_Z 0) || dle rate (of_Z 0) then ret Ignored else
      try (confirm_body payToken receive qty rate walletAddress ;;!
           ret (Alert (js "Berhasil") (js "Swap berhasil! Saldo diperbarui.")))
        (fun e => ret (Alert (js "Gagal") e))
  end.

(** SahamForm: the order itself; [None] is an alert about the price. *)
Definition handleOrder (buy limit : bool) (amount limitPrice : jsstr) (basePrice : double) (assetId walletAddress : jsstr) : IO ui :=
  let qty := qty_of amount in
  let lp := parseFloat limitPrice in
  let price := if limit then (if dsign lp =? 0 then basePrice else lp) else basePrice in
  if bool_decide (walletAddress = []) || dle qty (of_Z 0) then ret Ignored else
  if limit && (bool_decide (limitPrice = []) || dle lp (of_Z 0))
  then ret (Alert (js "Harga Diperlukan") (js "Masukkan harga limit")) else
  try (let! res := dexPlaceOrder (VObj [(js "order_type", VStr (if limit then js "limit" else js "market"));
                                        (js "side", VStr (if buy then js "buy" else js "sell"));
                                        (js "asset_id", VStr assetId); (js "amount", VNum (floor_double qty));
                                        (js "price", VNum price); (js "address", VStr walletAddress)]) in
       let! e := vfield res (js "error") in
       if vtruthy e then ret (Alert (js "Order Gagal") (match e with VStr s => s | _ => [] end)) else
       let! t := vfield res (js "txid") in
       ret (Alert (if buy then js "Buy Order Berhasil" else js "Sell Order Berhasil")
         (match t with
          | VStr ((_ :: _) as s) => js "TX: " ++ take 16 s ++ js "..."
          | _ => js "Order masuk ke orderbook on-chain"
          end)))
    (fun e => ret (Alert (js "Error") e)).

Definition handleCancel (orderId walletAddress : jsstr) (myOrders : list val) : IO (list val * ui) :=
  if bool_decide (walletAddress = []) then ret (myOrders, Ignored) else
  try (let! res := cancelDexOrder orderId walletAddress in
       let! e := vfield res (js "error") in
       if vtruthy e then ret (myOrders, Alert (js "Gagal") (match e with VStr s => s | _ => [] end))
       else ret (List.filter (fun o => negb (is_text (vprop o (js "order_id")) orderId)) myOrders, Ignored))
    (fun _ => ret (myOrders, Ignored)).
End Payments.
