(* ===== verification/SendProofs.v ===== *)
(** * What the payment handlers broadcast

    Runs of the handlers of Send.v against given replies of the API: the requests
    they make, the keys they sign with, and what they report. *)

From stdpp Require Import gmap.
From S2P Require Import Prelude JsText Amounts Bytes Mnemonic Keys Tx Coins Utf8 Json Vault Store WalletStorage WalletProofs Api Pages PagesProofs Send.
Local Open Scope Z_scope.
Local Open Scope io_scope.

Section Runs.
Context {K : KV} {L : KVLaws K} {C : Crypto}.

(** A reply of status 200 with a body. *)
Definition ok (v : val) : http_reply := Response 200 [] (Some []) (inl v).

(** The world after a request that took one reply. *)
Definition asked (q : http_request) (W : world K) : world K :=
  {| web := web W; secure := secure W; async := async W; replies := tail (replies W); requests := requests W ++ [q];
     clock := clock W |}.

Definition get_req (W : world K) (path : jsstr) : http_request :=
  {| h_path := BASE (web W) ++ path; h_method := js "GET"; h_body := None |}.
Definition post_req (W : world K) (path : jsstr) (body : val) : http_request :=
  {| h_path := BASE (web W) ++ path; h_method := js "POST"; h_body := Some body |}.

Lemma get_run path (W : world K) v :
  head (replies W) = Some (ok v) -> apiGet path W = (asked (get_req W path) W, inl v).
Proof.
  unfold apiGet, apiFetch, bind, gets, fetch, asked. destruct (replies W) as [|r rs]; [done|]. intros [= ->]. done.
Qed.

Lemma post_run path body (W : world K) v :
  head (replies W) = Some (ok v) -> apiPost path body W = (asked (post_req W path body) W, inl v).
Proof.
  unfold apiPost, apiFetch, bind, gets, fetch, asked. destruct (replies W) as [|r rs]; [done|]. intros [= ->]. done.
Qed.

Definition utxo_path (a : jsstr) : jsstr := js "/api/wallet/utxos?address=" ++ a.

Lemma coins_run a (W : world K) v cs :
  head (replies W) = Some (ok v) -> coins_of v = Some cs ->
  getCoins a W = (asked (get_req W (utxo_path a)) W, inl cs).
Proof.
  intros Hr Hc. unfold getCoins. assert (getUTXOs a W = (asked (get_req W (utxo_path a)) W, inl v)) as E.
  { unfold getUTXOs. rewrite (bind_inl _ _ _ _ _ (get_run _ W v Hr)). by destruct v. }
  rewrite (bind_inl _ _ _ _ _ E). by rewrite Hc.
Qed.

Lemma need_wallet_run (W : world K) w : holds W w -> wallet_good w -> need_wallet W = (W, inl w).
Proof. intros Hh Hg. unfold need_wallet. by rewrite (bind_inl _ _ _ _ _ (run_load W w Hh Hg)). Qed.

Definition broadcast_req (W : world K) (hex : jsstr) : http_request :=
  post_req W (js "/api/broadcast") (VObj [(js "hex", VStr hex)]).

(** Enough coins are selected when there are enough. *)
Lemma select_reaches target us :
  target <= total us -> exists n, select target us [] 0 = (take n us, total (take n us)) /\ target <= total (take n us).
Proof.
  intros Ht. destruct (select_spec target us [] 0 eq_refl) as (n & E & Hall & _). cbn [app] in *.
  exists n. split; [done|]. destruct (Z.le_gt_cases target (total (take n us))); [done|].
  rewrite Hall in * by lia. lia.
Qed.

(** ** The send page *)

(** The send page signs with the first key whatever account is active: when
    the active account's address is not that of the first key, its coins are
    collected, the transaction is built with the first key, whose address is
    another one, and is broadcast; the page reports success. *)
Theorem send_signs_with_first_key (p : send_page) (W : world K) (w : StoredWallet) (a : WalletAccount)
    (key : DerivedKey) (sat : Z) (v r txid : val) (cs : list coin) (hex : jsstr) (rest : list http_reply) :
  holds W w -> wallet_good w -> deriveKey (mnemonic w) 0 = Some key ->
  getActiveAccount W = (W, inl (Some a)) -> s_myAddress p = w_address a -> w_address a <> address key ->
  canSend p = true -> s_sending p = false -> s_tipe p = NATIVE -> amountSatoshi p = Some sat ->
  replies W = ok v :: ok r :: rest -> coins_of v = Some cs -> cs <> [] ->
  let '(sel, outs) := native_plan p (map by_value cs) sat in
  buildAndSignTx sel outs (privateKey key) (publicKey key) = Some hex ->
  vfield r (js "txid") W = (W, inl txid) ->
  exists W', handleSend p W = (W', inl (SentTx txid))
    /\ requests W' = requests W ++ [get_req W (utxo_path (w_address a)); broadcast_req W hex]
    /\ (exists n, sel = take n (map by_value cs)) /\ pubkeyToP2WPKH (publicKey key) <> w_address a.
Proof.
  intros Hh Hg Hk _ Hmy Hne Hcan Hsend Ht Hsat Hrep Hcs Hnil.
  destruct (native_plan p (map by_value cs) sat) as [sel outs] eqn:Ep. intros Hhex Htx.
  set (W1 := asked (get_req W (utxo_path (w_address a))) W).
  set (W2 := asked (broadcast_req W hex) W1).
  exists W2. split; [|split; [|split]].
  - unfold handleSend. rewrite Hcan, Hsend, Ht, Hsat. cbn [negb orb]. apply try_inl.
    erewrite bind_inl; [reflexivity|]. unfold send_native.
    rewrite (bind_inl _ _ _ _ _ (need_wallet_run W w Hh Hg)), (bind_inl _ _ _ _ _ (derive_run _ _ _ W Hk)).
    rewrite Hmy. rewrite (bind_inl _ _ _ _ _ (coins_run (w_address a) W v cs ltac:(by rewrite Hrep) Hcs)).
    destruct cs as [|c cs]; [done|]. rewrite Ep, Hhex. cbn [sign_io]. unfold ret at 1. unfold bind at 1.
    unfold broadcastTx. rewrite (bind_inl _ _ _ _ _ (post_run _ _ W1 r ltac:(unfold W1, asked; cbn; by rewrite Hrep))).
    destruct r; cbn in Htx |- *; try done; by injection Htx as ->.
  - unfold W2, W1, asked. cbn [requests]. by rewrite <- app_assoc.
  - revert Ep. unfold native_plan.
    destruct (select_spec (sat + FEE) (map by_value cs) [] 0 eq_refl) as (n & E & _). rewrite E. cbn [app].
    intros [= <- _]. by exists n.
  - unfold deriveKey in Hk. destruct (getPublicKey _) as [pub|]; [|done]. injection Hk as <-.
    cbn [publicKey address] in *. congruence.
Qed.

(** ** The swap forms *)

Definition pegged (t : token) : Prop := t_tipe t = STABLECOIN_PEGGED.

(** A swap with a pegged stablecoin does nothing and reports success: no
    request is made, no coin moves, and the user is told that the swap was
    done. *)
Theorem pegged_swap_reports_success (pay receive : token) (payAmount : jsstr) (rate : double) (walletAddress : jsstr)
    (W : world K) :
  pegged pay \/ pegged receive -> walletAddress <> [] -> dle (qty_of payAmount) (of_Z 0) = false ->
  dle rate (of_Z 0) = false ->
  handleConfirm pay (Some receive) payAmount rate walletAddress W
  = (W, inl (Alert (js "Berhasil") (js "Swap berhasil! Saldo diperbarui."))).
Proof.
  intros Hp Hw Hq Hr. unfold handleConfirm. rewrite bool_decide_eq_false_2 by done. rewrite Hq, Hr. cbn [orb].
  apply try_inl. unfold confirm_body. destruct Hp as [Hp|Hp]; unfold pegged in Hp; rewrite Hp.
  - by destruct (t_tipe receive).
  - by destruct (t_tipe pay).
Qed.

(** The stablecoin form signs quantum coins with the classical key: when the
    wallet has quantum coins that cover the payment, they are the inputs of the
    transaction, and the transaction that is broadcast is the one
    [buildAndSignTx] makes with the secp256k1 key, never one signed with the
    quantum key the coins belong to. *)
Theorem swap_signs_quantum_coins_classically (amount assetId walletAddress : jsstr) (pegRate : double) (W : world K)
    (w : StoredWallet) (key : DerivedKey) (sat : Z) (qv cv bv sv : val) (qs cs : list coin) (rest : list http_reply)
    (hex : jsstr) :
  let qa := q_address (deriveQuantumKey (mnemonic w) 0) in
  let sel := (select (sat + FEE) (map by_amount qs) [] 0).1 in
  let outs := [pay CBDC_RESERVE sat] ++ change_out qa (total sel - (sat + FEE)) in
  holds W w -> wallet_good w -> deriveKey (mnemonic w) 0 = Some key ->
  replies W = ok qv :: ok cv :: ok bv :: ok sv :: rest ->
  coins_of qv = Some qs -> coins_of cv = Some cs -> qs <> [] ->
  walletAddress <> [] -> dle (qty_of amount) (of_Z 0) = false -> units_round (qty_of amount) = Some sat ->
  sat + FEE <= total (map by_amount qs) ->
  buildAndSignTx sel outs (privateKey key) (publicKey key) = Some hex ->
  exists W' u body, handleSwap true amount assetId pegRate walletAddress W = (W', inl u)
    /\ (exists n, sel = take n (map by_amount qs)) /\ paid outs + FEE <= total sel
    /\ requests W' = requests W ++ [get_req W (utxo_path qa); get_req W (utxo_path walletAddress); broadcast_req W hex;
                                    post_req W (js "/api/dex/swap") body].
Proof.
  intros qa sel outs Hh Hg Hk Hrep Hq Hc Hqn Hw Hpos Hsat Hsuf Hhex.
  set (W1 := asked (get_req W (utxo_path qa)) W). set (W2 := asked (get_req W (utxo_path walletAddress)) W1).
  destruct (select_reaches (sat + FEE) (map by_amount qs) Hsuf) as (n & Esel & Hge).
  assert (sel = take n (map by_amount qs)) as Hsel by (unfold sel; by rewrite Esel). rewrite <- Hsel in Esel, Hge.
  set (W3 := asked (broadcast_req W hex) W2).
  assert (pay_reserve same_array (Some sat) walletAddress W = (W3, inl tt)) as Epay.
  { unfold pay_reserve. rewrite (bind_inl _ _ _ _ _ (need_wallet_run W w Hh Hg)), (bind_inl _ _ _ _ _ (derive_run _ _ _ W Hk)).
    cbv zeta. fold qa.
    rewrite (bind_inl _ _ _ _ _ (try_inl _ _ _ _ _ (coins_run qa W qv qs ltac:(by rewrite Hrep) Hq))). fold W1.
    rewrite (bind_inl _ _ _ _ _ (coins_run walletAddress W1 cv cs ltac:(unfold W1, asked; cbn; by rewrite Hrep) Hc)).
    change (asked (get_req W1 (utxo_path walletAddress)) W1) with W2.
    rewrite bool_decide_eq_false_2 by tauto. unfold reserve_coins.
    rewrite (bool_decide_eq_false_2 (map by_amount qs = [])) by (by destruct qs). cbn [negb].
    assert ((total sel <? sat + FEE) = false) as Hlt by (apply Z.ltb_ge; lia).
    rewrite Esel. rewrite Hlt. cbn [andb]. rewrite Hlt.
    change (true && same_array sel (map by_amount qs)) with false. cbv iota. fold outs. rewrite Hhex.
    unfold sign_io. rewrite (bind_inl _ _ _ _ _ (eq_refl : ret hex W2 = (W2, inl hex))). unfold broadcastTx.
    by rewrite (bind_inl _ _ _ _ _ (post_run _ _ W2 bv ltac:(unfold W2, W1, asked; cbn; by rewrite Hrep))). }
  set (body := swap_params (js "buy") assetId (qty_of amount) walletAddress
    (VNum (if dlt (of_Z 0) pegRate then pegRate else parseFloat (js "0.001")))).
  set (W4 := asked (post_req W (js "/api/dex/swap") body) W3).
  assert (exists u, handleSwap true amount assetId pegRate walletAddress W = (W4, inl u)) as [u Eu].
  { unfold handleSwap. rewrite bool_decide_eq_false_2 by done. rewrite Hpos. cbn [orb]. rewrite Hsat.
    unfold try. rewrite (bind_inl _ _ _ _ _ Epay). unfold dexSwap.
    rewrite (bind_inl _ _ _ _ _ (post_run _ _ W3 sv ltac:(unfold W3, W2, W1, asked; cbn; by rewrite Hrep))).
    fold body. change (asked (post_req W3 (js "/api/dex/swap") body) W3) with W4.
    unfold throw_error. unfold bind. destruct (vfield_run sv (js "error") W4) as [-> | ->]; [by eexists|].
    destruct (vtruthy _); by eexists. }
  exists W4, u, body. split; [exact Eu|]. split; [by exists n|]. split.
  - unfold outs. rewrite paid_app. destruct (paid_change qa (total sel - (sat + FEE))) as (dust & -> & Hd); [lia|].
    assert (paid [pay CBDC_RESERVE sat] = sat) as -> by (unfold paid; cbn [foldl pay o_value]; lia).
    lia.
  - unfold W4, W3, W2, W1, asked. cbn [requests]. by rewrite <- !app_assoc.
Qed.
End Runs.

(** ** Witnesses *)

Definition sample_coin : val :=
  VObj [(js "txid", VStr (replicate 64 48)); (js "vout", VNum (of_Z 0)); (js "value", VNum (of_Z 500000));
        (js "amount", VNum (parseFloat (js "0.005")))].

(** The second account is the active one. *)
Definition second_active : StoredWallet :=
  {| mnemonic := mnemonic sample_wallet; accounts := accounts sample_wallet; activeAccountId := account_id 1 |}.

Definition online (w : StoredWallet) (rs : list val) : world map_kv :=
  {| web := false; secure := secure (device_of w); async := async (device_of w); replies := map ok rs; requests := [];
     clock := 0 |}.

Lemma online_holds w rs : holds (online w rs) w.
Proof. exact (device_holds w). Qed.

Lemma second_good : wallet_good second_active.
Proof. destruct sample_good as (H1 & H2 & H3 & H4 & H5). split; [done|]. split; [done|]. split; [done|]. done. Qed.

Definition sample_page : send_page :=
  {| s_address := address (sample_key 2); s_amount := js "0.001"; s_tipe := NATIVE; s_assetId := [];
     s_myAddress := address (sample_key 1); s_balance := of_Z 500000; s_sending := false |}.

Definition sample_coins : list coin := Eval vm_compute in default [] (coins_of (VArr [sample_coin])).

Definition send_hex : jsstr :=
  let '(sel, outs) := native_plan sample_page (map by_value sample_coins) 100000 in
  default [] (buildAndSignTx (C := toy) sel outs (privateKey (sample_key 0)) (publicKey (sample_key 0))).

Lemma send_signs_with_first_key_witness :
  exists W', handleSend (C := toy) sample_page
      (online second_active [VArr [sample_coin]; VObj [(js "txid", VStr (js "ab"))]]) = (W', inl (SentTx (VStr (js "ab"))))
    /\ pubkeyToP2WPKH (C := toy) (publicKey (sample_key 0)) <> address (sample_key 1).
Proof.
  pose proof (send_signs_with_first_key (C := toy) sample_page
    (online second_active [VArr [sample_coin]; VObj [(js "txid", VStr (js "ab"))]]) second_active (sample_created 1)
    (sample_key 0) 100000 (VArr [sample_coin]) (VObj [(js "txid", VStr (js "ab"))]) (VStr (js "ab")) sample_coins
    send_hex []) as H.
  destruct H as (W' & E & _ & _ & Hn).
  - apply online_holds.
  - apply second_good.
  - vm_compute. reflexivity.
  - apply (active_found _ second_active); [apply online_holds|apply second_good|vm_compute; reflexivity].
  - vm_compute. reflexivity.
  - vm_compute. discriminate.
  - vm_compute. reflexivity.
  - reflexivity.
  - reflexivity.
  - vm_compute. reflexivity.
  - reflexivity.
  - vm_compute. reflexivity.
  - discriminate.
  - vm_compute. reflexivity.
  - reflexivity.
  - exists W'. split; [exact E|exact Hn].
Defined.

Lemma pegged_swap_reports_success_witness :
  handleConfirm (C := toy) {| t_assetId := js "native-grd"; t_tipe := NATIVE |}
    (Some {| t_assetId := js "p"; t_tipe := STABLECOIN_PEGGED |}) (js "1") (of_Z 2) (js "grd1q") (online sample_wallet [])
  = (online sample_wallet [], inl (Alert (js "Berhasil") (js "Swap berhasil! Saldo diperbarui."))).
Proof.
  apply (pegged_swap_reports_success (C := toy)); [by right|done|vm_compute; reflexivity|vm_compute; reflexivity].
Defined.

Definition swap_hex : jsstr :=
  let sel := (select (100000 + FEE) (map by_amount sample_coins) [] 0).1 in
  default [] (buildAndSignTx (C := toy) sel
    ([pay CBDC_RESERVE 100000]
     ++ change_out (q_address (deriveQuantumKey (C := toy) (mnemonic sample_wallet) 0)) (total sel - (100000 + FEE)))
    (privateKey (sample_key 0)) (publicKey (sample_key 0))).

Lemma swap_signs_quantum_coins_classically_witness :
  let W := online sample_wallet [VArr [sample_coin]; VArr []; VObj []; VObj []] in
  exists W' u, handleSwap (C := toy) true (js "0.001") (js "id") (of_Z 1) (js "grd1q") W = (W', inl u)
    /\ nth_error (requests W') 2 = Some (broadcast_req W swap_hex).
Proof.
  intros W. pose proof (swap_signs_quantum_coins_classically (C := toy) (js "0.001") (js "id") (js "grd1q") (of_Z 1) W
    sample_wallet (sample_key 0) 100000 (VArr [sample_coin]) (VArr []) (VObj []) (VObj []) sample_coins [] []
    swap_hex) as H.
  destruct H as (W' & u & body & E & _ & _ & Hr).
  - apply online_holds.
  - apply sample_good.
  - vm_compute. reflexivity.
  - reflexivity.
  - vm_compute. reflexivity.
  - reflexivity.
  - discriminate.
  - done.
  - vm_compute. reflexivity.
  - vm_compute. reflexivity.
  - vm_compute. discriminate.
  - vm_compute. reflexivity.
  - exists W', u. split; [exact E|]. rewrite Hr. reflexivity.
Defined.
