(* ===== verification/P2P.v ===== *)
(** * Peer-to-peer orders of the mobile application

    src/mobile/utils/p2p-storage.ts keeps the orders and the advertisements of the
    peer-to-peer market in AsyncStorage; the pages p2p-order.tsx, p2p-chat.tsx and
    p2p-buat-iklan.tsx create orders, move them through their states and publish
    advertisements. One run of a handler sees one instant of the clock. The
    grouping of digits of [toLocaleString("id-ID")] and the time zone are data of
    the platform, and parameters here. *)

From stdpp Require Import gmap.
From S2P Require Import Prelude JsText Amounts Bytes Numbers Utf8 Json Vault Store Dates.
Local Open Scope Z_scope.
Local Open Scope io_scope.

Definition ORDERS_KEY : jsstr := js "garuda_p2p_orders".
Definition LISTINGS_KEY : jsstr := js "garuda_p2p_my_listings".
Definition AUTO_RELEASE_MS : Z := 24 * 60 * 60 * 1000.

Inductive OrderStatus := menunggu | dibayar | selesai | auto_lepas | dibatalkan | sengketa.
Inductive MessageFrom := buyer | seller | system.

#[export] Instance OrderStatus_eq_dec : EqDecision OrderStatus.
Proof. solve_decision. Defined.
#[export] Instance MessageFrom_eq_dec : EqDecision MessageFrom.
Proof. solve_decision. Defined.

(** A finite number of a stored document: an integer or a fraction. *)
Inductive number := Int (n : Z) | Frac (x : num).

Record P2PMessage := {
  m_id : jsstr; m_from : MessageFrom; m_text : jsstr; m_time : jsstr; m_timestamp : jsstr;
  m_isEscrow : option bool; m_isWarning : option bool
}.

Record P2POrder := {
  o_id : jsstr; o_listingId : jsstr; o_seller : bool; o_traderName : jsstr; o_asset : jsstr;
  o_assetAmount : number; o_idrAmount : number; o_priceNum : number;
  o_paymentMethod : jsstr; o_paymentNoRek : jsstr; o_paymentNama : jsstr;
  o_status : OrderStatus;
  o_createdAt : jsstr; o_paidAt : option jsstr; o_releasedAt : option jsstr; o_autoReleaseAt : option jsstr;
  o_messages : list P2PMessage
}.

(** ** Stored form *)

Definition status_text (s : OrderStatus) : jsstr :=
  match s with
  | menunggu => js "menunggu" | dibayar => js "dibayar" | selesai => js "selesai"
  | auto_lepas => js "auto_lepas" | dibatalkan => js "dibatalkan" | sengketa => js "sengketa"
  end.

Definition from_text (f : MessageFrom) : jsstr :=
  match f with buyer => js "buyer" | seller => js "seller" | system => js "system" end.

Definition status_of (t : jsstr) : option OrderStatus :=
  List.find (fun s => bool_decide (status_text s = t)) [menunggu; dibayar; selesai; auto_lepas; dibatalkan; sengketa].

Definition from_of (t : jsstr) : option MessageFrom :=
  List.find (fun f => bool_decide (from_text f = t)) [buyer; seller; system].

Definition number_json (n : number) : json := match n with Int n => JNum n | Frac x => JFrac x end.
Definition number_of (j : option json) : option number :=
  match j with Some (JNum n) => Some (Int n) | Some (JFrac x) => Some (Frac x) | _ => None end.

Definition text_json (o : option jsstr) : json := match o with Some t => JStr t | None => JNull end.
Definition text_of (j : option json) : option (option jsstr) :=
  match j with Some (JStr t) => Some (Some t) | Some JNull => Some None | _ => None end.

(** A property that is absent is [undefined] and is not printed. *)
Definition flag (key : jsstr) (o : option bool) : list (jsstr * json) :=
  match o with Some b => [(key, JBool b)] | None => [] end.
Definition flag_of (j : option json) : option (option bool) :=
  match j with Some (JBool b) => Some (Some b) | None => Some None | _ => None end.

Definition message_json (m : P2PMessage) : json :=
  JObj ([(js "id", JStr (m_id m)); (js "from", JStr (from_text (m_from m))); (js "text", JStr (m_text m));
         (js "time", JStr (m_time m)); (js "timestamp", JStr (m_timestamp m))]
        ++ flag (js "isEscrow") (m_isEscrow m) ++ flag (js "isWarning") (m_isWarning m)).

Definition message_of (j : json) : option P2PMessage :=
  fs ← as_obj (Some j);
  id ← as_str (field fs (js "id")); f ← as_str (field fs (js "from")); f ← from_of f;
  text ← as_str (field fs (js "text")); time ← as_str (field fs (js "time"));
  ts ← as_str (field fs (js "timestamp"));
  e ← flag_of (field fs (js "isEscrow")); w ← flag_of (field fs (js "isWarning"));
  Some {| m_id := id; m_from := f; m_text := text; m_time := time; m_timestamp := ts; m_isEscrow := e; m_isWarning := w |}.

Definition role_text (seller : bool) : jsstr := if seller then js "seller" else js "buyer".
Definition role_of (t : jsstr) : option bool :=
  if bool_decide (t = js "seller") then Some true else if bool_decide (t = js "buyer") then Some false else None.

Definition order_json (o : P2POrder) : json :=
  JObj [(js "id", JStr (o_id o)); (js "listingId", JStr (o_listingId o)); (js "myRole", JStr (role_text (o_seller o)));
        (js "traderName", JStr (o_traderName o)); (js "asset", JStr (o_asset o));
        (js "assetAmount", number_json (o_assetAmount o)); (js "idrAmount", number_json (o_idrAmount o));
        (js "priceNum", number_json (o_priceNum o)); (js "paymentMethod", JStr (o_paymentMethod o));
        (js "paymentNoRek", JStr (o_paymentNoRek o)); (js "paymentNama", JStr (o_paymentNama o));
        (js "status", JStr (status_text (o_status o))); (js "createdAt", JStr (o_createdAt o));
        (js "paidAt", text_json (o_paidAt o)); (js "releasedAt", text_json (o_releasedAt o));
        (js "autoReleaseAt", text_json (o_autoReleaseAt o)); (js "messages", JArr (map message_json (o_messages o)))].

Definition order_of (j : json) : option P2POrder :=
  fs ← as_obj (Some j);
  id ← as_str (field fs (js "id")); l ← as_str (field fs (js "listingId"));
  r ← as_str (field fs (js "myRole")); r ← role_of r;
  tn ← as_str (field fs (js "traderName")); a ← as_str (field fs (js "asset"));
  aa ← number_of (field fs (js "assetAmount")); ia ← number_of (field fs (js "idrAmount"));
  pn ← number_of (field fs (js "priceNum")); pm ← as_str (field fs (js "paymentMethod"));
  pr ← as_str (field fs (js "paymentNoRek")); pa ← as_str (field fs (js "paymentNama"));
  s ← as_str (field fs (js "status")); s ← status_of s; c ← as_str (field fs (js "createdAt"));
  p ← text_of (field fs (js "paidAt")); re ← text_of (field fs (js "releasedAt"));
  au ← text_of (field fs (js "autoReleaseAt"));
  ms ← as_arr (field fs (js "messages")); ms ← mapM message_of ms;
  Some {| o_id := id; o_listingId := l; o_seller := r; o_traderName := tn; o_asset := a; o_assetAmount := aa;
          o_idrAmount := ia; o_priceNum := pn; o_paymentMethod := pm; o_paymentNoRek := pr; o_paymentNama := pa;
          o_status := s; o_createdAt := c; o_paidAt := p; o_releasedAt := re; o_autoReleaseAt := au;
          o_messages := ms |}.

Definition print_orders (l : list P2POrder) : jsstr := stringify (JArr (map order_json l)).

(** [raw ? JSON.parse(raw) : []], on lists of orders; [None] stands for a text that
    is no such list. *)
Definition parse_orders (raw : option jsstr) : option (list P2POrder) :=
  if text_truthy raw then j ← json_parse (default [] raw); l ← as_arr (Some j); mapM order_of l else Some [].

(** ** Changes of an order *)

(** [{ ...order, status, paidAt, releasedAt, autoReleaseAt, messages }] *)
Definition order_with (o : P2POrder) (s : OrderStatus) (paid released auto : option jsstr) (ms : list P2PMessage) : P2POrder :=
  {| o_id := o_id o; o_listingId := o_listingId o; o_seller := o_seller o; o_traderName := o_traderName o;
     o_asset := o_asset o; o_assetAmount := o_assetAmount o; o_idrAmount := o_idrAmount o; o_priceNum := o_priceNum o;
     o_paymentMethod := o_paymentMethod o; o_paymentNoRek := o_paymentNoRek o; o_paymentNama := o_paymentNama o;
     o_status := s; o_createdAt := o_createdAt o; o_paidAt := paid; o_releasedAt := released; o_autoReleaseAt := auto;
     o_messages := ms |}.

Definition push_messages (o : P2POrder) (ms : list P2PMessage) : P2POrder :=
  order_with o (o_status o) (o_paidAt o) (o_releasedAt o) (o_autoReleaseAt o) (o_messages o ++ ms).

(** A text of the source, written in UTF-8. *)
Definition tx (s : String.string) : jsstr := utf8_decode (js s).
Arguments tx s%_string_scope.

Definition number_string (n : number) : jsstr := match n with Int n => to_string 10 n | Frac x => number_text x end.

(** [${order.assetAmount} ${order.asset}] *)
Definition assetFmt (o : P2POrder) : jsstr := number_string (o_assetAmount o) ++ [32] ++ o_asset o.

Definition formatCountdown (ms : Z) : jsstr :=
  if ms <=? 0 then js "00:00:00" else
  let totalSec := ms / 1000 in
  let pad v := padStart 2 48 (to_string 10 v) in
  pad (totalSec / 3600) ++ [58] ++ pad (totalSec mod 3600 / 60) ++ [58] ++ pad (totalSec mod 60).

Definition autoReleaseLabel (autoReleaseAt : option jsstr) (now : Z) : jsstr :=
  if negb (text_truthy autoReleaseAt) then [] else
  match date_time (default [] autoReleaseAt) with
  | Some t => if 0 <? t - now then formatCountdown (t - now) else js "00:00:00"
  | None => js "00:00:00"
  end.

Section P2P.
Context {K : KV}.
Variable rupiah : number -> jsstr.
Variable zone : Z -> Z.

Definition nowTime (now : Z) : jsstr :=
  let l := now + zone now in
  padStart 2 48 (to_string 10 (l / 3600000 mod 24)) ++ [58] ++ padStart 2 48 (to_string 10 (l / 60000 mod 60)).

(** ** Orders in storage *)

Definition getAllOrders : IO (list P2POrder) :=
  let! raw := asyncGet ORDERS_KEY in ret (default [] (parse_orders raw)).

Definition saveAllOrders (orders : list P2POrder) : IO unit := asyncSet ORDERS_KEY (print_orders orders).

Definition find_order (id : jsstr) (l : list P2POrder) : option P2POrder :=
  List.find (fun o => bool_decide (o_id o = id)) l.

Definition getOrderById (id : jsstr) : IO (option P2POrder) :=
  let! orders := getAllOrders in ret (find_order id orders).

Definition createOrder (order : P2POrder) : IO unit :=
  let! orders := getAllOrders in saveAllOrders (order :: orders).

(** The first order of the identifier is replaced; the second result is
    [idx >= 0]. *)
Fixpoint replace_order (u : P2POrder) (l : list P2POrder) : list P2POrder * bool :=
  match l with
  | [] => ([], false)
  | o :: l => if bool_decide (o_id o = o_id u) then (u :: l, true)
              else let '(l', b) := replace_order u l in (o :: l', b)
  end.

Definition updateOrder (updated : P2POrder) : IO unit :=
  let! orders := getAllOrders in
  let '(orders', found) := replace_order updated orders in
  saveAllOrders (if found : bool then orders' else updated :: orders).

(** ** Automatic release *)

Definition due (now : Z) (o : P2POrder) : bool :=
  bool_decide (o_status o = dibayar) && text_truthy (o_autoReleaseAt o)
  && match date_time (default [] (o_autoReleaseAt o)) with Some t => t <=? now | None => false end.

Definition auto_messages (now : Z) (o : P2POrder) : list P2PMessage :=
  let t := nowTime now in
  [ {| m_id := js "ar-warn-" ++ to_string 10 now; m_from := system;
       m_text := tx "⚠️ PENANGGUHAN: Penjual tidak melepas aset dalam 24 jam. Akun penjual ditangguhkan 72 jam.";
       m_time := t; m_timestamp := toISOString now; m_isEscrow := None; m_isWarning := Some true |};
    {| m_id := js "ar-done-" ++ to_string 10 (now + 1); m_from := system;
       m_text := tx "✅ SISTEM: " ++ assetFmt o ++ js " otomatis dilepaskan ke "
                 ++ (if o_seller o then js "pembeli" else js "dompet kamu") ++ js ". Transaksi selesai secara otomatis.";
       m_time := t; m_timestamp := toISOString now; m_isEscrow := Some true; m_isWarning := None |} ].

Definition auto_release (now : Z) (o : P2POrder) : P2POrder :=
  order_with o auto_lepas (o_paidAt o) (Some (toISOString now)) (o_autoReleaseAt o) (o_messages o ++ auto_messages now o).

(** The loop over the orders: the orders after it, the released identifiers in
    order, and [changed]. *)
Fixpoint release_loop (now : Z) (orders : list P2POrder) (released : list jsstr) (changed : bool)
    : list P2POrder * list jsstr * bool :=
  match orders with
  | [] => ([], released, changed)
  | o :: orders =>
      if due now o then
        let '(l, r, c) := release_loop now orders (released ++ [o_id o]) true in (auto_release now o :: l, r, c)
      else
        let '(l, r, c) := release_loop now orders released changed in (o :: l, r, c)
  end.

Definition processAutoReleases : IO (list jsstr) :=
  let! orders := getAllOrders in
  let! now := gets clock in
  let '(orders, released, changed) := release_loop now orders [] false in
  (if changed : bool then saveAllOrders orders else ret tt) ;;! ret released.

(** ** The chat page *)

Record chat := {
  p_order : option P2POrder;
  p_inputText : jsstr;
  p_msLeft : Z;
  p_autoReleased : bool
}.

Definition set_order (p : chat) (o : P2POrder) : chat :=
  {| p_order := Some o; p_inputText := p_inputText p; p_msLeft := p_msLeft p; p_autoReleased := p_autoReleased p |}.
Definition set_msLeft (p : chat) (ms : Z) : chat :=
  {| p_order := p_order p; p_inputText := p_inputText p; p_msLeft := ms; p_autoReleased := p_autoReleased p |}.
Definition set_input (p : chat) (t : jsstr) : chat :=
  {| p_order := p_order p; p_inputText := t; p_msLeft := p_msLeft p; p_autoReleased := p_autoReleased p |}.
Definition set_autoReleased (p : chat) : chat :=
  {| p_order := p_order p; p_inputText := p_inputText p; p_msLeft := p_msLeft p; p_autoReleased := true |}.

Definition loadOrder (orderId : jsstr) (p : chat) : IO chat :=
  match orderId with
  | [] => ret p
  | _ =>
      processAutoReleases ;;!
      let! o := getOrderById orderId in
      let! now := gets clock in
      ret match o with
          | None => p
          | Some o =>
              let p := set_order p o in
              let p := if bool_decide (o_status o = dibayar) && text_truthy (o_autoReleaseAt o)
                       then match date_time (default [] (o_autoReleaseAt o)) with
                            | Some t => set_msLeft p (Z.max 0 (t - now))
                            | None => p
                            end
                       else p in
              if bool_decide (o_status o = auto_lepas) then set_autoReleased p else p
          end
  end.

(** One tick of the countdown started for [o]. *)
Definition countdown (orderId : jsstr) (o : P2POrder) (p : chat) : IO chat :=
  let! now := gets clock in
  match date_time (default [] (o_autoReleaseAt o)) with
  | Some t => if t - now <=? 0 then loadOrder orderId (set_msLeft p 0) else ret (set_msLeft p (t - now))
  | None => ret p
  end.

Definition saveAndSet (p : chat) (updated : P2POrder) : IO chat := updateOrder updated ;;! ret (set_order p updated).

(** A message before its [timestamp] is added. *)
Definition draft (id : jsstr) (f : MessageFrom) (text time : jsstr) (e w : option bool) (ts : jsstr) : P2PMessage :=
  {| m_id := id; m_from := f; m_text := text; m_time := time; m_timestamp := ts; m_isEscrow := e; m_isWarning := w |}.

Definition addMessages (p : chat) (current : P2POrder) (msgs : list (jsstr -> P2PMessage)) : IO chat :=
  let! now := gets clock in
  saveAndSet p (push_messages current (map (fun m => m (toISOString now)) msgs)).

Definition sendMessage (p : chat) : IO chat :=
  match p_order p, trim (p_inputText p) with
  | None, _ | _, [] => ret p
  | Some order, text =>
      let! now := gets clock in
      let! p := addMessages p order
        [draft (js "msg-" ++ to_string 10 now) (if o_seller order then seller else buyer) text (nowTime now) None None] in
      ret (set_input p [])
  end.

(** [{ ...order, status: "dibayar", paidAt, autoReleaseAt }] *)
Definition paid_order (now : Z) (o : P2POrder) : P2POrder :=
  order_with o dibayar (Some (toISOString now)) (o_releasedAt o) (Some (toISOString (now + AUTO_RELEASE_MS))) (o_messages o).

Definition buyer_messages (now : Z) (o : P2POrder) : list (jsstr -> P2PMessage) :=
  let t := nowTime now in
  [ draft (js "paid-confirm-" ++ to_string 10 now) buyer
      (tx "Saya sudah melakukan transfer sesuai jumlah yang tertera. Mohon segera dikonfirmasi. 🙏") t None None;
    draft (js "sys-paid-" ++ to_string 10 (now + 1)) system
      (tx "📢 SISTEM: Pembeli telah mengkonfirmasi pembayaran Rp " ++ rupiah (o_idrAmount o)
       ++ js ". Penjual diminta segera memeriksa rekening dan menekan " ++ [34] ++ js "Lepas Aset" ++ [34] ++ js ".") t (Some true) None;
    draft (js "sys-timer-" ++ to_string 10 (now + 2)) system
      (tx "⏰ Penjual memiliki waktu 24 jam untuk melepas aset. Jika tidak merespons, sistem akan otomatis melepas aset ke pembeli dan akun penjual ditangguhkan 72 jam.")
      t None (Some true) ].

Definition handleSudahBayar (p : chat) : IO chat :=
  match p_order p with
  | Some order =>
      if negb (bool_decide (o_status order = menunggu)) then ret p else
      let! now := gets clock in
      let! p := addMessages p (paid_order now order) (buyer_messages now order) in
      ret (set_msLeft p AUTO_RELEASE_MS)
  | None => ret p
  end.

Definition seller_messages (now : Z) (o : P2POrder) : list (jsstr -> P2PMessage) :=
  let t := nowTime now in
  [ draft (js "adm-paid-" ++ to_string 10 now) seller
      (js "Pembayaran IDR Rp " ++ rupiah (o_idrAmount o) ++ js " sudah kami transfer ke rekening kamu via "
       ++ o_paymentMethod o ++ tx ". Silakan cek dan lepas asetmu. 🙏") t None None;
    draft (js "sys-adm-" ++ to_string 10 (now + 1)) system
      (tx "📢 SISTEM: Admin telah mengkonfirmasi pembayaran IDR. Kamu (penjual aset) diminta melepas " ++ assetFmt o
       ++ js " dalam 24 jam.") t (Some true) None;
    draft (js "sys-timer2-" ++ to_string 10 (now + 2)) system
      (tx "⏰ Kamu memiliki waktu 24 jam untuk melepas aset. Jika tidak merespons, sistem akan otomatis melepas aset dan akun kamu ditangguhkan 72 jam.")
      t None (Some true) ].

Definition handleKonfirmasiSudahBayarIDR (p : chat) : IO chat :=
  match p_order p with
  | Some order =>
      if negb (bool_decide (o_status order = menunggu)) then ret p else
      let! now := gets clock in
      let! p := addMessages p (paid_order now order) (seller_messages now order) in
      ret (set_msLeft p AUTO_RELEASE_MS)
  | None => ret p
  end.

(** [handleLepasAset] asks first; the answer acts on the order that was shown when
    the question was asked. *)
Definition handleLepasAset (p : chat) : option P2POrder := p_order p.

Definition confirmLepas (order : P2POrder) (p : chat) : IO chat :=
  let! now := gets clock in
  addMessages p (order_with order selesai (o_paidAt order) (Some (toISOString now)) (o_autoReleaseAt order) (o_messages order))
    [ draft (js "rel-msg-" ++ to_string 10 now) (if o_seller order then buyer else seller)
        (tx "Pembayaran sudah saya terima dengan baik. Aset saya lepas sekarang. Terima kasih! 🎉") (nowTime now) None None;
      draft (js "sys-rel-" ++ to_string 10 (now + 1)) system
        (tx "✅ SISTEM: " ++ assetFmt order
         ++ js " berhasil dilepaskan. Transaksi selesai dengan aman. Terima kasih telah bertransaksi di GarudaChain P2P.")
        (nowTime now) (Some true) None ].

(** [handleCancel]: only an order that waits for its payment can be cancelled. *)
Definition handleCancelOrder (p : chat) : option P2POrder :=
  match p_order p with
  | Some order => if bool_decide (o_status order = menunggu) then Some order else None
  | None => None
  end.

Definition confirmCancel (order : P2POrder) (p : chat) : IO chat :=
  let! now := gets clock in
  addMessages p (order_with order dibatalkan (o_paidAt order) (o_releasedAt order) (o_autoReleaseAt order) (o_messages order))
    [ draft (js "cancel-" ++ to_string 10 now) system
        (tx "❌ Order dibatalkan. Aset dikembalikan ke escrow penjual.") (nowTime now) None (Some true) ].

(** The buttons the page shows. *)
Definition isBuyer (p : chat) : bool := match p_order p with Some o => negb (o_seller o) | None => false end.
Definition shows (p : chat) (s : OrderStatus) : bool :=
  match p_order p with Some o => bool_decide (o_status o = s) | None => false end.
Definition isDone (p : chat) : bool := shows p selesai || shows p auto_lepas || shows p dibatalkan.
End P2P.
