(* ===== verification/P2PProofs.v ===== *)
(** * Orders of the peer-to-peer market: proofs

    The chat page as a step relation over the device, the page and the open
    question, the invariant of stored orders, and the automatic release. *)

From stdpp Require Import gmap.
From S2P Require Import Prelude JsText Amounts Bytes Numbers Utf8 Json Vault Store Dates WalletStorage WalletProofs P2P.
Local Open Scope Z_scope.
Local Open Scope io_scope.

(** ** Texts *)

Lemma units_app a b : units (a ++ b) = units a && units b.
Proof. apply forallb_app. Qed.

Lemma units_forall s : Forall (fun u => 0 <= u < 0x10000) s -> units s = true.
Proof. intros H. apply forallb_forall. intros u Hu. eapply Forall_forall in H; [|by apply list_elem_of_In]. lia. Qed.

Lemma units_to_string n : units (to_string 10 n) = true.
Proof. apply units_forall. eapply Forall_impl; [apply to_string_number|]. unfold number_char. simpl. lia. Qed.

Lemma units_number_text x : units (number_text x) = true.
Proof. apply units_forall. eapply Forall_impl; [apply number_text_chars|]. unfold number_char. simpl. lia. Qed.

Lemma units_padStart k s : units s = true -> units (padStart k 48 s) = true.
Proof.
  intros H. unfold padStart. rewrite units_app, H, andb_true_r. apply units_forall, Forall_replicate. lia.
Qed.

Lemma units_two n : 0 <= n < 100 -> units (two n) = true.
Proof. intros. apply units_forall. unfold two. repeat constructor; Z.to_euclidean_division_equations; lia. Qed.

Lemma units_iso t : 0 <= t < MAX_MS -> units (toISOString t) = true.
Proof.
  intros Ht. pose proof (iso_roundtrip t Ht) as H. unfold toISOString in *.
  set (y := YearFromDay _) in *. destruct (month_day _ _ _) as [m d]. set (ms := t mod _) in *.
  cbn [app four two three] in *. cbn [date_time] in H.
  destruct (bool_decide _) eqn:Eb; [|done]. apply bool_decide_eq_true in Eb.
  assert (forall l v, Dates.number_of l = Some v -> Forall (fun u => 0 <= u < 0x10000) l) as Hn.
  { intros l v Hl. unfold Dates.number_of in Hl. destruct (mapM digit l) as [ds|] eqn:E; [|done].
    apply mapM_Some in E. clear Hl. induction E as [|u d' l' ds' Hu _ IH]; [constructor|].
    constructor; [|done]. unfold digit in Hu. destruct ((48 <=? u) && (u <=? 57)) eqn:E; [lia|done]. }
  repeat match type of H with context [Dates.number_of ?l ≫= _] =>
    let v := fresh "v" in let E := fresh "E" in destruct (Dates.number_of l) as [v|] eqn:E; [|done];
    apply Hn in E; cbn [mbind option_bind] in H end.
  clear H Eb Hn. repeat match goal with E : Forall _ (_ :: _) |- _ => apply Forall_cons in E; destruct E end.
  apply units_forall. repeat (apply Forall_cons_2; [first [assumption|lia]|]). apply Forall_nil_2.
Qed.

(** ** Stored orders are read back *)

Definition message_good (m : P2PMessage) : bool :=
  units (m_id m) && units (m_text m) && units (m_time m) && units (m_timestamp m).

Definition number_good (n : number) : bool := match n with Int _ => true | Frac x => printable x end.
Definition text_good (o : option jsstr) : bool := match o with Some t => units t | None => true end.

Definition order_good (o : P2POrder) : bool :=
  units (o_id o) && units (o_listingId o) && units (o_traderName o) && units (o_asset o)
  && number_good (o_assetAmount o) && number_good (o_idrAmount o) && number_good (o_priceNum o)
  && units (o_paymentMethod o) && units (o_paymentNoRek o) && units (o_paymentNama o) && units (o_createdAt o)
  && text_good (o_paidAt o) && text_good (o_releasedAt o) && text_good (o_autoReleaseAt o)
  && forallb message_good (o_messages o).

Lemma message_json_ok m : message_good m = true -> json_ok (message_json m) = true.
Proof.
  unfold message_good. rewrite !andb_true_iff. intros [[[H1 H2] H3] H4].
  destruct m as [i f t tm ts [e|] [w|]], f; cbn [m_id m_text m_time m_timestamp] in *;
    cbn -[units js]; rewrite H1, H2, H3, H4; reflexivity.
Qed.

Lemma message_roundtrip m : message_of (message_json m) = Some m.
Proof. by destruct m as [i [] t tm ts [e|] [w|]]. Qed.

Lemma number_json_ok n : json_ok (number_json n) = number_good n.
Proof. by destruct n. Qed.

Lemma text_json_ok o : json_ok (text_json o) = text_good o.
Proof. by destruct o. Qed.

Lemma order_json_ok o : order_good o = true -> json_ok (order_json o) = true.
Proof.
  unfold order_good. rewrite !andb_true_iff. intros H. destruct_and! H.
  unfold order_json. cbn [json_ok forallb fst snd]. rewrite !number_json_ok, !text_json_ok.
  assert (units (role_text (o_seller o)) = true) as -> by by destruct (o_seller o).
  assert (units (status_text (o_status o)) = true) as -> by by destruct (o_status o).
  assert (forallb json_ok (map message_json (o_messages o)) = true) as ->.
  { rewrite forallb_map. apply forallb_forall. intros m Hm. apply message_json_ok.
    rewrite forallb_forall in *. auto. }
  repeat match goal with H : ?b = true |- _ => rewrite H; clear H end. vm_compute. reflexivity.
Qed.

Lemma text_of_json o : text_of (Some (text_json o)) = Some o.
Proof. by destruct o. Qed.
Lemma number_of_json n : number_of (Some (number_json n)) = Some n.
Proof. by destruct n. Qed.

Lemma order_roundtrip o : order_of (order_json o) = Some o.
Proof.
  destruct o as [id l r tn a aa ia pn pm pr pa s c p re au ms].
  unfold order_json. cbn [o_id o_listingId o_seller o_traderName o_asset o_assetAmount o_idrAmount o_priceNum
    o_paymentMethod o_paymentNoRek o_paymentNama o_status o_createdAt o_paidAt o_releasedAt o_autoReleaseAt o_messages].
  pose proof (number_of_json aa) as H1. pose proof (number_of_json ia) as H2. pose proof (number_of_json pn) as H3.
  pose proof (text_of_json p) as H4. pose proof (text_of_json re) as H5. pose proof (text_of_json au) as H6.
  assert (mapM message_of (map message_json ms) = Some ms) as H7 by apply mapM_map_some, message_roundtrip.
  assert (role_of (role_text r) = Some r) as H8 by by destruct r.
  assert (status_of (status_text s) = Some s) as H9 by by destruct s.
  revert H1 H2 H3 H4 H5 H6 H7 H8 H9. generalize (number_json aa), (number_json ia), (number_json pn), (text_json p),
    (text_json re), (text_json au), (map message_json ms), (role_text r), (status_text s).
  intros j1 j2 j3 j4 j5 j6 j7 j8 j9 H1 H2 H3 H4 H5 H6 H7 H8 H9. unfold order_of. cbn [as_obj mbind option_bind].
  repeat match goal with |- context [field ?fs ?k] =>
    let r := eval vm_compute in (field fs k) in change (field fs k) with r end.
  cbn [as_str as_arr mbind option_bind]. by rewrite H8, H1, H2, H3, H9, H4, H5, H6, H7.
Qed.

Lemma parse_print_orders l : forallb order_good l = true -> parse_orders (Some (print_orders l)) = Some l.
Proof.
  intros Hl. unfold parse_orders, print_orders.
  assert (json_ok (JArr (map order_json l)) = true) as Hok.
  { cbn [json_ok]. rewrite forallb_map, forallb_forall in *. auto using order_json_ok. }
  assert (text_truthy (Some (stringify (JArr (map order_json l)))) = true) as -> by done.
  change (default [] (Some ?x)) with x. rewrite json_parse_stringify by done. cbn [mbind option_bind as_arr].
  apply mapM_map_some, order_roundtrip.
Qed.

Section Chat.
Context {K : KV} {L : KVLaws K}.
Variable rupiah : number -> jsstr.
Variable zone : Z -> Z.
Hypothesis rupiah_units : forall n, units (rupiah n) = true.

(** The orders a read of the device gives. *)
Definition orders (W : world K) : list P2POrder := default [] (parse_orders (aget W ORDERS_KEY)).

Definition all_good (W : world K) : Prop := forallb order_good (orders W) = true.

(** The clock is between 1970 and the last day of 9999. *)
Definition clock_good (W : world K) : Prop := 0 <= clock W /\ clock W + AUTO_RELEASE_MS < MAX_MS.

Lemma run_getAll (W : world K) : getAllOrders W = (W, inl (orders W)).
Proof. done. Qed.

Definition with_orders (l : list P2POrder) (W : world K) : world K := aset ORDERS_KEY (print_orders l) W.

Lemma run_saveAll l (W : world K) : saveAllOrders l W = (with_orders l W, inl tt).
Proof. done. Qed.

Lemma orders_with l (W : world K) : forallb order_good l = true -> orders (with_orders l W) = l.
Proof. intros Hl. unfold orders, with_orders. rewrite aget_aset. by rewrite parse_print_orders. Qed.

(** *** Updating *)

Definition upsert (u : P2POrder) (l : list P2POrder) : list P2POrder :=
  if (replace_order u l).2 then (replace_order u l).1 else u :: l.

Lemma replace_forall (P : P2POrder -> Prop) u l : P u -> Forall P l -> Forall P (replace_order u l).1.
Proof.
  intros Hu. induction 1 as [|o l Ho Hl IH]; [constructor|]. cbn [replace_order].
  destruct (bool_decide _); [by constructor|]. destruct (replace_order u l) as [l' b]. by constructor.
Qed.

Lemma upsert_forall (P : P2POrder -> Prop) u l : P u -> Forall P l -> Forall P (upsert u l).
Proof.
  intros Hu Hl. unfold upsert. destruct (replace_order u l).2; [by apply replace_forall|by constructor].
Qed.

Lemma find_upsert u l : find_order (o_id u) (upsert u l) = Some u.
Proof.
  unfold upsert. assert ((replace_order u l).2 = true -> find_order (o_id u) (replace_order u l).1 = Some u) as H.
  { induction l as [|o l IH]; [done|]. cbn [replace_order]. destruct (bool_decide (o_id o = o_id u)) eqn:E.
    - intros _. cbn [fst find_order List.find]. by rewrite bool_decide_true.
    - destruct (replace_order u l) as [l' b]. cbn [fst snd] in *. unfold find_order in *. cbn [List.find]. by rewrite E. }
  destruct (replace_order u l).2; [by apply H|]. unfold find_order. cbn [List.find]. by rewrite bool_decide_true.
Qed.

Lemma forallb_Forall {A} (f : A -> bool) l : forallb f l = true <-> Forall (fun x => f x = true) l.
Proof. rewrite Forall_forall, forallb_forall. by setoid_rewrite list_elem_of_In. Qed.

Lemma run_update u (W : world K) :
  order_good u = true -> all_good W ->
  updateOrder u W = (with_orders (upsert u (orders W)) W, inl tt)
  /\ orders (with_orders (upsert u (orders W)) W) = upsert u (orders W)
  /\ all_good (with_orders (upsert u (orders W)) W).
Proof.
  intros Hu HW. assert (forallb order_good (upsert u (orders W)) = true) as Hg.
  { apply forallb_Forall, upsert_forall; [done|by apply forallb_Forall]. }
  split; [|unfold all_good; by rewrite orders_with].
  unfold updateOrder, bind. rewrite run_getAll. unfold upsert. by destruct (replace_order u (orders W)).
Qed.

(** *** Releasing *)

Definition settle_order (now : Z) (o : P2POrder) : P2POrder := if due now o then auto_release zone now o else o.

Lemma release_loop_spec now l r c :
  release_loop zone now l r c = (map (settle_order now) l, r ++ map o_id (List.filter (due now) l), c || existsb (due now) l).
Proof.
  revert r c. induction l as [|o l IH]; intros r c; cbn [release_loop map List.filter existsb].
  { by rewrite app_nil_r, orb_false_r. }
  unfold settle_order at 1. destruct (due now o); rewrite IH; cbn [map app]; [|done].
  rewrite <- app_assoc. by rewrite orb_true_r.
Qed.

Lemma settle_none now l : existsb (due now) l = false -> map (settle_order now) l = l.
Proof.
  induction l as [|o l IH]; [done|]. cbn [existsb map]. intros H. apply orb_false_iff in H as [H1 H2].
  unfold settle_order at 1. by rewrite H1, IH.
Qed.

Lemma nowTime_units now : units (nowTime zone now) = true.
Proof.
  unfold nowTime. rewrite !units_app. rewrite !units_padStart by apply units_to_string. reflexivity.
Qed.

Lemma assetFmt_units o : order_good o = true -> units (assetFmt o) = true.
Proof.
  unfold order_good. rewrite !andb_true_iff. intros H. unfold assetFmt. rewrite !units_app.
  assert (units (number_string (o_assetAmount o)) = true) as ->
    by (destruct (o_assetAmount o); [apply units_to_string|apply units_number_text]).
  assert (units (o_asset o) = true) as -> by tauto. reflexivity.
Qed.

(** Changing the status, the dates and the messages keeps an order good. *)
Lemma order_with_good o s p r a ms :
  order_good o = true -> text_good p = true -> text_good r = true -> text_good a = true ->
  forallb message_good ms = true -> order_good (order_with o s p r a ms) = true.
Proof.
  unfold order_good. cbn. rewrite !andb_true_iff. intros H Hp Hr Ha Hm. destruct_and! H. repeat split; assumption.
Qed.

Lemma good_parts o :
  order_good o = true -> text_good (o_paidAt o) = true /\ text_good (o_releasedAt o) = true
    /\ text_good (o_autoReleaseAt o) = true /\ forallb message_good (o_messages o) = true
    /\ units (o_paymentMethod o) = true.
Proof. unfold order_good. rewrite !andb_true_iff. tauto. Qed.

Ltac texts :=
  repeat match goal with
  | |- context [units (?a ++ ?b)] => rewrite (units_app a b)
  | |- context [units (to_string 10 ?n)] => rewrite (units_to_string n)
  | |- context [units (nowTime zone ?n)] => rewrite (nowTime_units n)
  | |- context [units (rupiah ?n)] => rewrite (rupiah_units n)
  | |- context [units (assetFmt ?o)] => rewrite (assetFmt_units o) by assumption
  | H : units ?t = true |- context [units ?t] => rewrite H
  | |- context [units (toISOString ?t)] => rewrite (units_iso t) by (unfold AUTO_RELEASE_MS in *; lia)
  end.

Ltac message_texts :=
  unfold draft, message_good; cbn [map forallb m_id m_text m_time m_timestamp]; texts; vm_compute; reflexivity.

Lemma auto_release_good now o :
  0 <= now < MAX_MS -> order_good o = true -> order_good (auto_release zone now o) = true.
Proof.
  intros Hn Ho. destruct (good_parts o Ho) as (H1 & H2 & H3 & H4 & _). apply order_with_good; try done; [by apply units_iso|].
  rewrite forallb_app, H4. unfold auto_messages, message_good. cbn [forallb m_id m_text m_time m_timestamp]. texts.
  destruct (o_seller o); vm_compute; reflexivity.
Qed.

Definition settled (W : world K) : world K :=
  if existsb (due (clock W)) (orders W) then with_orders (map (settle_order (clock W)) (orders W)) W else W.

Lemma run_process (W : world K) :
  all_good W -> clock_good W ->
  processAutoReleases zone W = (settled W, inl (map o_id (List.filter (due (clock W)) (orders W))))
  /\ orders (settled W) = map (settle_order (clock W)) (orders W) /\ all_good (settled W) /\ clock (settled W) = clock W.
Proof.
  intros HW [Hc1 Hc2]. unfold AUTO_RELEASE_MS in Hc2. unfold processAutoReleases, bind. rewrite run_getAll. cbn [gets].
  unfold gets. rewrite release_loop_spec. cbn [orb]. unfold settled. destruct (existsb _ _) eqn:E.
  - assert (forallb order_good (map (settle_order (clock W)) (orders W)) = true) as Hg.
    { rewrite forallb_map. apply forallb_forall. intros o Ho. unfold all_good in HW. rewrite forallb_forall in HW.
      unfold settle_order. destruct (due _ _); [apply auto_release_good; [lia|auto]|auto]. }
    rewrite run_saveAll. split; [done|]. unfold all_good. rewrite orders_with by done. done.
  - rewrite settle_none by done. done.
Qed.

(** ** The chat page as a transition system *)

Definition at_clock (t : Z) (W : world K) : world K :=
  {| web := web W; secure := secure W; async := async W; replies := replies W; requests := requests W; clock := t |}.

(** The device, the page, the order it was opened for, and an open question with
    the order it was asked about: release ([true]) or cancel. *)
Record chat_state := {
  dev : world K;
  page : chat;
  order_id : jsstr;
  question : option (bool * P2POrder)
}.

Definition blank : chat := {| p_order := None; p_inputText := []; p_msLeft := 0; p_autoReleased := false |}.

(** An order as the order page creates it. *)
Definition placed (o : P2POrder) : Prop :=
  o_status o = menunggu /\ o_paidAt o = None /\ o_releasedAt o = None /\ o_autoReleaseAt o = None.

Definition moved (s : chat_state) (W : world K) (p : chat) : chat_state :=
  {| dev := W; page := p; order_id := order_id s; question := question s |}.

Definition asked (s : chat_state) (q : option (bool * P2POrder)) : chat_state :=
  {| dev := dev s; page := page s; order_id := order_id s; question := q |}.

Inductive chat_step (s : chat_state) : chat_state -> Prop :=
| step_clock t : clock (dev s) <= t -> t + AUTO_RELEASE_MS < MAX_MS ->
    chat_step s (moved s (at_clock t (dev s)) (page s))
| step_place o W : placed o -> order_good o = true -> createOrder o (dev s) = (W, inl tt) ->
    chat_step s (moved s W (page s))
| step_open id W p : loadOrder zone id blank (dev s) = (W, inl p) ->
    chat_step s {| dev := W; page := p; order_id := id; question := None |}
| step_focus W r : processAutoReleases zone (dev s) = (W, inl r) -> chat_step s (moved s W (page s))
| step_tick o W p : p_order (page s) = Some o -> o_status o = dibayar ->
    countdown zone (order_id s) o (page s) (dev s) = (W, inl p) -> chat_step s (moved s W p)
| step_type t : units t = true -> chat_step s (moved s (dev s) (set_input (page s) t))
| step_send W p : isDone (page s) = false -> sendMessage zone (page s) (dev s) = (W, inl p) -> chat_step s (moved s W p)
| step_paid W p : isBuyer (page s) = true -> shows (page s) menunggu = true ->
    handleSudahBayar rupiah zone (page s) (dev s) = (W, inl p) -> chat_step s (moved s W p)
| step_paid_idr W p : isBuyer (page s) = false -> shows (page s) menunggu = true ->
    handleKonfirmasiSudahBayarIDR rupiah zone (page s) (dev s) = (W, inl p) -> chat_step s (moved s W p)
| step_ask_release o : isBuyer (page s) = false -> shows (page s) dibayar = true ->
    handleLepasAset (page s) = Some o -> chat_step s (asked s (Some (true, o)))
| step_release o W p : question s = Some (true, o) -> confirmLepas zone o (page s) (dev s) = (W, inl p) ->
    chat_step s (asked (moved s W p) None)
| step_ask_cancel o : handleCancelOrder (page s) = Some o -> chat_step s (asked s (Some (false, o)))
| step_cancel o W p : question s = Some (false, o) -> confirmCancel zone o (page s) (dev s) = (W, inl p) ->
    chat_step s (asked (moved s W p) None)
| step_dismiss : chat_step s (asked s None).

(** ** What holds of every stored order *)

(** The dates fit the status; an order of a buyer is never [selesai]. *)
Definition consistent (now : Z) (o : P2POrder) : Prop :=
  match o_status o with
  | menunggu => o_paidAt o = None /\ o_releasedAt o = None /\ o_autoReleaseAt o = None
  | dibayar => o_releasedAt o = None /\ exists t, 0 <= t <= now
      /\ o_paidAt o = Some (toISOString t) /\ o_autoReleaseAt o = Some (toISOString (t + AUTO_RELEASE_MS))
  | auto_lepas => exists t r, 0 <= t /\ t + AUTO_RELEASE_MS <= r <= now
      /\ o_paidAt o = Some (toISOString t) /\ o_releasedAt o = Some (toISOString r)
  | selesai => o_seller o = true /\ exists t r, 0 <= t <= r /\ r <= now
      /\ o_paidAt o = Some (toISOString t) /\ o_releasedAt o = Some (toISOString r)
  | dibatalkan => o_paidAt o = None /\ o_releasedAt o = None
  | sengketa => False
  end.

Definition fine (now : Z) (o : P2POrder) : Prop := order_good o = true /\ consistent now o.

Record chat_inv (s : chat_state) : Prop := {
  inv_clock : clock_good (dev s);
  inv_orders : Forall (fine (clock (dev s))) (orders (dev s));
  inv_page : forall o, p_order (page s) = Some o -> fine (clock (dev s)) o;
  inv_input : units (p_inputText (page s)) = true;
  inv_question : forall b o, question s = Some (b, o) -> fine (clock (dev s)) o
    /\ if b : bool then o_status o = dibayar /\ o_seller o = true else o_status o = menunggu
}.

Lemma fine_later now now' o : now <= now' -> fine now o -> fine now' o.
Proof.
  intros Hle [H1 H2]. split; [done|]. unfold consistent in *. destruct (o_status o); try done.
  - destruct H2 as (? & t & ? & ?). split; [done|]. exists t. split; [lia|done].
  - destruct H2 as (? & t & r & ? & ? & ?). split; [done|]. exists t, r. split; [lia|]. split; [lia|done].
  - destruct H2 as (t & r & ? & ? & ?). exists t, r. split; [lia|]. split; [lia|done].
Qed.

Lemma fine_all_good now (W : world K) : Forall (fine now) (orders W) -> all_good W.
Proof. intros H. apply forallb_Forall. eapply Forall_impl; [exact H|]. by intros o [? _]. Qed.

Lemma fine_settle now o : 0 <= now -> now + AUTO_RELEASE_MS < MAX_MS -> fine now o -> fine now (settle_order now o).
Proof.
  intros Hn Hm [Hg Hc]. unfold settle_order. destruct (due now o) eqn:E; [|done].
  split; [apply auto_release_good; [unfold AUTO_RELEASE_MS in Hm; lia|done]|].
  unfold due in E. apply andb_true_iff in E as [E Et]. apply andb_true_iff in E as [E _].
  apply bool_decide_eq_true in E. unfold consistent in Hc. rewrite E in Hc. destruct Hc as (_ & t & Ht & Hp & Ha).
  rewrite Ha in Et. cbn [from_option id] in Et. rewrite iso_roundtrip in Et by (unfold AUTO_RELEASE_MS in *; lia).
  unfold consistent, auto_release, order_with. cbn. exists t, now. split; [lia|]. split; [lia|done].
Qed.

Lemma inv_settled s : chat_inv s ->
  Forall (fine (clock (dev s))) (orders (settled (dev s))) /\ clock (settled (dev s)) = clock (dev s).
Proof.
  intros [[Hc1 Hc2] Ho _ _ _]. destruct (run_process (dev s) (fine_all_good _ _ Ho) (conj Hc1 Hc2)) as (_ & E & _ & Ec).
  split; [|done]. rewrite E. apply Forall_map. eapply Forall_impl; [exact Ho|]. intros o H. by apply fine_settle.
Qed.

Lemma run_add p cur msgs (W : world K) :
  let u := push_messages cur (map (fun m => m (toISOString (clock W))) msgs) in
  order_good u = true -> all_good W ->
  addMessages p cur msgs W = (with_orders (upsert u (orders W)) W, inl (set_order p u)).
Proof.
  intros u Hu HW. destruct (run_update u W Hu HW) as (E & _). unfold addMessages, saveAndSet, bind, gets. fold u. by rewrite E.
Qed.

Lemma inv_write s u p q :
  chat_inv s -> fine (clock (dev s)) u -> p_order p = Some u -> units (p_inputText p) = true ->
  (forall b o, q = Some (b, o) -> question s = q) ->
  chat_inv {| dev := with_orders (upsert u (orders (dev s))) (dev s); page := p; order_id := order_id s; question := q |}.
Proof.
  intros [Hc Ho Hp Hi Hq] Hu Ep Hi' Hqs. split; cbn [dev page question]; try done.
  - rewrite (proj1 (proj2 (run_update u (dev s) (proj1 Hu) (fine_all_good _ _ Ho)))). by apply upsert_forall.
  - intros o Eo. rewrite Ep in Eo. by injection Eo as <-.
  - intros b o Eq. apply Hq. rewrite (Hqs b o Eq). done.
Qed.

Lemma find_order_in id l o : find_order id l = Some o -> In o l.
Proof. intros H. by apply List.find_some in H as [? _]. Qed.

Lemma inv_moved s W p :
  chat_inv s -> W = dev s \/ W = settled (dev s) ->
  (forall o, p_order p = Some o -> p_order (page s) = Some o \/ In o (orders W)) -> units (p_inputText p) = true ->
  chat_inv (moved s W p).
Proof.
  intros Hs HW Hp Hi. pose proof (inv_settled s Hs) as [Hf Hk]. destruct Hs as [Hc Ho Hpage _ Hq].
  assert (clock W = clock (dev s) /\ Forall (fine (clock (dev s))) (orders W)) as [Ec HoW] by (destruct HW as [-> | ->]; done).
  split; cbn [moved dev page question]; unfold clock_good in *; rewrite ?Ec; try done.
  intros o Eo. destruct (Hp o Eo) as [H|H]; [by apply Hpage|].
  rewrite Forall_forall in HoW. by apply HoW, list_elem_of_In.
Qed.

Lemma chat_run_load id p (W W' : world K) p' :
  all_good W -> clock_good W -> loadOrder zone id p W = (W', inl p') ->
  (W' = W \/ W' = settled W) /\ (forall o, p_order p' = Some o -> p_order p = Some o \/ In o (orders W'))
  /\ p_inputText p' = p_inputText p.
Proof.
  intros HW Hc H. unfold loadOrder in H. destruct id as [|u id].
  { injection H as <- <-. auto. }
  destruct (run_process W HW Hc) as (E & _). unfold bind in H. rewrite E in H. cbn [getOrderById bind gets] in H.
  unfold getOrderById, bind in H. rewrite run_getAll in H. cbn [ret] in H. unfold ret, gets in H.
  injection H as <- <-. split; [by right|]. destruct (find_order _ _) as [o|] eqn:Ef; [|by auto].
  apply find_order_in in Ef. split.
  - intros o' Eo. right. replace o' with o; [done|]. repeat case_match; cbn in Eo; congruence.
  - repeat case_match; done.
Qed.

Lemma load_waiting id o p (W : world K) :
  id <> [] -> all_good W -> clock_good W -> existsb (due (clock W)) (orders W) = false ->
  find_order id (orders W) = Some o -> o_status o = menunggu -> loadOrder zone id p W = (W, inl (set_order p o)).
Proof.
  intros Hid HW Hc Hd Hf Hs. destruct (run_process W HW Hc) as (E & _). unfold settled in E. rewrite Hd in E.
  unfold loadOrder. destruct id as [|u id]; [done|]. rewrite (bind_inl _ _ _ _ _ E).
  unfold getOrderById, bind, gets. rewrite run_getAll. unfold ret. by rewrite Hf, Hs.
Qed.

Lemma units_trim s : units s = true -> units (trim s) = true.
Proof.
  assert (forall s, units s = true -> units (trim_start s) = true) as H.
  { intros t. induction t as [|u t IH]; [done|]. cbn [trim_start]. intros Ht. destruct (js_ws u); [|done].
    apply IH. unfold units in *. cbn [forallb] in Ht. by apply andb_true_iff in Ht as [_ ?]. }
  assert (forall s, units s = true -> units (reverse s) = true) as H'.
  { intros t Ht. unfold units in *. rewrite forallb_forall in *. intros u Hu. apply Ht.
    apply list_elem_of_In, elem_of_reverse, list_elem_of_In, Hu. }
  intros Hs. unfold trim. auto.
Qed.

(** ** The orders the handlers write *)

Lemma paid_fine now o ms :
  0 <= now -> now + AUTO_RELEASE_MS < MAX_MS -> fine now o -> o_status o = menunggu ->
  forallb message_good ms = true -> fine now (push_messages (paid_order now o) ms).
Proof.
  intros H0 H1 [Hg Hc] Hs Hms. destruct (good_parts o Hg) as (G1 & G2 & G3 & G4 & _).
  unfold consistent in Hc. rewrite Hs in Hc. destruct Hc as (C1 & C2 & C3). split.
  - assert (0 <= now < MAX_MS) as Hr by (unfold AUTO_RELEASE_MS in *; lia).
    assert (0 <= now + AUTO_RELEASE_MS < MAX_MS) as Hr' by (unfold AUTO_RELEASE_MS in *; lia).
    assert (order_good (paid_order now o) = true) by (apply order_with_good; try done; by apply units_iso).
    apply order_with_good; try done; try (by apply units_iso).
    cbn [paid_order order_with o_messages]. by rewrite forallb_app, G4, Hms.
  - unfold consistent, push_messages, paid_order, order_with. cbn. split; [done|]. exists now. split; [lia|done].
Qed.

Lemma buyer_messages_good now o :
  0 <= now < MAX_MS -> forallb message_good (map (fun m => m (toISOString now)) (buyer_messages rupiah zone now o)) = true.
Proof.
  intros Hn. unfold buyer_messages. message_texts.
Qed.

Lemma seller_messages_good now o :
  0 <= now < MAX_MS -> order_good o = true ->
  forallb message_good (map (fun m => m (toISOString now)) (seller_messages rupiah zone now o)) = true.
Proof.
  intros Hn Ho. destruct (good_parts o Ho) as (_ & _ & _ & _ & Hp).
  unfold seller_messages. message_texts.
Qed.

Definition released_order (now : Z) (o : P2POrder) : P2POrder :=
  order_with o selesai (o_paidAt o) (Some (toISOString now)) (o_autoReleaseAt o) (o_messages o).

Lemma push_good o ms : order_good o = true -> forallb message_good ms = true -> order_good (push_messages o ms) = true.
Proof.
  intros Hg Hm. destruct (good_parts o Hg) as (G1 & G2 & G3 & G4 & _). apply order_with_good; try done.
  by rewrite forallb_app, G4, Hm.
Qed.

Lemma release_fine now o ms :
  0 <= now < MAX_MS -> fine now o -> o_status o = dibayar -> o_seller o = true -> forallb message_good ms = true ->
  fine now (push_messages (released_order now o) ms).
Proof.
  intros Hn [Hg Hc] Hs Hr Hm. destruct (good_parts o Hg) as (G1 & G2 & G3 & G4 & _). split.
  - apply push_good; [|done]. apply order_with_good; try done. by apply units_iso.
  - unfold consistent in *. rewrite Hs in Hc. destruct Hc as (_ & t & Ht & Hp & _).
    cbn. split; [done|]. exists t, now. split; [lia|]. split; [lia|done].
Qed.

Lemma cancel_fine now o ms :
  fine now o -> o_status o = menunggu -> forallb message_good ms = true ->
  fine now (push_messages (order_with o dibatalkan (o_paidAt o) (o_releasedAt o) (o_autoReleaseAt o) (o_messages o)) ms).
Proof.
  intros [Hg Hc] Hs Hm. destruct (good_parts o Hg) as (G1 & G2 & G3 & G4 & _). split.
  - apply push_good; [|done]. by apply order_with_good.
  - unfold consistent in *. rewrite Hs in Hc. by destruct Hc as (? & ? & ?).
Qed.

Lemma push_fine now o ms : fine now o -> forallb message_good ms = true -> fine now (push_messages o ms).
Proof. intros [Hg Hc] Hm. split; [by apply push_good|exact Hc]. Qed.

(** Every handler that writes runs [addMessages] with a fine order. *)
Lemma inv_add s cur msgs q W p :
  chat_inv s -> fine (clock (dev s)) (push_messages cur (map (fun m => m (toISOString (clock (dev s)))) msgs)) ->
  (forall b o, q = Some (b, o) -> question s = q) ->
  addMessages (page s) cur msgs (dev s) = (W, inl p) ->
  chat_inv {| dev := W; page := p; order_id := order_id s; question := q |} /\ p_inputText p = p_inputText (page s)
  /\ forall p', p_order p' = p_order p -> units (p_inputText p') = true ->
     chat_inv {| dev := W; page := p'; order_id := order_id s; question := q |}.
Proof.
  intros Hs Hu Hq E. pose proof (inv_input s Hs) as Hi.
  rewrite run_add in E by (apply Hu || apply (fine_all_good _ _ (inv_orders s Hs))). injection E as <- <-.
  split; [|split; [done|]]; [by apply inv_write|]. intros p' Ep Hi'. by apply inv_write.
Qed.

Lemma shows_status p o st : p_order p = Some o -> shows p st = true -> o_status o = st.
Proof. intros Hp. unfold shows. rewrite Hp. apply bool_decide_eq_true. Qed.

Lemma inv_paid s msgs W p o :
  chat_inv s -> p_order (page s) = Some o -> o_status o = menunggu ->
  forallb message_good (map (fun m => m (toISOString (clock (dev s)))) msgs) = true ->
  (let! p := addMessages (page s) (paid_order (clock (dev s)) o) msgs in ret (set_msLeft p AUTO_RELEASE_MS)) (dev s) = (W, inl p) ->
  chat_inv (moved s W p).
Proof.
  intros Hs Ho Hst Hm E. unfold bind in E. destruct (addMessages _ _ _ _) as [W1 [p1|e]] eqn:E1; [|done].
  injection E as <- <-. destruct (inv_clock s Hs) as [H0 H1].
  destruct (inv_add s _ _ (question s) _ _ Hs (paid_fine _ _ _ H0 H1 (inv_page s Hs o Ho) Hst Hm) ltac:(congruence) E1)
    as (_ & Ei & H). apply H; [done|]. cbn. rewrite Ei. apply (inv_input s Hs).
Qed.

Lemma inv_send s W p : chat_inv s -> sendMessage zone (page s) (dev s) = (W, inl p) -> chat_inv (moved s W p).
Proof.
  intros Hs E. unfold sendMessage in E. destruct (p_order (page s)) as [o|] eqn:Eo.
  2: { injection E as <- <-. by destruct s. }
  destruct (trim (p_inputText (page s))) as [|u t] eqn:Et.
  { injection E as <- <-. by destruct s. }
  unfold bind at 1, gets in E. unfold bind in E. destruct (addMessages _ _ _ _) as [W1 [p1|e]] eqn:E1; [|done].
  injection E as <- <-. pose proof (units_trim _ (inv_input s Hs)) as Hu. rewrite Et in Hu.
  destruct (inv_clock s Hs) as [H0 H1].
  refine (proj2 (proj2 (inv_add s _ _ (question s) _ _ Hs (push_fine _ _ _ (inv_page s Hs o Eo) _) ltac:(congruence) E1)) _ _ _);
    [|done|done].
  message_texts.
Qed.

Lemma inv_tick s o W p :
  chat_inv s -> countdown zone (order_id s) o (page s) (dev s) = (W, inl p) -> chat_inv (moved s W p).
Proof.
  intros Hs E. pose proof (inv_input s Hs) as Hi. unfold countdown, bind, gets in E.
  destruct (date_time _) as [t|]; [|injection E as <- <-; by destruct s].
  destruct (t - clock (dev s) <=? 0).
  - destruct (chat_run_load _ _ _ _ _ (fine_all_good _ _ (inv_orders s Hs)) (inv_clock s Hs) E) as (HW & Hp & Ei).
    apply inv_moved; try done. by rewrite Ei.
  - injection E as <- <-. apply inv_moved; auto.
Qed.

Lemma inv_release s o W p :
  chat_inv s -> question s = Some (true, o) -> confirmLepas zone o (page s) (dev s) = (W, inl p) ->
  chat_inv (asked (moved s W p) None).
Proof.
  intros Hs Hq E. destruct (inv_question s Hs _ _ Hq) as (Hf & Hst & Hr). destruct (inv_clock s Hs) as [H0 H1].
  unfold confirmLepas, bind at 1, gets in E. pose proof (proj1 Hf) as Hg.
  refine (proj1 (inv_add s _ _ None _ _ Hs (release_fine _ _ _ _ Hf Hst Hr _) ltac:(congruence) E)).
  - unfold AUTO_RELEASE_MS in *. lia.
  - message_texts.
Qed.

Lemma inv_cancel s o W p :
  chat_inv s -> question s = Some (false, o) -> confirmCancel zone o (page s) (dev s) = (W, inl p) ->
  chat_inv (asked (moved s W p) None).
Proof.
  intros Hs Hq E. destruct (inv_question s Hs _ _ Hq) as (Hf & Hst). destruct (inv_clock s Hs) as [H0 H1].
  unfold confirmCancel, bind at 1, gets in E.
  refine (proj1 (inv_add s _ _ None _ _ Hs (cancel_fine _ _ _ Hf Hst _) ltac:(congruence) E)).
  message_texts.
Qed.

Lemma inv_place s o W :
  chat_inv s -> placed o -> order_good o = true -> createOrder o (dev s) = (W, inl tt) -> chat_inv (moved s W (page s)).
Proof.
  intros Hs (P1 & P2 & P3 & P4) Hg E. unfold createOrder, bind in E. rewrite run_getAll, run_saveAll in E.
  injection E as <-. destruct Hs as [Hc Ho Hp Hi Hq].
  assert (Forall (fine (clock (dev s))) (o :: orders (dev s))) as Hl.
  { constructor; [|done]. split; [done|]. unfold consistent. by rewrite P1. }
  split; try done. cbn [moved dev]. rewrite orders_with; [done|].
  apply forallb_Forall. eapply Forall_impl; [exact Hl|]. by intros o' [? _].
Qed.

Lemma inv_ask s q :
  chat_inv s -> (forall b o, q = Some (b, o) -> p_order (page s) = Some o
    /\ if b : bool then o_status o = dibayar /\ o_seller o = true else o_status o = menunggu) ->
  chat_inv (asked s q).
Proof.
  intros [Hc Ho Hp Hi Hq] H. split; try done. cbn [asked question]. intros b o E. destruct (H b o E) as [H1 H2].
  split; [by apply Hp|done].
Qed.

Lemma inv_later s t :
  chat_inv s -> clock (dev s) <= t -> t + AUTO_RELEASE_MS < MAX_MS -> chat_inv (moved s (at_clock t (dev s)) (page s)).
Proof.
  intros [[H0 H1] Ho Hp Hi Hq] Ht Ht2. assert (0 <= t) by lia.
  split; try done; cbn [moved dev page question]; [|intros o Eo|intros b o Eq].
  - eapply Forall_impl; [exact Ho|]. intros o. by apply fine_later.
  - by apply (fine_later (clock (dev s))); [|apply Hp].
  - destruct (Hq b o Eq). split; [by apply (fine_later (clock (dev s)))|done].
Qed.

Lemma inv_open s id W p :
  chat_inv s -> loadOrder zone id blank (dev s) = (W, inl p) ->
  chat_inv {| dev := W; page := p; order_id := id; question := None |}.
Proof.
  intros Hs E. destruct (chat_run_load _ _ _ _ _ (fine_all_good _ _ (inv_orders s Hs)) (inv_clock s Hs) E) as (HW & Hp & Ei).
  assert (chat_inv (moved (asked s None) W p)) as [? ? ? ? ?]; [|by split].
  apply inv_moved; [by apply inv_ask|done| |by rewrite Ei]. intros o Eo. destruct (Hp o Eo); [done|auto].
Qed.

Lemma inv_focus s W r :
  chat_inv s -> processAutoReleases zone (dev s) = (W, inl r) -> chat_inv (moved s W (page s)).
Proof.
  intros Hs E. destruct (run_process (dev s) (fine_all_good _ _ (inv_orders s Hs)) (inv_clock s Hs)) as (E' & _).
  rewrite E' in E. injection E as <- _. pose proof (inv_input s Hs). apply inv_moved; auto.
Qed.

Lemma inv_paid_buyer s W p :
  chat_inv s -> shows (page s) menunggu = true ->
  handleSudahBayar rupiah zone (page s) (dev s) = (W, inl p) -> chat_inv (moved s W p).
Proof.
  intros Hs Es E. unfold handleSudahBayar in E.
  destruct (p_order (page s)) as [o|] eqn:Eo; [|injection E as <- <-; by destruct s].
  pose proof (shows_status _ _ _ Eo Es) as Est. rewrite bool_decide_true in E by done.
  destruct (inv_clock s Hs). eapply (inv_paid s _ W p o Hs Eo Est); [|exact E].
  apply buyer_messages_good. unfold AUTO_RELEASE_MS in *. lia.
Qed.

Lemma inv_paid_seller s W p :
  chat_inv s -> shows (page s) menunggu = true ->
  handleKonfirmasiSudahBayarIDR rupiah zone (page s) (dev s) = (W, inl p) -> chat_inv (moved s W p).
Proof.
  intros Hs Es E. unfold handleKonfirmasiSudahBayarIDR in E.
  destruct (p_order (page s)) as [o|] eqn:Eo; [|injection E as <- <-; by destruct s].
  pose proof (shows_status _ _ _ Eo Es) as Est. rewrite bool_decide_true in E by done.
  destruct (inv_clock s Hs). eapply (inv_paid s _ W p o Hs Eo Est); [|exact E].
  apply seller_messages_good; [unfold AUTO_RELEASE_MS in *; lia|apply (inv_page s Hs o Eo)].
Qed.

Lemma inv_ask_release s o :
  chat_inv s -> isBuyer (page s) = false -> shows (page s) dibayar = true -> handleLepasAset (page s) = Some o ->
  chat_inv (asked s (Some (true, o))).
Proof.
  intros Hs Eb Es E. apply inv_ask; [done|]. intros b o' [= <- <-]. unfold handleLepasAset in E. split; [done|].
  split; [by apply (shows_status (page s))|]. unfold isBuyer in Eb. rewrite E in Eb. by destruct (o_seller o).
Qed.

Lemma inv_ask_cancel s o : chat_inv s -> handleCancelOrder (page s) = Some o -> chat_inv (asked s (Some (false, o))).
Proof.
  intros Hs E. apply inv_ask; [done|]. intros b o' [= <- <-]. unfold handleCancelOrder in E.
  destruct (p_order (page s)) as [o'|]; [|done]. destruct (bool_decide _) eqn:Ed; [|done]. injection E as ->.
  by apply bool_decide_eq_true in Ed.
Qed.

Lemma chat_inv_step s s' : chat_inv s -> chat_step s s' -> chat_inv s'.
Proof.
  intros Hs Hstep. pose proof (inv_input s Hs). destruct Hstep.
  - by apply inv_later.
  - eapply inv_place; eassumption.
  - eapply inv_open; eassumption.
  - eapply inv_focus; eassumption.
  - eapply inv_tick; eassumption.
  - apply inv_moved; auto.
  - by apply inv_send.
  - by apply inv_paid_buyer.
  - by apply inv_paid_seller.
  - by apply inv_ask_release.
  - eapply inv_release; eassumption.
  - by apply inv_ask_cancel.
  - eapply inv_cancel; eassumption.
  - by apply inv_ask.
Qed.

Inductive chat_reachable : chat_state -> Prop :=
| reach_start W : clock_good W -> orders W = [] ->
    chat_reachable {| dev := W; page := blank; order_id := []; question := None |}
| reach_step s s' : chat_reachable s -> chat_step s s' -> chat_reachable s'.

Lemma reachable_inv s : chat_reachable s -> chat_inv s.
Proof.
  induction 1 as [W Hc Ho|s s' _ IH Hst]; [|by eapply chat_inv_step]. split; try done. cbn. rewrite Ho. constructor.
Qed.

(** C21. The dates of every stored order fit its status, in every state that is
    reached from an empty device by placing orders, opening chats, writing,
    paying, answering the questions of the page in whatever order and letting
    time pass: an order waits or was cancelled without a payment, a paid order has
    its deadline 24 hours after the payment, an order was released automatically
    24 hours after the payment or later, and only an order of a seller is ever
    [selesai]: an order of a buyer ends by the automatic release alone. *)
Theorem chat_orders_consistent (s : chat_state) :
  chat_reachable s -> Forall (consistent (clock (dev s))) (orders (dev s)).
Proof.
  intros H. eapply Forall_impl; [exact (inv_orders s (reachable_inv s H))|]. by intros o [_ ?].
Qed.

Lemma find_settle id now l : find_order id (map (settle_order now) l) = settle_order now <$> find_order id l.
Proof.
  induction l as [|o l IH]; [done|]. unfold find_order in *. cbn [map List.find].
  assert (o_id (settle_order now o) = o_id o) as -> by by unfold settle_order; destruct (due now o).
  destruct (bool_decide _); [done|exact IH].
Qed.

Lemma paid_status now now' o ms :
  0 <= now -> now + AUTO_RELEASE_MS < MAX_MS ->
  o_status (settle_order now' (push_messages (paid_order now o) ms))
  = if now + AUTO_RELEASE_MS <=? now' then auto_lepas else dibayar.
Proof.
  intros H0 H1. unfold settle_order, due.
  change (o_autoReleaseAt (push_messages (paid_order now o) ms)) with (Some (toISOString (now + AUTO_RELEASE_MS))).
  cbn [from_option id]. rewrite iso_roundtrip by (unfold AUTO_RELEASE_MS in *; lia).
  assert (text_truthy (Some (toISOString (now + AUTO_RELEASE_MS))) = true) as ->
    by (unfold toISOString; by destruct (month_day _ _ _)).
  rewrite bool_decide_true by done. cbn [andb]. by destruct (_ <=? now').
Qed.

(** C20. The escrow keeps its deadline: when a waiting order is marked as paid, by
    the buyer or by the seller, a later run of the automatic release gives it the
    status [auto_lepas] exactly when 24 hours have passed since the payment, and
    leaves it paid before. *)
Theorem escrow_deadline (by_buyer : bool) (p : chat) (W : world K) (o : P2POrder) (now' : Z) :
  all_good W -> clock_good W -> p_order p = Some o -> fine (clock W) o -> o_status o = menunggu ->
  clock W <= now' -> now' + AUTO_RELEASE_MS < MAX_MS ->
  exists W1 p1 W2 r o2,
    (if by_buyer then handleSudahBayar rupiah zone p W else handleKonfirmasiSudahBayarIDR rupiah zone p W) = (W1, inl p1)
    /\ p_order p1 = find_order (o_id o) (orders W1)
    /\ processAutoReleases zone (at_clock now' W1) = (W2, inl r)
    /\ find_order (o_id o) (orders W2) = Some o2
    /\ o_status o2 = if clock W + AUTO_RELEASE_MS <=? now' then auto_lepas else dibayar.
Proof.
  intros HW [H0 H1] Hp Hf Hs Hn Hn'.
  set (msgs := if by_buyer then buyer_messages rupiah zone (clock W) o else seller_messages rupiah zone (clock W) o).
  assert (forallb message_good (map (fun m => m (toISOString (clock W))) msgs) = true) as Hm.
  { unfold msgs. assert (0 <= clock W < MAX_MS) by (unfold AUTO_RELEASE_MS in *; lia).
    destruct by_buyer; [by apply buyer_messages_good|apply seller_messages_good; [done|apply Hf]]. }
  set (u := push_messages (paid_order (clock W) o) (map (fun m => m (toISOString (clock W))) msgs)).
  pose proof (paid_fine _ _ _ H0 H1 Hf Hs Hm) as [Hu _]. fold u in Hu.
  destruct (run_update u W Hu HW) as (_ & Eo & Hg). set (W1 := with_orders (upsert u (orders W)) W) in *.
  destruct (run_process (at_clock now' W1)) as (E2 & Eo2 & _); [done|split; cbn; lia|].
  exists W1, (set_msLeft (set_order p u) AUTO_RELEASE_MS), (settled (at_clock now' W1)). eexists _, (settle_order now' u).
  split; [|split; [|split; [exact E2|]]].
  - pose proof (run_add p (paid_order (clock W) o) msgs W Hu HW) as E. fold u W1 in E. unfold msgs in E.
    destruct by_buyer; unfold handleSudahBayar, handleKonfirmasiSudahBayarIDR; rewrite Hp, bool_decide_true by done;
      cbn [negb]; unfold bind, gets; by rewrite E.
  - rewrite Eo. symmetry. apply (find_upsert u).
  - rewrite Eo2. change (clock (at_clock now' W1)) with now'. change (orders (at_clock now' W1)) with (orders W1).
    rewrite find_settle, Eo. change (o_id o) with (o_id u). rewrite find_upsert. cbn [fmap option_fmap option_map].
    split; [done|]. by apply paid_status.
Qed.

Definition warns (m : P2PMessage) : bool := bool_decide (m_isWarning m = Some true).

(** A release confirmed late erases the automatic one: when the question of
    [handleLepasAset] is still open at the deadline, the run of the automatic
    release marks the order and adds the suspension of the seller, and the answer
    then writes the order as it was shown: it is [selesai], and the suspension is
    no longer among its messages. *)
Theorem late_release_erases_suspension (p : chat) (W : world K) (o : P2POrder) :
  all_good W -> clock_good W -> find_order (o_id o) (orders W) = Some o -> due (clock W) o = true ->
  exists W1 r o1 W2 p2 ms,
    processAutoReleases zone W = (W1, inl r) /\ In (o_id o) r
    /\ find_order (o_id o) (orders W1) = Some o1 /\ o_status o1 = auto_lepas
    /\ existsb warns (drop (length (o_messages o)) (o_messages o1)) = true
    /\ confirmLepas zone o p W1 = (W2, inl p2)
    /\ find_order (o_id o) (orders W2) = Some (push_messages (released_order (clock W) o) ms)
    /\ existsb warns ms = false.
Proof.
  intros HW [H0 H1] Hf Hd. destruct (run_process W HW (conj H0 H1)) as (E1 & Eo1 & Hg1 & Ec1).
  assert (0 <= clock W < MAX_MS) as Hr by (unfold AUTO_RELEASE_MS in *; lia).
  pose proof (find_order_in _ _ _ Hf) as Hin.
  assert (order_good o = true) as Ho by (unfold all_good in HW; rewrite forallb_forall in HW; auto).
  destruct (good_parts o Ho) as (G1 & G2 & G3 & G4 & _).
  assert (order_good (released_order (clock W) o) = true) as Hro by (apply order_with_good; try done; by apply units_iso).
  exists (settled W). eexists. exists (auto_release zone (clock W) o). eexists _, _, _.
  split; [exact E1|]. split; [apply in_map, filter_In; by split|].
  split; [rewrite Eo1, find_settle, Hf; cbn; unfold settle_order; by rewrite Hd|]. split; [done|].
  split; [cbn [auto_release order_with o_messages]; by rewrite drop_app_length|].
  unfold confirmLepas, bind at 1, gets. rewrite Ec1. split; [apply run_add; [|done]|].
  - rewrite Ec1. apply push_good; [done|]. message_texts.
  - rewrite Ec1. set (u := push_messages _ _). assert (order_good u = true) as Hu.
    { apply push_good; [done|]. message_texts. }
    rewrite (proj1 (proj2 (run_update u _ Hu Hg1))). split; [apply (find_upsert u)|reflexivity].
Qed.
End Chat.

(** ** A device with one order *)

Definition sample_order : P2POrder := {|
  o_id := js "ord_1700000000000"; o_listingId := js "listing_1"; o_seller := true; o_traderName := js "Admin";
  o_asset := js "USDT"; o_assetAmount := Frac {| mant := 6755399441055744; expo := -52 |}; o_idrAmount := Int 24825;
  o_priceNum := Int 16550; o_paymentMethod := js "BCA"; o_paymentNoRek := js "123"; o_paymentNama := js "BUDI";
  o_status := menunggu; o_createdAt := toISOString 1700000000000; o_paidAt := None; o_releasedAt := None;
  o_autoReleaseAt := None; o_messages := [] |}.

Definition empty_market : world map_kv :=
  at_clock (K := map_kv) 1700000000000 (empty_device false).

Definition market_device (l : list P2POrder) : world map_kv := with_orders (K := map_kv) l empty_market.

Definition jakarta (t : Z) : Z := 25200000.

Lemma sample_order_good : order_good sample_order = true.
Proof. vm_compute. reflexivity. Qed.

Lemma sample_orders : orders (K := map_kv) (market_device [sample_order]) = [sample_order].
Proof. apply orders_with. cbn [forallb]. by rewrite sample_order_good. Qed.

Lemma sample_all_good : all_good (K := map_kv) (market_device [sample_order]).
Proof. unfold all_good. rewrite sample_orders. cbn [forallb]. by rewrite sample_order_good. Qed.

Lemma sample_fine : fine 1700000000000 sample_order.
Proof. split; [apply sample_order_good|done]. Qed.

Lemma number_string_units n : units (number_string n) = true.
Proof. destruct n; [apply units_to_string|apply units_number_text]. Qed.

Lemma escrow_deadline_witness :
  exists W1 p1 W2 r o2,
    handleSudahBayar number_string jakarta (set_order blank sample_order) (market_device [sample_order]) = (W1, inl p1)
    /\ processAutoReleases jakarta (at_clock (K := map_kv) 1700086400000 W1) = (W2, inl r)
    /\ find_order (o_id sample_order) (orders (K := map_kv) W2) = Some o2 /\ o_status o2 = auto_lepas.
Proof.
  destruct (escrow_deadline (K := map_kv) number_string jakarta number_string_units true
    (set_order blank sample_order) (market_device [sample_order]) sample_order 1700086400000)
    as (W1 & p1 & W2 & r & o2 & H1 & _ & H2 & H3 & H4);
    [exact sample_all_good|split; [done|reflexivity]|reflexivity|exact sample_fine|reflexivity|done|reflexivity|].
  exists W1, p1, W2, r, o2. split; [exact H1|]. split; [exact H2|]. split; [exact H3|exact H4].
Defined.

Definition overdue_order : P2POrder := paid_order 1699900000000 sample_order.

Lemma late_release_erases_suspension_witness :
  exists W1 r W2 p2 o2,
    processAutoReleases jakarta (market_device [overdue_order]) = (W1, inl r)
    /\ confirmLepas jakarta overdue_order blank W1 = (W2, inl p2)
    /\ find_order (o_id overdue_order) (orders (K := map_kv) W2) = Some o2 /\ o_status o2 = selesai.
Proof.
  assert (order_good overdue_order = true) as Hg by (vm_compute; reflexivity).
  assert (orders (K := map_kv) (market_device [overdue_order]) = [overdue_order]) as Eo
    by (apply orders_with; cbn [forallb]; by rewrite Hg).
  destruct (late_release_erases_suspension (K := map_kv) jakarta blank
    (market_device [overdue_order]) overdue_order) as (W1 & r & o1 & W2 & p2 & ms & H1 & _ & _ & _ & _ & H2 & H3 & _).
  - unfold all_good. rewrite Eo. cbn [forallb]. by rewrite Hg.
  - split; [done|reflexivity].
  - rewrite Eo. unfold find_order. cbn [List.find]. by rewrite bool_decide_true.
  - vm_compute. reflexivity.
  - eexists W1, r, W2, p2, _. split; [exact H1|]. split; [exact H2|]. split; [exact H3|reflexivity].
Defined.

Lemma market_clock l : clock_good (K := map_kv) (market_device l).
Proof. split; [done|reflexivity]. Qed.

Lemma sample_loaded :
  loadOrder jakarta (o_id sample_order) blank (market_device [sample_order])
  = (market_device [sample_order], inl (set_order blank sample_order)).
Proof.
  apply (load_waiting (K := map_kv)); [discriminate|exact sample_all_good|apply market_clock| | |reflexivity];
    rewrite sample_orders; reflexivity.
Qed.

Lemma chat_orders_consistent_witness :
  exists s, chat_reachable (K := map_kv) number_string jakarta s /\ p_order (page s) = Some sample_order
    /\ orders (dev s) = [sample_order] /\ Forall (consistent (clock (dev s))) (orders (dev s)).
Proof.
  pose (s1 := {| dev := market_device [sample_order]; page := blank; order_id := []; question := None |}).
  assert (chat_reachable (K := map_kv) number_string jakarta s1) as H1.
  { eapply reach_step; [apply (reach_start _ _ empty_market); [split; [done|reflexivity]|reflexivity]|].
    apply (step_place (K := map_kv) number_string jakarta
      {| dev := empty_market; page := blank; order_id := []; question := None |} sample_order (market_device [sample_order]));
      [done|apply sample_order_good|reflexivity]. }
  pose proof (reach_step _ _ s1 _ H1 (step_open _ _ s1 _ _ _ sample_loaded)) as H2.
  eexists. split; [exact H2|]. split; [reflexivity|]. split; [apply sample_orders|].
  apply (chat_orders_consistent number_string jakarta number_string_units _ H2).
Defined.
