(* ===== verification/Settings.v ===== *)
(** * Pages of the mobile wallet that keep a document in AsyncStorage

    The security settings (src/mobile/app/keamanan.tsx) and the address book
    (src/mobile/app/buku-alamat.tsx). Each page holds a copy of its document and
    writes it back without waiting; a step settles one of the pending calls. *)

From stdpp Require Import gmap.
From S2P Require Import Prelude JsText Json Vault Store WalletStorage WalletProofs P2PProofs.
Local Open Scope Z_scope.

(** ** Security settings *)

Definition SETTINGS : jsstr := Eval vm_compute in js "garuda_security_settings".

(** The switches and the session length, with their initial values. *)
Definition DEFAULTS : list (jsstr * json) :=
  [(js "biometric", JBool false); (js "autoLock", JBool true); (js "hideBalance", JBool false);
   (js "antiPhishing", JBool true); (js "txConfirm", JBool true); (js "selectedSession", JStr (js "5m"))].

(** [v ?? d] *)
Definition nullish (v : option json) (d : json) : json :=
  match v with None | Some JNull => d | Some v => v end.

(** The own properties [{ ...prev }] copies. *)
Definition json_spread (j : json) : list (jsstr * json) :=
  match j with
  | JObj fs => fs
  | JArr l => imap (fun i x => (to_string 10 (Z.of_nat i), x)) l
  | JStr s => imap (fun i c => (to_string 10 (Z.of_nat i), JStr [c])) s
  | _ => []
  end.

(** [{ ...fs, [k]: v }] *)
Definition assign (fs : list (jsstr * json)) (k : jsstr) (v : json) : list (jsstr * json) :=
  if existsb (fun f => bool_decide (f.1 = k)) fs
  then map (fun f => if bool_decide (f.1 = k) then (k, v) else f) fs
  else fs ++ [(k, v)].

(** The settings of a parsed document; a property of [null] throws. *)
Definition settings_of (s : json) : option (list (jsstr * json)) :=
  match s with
  | JNull => None
  | JObj fs => Some (map (fun d => (d.1, nullish (field fs d.1) d.2)) DEFAULTS)
  | _ => Some DEFAULTS
  end.

(** The text with the patch applied; a text that does not parse throws. *)
Definition patched (current : option jsstr) (k : jsstr) (v : json) : option jsstr :=
  prev ← (if text_truthy current then json_parse (default [] current) else Some (JObj []));
  Some (stringify (JObj (assign (json_spread prev) k v))).

Inductive saving :=
| SaveGet (key : jsstr) (value : json)
| SaveSet (text : jsstr).

Section Settings.
Context {K : KV}.

Record panel := {
  p_shown : list (jsstr * json);
  p_loading : bool;
  p_saving : list saving;
  p_world : world K
}.

Definition panel_start (W : world K) : panel :=
  {| p_shown := DEFAULTS; p_loading := true; p_saving := []; p_world := W |}.

Inductive panel_event :=
| PLoaded
| PToggle (key : jsstr) (value : json)
| PSettle (i : nat).

(** [setter(value)] *)
Definition show (k : jsstr) (v : json) (l : list (jsstr * json)) : list (jsstr * json) :=
  map (fun f => if bool_decide (f.1 = k) then (k, v) else f) l.

Definition load_settings (current : option jsstr) (shown : list (jsstr * json)) : list (jsstr * json) :=
  if text_truthy current then default shown (s ← json_parse (default [] current); settings_of s) else shown.

Definition settle_save (s : saving) (W : world K) : world K * list saving :=
  match s with
  | SaveGet k v => (W, match patched (aget W SETTINGS) k v with Some t => [SaveSet t] | None => [] end)
  | SaveSet t => (aset SETTINGS t W, [])
  end.

Definition panel_next (p : panel) (e : panel_event) : panel :=
  match e with
  | PLoaded =>
      if p_loading p
      then {| p_shown := load_settings (aget (p_world p) SETTINGS) (p_shown p); p_loading := false;
              p_saving := p_saving p; p_world := p_world p |}
      else p
  | PToggle k v =>
      {| p_shown := show k v (p_shown p); p_loading := p_loading p; p_saving := p_saving p ++ [SaveGet k v];
         p_world := p_world p |}
  | PSettle i =>
      match p_saving p !! i with
      | None => p
      | Some s =>
          let '(W, more) := settle_save s (p_world p) in
          {| p_shown := p_shown p; p_loading := p_loading p; p_saving := delete i (p_saving p) ++ more; p_world := W |}
      end
  end.
End Settings.
Arguments panel K : clear implicits.

(** *** Documents *)

Definition shown_of (fs : list (jsstr * json)) : list (jsstr * json) :=
  map (fun d => (d.1, nullish (field fs d.1) d.2)) DEFAULTS.

Lemma field_absent fs k : existsb (fun f => bool_decide (f.1 = k)) fs = false -> field fs k = None.
Proof.
  induction fs as [|[k' v'] fs IH]; [done|]. cbn [existsb field fst]. intros [H1 H2]%orb_false_iff.
  rewrite (IH H2). by rewrite H1.
Qed.

Lemma field_assign fs k v k' : field (assign fs k v) k' = if bool_decide (k = k') then Some v else field fs k'.
Proof.
  unfold assign. destruct (existsb _ fs) eqn:E.
  - assert (forall l, field (map (fun f => if bool_decide (f.1 = k) then (k, v) else f) l) k'
        = if bool_decide (k = k') then (if existsb (fun f => bool_decide (f.1 = k)) l then Some v else field l k') else field l k')
      as H; [|rewrite H, E; done].
    clear E. induction l as [|[k1 v1] l IH]; cbn [map field existsb fst]; [by case_bool_decide|].
    destruct (bool_decide (k1 = k)) eqn:E1; cbn [field]; rewrite IH; clear IH.
    + apply bool_decide_eq_true in E1 as ->. destruct (bool_decide (k = k')) eqn:E2; [|done]. apply bool_decide_eq_true in E2 as <-.
      cbn. destruct (existsb _ l) eqn:E3; [done|]. by rewrite (field_absent _ _ E3).
    + destruct (bool_decide (k = k')) eqn:E2; [|done]. apply bool_decide_eq_true in E2 as ->.
      cbn. destruct (existsb _ l) eqn:E3; [done|]. by rewrite E1.
  - induction fs as [|[k1 v1] fs IH]; cbn [app field]; [done|]. cbn [existsb fst] in E. apply orb_false_iff in E as [E1 E2].
    rewrite (IH E2). destruct (bool_decide (k = k')) eqn:E3; [done|]. done.
Qed.

Lemma assign_ok fs k v :
  json_ok (JObj fs) = true -> units k = true -> json_ok v = true -> json_ok (JObj (assign fs k v)) = true.
Proof.
  cbn [json_ok]. intros H Hk Hv. unfold assign. destruct (existsb _ fs).
  - rewrite forallb_forall in *. intros f [g [<- Hg]]%in_map_iff. case_bool_decide; [cbn [fst snd]; by rewrite Hk, Hv|by apply H].
  - rewrite forallb_app, H. cbn [forallb fst snd]. by rewrite Hk, Hv.
Qed.

Lemma shown_assign fs k v : v <> JNull -> shown_of (assign fs k v) = show k v (shown_of fs).
Proof.
  intros Hv. unfold shown_of, show. rewrite map_map. apply map_ext. intros [k' d]. cbn [fst snd]. rewrite field_assign.
  destruct (bool_decide (k = k')) eqn:E.
  - apply bool_decide_eq_true in E as ->. rewrite bool_decide_eq_true_2 by done. by destruct v.
  - apply bool_decide_eq_false in E. by rewrite bool_decide_eq_false_2.
Qed.

Section SettingsProofs.
Context {K : KV} {L : KVLaws K}.

(** The stored document: none yet, or a printed object. *)
Definition stores (W : world K) (fs : list (jsstr * json)) : Prop :=
  (aget W SETTINGS = None /\ fs = []) \/ (aget W SETTINGS = Some (stringify (JObj fs)) /\ json_ok (JObj fs) = true).

Lemma object_text fs : text_truthy (Some (stringify (JObj fs))) = true.
Proof. done. Qed.

Lemma stores_load W fs : stores W fs -> load_settings (aget W SETTINGS) DEFAULTS = shown_of fs.
Proof.
  intros [[-> ->]|[-> Hok]]; [reflexivity|]. unfold load_settings. rewrite object_text.
  change (default [] (Some ?t)) with t. by rewrite json_parse_stringify.
Qed.

Lemma stores_patched W fs k v :
  stores W fs -> patched (aget W SETTINGS) k v = Some (stringify (JObj (assign fs k v))).
Proof.
  intros [[-> ->]|[-> Hok]]; [reflexivity|]. unfold patched. rewrite object_text.
  change (default [] (Some ?t)) with t. by rewrite json_parse_stringify.
Qed.

Lemma stores_ok W fs : stores W fs -> json_ok (JObj fs) = true.
Proof. by intros [[_ ->]|[_ ?]]. Qed.

Lemma stores_written W fs k v : json_ok (JObj fs) = true -> units k = true -> json_ok v = true ->
  stores (aset SETTINGS (stringify (JObj (assign fs k v))) W) (assign fs k v).
Proof. intros Hfs Hk Hv. right. split; [apply aget_aset|by apply assign_ok]. Qed.

(** A switch of the page: a value that is stored as it is. *)
Definition toggle_ok (t : jsstr * json) : Prop := units t.1 = true /\ json_ok t.2 = true /\ t.2 <> JNull.

(** Change after change, each stored before the next. *)
Definition one_toggle (p : panel K) (t : jsstr * json) : panel K :=
  foldl panel_next p [PToggle t.1 t.2; PSettle 0; PSettle 0].

Definition one_by_one (p : panel K) (ts : list (jsstr * json)) : panel K := foldl one_toggle p ts.

Lemma toggle_run p k v fs :
  p_saving p = [] -> stores (p_world p) fs ->
  one_toggle p (k, v)
  = {| p_shown := show k v (p_shown p); p_loading := p_loading p; p_saving := [];
       p_world := aset SETTINGS (stringify (JObj (assign fs k v))) (p_world p) |}.
Proof.
  intros Hs Hw. destruct p as [l b sv W]. cbn [p_saving p_world p_shown p_loading] in *. subst sv.
  unfold one_toggle. cbn [foldl fst snd panel_next app lookup list_lookup p_saving p_world p_shown p_loading settle_save].
  by rewrite (stores_patched W fs k v Hw).
Qed.

(** Settings that are changed one after the other are kept: when every change
    has been stored before the next, the page shows after it is opened again what
    it showed before. *)
Theorem settings_reopen (W : world K) (fs : list (jsstr * json)) (ts : list (jsstr * json)) :
  stores W fs -> Forall toggle_ok ts ->
  let p := one_by_one (panel_next (panel_start W) PLoaded) ts in
  p_saving p = [] /\ p_shown (panel_next (panel_start (p_world p)) PLoaded) = p_shown p.
Proof.
  intros Hw Hts p. assert (exists fs', p_saving p = [] /\ stores (p_world p) fs' /\ p_shown p = shown_of fs') as (fs' & H1 & H2 & H3).
  { unfold p, one_by_one. set (p0 := panel_next _ PLoaded).
    assert (p_saving p0 = [] /\ stores (p_world p0) fs /\ p_shown p0 = shown_of fs) as H0
      by (split; [done|]; split; [done|]; by apply stores_load).
    clearbody p0. clear Hw p. revert p0 fs H0.
    induction Hts as [|[k v] ts (Hk & Hv & Hn) Hts IH]; intros p fs' (H1 & H2 & H3); [by exists fs'|].
    cbn [foldl].
    rewrite (toggle_run p k v fs' H1 H2). apply (IH _ (assign fs' k v)). split; [done|].
    split; [apply stores_written; [by apply (stores_ok (p_world p))|done|done]|]. cbn [p_shown]. by rewrite H3, shown_assign. }
  split; [done|]. rewrite H3. by apply stores_load.
Qed.

(** Two changes in quick succession lose the first: both read the stored
    settings before either writes, so the page shows both changes, and after it is
    opened again only the second. *)
Theorem settings_lost_update (p : panel K) (fs : list (jsstr * json)) (k1 k2 : jsstr) (v1 v2 : json) :
  p_saving p = [] -> stores (p_world p) fs -> p_shown p = shown_of fs -> toggle_ok (k1, v1) -> toggle_ok (k2, v2) ->
  let p' := foldl panel_next p [PToggle k1 v1; PToggle k2 v2; PSettle 0; PSettle 0; PSettle 0; PSettle 0] in
  p_saving p' = [] /\ p_shown p' = show k2 v2 (show k1 v1 (p_shown p))
  /\ p_shown (panel_next (panel_start (p_world p')) PLoaded) = show k2 v2 (p_shown p).
Proof.
  intros Hs Hw Hl (_ & _ & Hn1) (Hk2 & Hv2 & Hn2) p'. destruct p as [l b sv W]. cbn [p_saving p_world p_shown] in *. subst sv l.
  unfold p'. cbn [foldl panel_next app lookup list_lookup p_saving p_world p_shown p_loading settle_save delete list_delete].
  rewrite (stores_patched W fs k1 v1 Hw), (stores_patched W fs k2 v2 Hw). split; [done|]. split; [done|].
  cbn [app panel_next panel_start p_loading p_shown p_world p_saving foldl lookup list_lookup settle_save delete list_delete].
  rewrite (stores_load _ (assign fs k2 v2)); [by apply shown_assign|].
  apply stores_written; [by apply (stores_ok W)|done|done].
Qed.
End SettingsProofs.

(** ** Address book *)

Definition BOOK : jsstr := Eval vm_compute in js "garuda_address_book".

Record Address := { b_id : jsstr; b_name : jsstr; b_address : jsstr; b_network : jsstr; b_networkColor : jsstr }.

Definition address_json (a : Address) : json :=
  JObj [(js "id", JStr (b_id a)); (js "name", JStr (b_name a)); (js "address", JStr (b_address a));
        (js "network", JStr (b_network a)); (js "networkColor", JStr (b_networkColor a))].

Definition address_of_json (j : json) : option Address :=
  fs ← as_obj (Some j);
  id ← as_str (field fs (js "id")); name ← as_str (field fs (js "name")); addr ← as_str (field fs (js "address"));
  net ← as_str (field fs (js "network")); col ← as_str (field fs (js "networkColor"));
  Some {| b_id := id; b_name := name; b_address := addr; b_network := net; b_networkColor := col |}.

Definition print_book (l : list Address) : jsstr := stringify (JArr (map address_json l)).

(** [JSON.parse(saved)], on lists of addresses. *)
Definition parse_book (s : jsstr) : option (list Address) :=
  j ← json_parse s; l ← as_arr (Some j); mapM address_of_json l.

(** [NETWORKS]: the only network. *)
Definition new_address (now : Z) (newName newAddress : jsstr) : Address :=
  {| b_id := [97] ++ to_string 10 now; b_name := trim newName; b_address := trim newAddress;
     b_network := js "GarudaChain"; b_networkColor := js "#C8922A" |}.

Section Book.
Context {K : KV}.

Record book := { addresses : list Address; bk_loading : bool; bk_world : world K }.

Definition book_start (W : world K) : book := {| addresses := []; bk_loading := true; bk_world := W |}.

Inductive book_event :=
| BLoaded
| BAdd (now : Z) (newName newAddress : jsstr)
| BDelete (id : jsstr).

(** [persist(list)]; the writes reach the store in the order they are issued. *)
Definition persist (l : list Address) (b : book) : book :=
  {| addresses := l; bk_loading := bk_loading b; bk_world := aset BOOK (print_book l) (bk_world b) |}.

Definition load_book (b : book) : book :=
  let saved := aget (bk_world b) BOOK in
  {| addresses := (if text_truthy saved then default (addresses b) (parse_book (default [] saved)) else addresses b);
     bk_loading := false; bk_world := bk_world b |}.

Definition handleAdd (now : Z) (newName newAddress : jsstr) (b : book) : book :=
  match trim newName, trim newAddress with
  | _ :: _, _ :: _ => persist (addresses b ++ [new_address now newName newAddress]) b
  | _, _ => b
  end.

Definition handleDelete (id : jsstr) (b : book) : book :=
  persist (List.filter (fun a => negb (bool_decide (b_id a = id))) (addresses b)) b.

Definition book_next (b : book) (e : book_event) : book :=
  match e with
  | BLoaded => if bk_loading b then load_book b else b
  | BAdd now n a => handleAdd now n a b
  | BDelete id => handleDelete id b
  end.
End Book.
Arguments book K : clear implicits.

Definition address_text (a : Address) : bool :=
  units (b_id a) && units (b_name a) && units (b_address a) && units (b_network a) && units (b_networkColor a).

Lemma parse_print_book l : forallb address_text l = true -> parse_book (print_book l) = Some l.
Proof.
  intros Hl. unfold parse_book, print_book. rewrite json_parse_stringify.
  - cbn [as_arr mbind option_bind]. clear Hl. induction l as [|a l IH]; [done|]. cbn [map mapM]. rewrite IH. by destruct a.
  - cbn [json_ok]. rewrite forallb_map. rewrite forallb_forall in *. intros a Ha. specialize (Hl a Ha).
    unfold address_text in Hl. apply andb_true_iff in Hl as [[[[H1 H2]%andb_true_iff H3]%andb_true_iff H4]%andb_true_iff H5].
    cbn [address_json json_ok forallb fst snd]. by rewrite H1, H2, H3, H4, H5.
Qed.

Section BookProofs.
Context {K : KV} {L : KVLaws K}.

(** The book in the store. *)
Definition filed (W : world K) (l : list Address) : Prop :=
  forallb address_text l = true /\ (aget W BOOK = None /\ l = [] \/ aget W BOOK = Some (print_book l)).

Definition book_event_ok (e : book_event) : Prop :=
  match e with BAdd _ n a => units n = true /\ units a = true | _ => True end.

Lemma filed_load W l x b : filed W l -> x = [] -> addresses (load_book {| addresses := x; bk_loading := b; bk_world := W |}) = l.
Proof.
  intros [Ht [[E ->]|E]] ->; unfold load_book; cbn [bk_world addresses]; rewrite E; [done|].
  replace (text_truthy _) with true by done. change (default [] (Some ?t)) with t. by rewrite parse_print_book.
Qed.

Lemma filed_persist l (b : book K) : forallb address_text l = true -> filed (bk_world (persist l b)) l.
Proof. intros Hl. split; [done|]. right. apply aget_aset. Qed.

Lemma new_address_text now n a : units n = true -> units a = true -> address_text (new_address now n a) = true.
Proof.
  intros Hn Ha. unfold address_text, new_address. cbn [b_id b_name b_address b_network b_networkColor].
  by rewrite units_app, units_to_string, (units_trim n Hn), (units_trim a Ha).
Qed.

Lemma book_step (b : book K) e : bk_loading b = false -> filed (bk_world b) (addresses b) -> book_event_ok e ->
  bk_loading (book_next b e) = false /\ filed (bk_world (book_next b e)) (addresses (book_next b e)).
Proof.
  intros Hb Hf He. destruct e as [|now n a|id]; cbn [book_next]; [by rewrite Hb| |].
  - unfold handleAdd. destruct (trim n) eqn:En; [done|]. destruct (trim a) eqn:Ea; [done|]. split; [done|].
    apply filed_persist. cbn [addresses persist]. rewrite forallb_app. cbn [forallb]. destruct Hf as [-> _], He. by rewrite new_address_text.
  - split; [done|]. apply filed_persist. destruct Hf as [Hf _]. rewrite forallb_forall in *.
    intros x Hx. apply List.filter_In in Hx as [Hx _]. by apply Hf.
Qed.

(** The address book is kept: once the page has loaded, whatever is added and
    deleted, the page shows the same addresses when it is opened again. *)
Theorem book_reopens (W : world K) (l : list Address) (es : list book_event) :
  filed W l -> Forall book_event_ok es ->
  let b := foldl book_next (book_next (book_start W) BLoaded) es in
  addresses (book_next (book_start (bk_world b)) BLoaded) = addresses b.
Proof.
  intros Hf Hes b. assert (bk_loading b = false /\ filed (bk_world b) (addresses b)) as [_ Hb]; [|by apply filed_load].
  unfold b. set (b0 := book_next (book_start W) BLoaded).
  assert (bk_loading b0 = false /\ filed (bk_world b0) (addresses b0)) as H0.
  { split; [done|]. change (filed W (addresses (load_book {| addresses := []; bk_loading := true; bk_world := W |}))).
    by rewrite (filed_load W l). }
  clearbody b0. clear b Hf. revert b0 H0. induction Hes as [|e es He _ IH]; intros b [H1 H2]; [done|].
  apply IH. by apply book_step.
Qed.

(** An address that is added before the book has loaded replaces the book: the
    page still holds the empty list it started with, and writes it back with the
    new address. *)
Theorem early_add_replaces_book (W : world K) (l : list Address) (now : Z) (newName newAddress : jsstr) :
  filed W l -> units newName = true -> units newAddress = true -> trim newName <> [] -> trim newAddress <> [] ->
  let b := foldl book_next (book_start W) [BAdd now newName newAddress; BLoaded] in
  addresses b = [new_address now newName newAddress]
  /\ filed (bk_world b) [new_address now newName newAddress].
Proof.
  intros Hf Hn Ha H1 H2 b. set (x := new_address now newName newAddress).
  assert (forallb address_text [x] = true) as Hx by (cbn [forallb]; unfold x; by rewrite new_address_text).
  assert (b = load_book (persist [x] (book_start W))) as E.
  { unfold b. cbn [foldl book_next]. unfold handleAdd.
    destruct (trim newName); [done|]. destruct (trim newAddress); [done|]. reflexivity. }
  rewrite E. pose proof (filed_persist [x] (book_start W) Hx) as Hfx. split; [|exact Hfx].
  unfold load_book. cbn [persist bk_world addresses]. destruct Hfx as [_ [[_ [=]]|E2]]. cbn [persist bk_world] in E2. rewrite E2.
  replace (text_truthy _) with true by done. change (default [] (Some ?t)) with t. by rewrite parse_print_book.
Qed.
End BookProofs.

Lemma settings_reopen_witness :
  let p := one_by_one (panel_next (panel_start (empty_device false)) PLoaded)
    [(js "biometric", JBool true); (js "selectedSession", JStr (js "1h"))] in
  p_saving p = [] /\ p_shown (panel_next (panel_start (p_world p)) PLoaded) = p_shown p.
Proof.
  apply (settings_reopen (empty_device false) []); [by left|].
  repeat (apply Forall_cons; split; [done|]). by apply Forall_nil.
Defined.

Lemma settings_lost_update_witness :
  let p' := foldl panel_next (panel_next (panel_start (empty_device false)) PLoaded)
    [PToggle (js "biometric") (JBool true); PToggle (js "hideBalance") (JBool true); PSettle 0; PSettle 0; PSettle 0; PSettle 0] in
  p_saving p' = [] /\ p_shown p' = show (js "hideBalance") (JBool true) (show (js "biometric") (JBool true) DEFAULTS)
  /\ p_shown (panel_next (panel_start (p_world p')) PLoaded) = show (js "hideBalance") (JBool true) DEFAULTS.
Proof.
  apply (settings_lost_update (panel_next (panel_start (empty_device false)) PLoaded) []
    (js "biometric") (js "hideBalance") (JBool true) (JBool true)); [done|by left|done|done|done].
Defined.

Definition sample_book : list Address := [new_address 1 (js "Budi") (js "grd1qbudi")].

Lemma sample_filed : filed (aset BOOK (print_book sample_book) (empty_device false)) sample_book.
Proof. split; [vm_compute; reflexivity|]. right. apply aget_aset. Qed.

Lemma book_reopens_witness :
  let b := foldl book_next (book_next (book_start (aset BOOK (print_book sample_book) (empty_device false))) BLoaded)
    [BAdd 2 (js "Sari") (js "grd1qsari"); BDelete (js "a1")] in
  addresses (book_next (book_start (bk_world b)) BLoaded) = addresses b.
Proof.
  apply (book_reopens _ sample_book [BAdd 2 (js "Sari") (js "grd1qsari"); BDelete (js "a1")] sample_filed).
  repeat (apply Forall_cons; split; [done|]). by apply Forall_nil.
Defined.

Lemma early_add_replaces_book_witness :
  let b := foldl book_next (book_start (aset BOOK (print_book sample_book) (empty_device false)))
    [BAdd 2 (js "Sari") (js "grd1qsari"); BLoaded] in
  addresses b = [new_address 2 (js "Sari") (js "grd1qsari")]
  /\ filed (bk_world b) [new_address 2 (js "Sari") (js "grd1qsari")].
Proof. apply (early_add_replaces_book _ sample_book 2 (js "Sari") (js "grd1qsari") sample_filed); done. Defined.
