(* ===== verification/Watch.v ===== *)
(** * Watched addresses and notifications of the mobile wallet

    The list of watched addresses (src/mobile/app/pantau-alamat.tsx), with the
    imports whose answers are pending, and the notifications
    (src/mobile/app/notifikasi.tsx). *)

From stdpp Require Import gmap.
From S2P Require Import Prelude JsText Amounts Numbers Json Vault Store WalletStorage WalletProofs Api PagesProofs SendProofs P2PProofs Settings.
Local Open Scope Z_scope.
Local Open Scope io_scope.

(** ** Watched addresses *)

Definition WATCHED : jsstr := Eval vm_compute in js "garuda_watch_addresses".

Record WatchAddress := { wa_id : jsstr; wa_name : jsstr; wa_address : jsstr; wa_balance : json; wa_txCount : json }.

Definition watch_json (a : WatchAddress) : json :=
  JObj [(js "id", JStr (wa_id a)); (js "name", JStr (wa_name a)); (js "address", JStr (wa_address a));
        (js "balance", wa_balance a); (js "txCount", wa_txCount a)].

Definition watch_of_json (j : json) : option WatchAddress :=
  fs ← as_obj (Some j);
  id ← as_str (field fs (js "id")); name ← as_str (field fs (js "name")); addr ← as_str (field fs (js "address"));
  balance ← field fs (js "balance"); count ← field fs (js "txCount");
  Some {| wa_id := id; wa_name := name; wa_address := addr; wa_balance := balance; wa_txCount := count |}.

Definition print_watched (l : list WatchAddress) : jsstr := stringify (JArr (map watch_json l)).

(** [JSON.parse(saved)], on lists of watched addresses. *)
Definition parse_watched (s : jsstr) : option (list WatchAddress) :=
  j ← json_parse s; l ← as_arr (Some j); mapM watch_of_json l.

Definition canImport (address : jsstr) : bool := (10 <? length (trim address))%nat.

(** The entry of an answer with the fields [balance] and [txCount]. *)
Definition new_watch (now : Z) (name address : jsstr) (balance txCount : option json) : WatchAddress :=
  {| wa_id := [119] ++ to_string 10 now;
     wa_name := (match trim name with [] => js "Pantau " ++ take 8 (trim address) ++ js "..." | n => n end);
     wa_address := trim address; wa_balance := nullish balance (JNum 0); wa_txCount := nullish txCount (JNum 0) |}.

Section Watch.
Context {K : KV}.

(** An import that waits for its answer: the fields and the list it was created with. *)
Record import := { im_name : jsstr; im_address : jsstr; im_list : list WatchAddress }.

Record watch := {
  wt_name : jsstr; wt_address : jsstr; wt_loading : bool; watchList : list WatchAddress;
  wt_fetching : bool; wt_import : option import; wt_world : world K
}.

Definition watch_start (W : world K) : watch :=
  {| wt_name := []; wt_address := []; wt_loading := false; watchList := []; wt_fetching := true; wt_import := None; wt_world := W |}.

(** [setWatchList(l); persist(l)]; the writes reach the store in the order they
    are issued. *)
Definition keep_watched (l : list WatchAddress) (p : watch) : watch :=
  {| wt_name := wt_name p; wt_address := wt_address p; wt_loading := wt_loading p; watchList := l;
     wt_fetching := wt_fetching p; wt_import := wt_import p; wt_world := aset WATCHED (print_watched l) (wt_world p) |}.

Definition load_watched (p : watch) : watch :=
  let saved := aget (wt_world p) WATCHED in
  {| wt_name := wt_name p; wt_address := wt_address p; wt_loading := wt_loading p;
     watchList := (if text_truthy saved then default (watchList p) (parse_watched (default [] saved)) else watchList p);
     wt_fetching := false; wt_import := wt_import p; wt_world := wt_world p |}.

(** [handleImport] up to the request, by a button that is disabled while one runs. *)
Definition start_import (p : watch) : watch :=
  if canImport (wt_address p) && negb (wt_loading p) then
    {| wt_name := wt_name p; wt_address := wt_address p; wt_loading := true; watchList := watchList p; wt_fetching := wt_fetching p;
       wt_import := Some {| im_name := wt_name p; im_address := wt_address p; im_list := watchList p |}; wt_world := wt_world p |}
  else p.

(** What follows the answer: the fields of [getAddressInfo], or its failure. *)
Definition end_import (now : Z) (info : option (option json * option json)) (p : watch) : watch :=
  match wt_import p with
  | None => p
  | Some i =>
      match info with
      | None => {| wt_name := wt_name p; wt_address := wt_address p; wt_loading := false; watchList := watchList p;
                   wt_fetching := wt_fetching p; wt_import := None; wt_world := wt_world p |}
      | Some (balance, count) =>
          let l := new_watch now (im_name i) (im_address i) balance count :: im_list i in
          {| wt_name := []; wt_address := []; wt_loading := false; watchList := l; wt_fetching := wt_fetching p;
             wt_import := None; wt_world := aset WATCHED (print_watched l) (wt_world p) |}
      end
  end.

Definition delete_watched (id : jsstr) (p : watch) : watch :=
  keep_watched (List.filter (fun a => negb (bool_decide (wa_id a = id))) (watchList p)) p.

Definition type_watch (name address : jsstr) (p : watch) : watch :=
  {| wt_name := name; wt_address := address; wt_loading := wt_loading p; watchList := watchList p;
     wt_fetching := wt_fetching p; wt_import := wt_import p; wt_world := wt_world p |}.

Inductive watch_event :=
| WLoaded
| WType (name address : jsstr)
| WImport
| WAnswer (now : Z) (info : option (option json * option json))
| WDelete (id : jsstr).

Definition watch_next (p : watch) (e : watch_event) : watch :=
  match e with
  | WLoaded => if wt_fetching p then load_watched p else p
  | WType n a => type_watch n a p
  | WImport => start_import p
  | WAnswer now i => end_import now i p
  | WDelete id => delete_watched id p
  end.
End Watch.
Arguments watch K : clear implicits.

(** ** Notifications *)

Record notif := { n_id : val; n_system : bool; n_sent : bool; n_title : jsstr; n_body : jsstr; n_time : jsstr; n_read : bool }.

(** [addr ? `${addr.slice(0, 8)}...${addr.slice(-6)}` : "—"]; only texts and lists
    have [slice], another value throws. *)
Definition short (addr : val) : option jsstr :=
  if negb (vtruthy addr) then Some [8212] else
  match addr with
  | VStr t => Some (take 8 t ++ js "..." ++ drop (length t - 6) t)
  | VArr l => Some (val_text (VArr (take 8 l)) ++ js "..." ++ val_text (VArr (drop (length l - 6) l)))
  | _ => None
  end.

(** The date's text, a matter of the device's language, is a parameter; [None] is an
    exception. *)
Definition txToNotif (date : val -> jsstr) (tx : val) (walletAddress : jsstr) : option notif :=
  match tx with VUndef | VNull => None | _ =>
    let p := vprop tx in
    let isSend := is_text (p (js "from")) walletAddress in
    let amount := formatGRD (to_number (p (js "value"))) in
    body ← (if isSend
            then t ← short (p (js "to")); Some (amount ++ js " GRD dikirim ke " ++ t ++ js ". Fee: " ++ formatGRD (to_number (p (js "fee"))) ++ js " GRD")
            else t ← short (p (js "from")); Some ([43] ++ amount ++ js " GRD diterima dari " ++ t));
    Some {| n_id := p (js "txid"); n_system := false; n_sent := isSend;
            n_title := (if isSend then js "GRD Terkirim" else js "GRD Diterima"); n_body := body;
            n_time := (if vtruthy (p (js "timestamp")) then date (p (js "timestamp")) else [8212]); n_read := true |}
  end.

Definition with_read (b : bool) (n : notif) : notif :=
  {| n_id := n_id n; n_system := n_system n; n_sent := n_sent n; n_title := n_title n; n_body := n_body n; n_time := n_time n; n_read := b |}.

Definition welcome : notif :=
  {| n_id := VStr (js "sys-welcome"); n_system := true; n_sent := false; n_title := js "Selamat datang di GarudaChain";
     n_body := js "Dompet Anda berhasil dibuat. Simpan frasa pemulihan di tempat yang aman."; n_time := [8212]; n_read := true |}.

(** The first three are unread. *)
Definition mark_unread : list notif -> list notif := imap (fun i n => if (i <? 3)%nat then with_read false n else n).

(** The notifications of an account's transactions, a list as [getAddressInfo] gives. *)
Definition notifs_of (date : val -> jsstr) (account : jsstr) (txs : val) : option (list notif) :=
  match txs with
  | VUndef | VNull => Some [welcome]
  | VArr l => ns ← mapM (fun tx => txToNotif date tx account) l; Some (mark_unread ns ++ [welcome])
  | _ => None
  end.

(** The effect that loads the page. *)
Definition load_notifs {K : KV} (date : val -> jsstr) : IO (list notif) :=
  let! account := getActiveAccount in
  match account with
  | None => ret []
  | Some a =>
      try (let! info := getAddressInfo (w_address a) in
           let! txs := vfield info (js "transactions") in
           match notifs_of date (w_address a) txs with Some l => ret l | None => throw (js "TypeError") end)
          (fun _ => ret [welcome])
  end.

Definition unreadCount (l : list notif) : nat := length (List.filter (fun n => negb (n_read n)) l).
Definition markAllRead (l : list notif) : list notif := map (with_read true) l.

(** [a === b], on values that are no objects. *)
Definition same_id (a b : val) : bool :=
  match a, b with
  | VUndef, VUndef | VNull, VNull => true
  | VBool x, VBool y => Bool.eqb x y
  | VNum x, VNum y => dle x y && dle y x
  | VStr x, VStr y => bool_decide (x = y)
  | _, _ => false
  end.
Definition markRead (id : val) (l : list notif) : list notif := map (fun n => if same_id (n_id n) id then with_read true n else n) l.

Inductive category := Semua | Transaksi | Sistem.
Definition filtered (c : category) (l : list notif) : list notif :=
  List.filter (fun n => match c with Semua => true | Transaksi => negb (n_system n) | Sistem => n_system n end) l.

(** *** The server's transactions *)

(** An entry of an address's transactions, and the one of a transfer of GRD. *)
Definition addTx (txid : jsstr) (height : Z) (ts from to value fee method : jsstr) : val :=
  VObj [(js "hash", VStr txid); (js "blockNumber", VNum (of_Z height)); (js "timestamp", VStr ts); (js "from", VStr from);
        (js "to", VStr to); (js "value", VStr value); (js "fee", VStr fee); (js "status", VStr (js "confirmed"));
        (js "method", VStr method)].

Record transfer := { g_txid : jsstr; g_height : Z; g_ts : jsstr; g_from : jsstr; g_to : jsstr; g_value : num }.

Definition transfer_entry (e : transfer) : val :=
  addTx (g_txid e) (g_height e) (g_ts e) (g_from e) (g_to e) (go_fixed 8 (Fin (g_value e)) ++ js " GRD") (js "0.00000000") (js "Transfer").

(** ** The list is what is stored *)

Definition watched_text (a : WatchAddress) : bool :=
  units (wa_id a) && units (wa_name a) && units (wa_address a) && json_ok (wa_balance a) && json_ok (wa_txCount a).

Lemma parse_print_watched l : forallb watched_text l = true -> parse_watched (print_watched l) = Some l.
Proof.
  intros Hl. unfold parse_watched, print_watched. rewrite json_parse_stringify.
  - cbn [as_arr mbind option_bind]. clear Hl. induction l as [|a l IH]; [done|]. cbn [map mapM]. rewrite IH. by destruct a.
  - cbn [json_ok]. rewrite forallb_map. rewrite forallb_forall in *. intros a Ha. specialize (Hl a Ha).
    unfold watched_text in Hl. apply andb_true_iff in Hl as [[[[H1 H2]%andb_true_iff H3]%andb_true_iff H4]%andb_true_iff H5].
    cbn [watch_json json_ok forallb fst snd]. by rewrite H1, H2, H3, H4, H5.
Qed.

Definition answer_ok (o : option json) : bool := match o with Some j => json_ok j | None => true end.

Lemma new_watch_text now n a b c : units n = true -> units a = true -> answer_ok b = true -> answer_ok c = true ->
  watched_text (new_watch now n a b c) = true.
Proof.
  intros Hn Ha Hb Hc. unfold watched_text, new_watch. cbn [wa_id wa_name wa_address wa_balance wa_txCount].
  assert (forall o, answer_ok o = true -> json_ok (nullish o (JNum 0)) = true) as H by (by intros [[]|]).
  rewrite units_app, units_to_string, (units_trim a Ha), !H by done.
  assert (units (match trim n with [] => js "Pantau " ++ take 8 (trim a) ++ js "..." | t => t end) = true) as ->; [|done].
  destruct (trim n) eqn:E; [|rewrite <- E; by apply units_trim].
  rewrite !units_app. assert (units (take 8 (trim a)) = true) as ->; [|done].
  apply units_forall, Forall_take, units_ok. by apply units_trim.
Qed.

Section WatchProofs.
Context {K : KV} {L : KVLaws K}.

(** The list in the store. *)
Definition watched (W : world K) (l : list WatchAddress) : Prop :=
  forallb watched_text l = true /\ (aget W WATCHED = None /\ l = [] \/ aget W WATCHED = Some (print_watched l)).

Definition watch_event_ok (e : watch_event) : Prop :=
  match e with
  | WType n a => units n = true /\ units a = true
  | WAnswer _ (Some (b, c)) => answer_ok b = true /\ answer_ok c = true
  | _ => True
  end.

Lemma watched_written l W : forallb watched_text l = true -> watched (aset WATCHED (print_watched l) W) l.
Proof. intros Hl. split; [done|]. right. apply aget_aset. Qed.

Lemma watched_load W l : watched W l -> watchList (load_watched (watch_start W)) = l.
Proof.
  intros [Ht [[E ->]|E]]; unfold load_watched; cbn [watch_start wt_world watchList]; rewrite E; [done|].
  replace (text_truthy _) with true by done. change (default [] (Some ?t)) with t. by rewrite parse_print_watched.
Qed.

(** The page has loaded, shows what is stored, and holds storable texts. *)
Definition watch_inv (p : watch K) : Prop :=
  wt_fetching p = false /\ watched (wt_world p) (watchList p) /\ units (wt_name p) = true /\ units (wt_address p) = true
  /\ match wt_import p with
     | Some i => units (im_name i) = true /\ units (im_address i) = true /\ forallb watched_text (im_list i) = true
     | None => True
     end.

Lemma watch_inv_start W l : watched W l -> watch_inv (watch_next (watch_start W) WLoaded).
Proof. intros H. cbn [watch_next watch_start wt_fetching]. split; [done|]. split; [by rewrite (watched_load W l)|done]. Qed.

Lemma watch_inv_next p e : watch_event_ok e -> watch_inv p -> watch_inv (watch_next p e).
Proof.
  intros He (Hf & Hw & Hn & Ha & Hi). destruct e as [|n a| |now info|id]; cbn [watch_next].
  - by rewrite Hf.
  - destruct He. repeat split; try done; by destruct Hw.
  - unfold start_import. destruct (_ && _); [|done]. destruct Hw as [Hw1 Hw2]. repeat split; done.
  - unfold end_import. destruct (wt_import p) as [i|] eqn:E; [|by unfold watch_inv; rewrite E].
    destruct info as [[b c]|]; [|by repeat split; destruct Hw]. destruct He, Hi as (H1 & H2 & H3).
    split; [done|]. split; [|done]. apply watched_written. cbn [watchList forallb]. by rewrite new_watch_text, H3.
  - split; [done|]. split; [|done]. apply watched_written. destruct Hw as [Hw _]. rewrite forallb_forall in *.
    intros x Hx. apply List.filter_In in Hx as [Hx _]. by apply Hw.
Qed.

(** C30. The watched addresses are kept: once the page has loaded, for every order of
    typing, imports, their answers and deletions, opening the page again shows the
    addresses it shows now. *)
Theorem watch_reopens (W : world K) (l : list WatchAddress) (es : list watch_event) :
  watched W l -> Forall watch_event_ok es ->
  let p := foldl watch_next (watch_next (watch_start W) WLoaded) es in
  watchList (watch_next (watch_start (wt_world p)) WLoaded) = watchList p.
Proof.
  intros Hw Hes p. assert (watch_inv p) as (_ & Hp & _); [|by apply watched_load].
  unfold p. pose proof (watch_inv_start W l Hw) as H. revert H. generalize (watch_next (watch_start W) WLoaded).
  induction Hes as [|e es He _ IH]; intros q Hq; [done|]. by apply IH, watch_inv_next.
Qed.

(** An address deleted while an import waits comes back: the import was created
    with the list as it was, and its answer shows and stores that list with the
    new entry. *)
Theorem delete_during_import_undone (p : watch K) (a : WatchAddress) (now : Z) (b c : option json) :
  watch_inv p -> canImport (wt_address p) = true -> wt_loading p = false -> In a (watchList p) ->
  answer_ok b = true -> answer_ok c = true ->
  let p1 := foldl watch_next p [WImport; WDelete (wa_id a)] in
  let p2 := watch_next p1 (WAnswer now (Some (b, c))) in
  ~ In a (watchList p1)
  /\ watchList p2 = new_watch now (wt_name p) (wt_address p) b c :: watchList p /\ In a (watchList p2)
  /\ In a (watchList (watch_next (watch_start (wt_world p2)) WLoaded)).
Proof.
  intros Hp Hc Hl Ha Hb Hcc p1 p2.
  assert (watchList p2 = new_watch now (wt_name p) (wt_address p) b c :: watchList p) as E.
  { unfold p2, p1. cbn [foldl watch_next]. unfold start_import. by rewrite Hc, Hl. }
  assert (watch_inv p2) as (_ & Hw & _) by (by repeat apply watch_inv_next).
  split; [|rewrite (watched_load _ _ Hw : watchList (watch_next (watch_start (wt_world p2)) WLoaded) = _), E; repeat split; by right].
  unfold p1. cbn [foldl watch_next]. unfold delete_watched. cbn [keep_watched watchList].
  intros [_ H]%List.filter_In. by rewrite bool_decide_eq_true_2 in H.
Qed.
End WatchProofs.


(** ** Notifications of the server's transactions *)

Lemma unread_first k l : Forall (fun n => n_read n = true) l ->
  unreadCount (imap (fun i n => if (k + i <? 3)%nat then with_read false n else n) l) = Nat.min (3 - k) (length l).
Proof.
  intros Hl. revert k. induction Hl as [|n l Hn Hl IH]; intros k; [cbn; lia|]. rewrite imap_cons.
  specialize (IH (S k)). rewrite Nat.add_0_r.
  assert (imap ((fun i n => if (k + i <? 3)%nat then with_read false n else n) ∘ S) l
    = imap (fun i n => if (S k + i <? 3)%nat then with_read false n else n) l) as ->.
  { apply imap_ext. intros i x _. cbn [compose]. by rewrite Nat.add_succ_r. }
  unfold unreadCount in *. destruct (k <? 3)%nat eqn:E; cbn [List.filter with_read n_read negb length].
  - rewrite IH. apply Nat.ltb_lt in E. lia.
  - rewrite Hn. cbn [negb]. rewrite IH. apply Nat.ltb_ge in E. lia.
Qed.

(** What follows a number in a text keeps the text's last unit. *)
Lemma last_span s u : last s = Some u -> ~ 48 <= u <= 57 -> last (span_digits s).2 = Some u.
Proof.
  intros Hs Hu. induction s as [|c s IH]; [done|]. cbn [span_digits].
  destruct ((48 <=? c) && (c <=? 57)) eqn:E; [|done]. apply andb_true_iff in E as [E1%Z.leb_le E2%Z.leb_le].
  destruct s as [|c' s]; [injection Hs as ->; lia|]. rewrite last_cons_cons in Hs.
  destruct (span_digits (c' :: s)) as [ds r] eqn:Es. by apply IH.
Qed.

Lemma last_tail c s (u : Z) : last (c :: s) = Some u -> c <> u -> last s = Some u.
Proof. destruct s; [by intros [= ->]|]. by rewrite last_cons_cons. Qed.

Lemma last_exponent s u : last s = Some u -> ~ 48 <= u <= 57 -> u <> 101 -> u <> 69 -> u <> 45 -> u <> 43 ->
  last (exponent_part s).2 = Some u.
Proof.
  intros Hs Hu H1 H2 H3 H4. destruct s as [|c s]; [done|]. unfold exponent_part.
  destruct ((c =? 101) || (c =? 69)) eqn:E; [|done].
  assert (last s = Some u) as Hl.
  { apply (last_tail c); [done|]. apply orb_true_iff in E as [->%Z.eqb_eq| ->%Z.eqb_eq]; congruence. }
  assert (last (sign_of s).2 = Some u) as Hg.
  { destruct s as [|d s']; [done|]. cbn [sign_of]. destruct (Z.eqb_spec d 45); [by apply (last_tail d); [|subst]|].
    destruct (Z.eqb_spec d 43); [by apply (last_tail d); [|subst]|done]. }
  destruct (sign_of s) as [sg r]. cbn [snd] in Hg. pose proof (last_span r u Hg Hu) as Hr.
  destruct (span_digits r) as [[|d ds] r']; [done|exact Hr].
Qed.

(** A text that ends in a letter other than [e] is not a decimal literal. *)
Lemma literal_rest s u : last s = Some u -> 58 <= u -> u <> 101 -> u <> 69 -> take 8 (sign_of s).2 <> js "Infinity" ->
  last (sign_of s).2 = Some u -> (decimal_literal s).2 <> [].
Proof.
  intros Hs Hu He HE Hi Hg. unfold decimal_literal. destruct (sign_of s) as [sg r]. cbn [snd] in *.
  rewrite bool_decide_eq_false_2 by done. pose proof (last_span r u Hg ltac:(lia)) as H1.
  destruct (span_digits r) as [ip r1]. cbn [snd] in H1.
  set (q := match r1 with u :: r' => if u =? 46 then span_digits r' else ([], r1) | [] => ([], []) end).
  assert (last q.2 = Some u) as H2.
  { unfold q. destruct r1 as [|c r1]; [done|]. destruct (Z.eqb_spec c 46); [|done].
    apply last_span; [|lia]. apply (last_tail c); [done|lia]. }
  clearbody q. destruct q as [fp r2]. cbn [snd] in H2. destruct (ip ++ fp); [cbn [snd]; intros ->; done|].
  pose proof (last_exponent r2 u H2 ltac:(lia) He HE ltac:(lia) ltac:(lia)) as H3.
  destruct (exponent_part r2) as [ex r3]. cbn [snd] in *. intros ->. done.
Qed.

Definition plain_decimal (u : Z) : Prop := u = 46 \/ 48 <= u <= 57.

Lemma decimal_not_space c : plain_decimal c -> js_ws c = false.
Proof.
  intros Hc. assert (c ∈ [46; 48; 49; 50; 51; 52; 53; 54; 55; 56; 57]) as H by (unfold plain_decimal in Hc; rewrite !elem_of_cons; lia).
  clear Hc. repeat (apply elem_of_cons in H as [->|H]; [reflexivity|]). by apply elem_of_nil in H.
Qed.

(** An amount with its unit is not a number. *)
Lemma unit_not_number t : t <> [] -> Forall plain_decimal t -> number_of_text (t ++ js " GRD") = NaN.
Proof.
  intros Hne Ht. set (s := t ++ js " GRD"). destruct t as [|c t]; [done|]. inversion_clear Ht as [|? ? Hc Ht'].
  assert (last s = Some 68) as Hl by (unfold s; rewrite last_app; reflexivity).
  assert (trim s = s) as Etr.
  { unfold trim. assert (trim_start s = s) as ->.
    { unfold s. cbn [app trim_start]. by rewrite decimal_not_space. }
    assert (trim_start (reverse s) = reverse s) as ->; [|apply reverse_involutive].
    unfold s. rewrite reverse_app. reflexivity. }
  unfold number_of_text. rewrite Etr.
  assert (forall x, 58 <= x -> take 2 s <> [48; x]) as Hp.
  { intros x Hx. unfold s. destruct t as [|c' t]; [change (take 2 ([c] ++ js " GRD")) with [c; 32]; intros [= _ E]; lia|]. inversion_clear Ht' as [|? ? Hc' _].
    cbn [app take]. intros [= _ ->]. unfold plain_decimal in Hc'. lia. }
  rewrite !bool_decide_eq_false_2;
    [|intros [E|E]; [exact (Hp 98 ltac:(lia) E)|exact (Hp 66 ltac:(lia) E)]
     |intros [E|E]; [exact (Hp 111 ltac:(lia) E)|exact (Hp 79 ltac:(lia) E)]
     |intros [E|E]; [exact (Hp 120 ltac:(lia) E)|exact (Hp 88 ltac:(lia) E)]|done].
  assert (sign_of s = (1, s)) as Esg.
  { unfold s. cbn [app sign_of]. destruct (Z.eqb_spec c 45), (Z.eqb_spec c 43); unfold plain_decimal in Hc; try lia. done. }
  pose proof (literal_rest s 68 Hl ltac:(lia) ltac:(lia) ltac:(lia)) as H. rewrite Esg in H. cbn [snd] in H.
  destruct (decimal_literal s) as [d r]. cbn [snd] in H. rewrite bool_decide_eq_false_2; [done|]. apply H; [|done].
  intros E. apply (f_equal head) in E. change (Some c = Some 73) in E. injection E as ->. unfold plain_decimal in Hc. lia.
Qed.

Lemma go_fixed_chars k x : 0 <= mant x -> go_fixed k (Fin x) <> [] /\ Forall plain_decimal (go_fixed k (Fin x)).
Proof.
  intros Hx. cbn [go_fixed]. rewrite (proj2 (Z.ltb_ge (mant x) 0)) by done. cbn [app].
  assert (0 < frac_d x) as Hd by (unfold frac_d; case_match; [apply Z.pow_pos_nonneg; lia|lia]).
  set (p := 10 ^ Z.of_nat k). assert (0 < p) by (apply Z.pow_pos_nonneg; lia).
  set (n := rne _ _). assert (0 <= n) as Hn.
  { pose proof (rne_bound (Z.abs (frac_n x) * p) (frac_d x) Hd). fold n in H0. nia. }
  split; [intros [E _]%app_eq_nil; by apply (to_string_nonempty 10 (n / p))|].
  assert (forall m, 0 <= m -> Forall plain_decimal (to_string 10 m)) as Hs.
  { intros m Hm. eapply Forall_impl; [by apply to_string_10|]. intros u Hu. by right. }
  apply Forall_app. split; [apply Hs, Z.div_pos; lia|]. apply Forall_cons. split; [by left|].
  apply Forall_app. split; [apply Forall_replicate; right; lia|]. apply Hs. by apply Z.mod_pos_bound.
Qed.

Definition nan_body (n : notif) : Prop :=
  exists rest, n_body n = (if n_sent n then js "NaN GRD GRD dikirim ke " else js "+NaN GRD GRD diterima dari ") ++ rest.

(** A transfer as the page shows it. *)
Lemma transfer_notif date account e : 0 <= mant (g_value e) ->
  exists n, txToNotif date (transfer_entry e) account = Some n /\ n_id n = VUndef /\ n_read n = true /\ nan_body n.
Proof.
  intros He. destruct (go_fixed_chars 8 (g_value e) He) as [H1 H2]. pose proof (unit_not_number _ H1 H2) as HN.
  assert (forall t, exists x, short (VStr t) = Some x) as Hs by (intros [|? ?]; by eexists).
  unfold txToNotif, transfer_entry, addTx. cbn [vprop].
  change (to_number (vlookup _ (js "value"))) with (number_of_text (go_fixed 8 (Fin (g_value e)) ++ js " GRD")). rewrite HN.
  change (vlookup _ (js "to")) with (VStr (g_to e)). change (vlookup _ (js "from")) with (VStr (g_from e)).
  destruct (Hs (g_to e)) as [x ->], (Hs (g_from e)) as [y ->].
  destruct (is_text _ account) eqn:E; (eexists; split; [reflexivity|]); (split; [reflexivity|]); (split; [reflexivity|]);
    unfold nan_body; cbn [n_sent n_body]; eexists; reflexivity.
Qed.

(** The transactions of the answer reach the page as they are. *)
Lemma transactions_run {K : KV} addr (W : world K) fs l :
  head (replies W) = Some (ok (VObj fs)) -> vlookup fs (js "transactions") = VArr l ->
  exists W' info, getAddressInfo addr W = (W', inl info) /\ vfield info (js "transactions") W' = (W', inl (VArr l)).
Proof.
  intros Hr Hl. unfold getAddressInfo. rewrite (bind_inl _ _ _ _ _ (get_run _ W _ Hr)).
  cbn [vfield vprop spread]. rewrite Hl. unfold bind, ret. cbn [isArray].
  eexists _, _. split; [reflexivity|]. unfold vfield, vprop, ret. by rewrite lookup_put, bool_decide_eq_true_2.
Qed.

Lemma transfer_notifs date account es : Forall (fun e => 0 <= mant (g_value e)) es ->
  exists ns, mapM (fun tx => txToNotif date tx account) (map transfer_entry es) = Some ns /\ length ns = length es
    /\ Forall (fun n => n_id n = VUndef /\ n_read n = true /\ nan_body n) ns.
Proof.
  induction 1 as [|e es He _ (ns & IH & Hlen & Hns)]; [by exists []|].
  destruct (transfer_notif date account e He) as (n & E & Hn). exists (n :: ns). cbn [map mapM]. rewrite E, IH.
  split; [reflexivity|]. split; [cbn; by rewrite Hlen|]. by constructor.
Qed.

Lemma marked_unread (P : notif -> Prop) l : (forall n b, P n -> P (with_read b n)) -> Forall P l -> Forall P (mark_unread l).
Proof.
  intros HP Hl. apply Forall_lookup. intros i n. unfold mark_unread. rewrite list_lookup_imap.
  destruct (l !! i) as [m|] eqn:E; [|done]. cbn. intros [= <-]. rewrite Forall_lookup in Hl. specialize (Hl i m E).
  case_match; [by apply HP|done].
Qed.

Lemma unread_none l : Forall (fun n => n_read n = true) l -> unreadCount l = 0%nat.
Proof. unfold unreadCount. induction 1 as [|n l Hn _ IH]; [done|]. cbn [List.filter]. by rewrite Hn. Qed.

(** What the notifications make of the server's transfers: the server sends the
    amount as a text with its unit and calls the identifier "hash", so every
    notification of a transfer reads "NaN GRD GRD" and has no identifier; touching
    one of them marks all of them as read, and the latest three are unread again
    each time the page opens. *)
Theorem notifs_of_server {K : KV} (date : val -> jsstr) (W : world K) (a : WalletAccount) (es : list transfer)
    (fs : list (jsstr * val)) :
  getActiveAccount W = (W, inl (Some a)) -> head (replies W) = Some (ok (VObj fs)) ->
  vlookup fs (js "transactions") = VArr (map transfer_entry es) -> Forall (fun e => 0 <= mant (g_value e)) es ->
  exists W' l, load_notifs date W = (W', inl l) /\ length l = S (length es)
    /\ Forall (fun n => n = welcome \/ (n_id n = VUndef /\ nan_body n)) l
    /\ unreadCount l = Nat.min 3 (length es) /\ unreadCount (markRead VUndef l) = 0%nat.
Proof.
  intros Ha Hr Hf He. destruct (transactions_run (w_address a) W fs _ Hr Hf) as (W' & info & E1 & E2).
  destruct (transfer_notifs date (w_address a) es He) as (ns & E3 & Hlen & Hns).
  assert (Forall (fun n => n_id n = VUndef /\ nan_body n) (mark_unread ns)) as Hu.
  { apply marked_unread; [by intros n b [? ?]|]. eapply Forall_impl; [exact Hns|]. by intros n (? & _ & ?). }
  exists W', (mark_unread ns ++ [welcome]). split; [|split; [|split; [|split]]].
  - unfold load_notifs. rewrite (bind_inl _ _ _ _ _ Ha). apply try_inl. rewrite (bind_inl _ _ _ _ _ E1), (bind_inl _ _ _ _ _ E2).
    cbn [notifs_of]. by rewrite E3.
  - rewrite length_app. unfold mark_unread. rewrite length_imap, Hlen. cbn. lia.
  - apply Forall_app. split; [eapply Forall_impl; [exact Hu|]; by right|]. by repeat constructor.
  - unfold unreadCount. rewrite List.filter_app, length_app. cbn [List.filter welcome n_read negb length].
    rewrite Nat.add_0_r, <- Hlen. apply (unread_first 0). eapply Forall_impl; [exact Hns|]. by intros n (_ & ? & _).
  - apply unread_none. unfold markRead. rewrite map_app. apply Forall_app. split; [|by repeat constructor].
    apply Forall_map. eapply Forall_impl; [exact Hu|]. intros n [Hn _]. by rewrite Hn.
Qed.

Definition sample_transfer : transfer :=
  {| g_txid := js "ab"; g_height := 7; g_ts := js "2026-01-01T00:00:00Z"; g_from := js "grd1qsender"; g_to := js "grd1qreceiver";
     g_value := {| mant := 1; expo := -1 |} |}.
Definition first_sample : WalletAccount := default (Build_WalletAccount [] [] [] [] 0 None) (accounts sample_wallet !! 0%nat).
Definition sample_history : world map_kv :=
  let W := device_of sample_wallet in
  {| web := web W; secure := secure W; async := async W;
     replies := [ok (VObj [(js "balance", VStr (js "0.5")); (js "transactions", VArr [transfer_entry sample_transfer])])];
     requests := []; clock := 0 |}.

Lemma sample_active : getActiveAccount sample_history = (sample_history, inl (Some first_sample)).
Proof.
  assert (holds sample_history sample_wallet) as Hh by exact (device_holds sample_wallet).
  unfold getActiveAccount. apply try_inl. by rewrite (bind_inl _ _ _ _ _ (run_load sample_history sample_wallet Hh sample_good)).
Qed.

Definition sample_watched : list WatchAddress := [new_watch 1 (js "Budi") (js "grd1qbudibudi") None None].

Lemma sample_is_watched : watched (aset WATCHED (print_watched sample_watched) (empty_device false)) sample_watched.
Proof. apply watched_written. vm_compute. reflexivity. Qed.

Lemma watch_reopens_witness :
  let p := foldl watch_next (watch_next (watch_start (aset WATCHED (print_watched sample_watched) (empty_device false))) WLoaded)
    [WType [] (js "grd1qsarisari"); WImport; WAnswer 2 (Some (Some (JNum 5), None)); WDelete (js "w1")] in
  watchList (watch_next (watch_start (wt_world p)) WLoaded) = watchList p.
Proof.
  apply (watch_reopens _ sample_watched [WType [] (js "grd1qsarisari"); WImport; WAnswer 2 (Some (Some (JNum 5), None)); WDelete (js "w1")] sample_is_watched).
  repeat (apply Forall_cons; split; [done|]). by apply Forall_nil.
Defined.

Definition typed_watch : watch map_kv :=
  type_watch [] (js "grd1qsarisari") (watch_next (watch_start (aset WATCHED (print_watched sample_watched) (empty_device false))) WLoaded).

Lemma typed_watch_inv : watch_inv typed_watch.
Proof.
  apply (watch_inv_next _ (WType [] (js "grd1qsarisari"))); [done|]. apply (watch_inv_start _ sample_watched). apply sample_is_watched.
Qed.

Lemma delete_during_import_undone_witness :
  let a := new_watch 1 (js "Budi") (js "grd1qbudibudi") None None in
  let p1 := foldl watch_next typed_watch [WImport; WDelete (wa_id a)] in
  ~ In a (watchList p1) /\ In a (watchList (watch_next p1 (WAnswer 2 (Some (None, None))))).
Proof.
  assert (In (new_watch 1 (js "Budi") (js "grd1qbudibudi") None None) (watchList typed_watch)) as H.
  { change (watchList typed_watch) with (watchList (load_watched (watch_start (aset WATCHED (print_watched sample_watched) (empty_device false))))).
    rewrite (watched_load _ sample_watched sample_is_watched). by left. }
  destruct (delete_during_import_undone typed_watch _ 2 None None typed_watch_inv eq_refl eq_refl H eq_refl eq_refl) as (H1 & _ & H2 & _).
  split; [exact H1|exact H2].
Defined.

Lemma notifs_of_server_witness :
  exists W' l, load_notifs (fun _ => []) sample_history = (W', inl l) /\ length l = 2%nat
    /\ unreadCount l = 1%nat /\ unreadCount (markRead VUndef l) = 0%nat.
Proof.
  destruct (notifs_of_server (fun _ => []) sample_history first_sample [sample_transfer]
    [(js "balance", VStr (js "0.5")); (js "transactions", VArr [transfer_entry sample_transfer])])
    as (W' & l & H1 & H2 & _ & H3 & H4); [exact sample_active|reflexivity|reflexivity| |].
  - apply Forall_singleton. cbn. lia.
  - exists W', l. split; [exact H1|]. split; [exact H2|]. split; [exact H3|exact H4].
Defined.
