(* ===== verification/PopupLists.v ===== *)
(** * Pages of the popup with lists

    The address book (src/extension/src/popup/pages/BukuAlamat.tsx), the
    notifications (Notifikasi.tsx) and the page of an asset (DetailAset.tsx). The
    first keeps its list in the popup's [localStorage]; the others show what the
    worker of Background.v answers. *)

From stdpp Require Import gmap.
From S2P Require Import Prelude JsText Amounts Numbers Locale Bytes Mnemonic Keys Tx Json Vault Background System Worker Requests Popup PopupProofs Endpoints Store WalletStorage WalletProofs Api P2PProofs Settings.
Local Open Scope Z_scope.

(** ** Address book *)

Definition POPUP_BOOK : jsstr := Eval vm_compute in js "garuda_addressbook".

Definition popup_address (now : Z) (newName newAddress : jsstr) : Address :=
  {| b_id := to_string 10 now; b_name := trim newName; b_address := trim newAddress;
     b_network := js "GarudaChain"; b_networkColor := js "#C8922A" |}.

(** [s.includes(p)] *)
Fixpoint includes (s p : jsstr) : bool :=
  startsWith s p || match s with [] => false | _ :: s => includes s p end.

Section Book.
Context {K : KV}.

Record popup_book := { pb_addresses : list Address; pb_local : kv }.

(** The effect that runs when the page is opened. *)
Definition popup_open (local : kv) : popup_book :=
  let saved := getItem local POPUP_BOOK in
  {| pb_addresses := (if text_truthy saved then default [] (parse_book (default [] saved)) else []); pb_local := local |}.

Definition popup_persist (l : list Address) (b : popup_book) : popup_book :=
  {| pb_addresses := l; pb_local := setItem (pb_local b) POPUP_BOOK (print_book l) |}.

Definition popup_delete (id : jsstr) (b : popup_book) : popup_book :=
  popup_persist (List.filter (fun a => negb (bool_decide (b_id a = id))) (pb_addresses b)) b.

Definition popup_add (now : Z) (newName newAddress : jsstr) (b : popup_book) : popup_book :=
  match trim newName, trim newAddress with
  | _ :: _, _ :: _ => popup_persist (pb_addresses b ++ [popup_address now newName newAddress]) b
  | _, _ => b
  end.

(** The addresses that are listed for a text to search. *)
Definition popup_filtered (toLowerCase : jsstr -> jsstr) (search : jsstr) (b : popup_book) : list Address :=
  List.filter (fun a => includes (toLowerCase (b_name a)) (toLowerCase search)
                        || includes (toLowerCase (b_address a)) (toLowerCase search)) (pb_addresses b).

Definition popup_book_next (b : popup_book) (e : book_event) : popup_book :=
  match e with
  | BLoaded => popup_open (pb_local b)
  | BAdd now n a => popup_add now n a b
  | BDelete id => popup_delete id b
  end.
End Book.

(** ** What the worker tells of an address *)

(** [r?.result?.[0]?.address], when it counts as true. *)
Definition first_address (r : response) : option jsstr :=
  match accounts_of r with a :: _ => match a_address a with [] => None | t => Some t end | [] => None end.

(** [info?.result] of [wallet_getAddressInfo]: the server's document. *)
Definition info_result (r : response) : val :=
  match result_of r with Some (RAnswer (AOther j)) => to_val j | _ => VUndef end.

(** ** Notifications *)

Record popup_notif := { pn_id : val; pn_sent : bool; pn_body : jsstr; pn_time : jsstr; pn_read : bool; pn_system : bool }.

Definition popup_welcome : popup_notif :=
  {| pn_id := VStr (js "sys-welcome"); pn_sent := false; pn_body := js "Dompet Anda sudah aktif dan siap digunakan.";
     pn_time := js "Hari ini"; pn_read := true; pn_system := true |}.

(** [tx.to ? ` ke ${tx.to.slice(0, 12)}...` : ""]; [None] is an exception. *)
Definition to_part (to : val) : option jsstr :=
  if negb (vtruthy to) then Some [] else
  match to with
  | VStr t => Some (js " ke " ++ take 12 t ++ js "...")
  | VArr l => Some (js " ke " ++ val_text (VArr (take 12 l)) ++ js "...")
  | _ => None
  end.

Definition tx_notif (date : val -> jsstr) (i : nat) (tx : val) : option popup_notif :=
  match tx with VUndef | VNull => None | _ =>
    let p := vprop tx in
    let isSend := is_text (p (js "type")) (js "send") in
    let amount := if vtruthy (p (js "amount")) then to_number (p (js "amount")) else of_Z 0 in
    let amt := toLocaleString 0 4 (ddiv amount (of_Z 100000000)) in
    to ← to_part (p (js "to"));
    Some {| pn_id := (if vtruthy (p (js "txid")) then p (js "txid") else VStr (to_string 10 (Z.of_nat i))); pn_sent := isSend;
            pn_body := (if isSend then [45] else [43]) ++ amt ++ js " GRD" ++ to;
            pn_time := (if vtruthy (p (js "timestamp")) then date (p (js "timestamp")) else [8212]);
            pn_read := (3 <=? i)%nat; pn_system := false |}
  end.

Fixpoint tx_notifs (date : val -> jsstr) (i : nat) (txs : list val) : option (list popup_notif) :=
  match txs with
  | [] => Some []
  | tx :: txs => n ← tx_notif date i tx; ns ← tx_notifs date (S i) txs; Some (n :: ns)
  end.

Definition mapped (date : val -> jsstr) (info : val) : option (list popup_notif) :=
  let txs := vprop info (js "transactions") in
  ns ← (if negb (vtruthy txs) then Some [] else match txs with VArr l => tx_notifs date 0 (take 20 l) | _ => None end);
  Some (ns ++ [popup_welcome]).

Record notif_page := { np_notifs : list popup_notif; np_loading : bool }.
Definition notif_page_start : notif_page := {| np_notifs := []; np_loading := true |}.

Definition notif_mount (date : val -> jsstr) : view notif_page :=
  let stop l := Set_ (upd (fun s => {| np_notifs := default (np_notifs s) l; np_loading := false |})) Done in
  Msg wallet_getAccounts (fun r =>
    match first_address r with
    | None => stop None
    | Some addr => Msg (wallet_getAddressInfo (Some addr)) (fun info => stop (mapped date (info_result info)))
    end).

Definition popup_unread (s : notif_page) : nat := length (List.filter (fun n => negb (pn_read n)) (np_notifs s)).

Definition popup_mark_all (s : notif_page) : notif_page :=
  {| np_notifs := map (fun n => {| pn_id := pn_id n; pn_sent := pn_sent n; pn_body := pn_body n; pn_time := pn_time n;
                                   pn_read := true; pn_system := pn_system n |}) (np_notifs s); np_loading := np_loading s |}.

(** ** The page of an asset *)

Record asset_page := { ap_address : jsstr; ap_balance : val; ap_history : val; ap_loading : bool }.
Definition asset_page_start : asset_page :=
  {| ap_address := []; ap_balance := VNum (of_Z 0); ap_history := VArr []; ap_loading := true |}.

Definition asset_mount : view asset_page :=
  let stop f := Set_ (upd (fun s => let s := f s in {| ap_address := ap_address s; ap_balance := ap_balance s; ap_history := ap_history s; ap_loading := false |})) Done in
  Msg wallet_getAccounts (fun r =>
    match first_address r with
    | None => stop (fun s => s)
    | Some addr =>
        Set_ (upd (fun s => {| ap_address := addr; ap_balance := ap_balance s; ap_history := ap_history s; ap_loading := ap_loading s |}))
        (Msg (wallet_getAddressInfo (Some addr)) (fun info =>
          let res := info_result info in
          stop (fun s => if vtruthy res
                         then {| ap_address := ap_address s; ap_balance := vor (vprop res (js "balance")) (VNum (of_Z 0));
                                 ap_history := vor (vprop res (js "transactions")) (VArr []); ap_loading := ap_loading s |}
                         else s)))
    end).

(** The sum of the amounts of one type, on amounts that are numbers; [None] is an
    exception or another amount. *)
Fixpoint sum_of (type : jsstr) (txs : list val) (s : double) : option double :=
  match txs with
  | [] => Some s
  | VUndef :: _ | VNull :: _ => None
  | t :: txs =>
      if is_text (vprop t (js "type")) type then
        if vtruthy (vprop t (js "amount"))
        then match vprop t (js "amount") with VNum x => sum_of type txs (dadd s x) | _ => None end
        else sum_of type txs (dadd s (of_Z 0))
      else sum_of type txs s
  end.

Definition totals (s : asset_page) : option (double * double) :=
  match ap_history s with
  | VArr l => r ← sum_of (js "receive") l (of_Z 0); t ← sum_of (js "send") l (of_Z 0); Some (r, t)
  | _ => None
  end.

(** ** The address book is what is stored *)

Section BookProofs.
Context {K : KV} {L : KVLaws K}.

(** The list shown is the one stored. *)
Definition popup_filed (b : popup_book) : Prop :=
  forallb address_text (pb_addresses b) = true
  /\ (getItem (pb_local b) POPUP_BOOK = None /\ pb_addresses b = []
      \/ getItem (pb_local b) POPUP_BOOK = Some (print_book (pb_addresses b))).

Lemma popup_filed_open b : popup_filed b -> popup_open (pb_local b) = b.
Proof.
  destruct b as [l local]. intros [Ht [[E H]|E]]; cbn [pb_local pb_addresses] in *; unfold popup_open; rewrite E; [by rewrite H|].
  replace (text_truthy _) with true by done. change (default [] (Some ?t)) with t. by rewrite parse_print_book.
Qed.

Lemma popup_filed_persist l b : forallb address_text l = true -> popup_filed (popup_persist l b).
Proof. intros Hl. split; [done|]. right. apply get_set. Qed.

Lemma popup_address_text now n a : units n = true -> units a = true -> address_text (popup_address now n a) = true.
Proof.
  intros Hn Ha. unfold address_text, popup_address. cbn [b_id b_name b_address b_network b_networkColor].
  by rewrite units_to_string, (units_trim n Hn), (units_trim a Ha).
Qed.

Lemma popup_book_step b e : popup_filed b -> book_event_ok e -> popup_filed (popup_book_next b e).
Proof.
  intros Hb He. destruct e as [|now n a|id]; cbn [popup_book_next].
  - by rewrite popup_filed_open.
  - unfold popup_add. destruct (trim n) eqn:En; [done|]. destruct (trim a) eqn:Ea; [done|].
    apply popup_filed_persist. rewrite forallb_app. cbn [forallb]. destruct Hb as [-> _], He. by rewrite popup_address_text.
  - apply popup_filed_persist. destruct Hb as [Hb _]. rewrite forallb_forall in *.
    intros x Hx. apply List.filter_In in Hx as [Hx _]. by apply Hb.
Qed.

(** The popup's address book is kept: from a stored book or none, whatever is added
    and deleted and however often the page is opened, opening it again changes
    nothing. *)
Theorem popup_book_reopens (b : popup_book) (es : list book_event) :
  popup_filed b -> Forall book_event_ok es ->
  let b' := foldl popup_book_next b es in popup_open (pb_local b') = b'.
Proof.
  intros Hb Hes b'. apply popup_filed_open. unfold b'. clear b'. revert b Hb.
  induction Hes as [|e es He _ IH]; intros b Hb; [done|]. by apply IH, popup_book_step.
Qed.
End BookProofs.

(** ** The pages and the server *)

Section Pages.
Context {C : Crypto} {V : VaultCrypto}.
Context (random : nat -> nat -> list Z) (uuid : nat -> jsstr).

Lemma exec_info b p l v addr a rs : session_of b p l v -> addr <> [] ->
  exec (handleMessage random uuid (say (wallet_getAddressInfo (Some addr))) popup) (a :: rs) b
  = (b, [ReqAddress (Some addr)], match a with AReject e => Raised e | _ => Value (Result (RAnswer a)) end).
Proof.
  intros [Hs Hv] Ha. unfold handleMessage, on_query, need_session, deref, address_or_first, fetch_any. cbn -[getSession vault_at].
  rewrite Hs. cbn -[vault_at]. rewrite Hv. destruct addr; [done|]. cbn. by destruct a.
Qed.

(** The notifications and the page of an asset show no transaction: the path the
    worker asks for an address has no route in the repository's server, so for
    every unlocked wallet the first page ends with its welcome alone, and the
    second with the balance 0 and an empty history. *)
Theorem popup_history_empty (api : request -> answer) (date : val -> jsstr) (b : bg) (p : jsstr) (l : nat) (v : VaultData)
    (a : AccountMeta) (accs : list AccountMeta) (S1 : screen notif_page) (S2 : screen asset_page) :
  go_server api -> session_of b p l v -> v_accounts v = a :: accs -> a_address a <> [] ->
  own S2 = asset_page_start ->
  let q := ReqAddress (Some (a_address a)) in
  (exists S1', play random uuid (notif_mount date) [[]; [api q]] S1 b = ([], S1', b, [q])
     /\ np_notifs (own S1') = [popup_welcome] /\ np_loading (own S1') = false)
  /\ exists S2', play random uuid asset_mount [[]; [api q]] S2 b = ([], S2', b, [q])
     /\ ap_balance (own S2') = VNum (of_Z 0) /\ totals (own S2') = Some (of_Z 0, of_Z 0) /\ ap_loading (own S2') = false.
Proof.
  intros Hapi Hs Hv Ha H2 q. destruct (Hapi q (address_not_served _)) as [e He].
  assert (first_address (Reply (Result (RAccounts (v_accounts v)))) = Some (a_address a)) as Hf.
  { unfold first_address, accounts_of. cbn [result_of]. rewrite Hv. by destruct (a_address a). }
  split; eexists; (split; [|]);
    try (unfold notif_mount, asset_mount; cbn [play]; rewrite (exec_accounts random uuid b p l v [] Hs); cbn [listen app]; rewrite Hf;
         cbn [play]; rewrite He, (exec_info b p l v (a_address a) (AReject e) [] Hs Ha); reflexivity).
  - done.
  - unfold totals. cbn. rewrite H2. done.
Qed.
End Pages.

Definition sample_holder : AccountMeta :=
  {| a_name := js "Akun 1"; a_address := ext_address sample_key; a_derivationPath := js "garuda-sha256"; a_index := 0 |}.
Definition notif_screen : screen notif_page := {| at_page := PNotifikasi; closed := false; own := notif_page_start |}.
Definition asset_screen : screen asset_page := {| at_page := PDetailAset; closed := false; own := asset_page_start |}.

Lemma popup_history_empty_witness :
  exists S1', play (C := toy) (V := toy_vault) sample_random sample_uuid (notif_mount (fun _ => []))
      [[]; [sample_api (ReqAddress (Some (ext_address sample_key)))]] notif_screen unlocked
    = ([], S1', unlocked, [ReqAddress (Some (ext_address sample_key))]) /\ np_notifs (own S1') = [popup_welcome].
Proof.
  destruct (popup_history_empty (C := toy) (V := toy_vault) sample_random sample_uuid sample_api (fun _ => []) unlocked (js "pw") 0 sample_v
    sample_holder [] notif_screen asset_screen) as [(S1' & E & H & _) _].
  - intros q Hq. unfold sample_api. rewrite Hq. exists (js "SyntaxError"). reflexivity.
  - split; reflexivity.
  - reflexivity.
  - discriminate.
  - reflexivity.
  - exists S1'. split; [exact E|exact H].
Defined.

Lemma popup_book_reopens_witness :
  let b := foldl (popup_book_next (K := map_kv)) (popup_open ∅)
    [BAdd 2 (js "Sari") (js "grd1qsari"); BLoaded; BDelete (js "1")] in
  popup_open (pb_local b) = b.
Proof.
  apply (popup_book_reopens (K := map_kv) (popup_open ∅) [BAdd 2 (js "Sari") (js "grd1qsari"); BLoaded; BDelete (js "1")]).
  - split; [reflexivity|]. left. split; reflexivity.
  - repeat (apply Forall_cons; split; [done|]). by apply Forall_nil.
Defined.
