(* ===== verification/Tickets.v ===== *)
(** * The support chat of the administrators

    src/mobile/app/admin-login.tsx and src/mobile/app/admin-obrolan.tsx: the list of
    tickets, the ticket that is open, and what an administrator can do with it. The
    open ticket is a copy of the list's; both are written back together. *)

From stdpp Require Import gmap.
From S2P Require Import Prelude JsText Bytes P2P.
Local Open Scope Z_scope.

(** ** Signing in *)

Record credential := { c_username : jsstr; c_password : jsstr; c_name : jsstr }.

Definition ADMIN_CREDENTIALS : list credential :=
  [{| c_username := js "admin"; c_password := js "admin123"; c_name := js "Admin GarudaChain" |};
   {| c_username := js "cs1"; c_password := js "cs2024!"; c_name := js "CS Andi" |};
   {| c_username := js "cs2"; c_password := js "cs2024@"; c_name := js "CS Rina" |}].

Inductive login := NoUser | NoPassword | Refused | Admin (name user : jsstr).

Definition handleLogin (username password : jsstr) : login :=
  let trimUser := trim username in
  let trimPass := trim password in
  if bool_decide (trimUser = []) then NoUser
  else if bool_decide (trimPass = []) then NoPassword
  else match List.find (fun c => bool_decide (c_username c = trimUser) && bool_decide (c_password c = trimPass)) ADMIN_CREDENTIALS with
       | Some c => Admin (c_name c) (c_username c)
       | None => Refused
       end.

(** ** Tickets *)

Inductive TicketStatus := aktif | selesai | eskalasi.
Inductive FilterTab := TabSemua | TabAktif | TabSelesai.
Inductive am_sender := FromCustomer | FromAdmin | FromSystem.

#[export] Instance TicketStatus_eq : EqDecision TicketStatus.
Proof. solve_decision. Defined.

Record AdminMessage := {
  am_id : jsstr;
  am_from : am_sender;
  am_text : jsstr;
  am_time : jsstr;
  am_senderName : option jsstr
}.

Record CustomerTicket := {
  t_id : jsstr;
  t_customer : jsstr;
  t_avatar : jsstr;
  t_asset : jsstr;
  t_amount : jsstr;
  t_idr : jsstr;
  t_sell : bool;
  t_status : TicketStatus;
  t_lastMsg : jsstr;
  t_time : jsstr;
  t_unread : Z;
  t_messages : list AdminMessage
}.

Definition am (id : jsstr) (from : am_sender) (text time senderName : jsstr) : AdminMessage :=
  {| am_id := id; am_from := from; am_text := text; am_time := time; am_senderName := Some senderName |}.

Definition INITIAL_TICKETS : list CustomerTicket :=
  [{| t_id := js "t1"; t_customer := js "RizkyTrade"; t_avatar := js "R"; t_asset := js "USDT"; t_amount := js "200 USDT";
      t_idr := js "Rp 3.320.000"; t_sell := true; t_status := aktif;
      t_lastMsg := js "Transfer sudah saya lakukan, mohon segera dikonfirmasi.";
      t_time := js "13:42"; t_unread := 2;
      t_messages :=
       [am (js "m1") FromSystem (tx "Pesanan dibuat. ID #ORD-0081 · 200 USDT · Rp 3.320.000")
          (js "13:30") (js "Sistem");
        am (js "m2") FromCustomer (js "Halo admin, saya sudah transfer ke rekening BCA ya.")
          (js "13:38") (js "RizkyTrade");
        am (js "m3") FromCustomer (js "Transfer sudah saya lakukan, mohon segera dikonfirmasi.")
          (js "13:42") (js "RizkyTrade")] |};
   {| t_id := js "t2"; t_customer := js "CryptoMaster99"; t_avatar := js "C"; t_asset := js "USDT"; t_amount := js "300 USDT";
      t_idr := js "Rp 4.965.000"; t_sell := false; t_status := aktif;
      t_lastMsg := tx "Baik, saya cek rekening dulu ya. Terima kasih 👍";
      t_time := js "14:05"; t_unread := 1;
      t_messages :=
       [am (js "m1") FromSystem (tx "Pesanan dibuat. ID #ORD-0082 · 300 USDT · Rp 4.965.000")
          (js "13:55") (js "Sistem");
        am (js "m2") FromCustomer (js "Halo, saya mau beli 300 USDT. Bagaimana prosesnya?")
          (js "13:58") (js "CryptoMaster99");
        am (js "m3") FromAdmin (js "Halo! Silakan lakukan transfer ke rekening yang tertera di detail pesanan. Setelah transfer, klik tombol Sudah Bayar.")
          (js "14:02") (js "Admin GarudaChain");
        am (js "m4") FromCustomer (tx "Baik, saya cek rekening dulu ya. Terima kasih 👍")
          (js "14:05") (js "CryptoMaster99")] |};
   {| t_id := js "t3"; t_customer := js "IndraKripto"; t_avatar := js "I"; t_asset := js "USDT"; t_amount := js "50 USDT";
      t_idr := js "Rp 830.000"; t_sell := true; t_status := eskalasi;
      t_lastMsg := js "Admin tolong bantu! Penjual tidak merespons sudah 2 jam.";
      t_time := js "12:10"; t_unread := 3;
      t_messages :=
       [am (js "m1") FromSystem (tx "Pesanan dibuat. ID #ORD-0079 · 50 USDT · Rp 830.000")
          (js "10:00") (js "Sistem");
        am (js "m2") FromCustomer (js "Saya sudah transfer Rp 830.000 via GoPay.")
          (js "10:15") (js "IndraKripto");
        am (js "m3") FromSystem (tx "⚠️ Peringatan: Penjual belum merespons lebih dari 1 jam. Escrow berjalan.")
          (js "11:15") (js "Sistem");
        am (js "m4") FromCustomer (js "Admin tolong bantu! Penjual tidak merespons sudah 2 jam.")
          (js "12:10") (js "IndraKripto")] |};
   {| t_id := js "t4"; t_customer := js "FajarBTC"; t_avatar := js "F"; t_asset := js "BTC"; t_amount := js "0.003 BTC";
      t_idr := js "Rp 4.944.000"; t_sell := false; t_status := selesai;
      t_lastMsg := tx "Terima kasih, transaksi selesai! 🎉";
      t_time := js "Kemarin"; t_unread := 0;
      t_messages :=
       [am (js "m1") FromSystem (tx "Pesanan dibuat. ID #ORD-0075 · 0.003 BTC · Rp 4.944.000")
          (js "09:00") (js "Sistem");
        am (js "m2") FromCustomer (js "Transfer sudah dilakukan.")
          (js "09:12") (js "FajarBTC");
        am (js "m3") FromAdmin (js "Terima kasih! Aset sedang dalam proses pelepasan. Mohon tunggu sebentar.")
          (js "09:14") (js "Admin GarudaChain");
        am (js "m4") FromSystem (tx "✅ Aset telah dilepas ke pembeli. Transaksi selesai.")
          (js "09:20") (js "Sistem");
        am (js "m5") FromCustomer (tx "Terima kasih, transaksi selesai! 🎉")
          (js "09:21") (js "FajarBTC")] |};
   {| t_id := js "t5"; t_customer := js "SatoshiFan"; t_avatar := js "S"; t_asset := js "ETH"; t_amount := js "0.05 ETH";
      t_idr := js "Rp 2.755.000"; t_sell := false; t_status := aktif;
      t_lastMsg := js "Apakah bisa menggunakan Dana untuk transfer?";
      t_time := js "14:30"; t_unread := 1;
      t_messages :=
       [am (js "m1") FromSystem (tx "Pesanan dibuat. ID #ORD-0083 · 0.05 ETH · Rp 2.755.000")
          (js "14:25") (js "Sistem");
        am (js "m2") FromCustomer (js "Apakah bisa menggunakan Dana untuk transfer?")
          (js "14:30") (js "SatoshiFan")] |}].

(** [{ ...t, status, lastMsg, time, unread, messages }] *)
Definition t_with (status : TicketStatus) (lastMsg time : jsstr) (unread : Z) (messages : list AdminMessage)
    (t : CustomerTicket) : CustomerTicket :=
  {| t_id := t_id t; t_customer := t_customer t; t_avatar := t_avatar t; t_asset := t_asset t; t_amount := t_amount t;
     t_idr := t_idr t; t_sell := t_sell t; t_status := status; t_lastMsg := lastMsg; t_time := time; t_unread := unread;
     t_messages := messages |}.

Definition unread_of (n : Z) (t : CustomerTicket) : CustomerTicket :=
  t_with (t_status t) (t_lastMsg t) (t_time t) n (t_messages t) t.

(** [prev.map(t => t.id === id ? f(t) : t)] *)
Definition at_id (id : jsstr) (f : CustomerTicket -> CustomerTicket) (l : list CustomerTicket) : list CustomerTicket :=
  map (fun t => if bool_decide (t_id t = id) then f t else t) l.

Record desk := {
  tickets : list CustomerTicket;
  filter : FilterTab;
  activeTicket : option CustomerTicket;
  reply : jsstr
}.

Definition matches (f : FilterTab) (t : CustomerTicket) : bool :=
  match f, t_status t with
  | TabSemua, _ => true
  | TabAktif, (aktif | eskalasi) => true
  | TabSelesai, selesai => true
  | _, _ => false
  end.

Definition filtered (d : desk) : list CustomerTicket := List.filter (matches (filter d)) (tickets d).

Definition totalUnread (d : desk) : Z := foldl (fun acc t => acc + t_unread t) 0 (tickets d).

Definition desk_start : desk := {| tickets := INITIAL_TICKETS; filter := TabSemua; activeTicket := None; reply := [] |}.

Section Desk.
Context (adminName : jsstr).

(** [now()] is the text [time], [Date.now()] the number [date]. *)
Definition openTicket (ticket : CustomerTicket) (d : desk) : desk :=
  {| tickets := at_id (t_id ticket) (unread_of 0) (tickets d); filter := filter d; activeTicket := Some ticket;
     reply := reply d |}.

Definition write_back (updated : CustomerTicket) (reply' : jsstr) (d : desk) : desk :=
  {| tickets := at_id (t_id updated) (fun _ => updated) (tickets d); filter := filter d; activeTicket := Some updated;
     reply := reply' |}.

Definition sendReply (date : Z) (time : jsstr) (d : desk) : desk :=
  match activeTicket d with
  | None => d
  | Some t =>
      match trim (reply d) with
      | [] => d
      | text =>
          let newMsg := {| am_id := js "msg-" ++ to_string 10 date; am_from := FromAdmin; am_text := text; am_time := time;
                           am_senderName := Some adminName |} in
          write_back (t_with (t_status t) text time (t_unread t) (t_messages t ++ [newMsg]) t) [] d
      end
  end.

Definition system_message (id text time : jsstr) : AdminMessage :=
  {| am_id := id; am_from := FromSystem; am_text := text; am_time := time; am_senderName := Some (js "Sistem") |}.

Definition with_status (status : TicketStatus) (m : AdminMessage) (t : CustomerTicket) : CustomerTicket :=
  t_with status (t_lastMsg t) (t_time t) (t_unread t) (t_messages t ++ [m]) t.

(** The dialog is modal: its answer finds the ticket it asked about. *)
Definition markDone (date : Z) (time : jsstr) (d : desk) : desk :=
  match activeTicket d with
  | None => d
  | Some t =>
      write_back (with_status selesai (system_message (js "sys-" ++ to_string 10 date)
        (tx "✅ Tiket ditandai selesai oleh admin.") time) t) (reply d) d
  end.

Definition escalate (date : Z) (time : jsstr) (d : desk) : desk :=
  match activeTicket d with
  | None => d
  | Some t =>
      write_back (with_status eskalasi (system_message (js "esc-" ++ to_string 10 date)
        (tx "🚨 Tiket dieskalasi ke tim senior. Mohon tunggu penanganan lebih lanjut.") time) t) (reply d) d
  end.

(** ** What the page offers *)

Inductive desk_event :=
| DOpen (i : nat)
| DBack
| DFilter (f : FilterTab)
| DType (text : jsstr)
| DSend (date : Z) (time : jsstr)
| DDone (date : Z) (time : jsstr)
| DEscalate (date : Z) (time : jsstr).

Definition desk_next (d : desk) (e : desk_event) : desk :=
  match activeTicket d, e with
  | None, DOpen i => match filtered d !! i with Some t => openTicket t d | None => d end
  | None, DFilter f => {| tickets := tickets d; filter := f; activeTicket := None; reply := reply d |}
  | Some _, DBack => {| tickets := tickets d; filter := filter d; activeTicket := None; reply := reply d |}
  | Some t, DType text =>
      if bool_decide (t_status t = selesai) then d
      else {| tickets := tickets d; filter := filter d; activeTicket := Some t; reply := text |}
  | Some t, DSend date time => if bool_decide (t_status t = selesai) then d else sendReply date time d
  | Some t, DDone date time => if bool_decide (t_status t = selesai) then d else markDone date time d
  | Some t, DEscalate date time => if bool_decide (t_status t = selesai) then d else escalate date time d
  | _, _ => d
  end.
End Desk.

(** ** What the chat keeps *)

(** Nothing of a ticket changes but its status, its last message and time, its
    unread count, and the messages that are added; a closed ticket is left alone
    except for the unread count. *)
Definition kept (t t' : CustomerTicket) : Prop :=
  (exists ms, t' = t_with (t_status t') (t_lastMsg t') (t_time t') (t_unread t') (t_messages t ++ ms) t)
  /\ (t_status t = selesai -> t' = unread_of (t_unread t') t).

Definition desk_ok (d : desk) : Prop :=
  NoDup (map t_id (tickets d))
  /\ match activeTicket d with Some t => exists n, unread_of n t ∈ tickets d | None => True end.

Lemma kept_refl t : kept t t.
Proof. destruct t. split; [exists []; cbn; by rewrite app_nil_r|done]. Qed.

Lemma kept_trans t1 t2 t3 : kept t1 t2 -> kept t2 t3 -> kept t1 t3.
Proof.
  intros [[m1 E1] H1] [[m2 E2] H2]. split.
  - exists (m1 ++ m2). rewrite E2, E1. cbn. by rewrite <- (assoc_L (++)).
  - intros H. specialize (H1 H). assert (t_status t2 = selesai) as Hs by (rewrite H1; done).
    rewrite (H2 Hs), H1. done.
Qed.

Lemma kept_unread n t : kept t (unread_of n t).
Proof. split; [exists []; cbn; rewrite app_nil_r|]; done. Qed.

Lemma kept_id t t' : kept t t' -> t_id t' = t_id t.
Proof. intros [[ms ->] _]. done. Qed.

Lemma kept_all_refl l : Forall2 kept l l.
Proof. induction l; constructor; [apply kept_refl|done]. Qed.

Lemma at_id_kept id f l : (forall t, t ∈ l -> t_id t = id -> kept t (f t)) -> Forall2 kept l (at_id id f l).
Proof.
  intros Hf. induction l as [|t l IH]; cbn [at_id map]; constructor.
  - case_bool_decide as E; [apply Hf; [left|done]|apply kept_refl].
  - apply IH. intros t' Ht'. apply Hf. by right.
Qed.

Lemma kept_all_ids l l' : Forall2 kept l l' -> map t_id l' = map t_id l.
Proof. induction 1 as [|t t' l l' Ht _ IH]; [done|]. cbn. by rewrite IH, (kept_id t t'). Qed.

Lemma unique_id l t t' : NoDup (map t_id l) -> t ∈ l -> t' ∈ l -> t_id t = t_id t' -> t = t'.
Proof.
  intros Hn [i Hi]%list_elem_of_lookup [j Hj]%list_elem_of_lookup E.
  assert (i = j) as ->; [|congruence].
  apply (NoDup_lookup (map t_id l) i j (t_id t) Hn); rewrite list_lookup_fmap; [by rewrite Hi|rewrite Hj; cbn; congruence].
Qed.

Lemma elem_of_at_id id f l t : t ∈ l -> t_id t = id -> f t ∈ at_id id f l.
Proof.
  intros Ht E. unfold at_id. apply list_elem_of_fmap. exists t. split; [|done]. by rewrite bool_decide_eq_true_2.
Qed.

Lemma write_back_ok d t u r :
  desk_ok d -> activeTicket d = Some t -> kept t u ->  t_status t <> selesai ->
  Forall2 kept (tickets d) (tickets (write_back u r d)) /\ desk_ok (write_back u r d).
Proof.
  intros [Hn Ha] Et Hk Hs. rewrite Et in Ha. destruct Ha as [n Hin].
  assert (Forall2 kept (tickets d) (tickets (write_back u r d))) as H.
  { apply at_id_kept. intros t' Ht' E. rewrite (kept_id t u Hk) in E.
    assert (t' = unread_of n t) as -> by (apply (unique_id (tickets d)); done).
    split; [|done]. destruct Hk as [[ms ->] _]. by exists ms. }
  split; [done|]. split; [by rewrite (kept_all_ids _ _ H)|]. cbn [write_back activeTicket tickets]. exists (t_unread u).
  assert (unread_of (t_unread u) u = u) as -> by by destruct u.
  apply (elem_of_at_id (t_id u) (fun _ => u) _ (unread_of n t)); [done|]. by rewrite (kept_id t u Hk).
Qed.

Lemma kept_more t u : t_status t <> selesai ->
  (exists s l c m, u = t_with s l c (t_unread t) (t_messages t ++ [m]) t) -> kept t u.
Proof. intros Hs (s & l & c & m & ->). split; [by exists [m]|done]. Qed.

Lemma desk_step name d e : desk_ok d ->
  Forall2 kept (tickets d) (tickets (desk_next name d e)) /\ desk_ok (desk_next name d e).
Proof.
  intros Hok. assert (Forall2 kept (tickets d) (tickets d)) as Hid by apply kept_all_refl. unfold desk_next.
  destruct (activeTicket d) as [t|] eqn:Et.
  - assert (desk_ok {| tickets := tickets d; filter := filter d; activeTicket := None; reply := reply d |}) as Hback
      by (split; [apply Hok|done]).
    destruct e as [i| |f|text|date time|date time|date time]; try done; case_bool_decide as Hs; try done.
    + split; [done|]. destruct Hok as [H1 H2]. split; [done|]. by rewrite Et in H2.
    + unfold sendReply. rewrite Et. destruct (trim (reply d)) as [|c text]; [done|].
      apply (write_back_ok d t); try done. apply (kept_more _ _ Hs). by eexists _, _, _, _.
    + unfold markDone. rewrite Et. apply (write_back_ok d t); try done. apply (kept_more _ _ Hs). by eexists _, _, _, _.
    + unfold escalate. rewrite Et. apply (write_back_ok d t); try done. apply (kept_more _ _ Hs). by eexists _, _, _, _.
  - destruct e as [i| |f|text|date time|date time|date time]; try done; [|by split; [|split; [apply Hok|]]].
    destruct (filtered d !! i) as [t|] eqn:Ef; [|done].
    assert (t ∈ tickets d) as Hin.
    { apply list_elem_of_lookup_2, list_elem_of_In, List.filter_In in Ef as [Ef _]. by apply list_elem_of_In. }
    assert (Forall2 kept (tickets d) (tickets (openTicket t d))) as H by (apply at_id_kept; intros; apply kept_unread).
    split; [done|]. split; [rewrite (kept_all_ids _ _ H); apply Hok|]. exists 0.
    by apply (elem_of_at_id (t_id t) (unread_of 0)).
Qed.

(** The chat loses no message: whatever the administrator does, every ticket
    stays in its place, its messages are those it had with new ones added at the
    end, and a closed ticket gets no message and is not reopened. *)
Theorem desk_keeps_messages (name : jsstr) (d : desk) (es : list desk_event) :
  desk_ok d -> Forall2 kept (tickets d) (tickets (foldl (desk_next name) d es)).
Proof.
  revert d. induction es as [|e es IH]; intros d Hok; [apply kept_all_refl|]. cbn [foldl].
  destruct (desk_step name d e Hok) as [H1 H2]. specialize (IH _ H2).
  revert IH. generalize (tickets (foldl (desk_next name) (desk_next name d e) es)).
  induction H1 as [|t t' l l' Ht _ IHl]; intros l2 H; inversion H; subst; constructor; [|by apply IHl].
  by apply (kept_trans _ t').
Qed.

(** ** The unread count *)

Lemma total_shift acc l : foldl (fun acc t => acc + t_unread t) acc l = acc + foldl (fun acc t => acc + t_unread t) 0 l.
Proof.
  revert acc. induction l as [|t l IH]; intros acc; cbn [foldl]; [lia|]. rewrite (IH (acc + _)), (IH (0 + _)). lia.
Qed.

Lemma at_id_total id f l t : NoDup (map t_id l) -> t ∈ l -> t_id t = id ->
  foldl (fun acc t => acc + t_unread t) 0 (at_id id f l)
  = foldl (fun acc t => acc + t_unread t) 0 l - t_unread t + t_unread (f t).
Proof.
  intros Hn Hin E. induction l as [|t' l IH]; [by apply elem_of_nil in Hin|]. cbn [map] in Hn.
  apply NoDup_cons in Hn as [Hni Hn]. cbn [at_id map foldl]. fold (at_id id f l).
  rewrite total_shift, (total_shift (0 + t_unread t')).
  apply elem_of_cons in Hin as [->|Hin].
  - rewrite bool_decide_eq_true_2 by done. assert (at_id id f l = l) as ->; [|lia].
    subst id. unfold at_id. rewrite <- (map_id l) at 2. apply map_ext_in. intros t Ht. case_bool_decide as E; [|done].
    destruct Hni. rewrite <- E. apply list_elem_of_In. by apply in_map.
  - rewrite bool_decide_eq_false_2; [rewrite (IH Hn Hin); lia|].
    intros E'. apply Hni. rewrite E', <- E. apply list_elem_of_In, in_map. by apply list_elem_of_In.
Qed.

(** A reply marks the ticket unread again: opening a ticket takes its unread
    messages off the total, and the reply puts them back, because it is written
    over the ticket as it was when it was opened. *)
Theorem reply_restores_unread (name : jsstr) (d : desk) (i : nat) (t : CustomerTicket) (text : jsstr) (date : Z) (time : jsstr) :
  desk_ok d -> activeTicket d = None -> filtered d !! i = Some t -> t_status t <> selesai -> trim text <> [] ->
  let d1 := desk_next name d (DOpen i) in
  let d2 := foldl (desk_next name) d1 [DType text; DSend date time; DBack] in
  totalUnread d1 = totalUnread d - t_unread t /\ totalUnread d2 = totalUnread d.
Proof.
  intros [Hn _] Ha Hf Hs Ht d1 d2.
  assert (t ∈ tickets d) as Hin.
  { apply list_elem_of_lookup_2, list_elem_of_In, List.filter_In in Hf as [Hf _]. by apply list_elem_of_In. }
  assert (d1 = openTicket t d) as E1 by (unfold d1, desk_next; by rewrite Ha, Hf).
  assert (totalUnread d1 = totalUnread d - t_unread t) as H1.
  { rewrite E1. unfold totalUnread, openTicket. cbn [tickets]. rewrite (at_id_total _ _ _ t) by done. cbn. lia. }
  split; [done|]. unfold d2. rewrite E1. cbn [foldl desk_next openTicket activeTicket].
  rewrite bool_decide_eq_false_2 by done. cbn [desk_next activeTicket]. rewrite bool_decide_eq_false_2 by done.
  unfold sendReply. cbn [activeTicket reply]. destruct (trim text) as [|c tx'] eqn:Ex; [done|]. rewrite <- Ex.
  unfold totalUnread, write_back. cbn [desk_next tickets activeTicket]. rewrite (at_id_total _ _ _ (unread_of 0 t)).
  - rewrite E1 in H1. unfold totalUnread in H1. rewrite H1. cbn. lia.
  - by rewrite (kept_all_ids (tickets d)) by (apply at_id_kept; intros; apply kept_unread).
  - by apply (elem_of_at_id (t_id t) (unread_of 0)).
  - done.
Qed.

Lemma desk_start_ok : desk_ok desk_start.
Proof. split; [by apply (bool_decide_unpack _); vm_compute|done]. Qed.

Lemma desk_keeps_messages_witness :
  Forall2 kept INITIAL_TICKETS
    (tickets (foldl (desk_next (js "CS Rina")) desk_start [DOpen 2; DEscalate 1 (js "14:40"); DDone 2 (js "14:50"); DBack])).
Proof. exact (desk_keeps_messages (js "CS Rina") desk_start _ desk_start_ok). Defined.

Definition first_ticket : CustomerTicket := default (t_with aktif [] [] 0 [] (Build_CustomerTicket [] [] [] [] [] [] true aktif [] [] 0 []))
  (filtered desk_start !! 0%nat).

Lemma reply_restores_unread_witness :
  let d1 := desk_next (js "CS Rina") desk_start (DOpen 0) in
  let d2 := foldl (desk_next (js "CS Rina")) d1 [DType (js "Baik"); DSend 1 (js "14:40"); DBack] in
  totalUnread d1 = totalUnread desk_start - t_unread first_ticket /\ totalUnread d2 = totalUnread desk_start.
Proof.
  apply (reply_restores_unread (js "CS Rina") desk_start 0 first_ticket (js "Baik") 1 (js "14:40") desk_start_ok);
    [reflexivity|reflexivity|done|done].
Defined.
