(* ===== verification/Market.v ===== *)
(** * Advertisements of the peer-to-peer market

    The advertisements of src/mobile/utils/p2p-storage.ts, the page that publishes
    one (p2p-buat-iklan.tsx), the list of one's own on the home page
    (beranda.tsx), and the page that places an order on one (p2p-order.tsx). *)

From stdpp Require Import gmap.
From S2P Require Import Prelude JsText Amounts Numbers Utf8 Json Vault Store Dates P2P.
Local Open Scope Z_scope.
Local Open Scope io_scope.

Record PaymentDetail := { method : jsstr; noRek : jsstr; nama : jsstr }.

Record P2PMyListing := {
  l_id : jsstr; l_jual : bool; l_asset : jsstr; l_price : jsstr; l_priceNum : number;
  l_limitMin : number; l_limitMax : number; l_payment : jsstr; l_payments : list PaymentDetail;
  l_aktif : bool; l_orders : Z; l_createdAt : jsstr; l_requirements : option jsstr; l_timeLimit : option Z
}.

(** ** Stored form *)

Definition payment_json (p : PaymentDetail) : json :=
  JObj [(js "method", JStr (method p)); (js "noRek", JStr (noRek p)); (js "nama", JStr (nama p))].
Definition payment_of (j : json) : option PaymentDetail :=
  fs ← as_obj (Some j);
  m ← as_str (field fs (js "method")); r ← as_str (field fs (js "noRek")); n ← as_str (field fs (js "nama"));
  Some {| method := m; noRek := r; nama := n |}.

Definition type_text (jual : bool) : jsstr := if jual then js "jual" else js "beli".
Definition type_of (t : jsstr) : option bool :=
  if bool_decide (t = js "jual") then Some true else if bool_decide (t = js "beli") then Some false else None.
Definition aktif_text (aktif : bool) : jsstr := if aktif then js "aktif" else js "nonaktif".
Definition aktif_of (t : jsstr) : option bool :=
  if bool_decide (t = js "aktif") then Some true else if bool_decide (t = js "nonaktif") then Some false else None.

(** An optional property: absent, or of the declared type. *)
Definition opt_of {A} (f : option json -> option A) (j : option json) : option (option A) :=
  match j with None => Some None | Some j => Some <$> f (Some j) end.

Definition listing_json (l : P2PMyListing) : json :=
  JObj ([(js "id", JStr (l_id l)); (js "type", JStr (type_text (l_jual l))); (js "asset", JStr (l_asset l));
         (js "price", JStr (l_price l)); (js "priceNum", number_json (l_priceNum l));
         (js "limitMin", number_json (l_limitMin l)); (js "limitMax", number_json (l_limitMax l));
         (js "payment", JStr (l_payment l)); (js "payments", JArr (map payment_json (l_payments l)));
         (js "status", JStr (aktif_text (l_aktif l))); (js "orders", JNum (l_orders l));
         (js "createdAt", JStr (l_createdAt l))]
        ++ match l_requirements l with Some t => [(js "requirements", JStr t)] | None => [] end
        ++ match l_timeLimit l with Some n => [(js "timeLimit", JNum n)] | None => [] end).

Definition listing_of (j : json) : option P2PMyListing :=
  fs ← as_obj (Some j);
  id ← as_str (field fs (js "id")); ty ← as_str (field fs (js "type")); ty ← type_of ty;
  a ← as_str (field fs (js "asset")); pr ← as_str (field fs (js "price"));
  pn ← number_of (field fs (js "priceNum")); lo ← number_of (field fs (js "limitMin"));
  hi ← number_of (field fs (js "limitMax")); pay ← as_str (field fs (js "payment"));
  ps ← as_arr (field fs (js "payments")); ps ← mapM payment_of ps;
  st ← as_str (field fs (js "status")); st ← aktif_of st; n ← as_num (field fs (js "orders"));
  c ← as_str (field fs (js "createdAt")); rq ← opt_of as_str (field fs (js "requirements"));
  tl ← opt_of as_num (field fs (js "timeLimit"));
  Some {| l_id := id; l_jual := ty; l_asset := a; l_price := pr; l_priceNum := pn; l_limitMin := lo; l_limitMax := hi;
          l_payment := pay; l_payments := ps; l_aktif := st; l_orders := n; l_createdAt := c; l_requirements := rq;
          l_timeLimit := tl |}.

Definition print_listings (l : list P2PMyListing) : jsstr := stringify (JArr (map listing_json l)).
Definition parse_listings (raw : option jsstr) : option (list P2PMyListing) :=
  if text_truthy raw then j ← json_parse (default [] raw); l ← as_arr (Some j); mapM listing_of l else Some [].

(** ** Numbers of the pages *)

Definition to_double (n : number) : double := match n with Int n => of_Z n | Frac x => Fin x end.

Definition of_double (d : double) : option number :=
  match d with
  | Fin x => Some (if frac_n x mod frac_d x =? 0 then Int (frac_n x / frac_d x) else Frac x)
  | _ => None
  end.

(** [parseInt(s.replace(/\D/g, "") || "0", 10)] *)
Definition only_digits (s : jsstr) : jsstr := filter (fun u => 48 <= u <= 57) s.
Definition digits_number (s : jsstr) : double :=
  of_Z (default 0 (parseInt (match only_digits s with [] => js "0" | t => t end) 10)).

Section Market.
Context {K : KV}.
Variable rupiah : number -> jsstr.
Variable zone : Z -> Z.
Variable toUpperCase : jsstr -> jsstr.

Definition getMyListings : IO (list P2PMyListing) :=
  let! raw := asyncGet LISTINGS_KEY in ret (default [] (parse_listings raw)).

Definition saveMyListings (l : list P2PMyListing) : IO unit := asyncSet LISTINGS_KEY (print_listings l).

Definition addMyListing (listing : P2PMyListing) : IO unit :=
  let! l := getMyListings in saveMyListings (listing :: l).

(** ** One's own advertisements on the home page *)

Definition with_aktif (l : P2PMyListing) (b : bool) : P2PMyListing :=
  {| l_id := l_id l; l_jual := l_jual l; l_asset := l_asset l; l_price := l_price l; l_priceNum := l_priceNum l;
     l_limitMin := l_limitMin l; l_limitMax := l_limitMax l; l_payment := l_payment l; l_payments := l_payments l;
     l_aktif := b; l_orders := l_orders l; l_createdAt := l_createdAt l; l_requirements := l_requirements l;
     l_timeLimit := l_timeLimit l |}.

Definition toggleStatus (id : jsstr) (prev : list P2PMyListing) : IO (list P2PMyListing) :=
  let updated := map (fun l => if bool_decide (l_id l = id) then with_aktif l (negb (l_aktif l)) else l) prev in
  saveMyListings updated ;;! ret updated.

Definition deleteListing (id : jsstr) (prev : list P2PMyListing) : IO (list P2PMyListing) :=
  let updated := List.filter (fun l => negb (bool_decide (l_id l = id))) prev in
  saveMyListings updated ;;! ret updated.

(** ** Publishing an advertisement *)

Definition HARGA_REF (asset : jsstr) : option Z :=
  if bool_decide (asset = js "USDT") then Some 16550
  else if bool_decide (asset = js "BTC") then Some 1640000000
  else if bool_decide (asset = js "ETH") then Some 55100000
  else if bool_decide (asset = js "BNB") then Some 9200000
  else if bool_decide (asset = js "SOL") then Some 2400000 else None.

Record ad_page := {
  a_step : Z; a_jual : bool; a_aset : jsstr; a_hargaInput : jsstr;
  a_jumlah : jsstr; a_minLimit : jsstr; a_maxLimit : jsstr;
  a_payments : list PaymentDetail; a_waktu : jsstr; a_persyaratan : jsstr
}.

Definition ad_start : ad_page :=
  {| a_step := 1; a_jual := false; a_aset := js "USDT"; a_hargaInput := js "16550"; a_jumlah := [];
     a_minLimit := js "10000"; a_maxLimit := js "2000000"; a_payments := []; a_waktu := js "15 menit"; a_persyaratan := [] |}.

Definition hargaNum (a : ad_page) : double := digits_number (a_hargaInput a).
Definition refHarga (asset : jsstr) : double := of_Z (default 1 (HARGA_REF asset)).
Definition rounded (d : double) : double := match d with Fin x => of_Z (math_round x) | d => d end.
Definition hargaMin (asset : jsstr) : double := rounded (dmul (refHarga asset) (parseFloat (js "0.97"))).
Definition hargaMax (asset : jsstr) : double := rounded (dmul (refHarga asset) (parseFloat (js "1.23"))).
Definition jumlahNum (a : ad_page) : double := parseFloat (match a_jumlah a with [] => js "0" | t => t end).

Definition canGoStep2 (a : ad_page) : bool :=
  dlt (of_Z 0) (hargaNum a) && dle (hargaMin (a_aset a)) (hargaNum a) && dle (hargaNum a) (hargaMax (a_aset a)).

Definition canGoStep3 (a : ad_page) : bool :=
  negb (bool_decide (length (a_payments a) = 0%nat))
  && (bool_decide (a_jumlah a = []) || dlt (of_Z 0) (jumlahNum a)).

Definition with_step (a : ad_page) (n : Z) : ad_page :=
  {| a_step := n; a_jual := a_jual a; a_aset := a_aset a; a_hargaInput := a_hargaInput a; a_jumlah := a_jumlah a;
     a_minLimit := a_minLimit a; a_maxLimit := a_maxLimit a; a_payments := a_payments a; a_waktu := a_waktu a;
     a_persyaratan := a_persyaratan a |}.

Definition goNext (a : ad_page) : ad_page :=
  if (a_step a =? 1) && negb (canGoStep2 a) then a
  else if (a_step a =? 2) && negb (canGoStep3 a) then a
  else if a_step a <? 3 then with_step a (a_step a + 1) else a.

(** What the first step edits. *)
Definition with_offer (a : ad_page) (jual : bool) (aset harga : jsstr) : ad_page :=
  {| a_step := a_step a; a_jual := jual; a_aset := aset; a_hargaInput := harga; a_jumlah := a_jumlah a;
     a_minLimit := a_minLimit a; a_maxLimit := a_maxLimit a; a_payments := a_payments a; a_waktu := a_waktu a;
     a_persyaratan := a_persyaratan a |}.

(** What the second step edits. *)
Definition with_terms (a : ad_page) (jumlah lo hi : jsstr) (ps : list PaymentDetail) (waktu : jsstr) : ad_page :=
  {| a_step := a_step a; a_jual := a_jual a; a_aset := a_aset a; a_hargaInput := a_hargaInput a; a_jumlah := jumlah;
     a_minLimit := lo; a_maxLimit := hi; a_payments := ps; a_waktu := waktu; a_persyaratan := a_persyaratan a |}.

(** What the third step edits. *)
Definition with_requirements (a : ad_page) (t : jsstr) : ad_page :=
  {| a_step := a_step a; a_jual := a_jual a; a_aset := a_aset a; a_hargaInput := a_hargaInput a; a_jumlah := a_jumlah a;
     a_minLimit := a_minLimit a; a_maxLimit := a_maxLimit a; a_payments := a_payments a; a_waktu := a_waktu a;
     a_persyaratan := t |}.

Definition removePayment (idx : nat) (ps : list PaymentDetail) : list PaymentDetail := delete idx ps.

Definition confirmAddPayment (addMethod : option jsstr) (addNoRek addNama : jsstr) (ps : list PaymentDetail)
    : list PaymentDetail :=
  match addMethod, trim addNoRek, trim addNama with
  | Some (_ :: _ as m), (_ :: _ as r), (_ :: _ as n) => ps ++ [{| method := m; noRek := r; nama := toUpperCase n |}]
  | _, _, _ => ps
  end.

Fixpoint join_with (sep : jsstr) (l : list jsstr) : jsstr :=
  match l with [] => [] | [t] => t | t :: l => t ++ sep ++ join_with sep l end.

(** [s.includes(t)] *)
Fixpoint includes (t s : jsstr) : bool :=
  bool_decide (take (length t) s = t) || match s with [] => false | _ :: s => includes t s end.

(** The minutes of "15 menit", "1 jam"; [NaN] is printed as null and not kept. *)
Definition timeLimit (waktu : jsstr) : option Z :=
  let n := parseInt waktu 10 in
  if includes (js "jam") waktu then (fun n => n * 60) <$> n
  else Some (match n with Some n => if n =? 0 then 15 else n | None => 15 end).

Definition handlePratinjau (a : ad_page) : IO (option P2PMyListing) :=
  match a_payments a with
  | [] => ret None
  | _ =>
      let! now := gets clock in
      match of_double (hargaNum a), of_double (digits_number (a_minLimit a)), of_double (digits_number (a_maxLimit a)) with
      | Some price, Some lo, Some hi =>
          let listing :=
            {| l_id := js "listing_" ++ to_string 10 now; l_jual := a_jual a; l_asset := a_aset a;
               l_price := js "Rp" ++ rupiah price; l_priceNum := price; l_limitMin := lo; l_limitMax := hi;
               l_payment := join_with (js ", ") (map method (a_payments a)); l_payments := a_payments a;
               l_aktif := true; l_orders := 0; l_createdAt := toISOString now;
               l_requirements := match trim (a_persyaratan a) with [] => None | t => Some t end;
               l_timeLimit := timeLimit (a_waktu a) |} in
          addMyListing listing ;;! ret (Some listing)
      | _, _, _ => throw (js "RangeError")
      end
  end.

(** ** Placing an order *)

(** [inputValue.replace(/\./g, "").replace(",", ".")] *)
Fixpoint first_comma (s : jsstr) : jsstr :=
  match s with [] => [] | u :: s => if u =? 44 then 46 :: s else u :: first_comma s end.
Definition plain_number (s : jsstr) : jsstr := first_comma (filter (fun u => u <> 46) s).

Definition rawValue (inputValue : jsstr) : double :=
  match parseFloat (plain_number inputValue) with NaN => of_Z 0 | d => d end.

(** The amounts in rupiah and in the asset of an input in either unit. *)
Definition quote_amounts (l : P2PMyListing) (idr : bool) (inputValue : jsstr) : double * double :=
  let raw := rawValue inputValue in
  let price := to_double (l_priceNum l) in
  if idr then (raw, if dlt (of_Z 0) price then ddiv raw price else of_Z 0) else (dmul raw price, raw).

Definition isValid (l : P2PMyListing) (idr : bool) (inputValue : jsstr) : bool :=
  let price := to_double (l_priceNum l) in
  let asset_limit n := if dlt (of_Z 0) price then ddiv (to_double n) price else of_Z 0 in
  let '(idrAmount, assetAmount) := quote_amounts l idr inputValue in
  dlt (of_Z 0) (rawValue inputValue)
  && if idr then dle (to_double (l_limitMin l)) idrAmount && dle idrAmount (to_double (l_limitMax l))
     else dle (asset_limit (l_limitMin l)) assetAmount && dle assetAmount (asset_limit (l_limitMax l)).

Definition upper_ascii (s : jsstr) : jsstr := map (fun u => if (97 <=? u) && (u <=? 122) then u - 32 else u) s.
Definition slice6 (s : jsstr) : jsstr := drop (length s - 6) s.

Inductive placed_result := Refused | Chat (orderId : jsstr).

Definition initMessages (now : Z) (l : P2PMyListing) (pay : PaymentDetail) (orderId : jsstr) (assetAmount : num) (idr : Z)
    : list P2PMessage :=
  let t := nowTime zone now in
  let idrFmt := js "Rp " ++ rupiah (Int idr) in
  let tag := upper_ascii (slice6 orderId) in
  [ {| m_id := js "sys-escrow-" ++ to_string 10 now; m_from := system;
       m_text := tx "🔒 ESCROW AKTIF: " ++ toFixed 4 assetAmount ++ [32] ++ l_asset l
                 ++ js " dikunci dalam escrow GarudaChain. Dana aman terlindungi hingga transaksi selesai.";
       m_time := t; m_timestamp := toISOString now; m_isEscrow := Some true; m_isWarning := None |};
    {| m_id := js "sys-info-" ++ to_string 10 (now + 1); m_from := system;
       m_text := tx "📋 Order #" ++ tag ++
         (if l_jual l
          then js " dibuat." ++ [10; 10] ++ js "Silakan transfer " ++ idrFmt ++ js " via " ++ method pay ++ js " ke:" ++ [10]
               ++ tx "🏦 " ++ method pay ++ [10] ++ tx "📋 " ++ noRek pay ++ [10] ++ tx "👤 " ++ nama pay ++ [10; 10]
               ++ tx "⚠️ Kosongkan kolom berita/catatan transfer."
          else js " dibuat. Tunggu konfirmasi pembayaran IDR " ++ idrFmt ++ js " ke rekening kamu dari Admin.");
       m_time := t; m_timestamp := toISOString now; m_isEscrow := Some false; m_isWarning := None |} ].

(** The amounts are finite and there is a payment method, else the handler
    throws. *)
Definition handlePasangOrder (l : P2PMyListing) (idr : bool) (inputValue : jsstr) (selectedPayIdx : nat) : IO placed_result :=
  if negb (isValid l idr inputValue) then ret Refused else
  let! now := gets clock in
  match quote_amounts l idr inputValue, (match l_payments l !! selectedPayIdx with Some p => Some p | None => head (l_payments l) end) with
  | (Fin idrAmount, Fin assetAmount), Some pay =>
      let orderId := js "ord_" ++ to_string 10 now in
      match of_double (parseFloat (toFixed 4 assetAmount)) with
      | Some amount =>
          createOrder {|
            o_id := orderId; o_listingId := l_id l; o_seller := negb (l_jual l); o_traderName := js "Admin";
            o_asset := l_asset l; o_assetAmount := amount; o_idrAmount := Int (math_round idrAmount);
            o_priceNum := l_priceNum l; o_paymentMethod := method pay; o_paymentNoRek := noRek pay;
            o_paymentNama := nama pay; o_status := menunggu; o_createdAt := toISOString now; o_paidAt := None;
            o_releasedAt := None; o_autoReleaseAt := None;
            o_messages := initMessages now l pay orderId assetAmount (math_round idrAmount) |} ;;!
          ret (Chat orderId)
      | None => throw (js "RangeError")
      end
  | _, _ => throw (js "TypeError")
  end.
End Market.
