(* ===== verification/MarketProofs.v ===== *)
(** * Advertisements and orders on them: proofs *)

From stdpp Require Import gmap.
From S2P Require Import Prelude JsText Amounts Numbers Utf8 Json Vault Store Dates WalletStorage WalletProofs P2P P2PProofs Market.
Local Open Scope Z_scope.
Local Open Scope io_scope.

(** ** Stored advertisements are read back *)

Definition payment_good (p : PaymentDetail) : bool := units (method p) && units (noRek p) && units (nama p).

Definition listing_good (l : P2PMyListing) : bool :=
  units (l_id l) && units (l_asset l) && units (l_price l) && number_good (l_priceNum l) && number_good (l_limitMin l)
  && number_good (l_limitMax l) && units (l_payment l) && forallb payment_good (l_payments l) && units (l_createdAt l)
  && text_good (l_requirements l).

Lemma payment_json_ok p : payment_good p = true -> json_ok (payment_json p) = true.
Proof.
  unfold payment_good. rewrite !andb_true_iff. intros [[H1 H2] H3]. unfold payment_json. cbn [json_ok forallb fst snd].
  by rewrite H1, H2, H3.
Qed.

Lemma payment_roundtrip p : payment_of (payment_json p) = Some p.
Proof. by destruct p. Qed.

Lemma listing_json_ok l : listing_good l = true -> json_ok (listing_json l) = true.
Proof.
  unfold listing_good. rewrite !andb_true_iff. intros H. destruct_and! H.
  unfold listing_json. cbn [json_ok]. rewrite !forallb_app. cbn [json_ok forallb fst snd]. rewrite !number_json_ok.
  assert (units (type_text (l_jual l)) = true) as -> by by destruct (l_jual l).
  assert (units (aktif_text (l_aktif l)) = true) as -> by by destruct (l_aktif l).
  assert (forallb json_ok (map payment_json (l_payments l)) = true) as ->.
  { rewrite forallb_map. apply forallb_forall. intros p Hp. apply payment_json_ok. rewrite forallb_forall in *. auto. }
  assert (forallb (fun f => units f.1 && json_ok f.2)
    match l_requirements l with Some t => [(js "requirements", JStr t)] | None => [] end = true) as ->.
  { destruct (l_requirements l) as [t|]; [|done]. cbn [text_good] in *. cbn [forallb fst snd json_ok].
    match goal with H : units t = true |- _ => rewrite H end. done. }
  repeat match goal with H : ?b = true |- _ => rewrite H; clear H end.
  destruct (l_timeLimit l); vm_compute; reflexivity.
Qed.

Lemma listing_roundtrip l : listing_of (listing_json l) = Some l.
Proof.
  destruct l as [id ty a pr pn lo hi pay ps st n c rq tl].
  unfold listing_json. cbn [l_id l_jual l_asset l_price l_priceNum l_limitMin l_limitMax l_payment l_payments l_aktif
    l_orders l_createdAt l_requirements l_timeLimit].
  pose proof (number_of_json pn) as H1. pose proof (number_of_json lo) as H2. pose proof (number_of_json hi) as H3.
  assert (mapM payment_of (map payment_json ps) = Some ps) as H4 by apply mapM_map_some, payment_roundtrip.
  assert (type_of (type_text ty) = Some ty) as H5 by by destruct ty.
  assert (aktif_of (aktif_text st) = Some st) as H6 by by destruct st.
  revert H1 H2 H3 H4 H5 H6. generalize (number_json pn), (number_json lo), (number_json hi), (map payment_json ps),
    (type_text ty), (aktif_text st). intros j1 j2 j3 j4 j5 j6 H1 H2 H3 H4 H5 H6. unfold listing_of.
  destruct rq as [t|], tl as [m|]; cbn [as_obj mbind option_bind app];
  repeat match goal with |- context [field ?fs ?k] =>
    let r := eval vm_compute in (field fs k) in change (field fs k) with r end;
  cbn [as_str as_arr as_num opt_of fmap option_fmap option_map mbind option_bind]; by rewrite H5, H1, H2, H3, H4, H6.
Qed.

Section Listings.
Context {K : KV} {L : KVLaws K}.
Variable rupiah : number -> jsstr.
Variable zone : Z -> Z.
Hypothesis rupiah_units : forall n, units (rupiah n) = true.

Definition listings (W : world K) : list P2PMyListing := default [] (parse_listings (aget W LISTINGS_KEY)).

Definition with_listings (l : list P2PMyListing) (W : world K) : world K := aset LISTINGS_KEY (print_listings l) W.

Lemma listings_with l W : forallb listing_good l = true -> listings (with_listings l W) = l.
Proof.
  intros Hl. unfold listings, with_listings. rewrite aget_aset. unfold parse_listings, print_listings.
  assert (json_ok (JArr (map listing_json l)) = true) as Hok.
  { cbn [json_ok]. rewrite forallb_map, forallb_forall in *. auto using listing_json_ok. }
  assert (text_truthy (Some (stringify (JArr (map listing_json l)))) = true) as -> by done.
  change (default [] (Some ?x)) with x. rewrite json_parse_stringify by done. cbn [mbind option_bind as_arr].
  assert (mapM listing_of (map listing_json l) = Some l) as -> by apply mapM_map_some, listing_roundtrip. done.
Qed.

Lemma run_add_listing l W : addMyListing l W = (with_listings (l :: listings W) W, inl tt).
Proof. done. Qed.

(** ** The steps of the page *)

Inductive ad_step (a : ad_page) : ad_page -> Prop :=
| ad_next : ad_step a (goNext a)
| ad_back : 1 < a_step a -> ad_step a (with_step a (a_step a - 1))
| ad_offer jual aset harga : a_step a = 1 -> ad_step a (with_offer a jual aset harga)
| ad_terms jumlah lo hi ps waktu : a_step a = 2 -> ad_step a (with_terms a jumlah lo hi ps waktu)
| ad_requirements t : a_step a = 3 -> ad_step a (with_requirements a t).

Inductive ad_reachable : ad_page -> Prop :=
| ad_begin : ad_reachable ad_start
| ad_then a a' : ad_reachable a -> ad_step a a' -> ad_reachable a'.

Lemma ad_inv a :
  ad_reachable a -> 1 <= a_step a <= 3 /\ (2 <= a_step a -> canGoStep2 a = true) /\ (a_step a = 3 -> canGoStep3 a = true).
Proof.
  induction 1 as [|a a' _ (H1 & H2 & H3) Hst]; [split; [cbn; lia|]; cbn; split; lia|].
  destruct Hst as [|Hb|jual aset harga E|jumlah lo hi ps waktu E|t E].
  - unfold goNext. destruct (Z.eqb_spec (a_step a) 1) as [E1|E1].
    { destruct (canGoStep2 a) eqn:Ec; cbn [negb andb]; [|by rewrite ?Ec].
      destruct (Z.eqb_spec (a_step a) 2); [lia|]. cbn [andb]. destruct (Z.ltb_spec (a_step a) 3); [|done].
      cbn. split; [lia|]. split; [done|lia]. }
    cbn [andb]. destruct (Z.eqb_spec (a_step a) 2) as [E2|E2]; cbn [andb].
    { destruct (canGoStep3 a) eqn:Ec; cbn [negb]; [|by rewrite ?Ec].
      destruct (Z.ltb_spec (a_step a) 3); [|done]. cbn. split; [lia|]. split; [intros; by apply H2; lia|done]. }
    destruct (Z.ltb_spec (a_step a) 3); [lia|done].
  - cbn. split; [lia|]. split; [intros; by apply H2; lia|lia].
  - cbn. split; [lia|]. split; lia.
  - cbn. split; [lia|]. split; [intros; by apply H2; lia|lia].
  - cbn. split; [lia|]. split; [intros; by apply H2; lia|intros; by apply H3].
Qed.

(** A page at its last step, reached by any edits, publishes an advertisement whose
    price lies in the band of the reference price and which names a way to pay; it
    is stored before the others. *)
Lemma published_ad_valid (a : ad_page) (W : world K) (price lo hi : number) :
  ad_reachable a -> a_step a = 3 -> of_double (hargaNum a) = Some price ->
  of_double (digits_number (a_minLimit a)) = Some lo -> of_double (digits_number (a_maxLimit a)) = Some hi ->
  exists W' l, handlePratinjau rupiah a W = (W', inl (Some l)) /\ W' = with_listings (l :: listings W) W
    /\ l_priceNum l = price /\ l_payments l <> []
    /\ dle (hargaMin (l_asset l)) (hargaNum a) = true /\ dle (hargaNum a) (hargaMax (l_asset l)) = true.
Proof.
  intros Ha Hs Hp Hlo Hhi. destruct (ad_inv a Ha) as (_ & H2 & H3). specialize (H2 ltac:(lia)). specialize (H3 Hs).
  unfold canGoStep2 in H2. unfold canGoStep3 in H3. rewrite !andb_true_iff in *. destruct H2 as [[_ B1] B2], H3 as [B3 _].
  unfold handlePratinjau. destruct (a_payments a) as [|p ps] eqn:Ep; [done|].
  unfold bind at 1, gets. rewrite Hp, Hlo, Hhi. eexists _, _. unfold bind. rewrite run_add_listing.
  split; [reflexivity|]. split; [reflexivity|]. split; [reflexivity|]. split; [done|by split].
Qed.

(** ** Amounts within the limits *)

Lemma round_within lo hi x :
  0 < lo < 2 ^ 51 -> 0 < hi < 2 ^ 51 -> dle (of_Z lo) (Fin x) = true -> dle (Fin x) (of_Z hi) = true ->
  lo <= math_round x <= hi.
Proof.
  intros Hlo Hhi H1 H2. destruct (of_Z_exact lo Hlo) as (a & Ea & Na & Da), (of_Z_exact hi Hhi) as (b & Eb & Nb & Db).
  rewrite Ea in H1. rewrite Eb in H2. cbn [dle] in *. apply Z.leb_le in H1, H2. rewrite Na in H1. rewrite Nb in H2.
  pose proof (frac_d_pos x) as Hd. set (d := frac_d x) in *. set (n := frac_n x) in *.
  assert (lo * d <= n) by nia. assert (n <= hi * d) by nia. unfold math_round. fold d n.
  split; [apply Z.div_le_lower_bound; lia|apply Z.lt_succ_r, Z.div_lt_upper_bound; lia].
Qed.

Lemma units_toFixed k x : units (toFixed k x) = true.
Proof.
  unfold toFixed. destruct (_ <=? _); [apply units_number_text|]. rewrite !units_app, units_to_string.
  assert (forall b : bool, units (if b then [45] else []) = true) as -> by by intros [].
  destruct k; [done|]. rewrite !units_app, units_to_string, andb_true_r. apply (units_forall (replicate _ 48)), Forall_replicate. lia.
Qed.

Lemma units_tag s : units s = true -> units (upper_ascii (slice6 s)) = true.
Proof.
  intros H. apply units_forall. unfold upper_ascii, slice6. apply Forall_map, Forall_drop.
  unfold units in H. apply forallb_Forall in H. eapply Forall_impl; [exact H|]. cbn. intros u Hu.
  destruct ((97 <=? u) && (u <=? 122)) eqn:E; lia.
Qed.

Lemma initMessages_good now l pay id x n :
  0 <= now < MAX_MS -> units (l_asset l) = true -> payment_good pay = true -> units id = true ->
  forallb message_good (initMessages rupiah zone now l pay id x n) = true.
Proof.
  unfold payment_good. rewrite !andb_true_iff. intros Hn Ha [[P1 P2] P3] Hid.
  unfold initMessages, message_good. cbn [forallb m_id m_text m_time m_timestamp].
  rewrite !(nowTime_units zone), !(units_iso now) by done. destruct (l_jual l); rewrite !units_app, !units_to_string, !units_toFixed,
    !rupiah_units, Ha, ?P1, ?P2, ?P3, units_tag by done; vm_compute; reflexivity.
Qed.

Definition selected (l : P2PMyListing) (idx : nat) : option PaymentDetail :=
  match l_payments l !! idx with Some p => Some p | None => head (l_payments l) end.

Lemma selected_good l idx pay : listing_good l = true -> selected l idx = Some pay -> payment_good pay = true.
Proof.
  unfold listing_good. rewrite !andb_true_iff. intros H Hs. destruct_and! H.
  assert (In pay (l_payments l)) as Hin.
  { unfold selected in Hs. destruct (l_payments l !! idx) as [p|] eqn:E.
    - injection Hs as <-. by apply list_elem_of_In, (list_elem_of_lookup_2 _ idx).
    - destruct (l_payments l); [done|]. injection Hs as ->. by left. }
  match goal with H : forallb payment_good _ = true |- _ => rewrite forallb_forall in H; by apply H end.
Qed.

(** C39. An order placed in rupiah respects the limits of its advertisement: a
    valid input is turned into an order that waits for its payment, is stored
    before the other orders and whose rounded amount lies between the limits. *)
Theorem order_within_limits (l : P2PMyListing) (input : jsstr) (idx : nat) (W : world K) (lo hi : Z)
    (pay : PaymentDetail) (idr asset : num) (amount : number) :
  l_limitMin l = Int lo -> l_limitMax l = Int hi -> 0 < lo < 2 ^ 51 -> 0 < hi < 2 ^ 51 ->
  listing_good l = true -> all_good W -> clock_good W -> selected l idx = Some pay ->
  quote_amounts l true input = (Fin idr, Fin asset) -> isValid l true input = true ->
  of_double (parseFloat (toFixed 4 asset)) = Some amount -> number_good amount = true ->
  exists W' o n, handlePasangOrder rupiah zone l true input idx W = (W', inl (Chat (o_id o)))
    /\ orders W' = o :: orders W /\ placed o /\ order_good o = true
    /\ o_idrAmount o = Int n /\ lo <= n <= hi /\ o_assetAmount o = amount.
Proof.
  intros Elo Ehi Hlo Hhi Hl HW [H0 H1] Hsel Hq Hv Ham Hng.
  pose proof (selected_good l idx pay Hl Hsel) as Hpay. unfold handlePasangOrder. rewrite Hv. cbn [negb].
  unfold bind at 1, gets. rewrite Hq. fold (selected l idx). rewrite Hsel, Ham.
  assert (0 <= clock W < MAX_MS) as Hc by (unfold AUTO_RELEASE_MS in *; lia).
  assert (units (js "ord_" ++ to_string 10 (clock W)) = true) as Hid by (rewrite units_app, units_to_string; reflexivity).
  unfold listing_good in Hl. rewrite !andb_true_iff in Hl. destruct_and! Hl.
  pose proof (initMessages_good (clock W) l pay _ asset (math_round idr) Hc ltac:(assumption) Hpay Hid) as Hms.
  unfold payment_good in Hpay. rewrite !andb_true_iff in Hpay. destruct Hpay as [[P1 P2] P3].
  set (o := {| o_id := _ |}). assert (order_good o = true) as Hg.
  { unfold order_good, o. cbn [o_id o_listingId o_traderName o_asset o_assetAmount o_idrAmount o_priceNum o_paymentMethod
      o_paymentNoRek o_paymentNama o_createdAt o_paidAt o_releasedAt o_autoReleaseAt o_messages text_good].
    rewrite Hms, Hid, Hng, P1, P2, P3, (units_iso (clock W)) by done.
    repeat match goal with H : ?b = true |- context [?b] => rewrite H end. reflexivity. }
  exists (with_orders (o :: orders W) W), o, (math_round idr).
  split; [reflexivity|]. split; [apply orders_with; cbn [forallb]; by rewrite Hg, HW|].
  split; [done|]. split; [done|]. split; [done|]. split; [|done].
  unfold isValid in Hv. rewrite Hq, Elo, Ehi in Hv. rewrite !andb_true_iff in Hv. destruct Hv as (_ & V1 & V2).
  by apply round_within.
Qed.
End Listings.

(** In the asset's unit a decimal point is dropped: 1.5 is read as 15. *)
Example decimal_point_dropped : rawValue (js "1.5") = of_Z 15 /\ rawValue (js "1,5") = parseFloat (js "1.5").
Proof. split; vm_compute; reflexivity. Qed.

Definition sample_listing : P2PMyListing := {|
  l_id := js "listing_1"; l_jual := true; l_asset := js "USDT"; l_price := js "Rp16.550"; l_priceNum := Int 16550;
  l_limitMin := Int 10000; l_limitMax := Int 2000000; l_payment := js "BCA";
  l_payments := [{| method := js "BCA"; noRek := js "123"; nama := js "BUDI" |}]; l_aktif := true; l_orders := 0;
  l_createdAt := toISOString 1700000000000; l_requirements := None; l_timeLimit := Some 15 |}.

Definition sample_asset : num :=
  match quote_amounts sample_listing true (js "100.000") with (_, Fin x) => x | _ => {| mant := 0; expo := 0 |} end.

Lemma order_within_limits_witness :
  exists W' o n, handlePasangOrder number_string jakarta sample_listing true (js "100.000") 0 empty_market
      = (W', inl (Chat (o_id o)))
    /\ orders (K := map_kv) W' = [o] /\ o_idrAmount o = Int n /\ 10000 <= n <= 2000000.
Proof.
  destruct (order_within_limits (K := map_kv) number_string jakarta number_string_units sample_listing (js "100.000") 0
    empty_market 10000 2000000 {| method := js "BCA"; noRek := js "123"; nama := js "BUDI" |}
    (match of_Z 100000 with Fin x => x | _ => sample_asset end) sample_asset
    (default (Int 0) (of_double (parseFloat (toFixed 4 sample_asset)))))
    as (W' & o & n & E & Eo & _ & _ & En & Hn & _);
    [reflexivity|reflexivity|lia|lia|vm_compute; reflexivity|reflexivity|split; [done|reflexivity]|reflexivity
    |vm_compute; reflexivity|vm_compute; reflexivity|vm_compute; reflexivity|vm_compute; reflexivity|].
  exists W', o, n. split; [exact E|]. split; [exact Eo|]. split; [exact En|exact Hn].
Defined.
