(* ===== verification/MarketList.v ===== *)
(** * The market list and the buttons that fill in an order

    [TabP2P] of src/mobile/app/beranda.tsx, what it lists and counts, and
    [handleMaks] and [handleSemua] of src/mobile/app/p2p-order.tsx, which write an
    amount into the input the order is computed from. *)

From stdpp Require Import gmap.
From S2P Require Import Prelude JsText Amounts Numbers Locale Mnemonic P2P Market.
Local Open Scope Z_scope.

(** ** The list *)

(** The filters of the page: the user buys from advertisements that sell. *)
Definition listed (buying : bool) (filterAsset : jsstr) (filterPembayaran : list jsstr) (l : P2PMyListing) : bool :=
  let sideMatch := if buying then l_jual l else negb (l_jual l) in
  let assetMatch := bool_decide (l_asset l = filterAsset) in
  let payMatch := match filterPembayaran with
                  | [] => true
                  | _ => existsb (fun fp => existsb (fun p => includes (toLowerCase fp) (toLowerCase (method p))) (l_payments l))
                           filterPembayaran
                  end in
  l_aktif l && (sideMatch && assetMatch && payMatch).

Definition market (buying : bool) (filterAsset : jsstr) (filterPembayaran : list jsstr) (l : list P2PMyListing)
    : list P2PMyListing := List.filter (listed buying filterAsset filterPembayaran) l.

Definition togglePembayaran (name : jsstr) (prev : list jsstr) : list jsstr :=
  if bool_decide (name = js "Semua") then []
  else if bool_decide (name ∈ prev) then List.filter (fun x => negb (bool_decide (x = name))) prev
  else prev ++ [name].

Definition pembayaranLabel (filterPembayaran : list jsstr) : jsstr :=
  match filterPembayaran with
  | [] => js "Pembayaran"
  | [p] => p
  | p :: rest => p ++ js " +" ++ to_string 10 (Z.of_nat (length rest))
  end.

(** ** The buttons *)

(** [listing.limitMax.toLocaleString("id-ID")], or the smaller of the balance, a
    constant zero, and the limit in the asset; [Math.min(0, x)] is zero unless
    [x] is negative or no number. *)
Definition handleMaks (l : P2PMyListing) (idr : bool) : jsstr :=
  let price := to_double (l_priceNum l) in
  let limitMaxAsset := if dlt (of_Z 0) price then ddiv (to_double (l_limitMax l)) price else of_Z 0 in
  if idr then toLocale (to_double (l_limitMax l))
  else match limitMaxAsset with
       | NaN => js "NaN"
       | Inf true => js "-Infinity"
       | Inf false => toFixed 4 {| mant := 0; expo := 0 |}
       | Fin x => if mant x <? 0 then toFixed 4 x else toFixed 4 {| mant := 0; expo := 0 |}
       end.

Definition handleSemua : jsstr := toFixed 4 {| mant := 0; expo := 0 |}.

(** ** Reading a printed integer *)

Lemma span_printed ds : Forall (digit_ok 10) ds -> span_digits (map digit_char ds) = (ds, []).
Proof.
  induction 1 as [|d ds Hd _ IH]; [done|]. unfold digit_ok in Hd. cbn [map span_digits].
  assert (digit_char d = 48 + d) as -> by (unfold digit_char; by rewrite (proj2 (Z.ltb_lt d 10)) by lia).
  rewrite (proj2 (Z.leb_le 48 _)), (proj2 (Z.leb_le _ 57)) by lia. cbn [andb]. rewrite IH. f_equal. f_equal. lia.
Qed.

Lemma digit_start d ds : digit_ok 10 d ->
  trim_start (map digit_char (d :: ds)) = map digit_char (d :: ds)
  /\ sign_of (map digit_char (d :: ds)) = (1, map digit_char (d :: ds))
  /\ take 8 (map digit_char (d :: ds)) <> js "Infinity".
Proof.
  intros Hd. unfold digit_ok in Hd.
  assert (d ∈ [0; 1; 2; 3; 4; 5; 6; 7; 8; 9]) as H by (rewrite !elem_of_cons; lia). clear Hd.
  repeat (apply elem_of_cons in H as [->|H]; [cbn [map]; split; [reflexivity|split; [reflexivity|by intros [=]]]|]).
  by apply elem_of_nil in H.
Qed.

Lemma parse_digits ds : ds <> [] -> Forall (digit_ok 10) ds -> parseFloat (map digit_char ds) = of_Z (num_value 10 ds).
Proof.
  intros Hne Hd. destruct ds as [|d ds]; [done|]. pose proof (Forall_inv Hd) as Hd0.
  destruct (digit_start d ds Hd0) as (H1 & H2 & H3). unfold parseFloat, decimal_literal. rewrite H1, H2.
  rewrite bool_decide_eq_false_2 by done. rewrite (span_printed _ Hd). rewrite app_nil_r.
  cbn [exponent_part length Z.of_nat]. unfold of_Z. cbn [fst].
  change (0 <=? 0 - 0) with true. cbn [fst]. f_equal. change (10 ^ (0 - 0)) with 1. lia.
Qed.

Lemma parse_printed_integer n : 0 <= n -> parseFloat (to_string 10 n) = of_Z n.
Proof.
  intros Hn. unfold to_string. destruct (Z.eqb_spec n 0) as [->|Hz]; [reflexivity|].
  rewrite (proj2 (Z.ltb_ge n 0)) by lia. rewrite parse_digits; [by rewrite digits_value by lia| |by apply digits_digit_ok].
  intros E. apply Hz. by apply (digits_nil 10).
Qed.

(** ** What the buttons write *)

Lemma plain_grouped n : 0 <= n -> plain_number (group3 (to_string 10 n)) = to_string 10 n.
Proof.
  intros Hn. unfold plain_number.
  assert (filter (fun u => u <> 46) (group3 (to_string 10 n)) = drop_points (group3 (to_string 10 n))) as ->.
  { unfold drop_points. induction (group3 (to_string 10 n)) as [|u l IH]; [done|]. cbn [filter list_filter List.filter].
    destruct (Z.eqb_spec u 46) as [->|Hu]; cbn [negb]; [exact IH|]. rewrite decide_True by done. by rewrite <- IH. }
  rewrite drop_points_group3 by done.
  assert (Forall (fun u => u <> 44) (to_string 10 n)) as H.
  { unfold to_string. destruct (n =? 0); [by repeat constructor|]. rewrite (proj2 (Z.ltb_ge n 0)) by lia.
    apply Forall_map. eapply Forall_impl; [apply (digits_digit_ok 10); lia|]. intros d Hd.
    unfold digit_ok in Hd. cbn. unfold digit_char. rewrite (proj2 (Z.ltb_lt d 10)) by lia. lia. }
  induction H as [|u l Hu _ IH]; [done|]. cbn [first_comma]. rewrite (proj2 (Z.eqb_neq u 44)) by done. by rewrite IH.
Qed.

Lemma raw_grouped n : 0 <= n < 2 ^ 51 -> rawValue (toLocale (of_Z n)) = of_Z n.
Proof.
  intros Hn. unfold rawValue, toLocale. rewrite locale_integer by done. rewrite plain_grouped, parse_printed_integer by lia.
  destruct (Z.eq_dec n 0) as [->|Hz]; [reflexivity|]. destruct (of_Z_exact n) as (x & -> & _); [lia|]. done.
Qed.

Lemma of_Z_le a b : 0 < a < 2 ^ 51 -> 0 < b < 2 ^ 51 -> a <= b -> dle (of_Z a) (of_Z b) = true.
Proof.
  intros Ha Hb Hab. destruct (of_Z_exact a Ha) as (x & -> & Ex & Hx), (of_Z_exact b Hb) as (y & -> & Ey & Hy).
  cbn [dle]. apply Z.leb_le. rewrite Ex, Ey. nia.
Qed.

Lemma of_Z_pos n : 0 < n < 2 ^ 51 -> dlt (of_Z 0) (of_Z n) = true.
Proof.
  intros Hn. destruct (of_Z_exact n Hn) as (x & -> & Ex & Hx). change (of_Z 0) with (Fin {| mant := 0; expo := 0 |}).
  unfold dlt. cbn. change (frac_n {| mant := 0; expo := 0 |}) with 0. change (frac_d {| mant := 0; expo := 0 |}) with 1.
  rewrite Ex. zbool; nia.
Qed.

Lemma round_q_nonneg n d : 0 <= n -> 0 < d ->
  match round_q n d with Fin x => 0 <= mant x | Inf neg => neg = false | NaN => False end.
Proof.
  intros Hn Hd. unfold round_q. destruct (n =? 0); [done|]. set (e := exponent _ _).
  destruct (_ && _); [by apply Z.ltb_ge|]. cbn [mant].
  assert (0 <= scale_n n e) as H1 by (unfold scale_n; destruct (e <? 0); [|done]; pose proof (Z.pow_nonneg 2 (- e)); nia).
  assert (0 < scale_d d e) as H2.
  { unfold scale_d. destruct (Z.ltb_spec e 0); [done|]. pose proof (Z.pow_pos_nonneg 2 e). nia. }
  pose proof (Z.div_pos _ _ H1 H2). unfold rne. repeat case_match; lia.
Qed.

(** The button for the largest amount works in rupiah and only there: on an
    advertisement with limits in whole rupiah, the text it writes is read back as
    the maximum exactly and the order is accepted; in the asset's unit the button
    and the one for the whole balance write zero, which no order accepts. *)
Theorem maks_fills_in (l : P2PMyListing) (lo hi : Z) :
  l_limitMin l = Int lo -> l_limitMax l = Int hi -> 0 < lo <= hi -> hi < 2 ^ 51 ->
  (exists n, l_priceNum l = Int n /\ 0 < n < 2 ^ 51) ->
  rawValue (handleMaks l true) = of_Z hi /\ isValid l true (handleMaks l true) = true
  /\ isValid l false (handleMaks l false) = false /\ isValid l false handleSemua = false.
Proof.
  intros Hlo Hhi Hl Hb (n & Hp & Hn). assert (rawValue (handleMaks l true) = of_Z hi) as Hr.
  { unfold handleMaks. rewrite Hhi. cbn [to_double]. apply raw_grouped. lia. }
  assert (isValid l false handleSemua = false) as Hz.
  { unfold isValid. destruct (quote_amounts l false handleSemua). by replace (dlt (of_Z 0) (rawValue handleSemua)) with false by (vm_compute; reflexivity). }
  split; [done|]. split; [|split; [|done]].
  - unfold isValid, quote_amounts. rewrite Hr, Hlo, Hhi. cbn [to_double]. rewrite of_Z_pos, !of_Z_le by lia. done.
  - replace (handleMaks l false) with handleSemua; [done|]. unfold handleMaks. rewrite Hp, Hhi. cbn [to_double].
    rewrite of_Z_pos by done. destruct (of_Z_exact n Hn) as (y & -> & Ey & Hy), (of_Z_exact hi) as (x & -> & Ex & Hx); [lia|].
    assert (match ddiv (Fin x) (Fin y) with Fin x => 0 <= mant x | Inf neg => neg = false | NaN => False end) as H.
    { unfold ddiv. assert (0 < frac_n y) as Hfy by (rewrite Ey; nia).
      assert ((mant y =? 0) = false) as ->.
      { apply Z.eqb_neq. intros E. unfold frac_n in Hfy. rewrite E in Hfy. destruct (expo y <? 0); lia. }
      assert (0 < frac_d x * frac_n y) as Hd by by apply Z.mul_pos_pos.
      apply round_q_nonneg; [|lia]. rewrite (proj2 (Z.sgn_pos_iff _) Hd), Ex.
      assert (0 <= hi * frac_d x) by nia. nia. }
    destruct (ddiv (Fin x) (Fin y)) as [|[]|z]; try done. by rewrite (proj2 (Z.ltb_ge (mant z) 0)).
Qed.

Definition sample_ad : P2PMyListing :=
  {| l_id := js "listing_1"; l_jual := true; l_asset := js "USDT"; l_price := js "Rp16.500"; l_priceNum := Int 16500;
     l_limitMin := Int 100000; l_limitMax := Int 5000000; l_payment := js "BCA"; l_payments := []; l_aktif := true;
     l_orders := 0; l_createdAt := []; l_requirements := None; l_timeLimit := Some 15 |}.

Lemma maks_fills_in_witness :
  handleMaks sample_ad true = js "5.000.000" /\ isValid sample_ad true (handleMaks sample_ad true) = true
  /\ isValid sample_ad false (handleMaks sample_ad false) = false /\ isValid sample_ad false handleSemua = false.
Proof.
  split; [vm_compute; reflexivity|].
  apply (maks_fills_in sample_ad 100000 5000000); [reflexivity|reflexivity|lia|lia|exists 16500; split; [reflexivity|lia]].
Defined.
