(* ===== verification/CustomFetch.v ===== *)
(** * The website's fetch wrapper

    src/website/src/lib/api-client/custom-fetch.ts: the request it sends and what
    it makes of the response. The network is a parameter: [customFetch] is a
    function of the reply. *)

From S2P Require Import Prelude JsText Amounts Numbers Utf8 Json Vault Mnemonic.
Local Open Scope Z_scope.

(** ** Headers *)

(** [Headers]: names in lower case, one value for each name. *)
Definition headers := list (jsstr * jsstr).

Definition hget (h : headers) (name : jsstr) : option jsstr :=
  snd <$> List.find (fun f => bool_decide (f.1 = name)) h.

Definition hhas (h : headers) (name : jsstr) : bool := bool_decide (is_Some (hget h name)).

(** [headers.set(key, value)] *)
Fixpoint hset (h : headers) (name value : jsstr) : headers :=
  match h with
  | [] => [(name, value)]
  | f :: h => if bool_decide (f.1 = name) then (name, value) :: h else f :: hset h name value
  end.

(** [headers.append(key, value)]: values of one name are joined. *)
Definition happend (h : headers) (name value : jsstr) : headers :=
  match hget h name with Some v => hset h name (v ++ [44; 32] ++ value) | None => h ++ [(name, value)] end.

(** [new Headers(source)] *)
Definition new_headers (source : list (jsstr * jsstr)) : headers :=
  foldl (fun h f => happend h (toLowerCase f.1) f.2) [] source.

Definition mergeHeaders (sources : list (option (list (jsstr * jsstr)))) : headers :=
  foldl (fun h source =>
           match source with
           | None => h
           | Some source => foldl (fun h f => hset h f.1 f.2) h (new_headers source)
           end) [] sources.

(** ** Requests and responses *)

Inductive request_input :=
| Url (url : jsstr)
| UrlObject (url : jsstr)
| Request (method url : jsstr) (hs : headers).

Inductive request_body := NoBody | TextBody (t : jsstr) | OtherBody.
Inductive response_type := TJson | TText | TBlob | TAuto.

Record fetch_options := {
  responseType : response_type;
  headersInit : option (list (jsstr * jsstr));
  explicitMethod : option jsstr;
  body : request_body
}.

Record fetch_request := { f_url : jsstr; f_method : jsstr; f_headers : headers; f_body : request_body }.

(** A response; its text can fail to arrive, and [blob] may not exist. *)
Record response := {
  status : Z; statusText : jsstr; response_url : jsstr; response_headers : headers;
  body_null : bool; text : jsstr + jsstr; has_blob : bool
}.

(** What the body was read as. *)
Inductive data := DNull | DJson (j : json) | DText (t : jsstr) | DBlob.

Inductive fetch_error :=
| TypeError (message : jsstr)
| NetworkError (message : jsstr)
| ApiError (message : jsstr) (st : Z) (stText : jsstr) (d : data) (method url : jsstr)
| ResponseParseError (message : jsstr) (st : Z) (stText rawBody method url : jsstr).

Definition outcome := (data + fetch_error)%type.

(** ** Reading the request *)

Definition endsWith (s p : jsstr) : bool := bool_decide (length p <= length s /\ drop (length s - length p) s = p)%nat.

Definition upper_unit (u : Z) : Z := if (97 <=? u) && (u <=? 122) then u - 32 else u.

Definition isRequest (input : request_input) : bool := match input with Request _ _ _ => true | _ => false end.

Definition resolveMethod (input : request_input) (explicit : option jsstr) : jsstr :=
  match explicit, input with
  | Some ((_ :: _) as m), _ => map upper_unit m
  | _, Request m _ _ => map upper_unit m
  | _, _ => js "GET"
  end.

Definition resolveUrl (input : request_input) : jsstr :=
  match input with Url u | UrlObject u | Request _ u _ => u end.

Definition stripBom (t : jsstr) : jsstr := match t with u :: t' => if u =? 0xFEFF then t' else t | [] => [] end.

Definition looksLikeJson (t : jsstr) : bool :=
  let trimmed := trim_start t in startsWith trimmed [123] || startsWith trimmed [91].

(** ** Reading the response *)

(** [value.split(";", 1)[0]] *)
Fixpoint before_semicolon (s : jsstr) : jsstr :=
  match s with [] => [] | u :: s => if u =? 59 then [] else u :: before_semicolon s end.

Definition getMediaType (h : headers) : option jsstr :=
  match hget h (js "content-type") with
  | Some ((_ :: _) as v) => Some (toLowerCase (trim (before_semicolon v)))
  | _ => None
  end.

Definition isJsonMediaType (m : option jsstr) : bool :=
  match m with Some m => bool_decide (m = js "application/json") || endsWith m (js "+json") | None => false end.

Definition isTextMediaType (m : option jsstr) : bool :=
  match m with
  | Some ((_ :: _) as m) =>
      startsWith m (js "text/") || bool_decide (m = js "application/xml") || bool_decide (m = js "text/xml")
      || endsWith m (js "+xml") || bool_decide (m = js "application/x-www-form-urlencoded")
  | _ => false
  end.

Definition NO_BODY_STATUS : list Z := [204; 205; 304].

Definition hasNoBody (r : response) (method : jsstr) : bool :=
  bool_decide (method = js "HEAD") || bool_decide (status r ∈ NO_BODY_STATUS)
  || bool_decide (hget (response_headers r) (js "content-length") = Some (js "0")) || body_null r.

(** [data[key]] as a text that is not blank. *)
Definition getStringField (d : data) (key : jsstr) : option jsstr :=
  match d with
  | DJson (JObj fs) =>
      match field fs key with
      | Some (JStr t) => match trim t with [] => None | t => Some t end
      | _ => None
      end
  | _ => None
  end.

Definition ELLIPSIS : Z := 0x2026.
Definition DASH : Z := 0x2014.

Definition truncate (t : jsstr) : jsstr :=
  if (300 <? length t)%nat then take 299 t ++ [ELLIPSIS] else t.

Definition prefix_of (r : response) : jsstr := js "HTTP " ++ to_string 10 (status r) ++ [32] ++ statusText r.

Definition buildErrorMessage (r : response) (d : data) : jsstr :=
  let prefix := prefix_of r in
  let with_text t := prefix ++ js ": " ++ t in
  match d with
  | DText t | DJson (JStr t) => match trim t with [] => prefix | t => with_text (truncate t) end
  | _ =>
      let message := match getStringField d (js "message") with
                     | Some m => Some m
                     | None => match getStringField d (js "error_description") with
                               | Some m => Some m
                               | None => getStringField d (js "error")
                               end
                     end in
      match getStringField d (js "title"), getStringField d (js "detail"), message with
      | Some t, Some d, _ => with_text (t ++ [32; DASH; 32] ++ d)
      | None, Some d, _ => with_text d
      | _, None, Some m => with_text m
      | Some t, None, None => with_text t
      | None, None, None => prefix
      end
  end.

(** [response.url || requestInfo.url] *)
Definition error_url (r : response) (url : jsstr) : jsstr := match response_url r with [] => url | u => u end.

Definition new_ApiError (r : response) (d : data) (method url : jsstr) : fetch_error :=
  ApiError (buildErrorMessage r d) (status r) (statusText r) d method (error_url r url).

Definition new_ResponseParseError (r : response) (raw method url : jsstr) : fetch_error :=
  ResponseParseError
    (js "Failed to parse response from " ++ method ++ [32] ++ error_url r url ++ js " (" ++ to_string 10 (status r)
     ++ [32] ++ statusText r ++ js ") as JSON")
    (status r) (statusText r) raw method (error_url r url).

Definition parseJsonBody (r : response) (method url : jsstr) : outcome :=
  match text r with
  | inr e => inr (NetworkError e)
  | inl raw =>
      let normalized := stripBom raw in
      match trim normalized with
      | [] => inl DNull
      | _ => match json_parse normalized with
             | Some JNull => inl DNull
             | Some j => inl (DJson j)
             | None => inr (new_ResponseParseError r raw method url)
             end
      end
  end.

Definition parseErrorBody (r : response) (method : jsstr) : outcome :=
  if hasNoBody r method then inl DNull else
  let m := getMediaType (response_headers r) in
  if match m with Some (_ :: _) => negb (isJsonMediaType m) && negb (isTextMediaType m) | _ => false end
  then (if has_blob r then inl DBlob else match text r with inl t => inl (DText t) | inr e => inr (NetworkError e) end)
  else
    match text r with
    | inr e => inr (NetworkError e)
    | inl raw =>
        let normalized := stripBom raw in
        match trim normalized with
        | [] => inl DNull
        | _ => if isJsonMediaType m || looksLikeJson normalized
               then inl match json_parse normalized with Some JNull => DNull | Some j => DJson j | None => DText raw end
               else inl (DText raw)
        end
    end.

Definition inferResponseType (r : response) : response_type :=
  let m := getMediaType (response_headers r) in
  if isJsonMediaType m then TJson
  else if isTextMediaType m || bool_decide (m = None) then TText else TBlob.

Definition BLOB_UNSUPPORTED : jsstr :=
  js "Blob responses are not supported in this runtime. Use responseType " ++ [34] ++ js "json" ++ [34] ++ js " or "
  ++ [34] ++ js "text" ++ [34] ++ js " instead.".

Definition parseSuccessBody (r : response) (ty : response_type) (method url : jsstr) : outcome :=
  if hasNoBody r method then inl DNull else
  match (match ty with TAuto => inferResponseType r | ty => ty end) with
  | TJson => parseJsonBody r method url
  | TBlob => if has_blob r then inl DBlob else inr (TypeError BLOB_UNSUPPORTED)
  | _ => match text r with inl [] => inl DNull | inl t => inl (DText t) | inr e => inr (NetworkError e) end
  end.

Definition DEFAULT_JSON_ACCEPT : jsstr := js "application/json, application/problem+json".

(** The request [customFetch] sends, or the error it throws first. *)
Definition make_request (base : jsstr) (input : request_input) (o : fetch_options) : fetch_request + fetch_error :=
  let input := match input, base with
               | Url u, _ :: _ => if startsWith u (js "/api/") then Url (base ++ u) else input
               | _, _ => input
               end in
  let method := resolveMethod input (explicitMethod o) in
  if match body o with NoBody => false | _ => bool_decide (method = js "GET") || bool_decide (method = js "HEAD") end
  then inr (TypeError (js "customFetch: " ++ method ++ js " requests cannot have a body."))
  else
    let h := mergeHeaders [match input with Request _ _ hs => Some hs | _ => None end; headersInit o] in
    let h := match body o with
             | TextBody t => if negb (hhas h (js "content-type")) && looksLikeJson t
                             then hset h (js "content-type") (js "application/json") else h
             | _ => h
             end in
    let h := match responseType o with
             | TJson => if hhas h (js "accept") then h else hset h (js "accept") DEFAULT_JSON_ACCEPT
             | _ => h
             end in
    inl {| f_url := resolveUrl input; f_method := method; f_headers := h; f_body := body o |}.

Definition response_ok (r : response) : bool := (200 <=? status r) && (status r <=? 299).

(** [net] is [fetch]: a response, or the message of the rejection. *)
Definition customFetch (net : fetch_request -> response + jsstr) (base : jsstr) (input : request_input) (o : fetch_options)
    : outcome :=
  match make_request base input o with
  | inr e => inr e
  | inl q =>
      match net q with
      | inr e => inr (NetworkError e)
      | inl r =>
          if negb (response_ok r) then
            match parseErrorBody r (f_method q) with
            | inl d => inr (new_ApiError r d (f_method q) (f_url q))
            | inr e => inr e
            end
          else parseSuccessBody r (responseType o) (f_method q) (f_url q)
      end
  end.

(** ** What callers get *)

Lemma trim_start_nil s : trim_start s = [] -> Forall (fun u => js_ws u = true) s.
Proof.
  induction s as [|u s IH]; [done|]. cbn [trim_start]. destruct (js_ws u) eqn:E; [|done]. intros H. constructor; auto.
Qed.

Lemma trim_visible u s : js_ws u = false -> trim (u :: s) <> [].
Proof.
  intros Hu H. unfold trim in H. cbn [trim_start] in H. rewrite Hu in H.
  apply (f_equal reverse) in H. rewrite reverse_involutive in H. apply trim_start_nil in H.
  rewrite Forall_forall in H. specialize (H u). rewrite elem_of_reverse in H. rewrite H in Hu by left. done.
Qed.

Lemma stringify_visible j : exists u t, stringify j = u :: t /\ 33 < u < 127.
Proof.
  destruct j as [|[]|n|x|s|l|fs]; try (eexists _, _; split; [reflexivity|done]); cbn [stringify].
  - destruct (to_string_first n) as (u & t & E & Hu). exists u, t. split; [done|lia].
  - destruct (number_text_first x) as (u & t & E & Hu). exists u, t. split; [done|lia].
Qed.

Lemma visible_not_ws u : 33 < u < 127 -> js_ws u = false.
Proof. intros H. unfold js_ws. repeat (apply orb_false_iff; split); lia. Qed.

Lemma parse_printed_body r method url (bom : bool) j :
  text r = inl ((if bom then [0xFEFF] else []) ++ stringify j) -> json_ok j = true -> j <> JNull ->
  parseJsonBody r method url = inl (DJson j).
Proof.
  intros Ht Hok Hn. unfold parseJsonBody. rewrite Ht. destruct (stringify_visible j) as (u & t & E & Hu).
  assert (stripBom ((if bom then [0xFEFF] else []) ++ stringify j) = stringify j) as ->.
  { destruct bom; [done|]. rewrite E. cbn [app stripBom]. by rewrite (proj2 (Z.eqb_neq u 0xFEFF)) by lia. }
  destruct (trim (stringify j)) eqn:Et.
  - exfalso. rewrite E in Et. by apply (trim_visible u t); [apply visible_not_ws|].
  - rewrite json_parse_stringify by done. by destruct j.
Qed.


(** A response outside 200 to 299 always rejects, with an [ApiError] that carries
    its status and whose message starts with it, whatever its body holds. *)
Lemma customFetch_rejects net base input o q r t :
  make_request base input o = inl q -> net q = inl r -> response_ok r = false -> text r = inl t ->
  exists d m, customFetch net base input o
    = inr (ApiError (prefix_of r ++ m) (status r) (statusText r) d (f_method q) (error_url r (f_url q))).
Proof.
  intros Hq Hnet Hok Ht. unfold customFetch. rewrite Hq, Hnet, Hok. cbn [negb].
  assert (exists d, parseErrorBody r (f_method q) = inl d) as [d ->].
  { unfold parseErrorBody. rewrite Ht. repeat case_match; eauto. }
  exists d. unfold new_ApiError, buildErrorMessage.
  repeat case_match; eexists; f_equal; f_equal; try reflexivity; symmetry; apply app_nil_r.
Qed.

Definition sample_response : response :=
  {| status := 200; statusText := js "OK"; response_url := []; body_null := false; has_blob := true;
     response_headers := new_headers [(js "Content-Type", js "Application/JSON; charset=utf-8")];
     text := inl (0xFEFF :: stringify (JObj [(js "height", JNum 12)])) |}.

