(* ===== verification/ApiClient.v ===== *)
(** * The website's API client

    src/website/src/lib/api-client/generated/api.ts: the URLs of the explorer's
    requests, the calls of [customFetch] that send them, and the keys and options
    under which the pages' queries are cached. *)

From S2P Require Import Prelude JsText Amounts Numbers Utf8 Json Vault Mnemonic Endpoints Store Api MobileRoutes CustomFetch.
Local Open Scope Z_scope.

(** ** URLSearchParams *)

Definition form_unreserved (b : Z) : bool :=
  ((48 <=? b) && (b <=? 57)) || ((65 <=? b) && (b <=? 90)) || ((97 <=? b) && (b <=? 122))
  || existsb (Z.eqb b) (js "*-._").

(** One byte of the application/x-www-form-urlencoded text. *)
Definition form_byte (b : Z) : jsstr :=
  if b =? 32 then [43] else if form_unreserved b then [b] else [37; upper_hex (b / 16); upper_hex (b mod 16)].

Definition form_encode (s : jsstr) : jsstr := concat (map form_byte (utf8_encode s)).

(** [params.toString()] *)
Fixpoint params_text (ps : list (jsstr * jsstr)) : jsstr :=
  match ps with
  | [] => []
  | [(k, v)] => form_encode k ++ [61] ++ form_encode v
  | (k, v) :: ps => form_encode k ++ [61] ++ form_encode v ++ [38] ++ params_text ps
  end.

(** ** Parameters *)

(** The value of a property of a parameter object. *)
Inductive param := PUndefined | PNull | PNumber (x : double) | PString (s : jsstr).

Record GetLatestBlocksParams := { blocks_limit : option double }.
Record GetLatestTransactionsParams := { transactions_limit : option double }.
Record SearchParams := { search_q : jsstr }.

(** [Object.entries(params || {})] *)
Definition entries := list (jsstr * param).
Definition limit_entry (limit : option double) : entries :=
  [(js "limit", match limit with Some x => PNumber x | None => PUndefined end)].
Definition blocks_entries (p : option GetLatestBlocksParams) : entries :=
  match p with Some p => limit_entry (blocks_limit p) | None => [] end.
Definition transactions_entries (p : option GetLatestTransactionsParams) : entries :=
  match p with Some p => limit_entry (transactions_limit p) | None => [] end.
Definition search_entries (p : SearchParams) : entries := [(js "q", PString (search_q p))].

Definition normalizedParams (es : entries) : list (jsstr * jsstr) :=
  omap (fun e => match e.2 with
                 | PUndefined => None
                 | PNull => Some (e.1, js "null")
                 | PNumber x => Some (e.1, double_text x)
                 | PString s => Some (e.1, s)
                 end) es.

Definition with_params (path : jsstr) (es : entries) : jsstr :=
  match params_text (normalizedParams es) with [] => path | t => path ++ [63] ++ t end.

(** ** URLs *)

Definition getHealthCheckUrl : jsstr := js "/api/healthz".
Definition getGetNetworkStatsUrl : jsstr := js "/api/blockchain/stats".
Definition getGetLatestBlocksUrl (params : option GetLatestBlocksParams) : jsstr :=
  with_params (js "/api/blockchain/blocks") (blocks_entries params).
Definition getGetBlockByNumberUrl (blockNumber : jsstr) : jsstr := js "/api/blockchain/blocks/" ++ blockNumber.
Definition getGetLatestTransactionsUrl (params : option GetLatestTransactionsParams) : jsstr :=
  with_params (js "/api/blockchain/transactions") (transactions_entries params).
Definition getGetTransactionByHashUrl (hash : jsstr) : jsstr := js "/api/blockchain/transactions/" ++ hash.
Definition getGetAddressInfoUrl (address : jsstr) : jsstr := js "/api/blockchain/address/" ++ address.
Definition getSearchUrl (params : SearchParams) : jsstr :=
  with_params (js "/api/blockchain/search") (search_entries params).

(** ** Requests *)

Definition no_options : fetch_options :=
  {| responseType := TAuto; headersInit := None; explicitMethod := None; body := NoBody |}.

Section Requests.
Variable net : fetch_request -> response + jsstr.
Variable base : jsstr.

(** [{...options, method: "GET"}] *)
Definition get_options (o : fetch_options) : fetch_options :=
  {| responseType := responseType o; headersInit := headersInit o; explicitMethod := Some (js "GET"); body := body o |}.

Definition get (url : jsstr) (o : fetch_options) : outcome := customFetch net base (Url url) (get_options o).

Definition healthCheck (o : fetch_options) : outcome := get getHealthCheckUrl o.
Definition getNetworkStats (o : fetch_options) : outcome := get getGetNetworkStatsUrl o.
Definition getLatestBlocks (params : option GetLatestBlocksParams) (o : fetch_options) : outcome :=
  get (getGetLatestBlocksUrl params) o.
Definition getBlockByNumber (blockNumber : jsstr) (o : fetch_options) : outcome :=
  get (getGetBlockByNumberUrl blockNumber) o.
Definition getLatestTransactions (params : option GetLatestTransactionsParams) (o : fetch_options) : outcome :=
  get (getGetLatestTransactionsUrl params) o.
Definition getTransactionByHash (hash : jsstr) (o : fetch_options) : outcome := get (getGetTransactionByHashUrl hash) o.
Definition getAddressInfo (address : jsstr) (o : fetch_options) : outcome := get (getGetAddressInfoUrl address) o.
Definition search (params : SearchParams) (o : fetch_options) : outcome := get (getSearchUrl params) o.
End Requests.

(** ** Query keys *)

(** A part of a key: a text or a parameter object. *)
Inductive key_part := KText (s : jsstr) | KParams (es : entries).
Definition query_key := list key_part.

Definition keyed {A} (f : option A -> entries) (params : option A) : query_key :=
  match params with Some p => [KParams (f (Some p))] | None => [] end.

Definition getHealthCheckQueryKey : query_key := [KText (js "/api/healthz")].
Definition getGetNetworkStatsQueryKey : query_key := [KText (js "/api/blockchain/stats")].
Definition getGetLatestBlocksQueryKey (params : option GetLatestBlocksParams) : query_key :=
  KText (js "/api/blockchain/blocks") :: keyed blocks_entries params.
Definition getGetBlockByNumberQueryKey (blockNumber : jsstr) : query_key :=
  [KText (js "/api/blockchain/blocks/" ++ blockNumber)].
Definition getGetLatestTransactionsQueryKey (params : option GetLatestTransactionsParams) : query_key :=
  KText (js "/api/blockchain/transactions") :: keyed transactions_entries params.
Definition getGetTransactionByHashQueryKey (hash : jsstr) : query_key :=
  [KText (js "/api/blockchain/transactions/" ++ hash)].
Definition getGetAddressInfoQueryKey (address : jsstr) : query_key :=
  [KText (js "/api/blockchain/address/" ++ address)].
Definition getSearchQueryKey (params : option SearchParams) : query_key :=
  KText (js "/api/blockchain/search") :: match params with Some p => [KParams (search_entries p)] | None => [] end.

(** ** Query options *)

(** What the pages set of a query's options; the other settings do not reach the
    request. *)
Record query_settings := { set_key : option query_key; set_enabled : option bool }.

(** The options handed to [useQuery]: the key, the request, and whether it may be
    sent ([None] leaves the default). *)
Record query_options := {
  queryKey : query_key;
  queryFn : (fetch_request -> response + jsstr) -> jsstr -> outcome;
  enabled : option bool
}.

Definition query_of (key : query_key) (dflt : option bool)
    (send : (fetch_request -> response + jsstr) -> jsstr -> fetch_options -> outcome)
    (query : option query_settings) (request : option fetch_options) : query_options :=
  {| queryKey := default key (query ≫= set_key);
     queryFn := fun net base => send net base (default no_options request);
     enabled := match query ≫= set_enabled with Some b => Some b | None => dflt end |}.

(** [!!id] *)
Definition present (id : jsstr) : option bool := Some (text_truthy (Some id)).

Definition getHealthCheckQueryOptions := query_of getHealthCheckQueryKey None healthCheck.
Definition getGetNetworkStatsQueryOptions := query_of getGetNetworkStatsQueryKey None getNetworkStats.
Definition getGetLatestBlocksQueryOptions (params : option GetLatestBlocksParams) :=
  query_of (getGetLatestBlocksQueryKey params) None (fun net base => getLatestBlocks net base params).
Definition getGetBlockByNumberQueryOptions (blockNumber : jsstr) :=
  query_of (getGetBlockByNumberQueryKey blockNumber) (present blockNumber)
    (fun net base => getBlockByNumber net base blockNumber).
Definition getGetLatestTransactionsQueryOptions (params : option GetLatestTransactionsParams) :=
  query_of (getGetLatestTransactionsQueryKey params) None (fun net base => getLatestTransactions net base params).
Definition getGetTransactionByHashQueryOptions (hash : jsstr) :=
  query_of (getGetTransactionByHashQueryKey hash) (present hash) (fun net base => getTransactionByHash net base hash).
Definition getGetAddressInfoQueryOptions (address : jsstr) :=
  query_of (getGetAddressInfoQueryKey address) (present address) (fun net base => getAddressInfo net base address).
Definition getSearchQueryOptions (params : SearchParams) :=
  query_of (getSearchQueryKey (Some params)) None (fun net base => search net base params).

(** The queries of the pages: the hooks [useHealthCheck], [useGetNetworkStats] and
    so on pass these options to [useQuery]. *)
Inductive explorer_query :=
| HealthCheck
| NetworkStats
| LatestBlocks (params : option GetLatestBlocksParams)
| BlockByNumber (blockNumber : jsstr)
| LatestTransactions (params : option GetLatestTransactionsParams)
| TransactionByHash (hash : jsstr)
| AddressInfo (address : jsstr)
| Search (params : SearchParams).

Definition options_of (e : explorer_query) : option query_settings -> option fetch_options -> query_options :=
  match e with
  | HealthCheck => getHealthCheckQueryOptions
  | NetworkStats => getGetNetworkStatsQueryOptions
  | LatestBlocks p => getGetLatestBlocksQueryOptions p
  | BlockByNumber n => getGetBlockByNumberQueryOptions n
  | LatestTransactions p => getGetLatestTransactionsQueryOptions p
  | TransactionByHash h => getGetTransactionByHashQueryOptions h
  | AddressInfo a => getGetAddressInfoQueryOptions a
  | Search p => getSearchQueryOptions p
  end.

(** ** Keys stand for requests *)

Definition url_of (e : explorer_query) : jsstr :=
  match e with
  | HealthCheck => getHealthCheckUrl
  | NetworkStats => getGetNetworkStatsUrl
  | LatestBlocks p => getGetLatestBlocksUrl p
  | BlockByNumber n => getGetBlockByNumberUrl n
  | LatestTransactions p => getGetLatestTransactionsUrl p
  | TransactionByHash h => getGetTransactionByHashUrl h
  | AddressInfo a => getGetAddressInfoUrl a
  | Search p => getSearchUrl p
  end.

(** What of a key its comparison sees: an undefined property is absent, a number is
    its text, and one that is not finite is [null]. *)
Inductive atom := ANull | ANumber (t : jsstr) | AText (s : jsstr).

Definition atom_of (p : param) : option atom :=
  match p with
  | PUndefined => None
  | PNumber (Fin x) => Some (ANumber (number_text x))
  | PNull | PNumber _ => Some ANull
  | PString s => Some (AText s)
  end.

Definition part_view (p : key_part) : jsstr + list (jsstr * atom) :=
  match p with
  | KText s => inl s
  | KParams es => inr (omap (fun e => a ← atom_of e.2; Some (e.1, a)) es)
  end.

Definition key_view (k : query_key) : list (jsstr + list (jsstr * atom)) := map part_view k.

Definition finite_limit (o : option double) : Prop := match o with Some NaN | Some (Inf _) => False | _ => True end.

Definition finite_query (e : explorer_query) : Prop :=
  match e with
  | LatestBlocks (Some p) => finite_limit (blocks_limit p)
  | LatestTransactions (Some p) => finite_limit (transactions_limit p)
  | _ => True
  end.

Lemma limit_view path a b :
  finite_limit a -> finite_limit b ->
  part_view (KParams (limit_entry a)) = part_view (KParams (limit_entry b)) ->
  with_params path (limit_entry a) = with_params path (limit_entry b).
Proof.
  intros Ha Hb. destruct a as [[| |x]|], b as [[| |y]|]; try done. cbn. intros [= E].
  unfold with_params. cbn. by rewrite E.
Qed.

Lemma view_url a b :
  finite_query a -> finite_query b ->
  key_view (queryKey (options_of a None None)) = key_view (queryKey (options_of b None None)) -> url_of a = url_of b.
Proof.
  intros Ha Hb H.
  destruct a as [| |[[la]|]|n|[[la]|]|h|ad|[qa]], b as [| |[[lb]|]|n'|[[lb]|]|h'|ad'|[qb]];
    try done; try discriminate H; cbn [options_of key_view url_of] in *.
  all: try (apply limit_view; [exact Ha|exact Hb|]; exact (f_equal (fun k => k !!! 1%nat) H)).
  all: try (injection H as H; by rewrite H).
  all: try (unfold getGetLatestBlocksUrl, getGetLatestTransactionsUrl; destruct la as [[| |]|]; done).
  all: try (unfold getGetLatestBlocksUrl, getGetLatestTransactionsUrl; destruct lb as [[| |]|]; done).
Qed.

(** What a query sends depends on its URL and on the request options alone. *)
Lemma query_sends e s o net base :
  queryFn (options_of e s o) net base = get net base (url_of e) (default no_options o).
Proof. by destruct e. Qed.

(** C26. Queries that share a cache entry send the same request: when the cache
    tells keys apart at least as finely as their JSON, two queries of the explorer
    with finite limits and the same key get the same answer from every network, so
    no page shows data fetched for another request. *)
Theorem same_key_same_request {H : Type} (hashKey : query_key -> H) (a b : explorer_query) (o : option fetch_options)
    (net : fetch_request -> response + jsstr) (base : jsstr) :
  (forall k1 k2, hashKey k1 = hashKey k2 -> key_view k1 = key_view k2) ->
  finite_query a -> finite_query b ->
  hashKey (queryKey (options_of a None None)) = hashKey (queryKey (options_of b None None)) ->
  queryFn (options_of a None o) net base = queryFn (options_of b None o) net base.
Proof. intros Hh Ha Hb E. rewrite !query_sends. by rewrite (view_url a b Ha Hb (Hh _ _ E)). Qed.

Lemma same_key_same_request_witness :
  let a := LatestBlocks (Some {| blocks_limit := Some (of_Z 6) |}) in
  let b := LatestBlocks (Some {| blocks_limit := Some (Fin {| mant := 3; expo := 1 |}) |}) in
  let net := fun _ => inl sample_response in
  a <> b /\ queryFn (options_of a None None) net [] = queryFn (options_of b None None) net [].
Proof.
  intros a b net. split; [intros E; vm_compute in E; discriminate E|].
  apply (same_key_same_request key_view a b None net []); [intros k1 k2 E; exact E|exact I..|vm_compute; reflexivity].
Defined.

(** ** The server has the routes *)

Lemma with_params_served path es :
  served path = true -> served (path ++ [63]) = true -> served (with_params path es) = true.
Proof.
  intros H1 H2. unfold with_params. destruct (params_text _) as [|u t]; [done|].
  rewrite app_assoc. apply served_query. rewrite H2, andb_true_r. rewrite existsb_app. apply orb_true_r.
Qed.

(** Every query of the explorer goes to a path the server registers. *)
Lemma explorer_served e : served (url_of e) = true.
Proof.
  destruct e; cbn [url_of];
    [ vm_compute; reflexivity | vm_compute; reflexivity
    | apply with_params_served; vm_compute; reflexivity | apply served_below; vm_compute; reflexivity
    | apply with_params_served; vm_compute; reflexivity | apply served_below; vm_compute; reflexivity
    | apply served_below; vm_compute; reflexivity | apply with_params_served; vm_compute; reflexivity ].
Qed.
