(* ===== verification/Explorer.v ===== *)
(** * Searching the explorer

    The search box of the website (src/website/src/components/SearchBox.tsx), the
    request it sends through the API client, and the handlers of the server that
    answer it and the block page (src/api/main.go). The node behind the server is a
    parameter. *)

From S2P Require Import Prelude JsText Amounts Numbers Bytes Utf8 Json Vault Mnemonic Endpoints Store Api MobileRoutes CustomFetch ApiClient.
Local Open Scope Z_scope.

(** ** The server's reading of a query *)

(** [strings.Split(s, sep)] for a separator of one byte. *)
Fixpoint split_on (sep : Z) (s : list Z) : list (list Z) :=
  match s with
  | [] => [[]]
  | u :: s => if u =? sep then [] :: split_on sep s
              else match split_on sep s with p :: ps => (u :: p) :: ps | [] => [[u]] end
  end.

(** [strings.Cut(s, sep)] *)
Fixpoint cut (sep : Z) (s : list Z) : list Z * list Z :=
  match s with
  | [] => ([], [])
  | u :: s => if u =? sep then ([], s) else let '(a, b) := cut sep s in (u :: a, b)
  end.

Definition unhex (u : Z) : option Z :=
  if (48 <=? u) && (u <=? 57) then Some (u - 48)
  else if (97 <=? u) && (u <=? 102) then Some (u - 87)
  else if (65 <=? u) && (u <=? 70) then Some (u - 55) else None.

(** [url.QueryUnescape] *)
Fixpoint QueryUnescape (s : list Z) : option (list Z) :=
  match s with
  | [] => Some []
  | u :: s =>
      if u =? 37 then
        match s with
        | a :: b :: s => a ← unhex a; b ← unhex b; t ← QueryUnescape s; Some (a * 16 + b :: t)
        | _ => None
        end
      else t ← QueryUnescape s; Some ((if u =? 43 then 32 else u) :: t)
  end.

Definition query_pair (p : list Z) : option (list Z * list Z) :=
  match p with
  | [] => None
  | _ => if existsb (Z.eqb 59) p then None
         else let '(k, v) := cut 61 p in k ← QueryUnescape k; v ← QueryUnescape v; Some (k, v)
  end.

(** [r.URL.Query()]: pairs that cannot be read are left out. *)
Definition ParseQuery (s : list Z) : list (list Z * list Z) := omap query_pair (split_on 38 s).

(** [values.Get(key)] *)
Definition Get (vs : list (list Z * list Z)) (key : list Z) : list Z :=
  default [] (snd <$> List.find (fun kv => bool_decide (kv.1 = key)) vs).

(** [strconv.ParseInt(s, 10, 64)] *)
Definition ParseInt (s : list Z) : option Z :=
  let '(neg, ds) := match s with u :: t => if u =? 43 then (false, t) else if u =? 45 then (true, t) else (false, s)
                               | [] => (false, []) end in
  if match ds with [] => true | _ => negb (forallb (fun u => (48 <=? u) && (u <=? 57)) ds) end then None else
  let n := num_value 10 (map (fun u => u - 48) ds) in
  let n := if neg : bool then - n else n in
  if (- 2 ^ 63 <=? n) && (n <? 2 ^ 63) then Some n else None.

(** ** The handlers *)

Inductive rpc :=
| getblockhash (height : Z)
| getrawtransaction (txid : list Z)
| getblock (hash : list Z) (verbosity : option Z).

(** The text of a Go string. *)
Definition go_text (bs : list Z) : jsstr := concat (map units_of_point (decode_points dinit bs)).

(** [json.Unmarshal(raw, &s)] for a string and for a map. *)
Definition go_string (raw : json) : jsstr := match raw with JStr s => s | _ => [] end.
Definition go_map (raw : json) : json := match raw with JObj fs => JObj fs | _ => JNull end.

Section Server.
(** [publicNode.Call]: the result of the call, or the text of its error. *)
Variable Call : rpc -> json + jsstr.

Definition go_error (e : jsstr) : json := JObj [(js "error", JStr e)].

Definition handleSearch (rawQuery : list Z) : json :=
  let q := Get (ParseQuery rawQuery) (js "q") in
  match q with
  | [] => go_error (js "empty query")
  | _ =>
      match (match ParseInt q with
             | Some h => match Call (getblockhash h) with inl hashRaw => Some (h, hashRaw) | inr _ => None end
             | None => None
             end) with
      | Some (h, hashRaw) =>
          JObj [(js "hash", JStr (go_string hashRaw)); (js "height", JNum h); (js "type", JStr (js "block"))]
      | None =>
          match Call (getrawtransaction q) with
          | inl _ => JObj [(js "txid", JStr (go_text q)); (js "type", JStr (js "transaction"))]
          | inr _ =>
              match Call (getblock q None) with
              | inl _ => JObj [(js "hash", JStr (go_text q)); (js "type", JStr (js "block"))]
              | inr _ => JObj [(js "address", JStr (go_text q)); (js "type", JStr (js "address"))]
              end
          end
      end
  end.

Definition handleBlockByHeight (path : list Z) : json :=
  let heightStr := default [] (last (split_on 47 path)) in
  match ParseInt heightStr with
  | None =>
      match Call (getblock heightStr (Some 2)) with
      | inr e => go_error e
      | inl blockRaw => go_map blockRaw
      end
  | Some height =>
      match Call (getblockhash height) with
      | inr e => go_error e
      | inl hashRaw =>
          match Call (getblock (utf8_encode (go_string hashRaw)) (Some 2)) with
          | inr e => go_error e
          | inl blockRaw => go_map blockRaw
          end
      end
  end.
End Server.

(** [writeJSON(w, v)]: the response says JSON and its text reads as the value. *)
Definition writeJSON (r : response) (j : json) : Prop :=
  status r = 200 /\ body_null r = false
  /\ hget (response_headers r) (js "content-type") = Some (js "application/json")
  /\ hget (response_headers r) (js "content-length") <> Some (js "0")
  /\ exists u t, text r = inl (u :: t) /\ 33 < u < 127 /\ json_parse (u :: t) = Some j.

(** ** The search box *)

Inductive search_filter := FAll | FAddress | FTransaction | FBlock | FToken.

Record search_box := {
  query : jsstr; filter_by : search_filter; isSearching : bool; location : jsstr; toasts : list jsstr
}.

Definition finish (b : search_box) (location : jsstr) (toasts : list jsstr) : search_box :=
  {| query := query b; filter_by := filter_by b; isSearching := false; location := location; toasts := toasts |}.

(** [result.type]; reading it of [null] throws. *)
Definition result_type (d : data) : option (option jsstr) :=
  match d with
  | DNull => None
  | DJson (JObj fs) => Some (match field fs (js "type") with Some (JStr t) => Some t | _ => None end)
  | _ => Some None
  end.

(** [handleSearch] of the component; [isSearching] holds while the request is out. *)
Definition handleSearchBox (net : fetch_request -> response + jsstr) (base : jsstr) (b : search_box) : search_box :=
  let trimmed := trim (query b) in
  match trimmed with
  | [] => b
  | _ =>
      let setLocation path := finish b (path ++ trimmed) (toasts b) in
      let toast title := finish b (location b) (toasts b ++ [title]) in
      match filter_by b with
      | FBlock => setLocation (js "/block/")
      | FTransaction => setLocation (js "/tx/")
      | FAddress => setLocation (js "/address/")
      | FToken => setLocation (js "/tokens?q=")
      | FAll =>
          match search net base {| search_q := trimmed |} no_options with
          | inr _ => toast (js "Search Error")
          | inl d =>
              match result_type d with
              | None => toast (js "Search Error")
              | Some ty =>
                  if bool_decide (ty = Some (js "block")) then setLocation (js "/block/")
                  else if bool_decide (ty = Some (js "transaction")) then setLocation (js "/tx/")
                  else if bool_decide (ty = Some (js "address")) then setLocation (js "/address/")
                  else toast (js "Not Found")
              end
          end
      end
  end.

(** ** The query arrives *)

(** What the form encoding of a byte is: text without separators that the server
    unescapes to the byte. *)
Definition form_byte_good (b : Z) : bool :=
  forallb (fun u => negb ((u =? 38) || (u =? 59) || (u =? 61))) (form_byte b)
  && match form_byte b with
     | [u] => negb (u =? 37) && ((if u =? 43 then 32 else u) =? b)
     | [p; h; l] => (p =? 37) && bool_decide ((h ← unhex h; l ← unhex l; Some (h * 16 + l)) = Some b)
     | _ => false
     end.

Lemma form_bytes_good b : byte_ok b -> form_byte_good b = true.
Proof. apply all_byte_pairs. vm_compute. reflexivity. Qed.

Lemma unescape_form bs : bytes_ok bs -> QueryUnescape (concat (map form_byte bs)) = Some bs.
Proof.
  induction 1 as [|b bs Hb _ IH]; [done|]. cbn [map concat].
  apply form_bytes_good, andb_true_iff in Hb as [_ Hb].
  destruct (form_byte b) as [|u [|h [|l [|]]]]; try done; cbn [app QueryUnescape].
  - apply andb_true_iff in Hb as [Hu%negb_true_iff Hb%Z.eqb_eq]. rewrite Hu, IH. cbn [mbind option_bind]. by rewrite Hb.
  - apply andb_true_iff in Hb as [-> Hb%bool_decide_eq_true].
    destruct (unhex h) as [x|]; [|done]. destruct (unhex l) as [y|]; [|done]. cbn [mbind option_bind] in *.
    rewrite IH. cbn [mbind option_bind]. by injection Hb as ->.
Qed.

Definition apart (u : Z) : Prop := u <> 38 /\ u <> 59 /\ u <> 61.

Lemma form_apart s : Forall unit_ok s -> Forall apart (form_encode s).
Proof.
  intros Hs%utf8_encode_ok. unfold form_encode. induction Hs as [|b bs Hb _ IH]; [constructor|].
  cbn [map concat]. apply Forall_app. split; [|done]. apply form_bytes_good, andb_true_iff in Hb as [Hb _].
  rewrite forallb_forall in Hb. apply Forall_forall. intros u Hu%list_elem_of_In. specialize (Hb u Hu).
  unfold apart. lia.
Qed.

Lemma cut_at sep a b : Forall (fun u => u <> sep) a -> cut sep (a ++ [sep] ++ b) = (a, b).
Proof.
  induction 1 as [|u a Hu _ IH]; [cbn; by rewrite Z.eqb_refl|].
  rewrite <- app_comm_cons. cbn [cut]. by rewrite (proj2 (Z.eqb_neq _ _) Hu), IH.
Qed.

Lemma split_none sep a : Forall (fun u => u <> sep) a -> split_on sep a = [a].
Proof. induction 1 as [|u a Hu _ IH]; [done|]. cbn [split_on]. by rewrite (proj2 (Z.eqb_neq _ _) Hu), IH. Qed.

Lemma split_app sep a b : split_on sep (a ++ sep :: b) = split_on sep a ++ split_on sep b.
Proof.
  induction a as [|u a IH]; cbn [app split_on]; [by rewrite Z.eqb_refl|]. rewrite IH. destruct (u =? sep); [done|].
  by destruct (split_on sep a) as [|p ps] eqn:E; [destruct a; cbn [split_on] in E; repeat case_match|].
Qed.

Lemma pair_clear sep k v :
  sep = 38 \/ sep = 59 -> Forall unit_ok k -> Forall unit_ok v ->
  Forall (fun u => u <> sep) (form_encode k ++ [61] ++ form_encode v).
Proof.
  intros Hsep Hk%form_apart Hv%form_apart. rewrite !Forall_app.
  split_and_all; [|repeat constructor; lia|]; (eapply Forall_impl; [eassumption|]); unfold apart; intros; lia.
Qed.

Lemma query_pair_form k v :
  Forall unit_ok k -> Forall unit_ok v ->
  query_pair (form_encode k ++ [61] ++ form_encode v) = Some (utf8_encode k, utf8_encode v).
Proof.
  intros Hk Hv. pose proof (pair_clear 59 k v (or_intror eq_refl) Hk Hv) as H59.
  unfold query_pair. destruct (form_encode k ++ [61] ++ form_encode v) eqn:E; [by destruct (form_encode k)|].
  rewrite <- E in *. assert (existsb (Z.eqb 59) (form_encode k ++ [61] ++ form_encode v) = false) as ->.
  { apply not_true_iff_false. rewrite existsb_exists. intros (u & Hu & <-%Z.eqb_eq).
    rewrite Forall_forall in H59. apply (H59 59); [by apply list_elem_of_In|done]. }
  rewrite (cut_at 61 (form_encode k) (form_encode v))
    by (eapply Forall_impl; [by apply form_apart|]; unfold apart; intros; lia).
  unfold form_encode. by rewrite !unescape_form by by apply utf8_encode_ok.
Qed.

Lemma parse_params (ps : list (jsstr * jsstr)) :
  Forall (fun p => Forall unit_ok p.1 /\ Forall unit_ok p.2) ps ->
  ParseQuery (params_text ps) = map (fun p => (utf8_encode p.1, utf8_encode p.2)) ps.
Proof.
  induction 1 as [|[k v] ps [Hk Hv] Hps IH]; [done|]. unfold ParseQuery in *. cbn [fst snd] in *.
  destruct ps as [|p ps].
  - cbn [params_text]. rewrite split_none by (apply pair_clear; auto). cbn [omap list_omap map fst snd].
    by rewrite query_pair_form.
  - change (params_text ((k, v) :: p :: ps)) with (form_encode k ++ [61] ++ form_encode v ++ 38 :: params_text (p :: ps)).
    rewrite (app_assoc [61]), app_assoc, split_app, split_none by (apply pair_clear; auto).
    rewrite omap_app. cbn [omap list_omap]. rewrite query_pair_form by done. exact (f_equal (cons (utf8_encode k, utf8_encode v)) IH).
Qed.

(** What [URLSearchParams] prints the server reads back: every list of names and
    values, whatever their characters, arrives in order as the UTF-8 bytes of each. *)
Theorem query_roundtrip (ps : list (jsstr * jsstr)) :
  Forall (fun p => Forall unit_ok p.1 /\ Forall unit_ok p.2) ps ->
  ParseQuery (params_text ps) = map (fun p => (utf8_encode p.1, utf8_encode p.2)) ps.
Proof. apply parse_params. Qed.

Lemma query_roundtrip_witness :
  let ps := [(js "q", js "50% & more; a=b+c/?#"); (js "", [0xE9; 0xD83D; 0xDE00])] in
  ParseQuery (params_text ps)
  = [(js "q", js "50% & more; a=b+c/?#"); ([], [0xC3; 0xA9; 0xF0; 0x9F; 0x98; 0x80])].
Proof.
  intros ps. transitivity (map (fun p => (utf8_encode p.1, utf8_encode p.2)) ps); [|vm_compute; reflexivity].
  apply query_roundtrip. apply (bool_decide_unpack _). vm_compute. exact I.
Defined.

(** ** Searching *)

(** The raw query of a URL. *)
Fixpoint query_text (url : jsstr) : jsstr :=
  match url with [] => [] | u :: s => if u =? 63 then s else query_text s end.

Lemma search_query_text s : query_text (getSearchUrl {| search_q := s |}) = params_text [(js "q", s)].
Proof. unfold getSearchUrl, with_params. destruct (params_text _) eqn:E; [discriminate E|]. done. Qed.

(** The kind of thing the node knows under a name: a height or a hash of a block,
    a transaction, and otherwise an address. *)
Definition kind_of (Call : rpc -> json + jsstr) (q : list Z) : jsstr :=
  let ok {A} (r : A + jsstr) := match r with inl _ => true | inr _ => false end in
  if match ParseInt q with Some h => ok (Call (getblockhash h)) | None => false end then js "block"
  else if ok (Call (getrawtransaction q)) then js "transaction"
  else if ok (Call (getblock q None)) then js "block" else js "address".

Definition page_of_kind (k : jsstr) : jsstr :=
  if bool_decide (k = js "block") then js "/block/" else if bool_decide (k = js "transaction") then js "/tx/" else js "/address/".

Lemma utf8_nonempty s : s <> [] -> utf8_encode s <> [].
Proof.
  intros Hs. destruct s as [|u s]; [done|]. unfold utf8_encode. cbn [code_points].
  repeat case_match; cbn [map concat]; unfold utf8_point; repeat case_match; done.
Qed.

Lemma handleSearch_kind Call s :
  s <> [] -> Forall unit_ok s -> exists fs,
  handleSearch Call (params_text [(js "q", s)]) = JObj fs
  /\ field fs (js "type") = Some (JStr (kind_of Call (utf8_encode s))).
Proof.
  intros Hs Hu. unfold handleSearch. rewrite parse_params.
  2: { constructor; [|constructor]. split; [apply (bool_decide_unpack _); vm_compute; exact I|exact Hu]. }
  change (Get _ _) with (utf8_encode s). destruct (utf8_encode s) as [|b bs] eqn:E.
  { by apply utf8_nonempty in Hs. }
  unfold kind_of. destruct (ParseInt (b :: bs)) as [h|]; [destruct (Call (getblockhash h))|]; try (by eexists);
    destruct (Call (getrawtransaction _)); try (by eexists); destruct (Call (getblock _ None)); by eexists.
Qed.

(** The request the client sends for a path of the API. *)
Definition api_request (base url : jsstr) : fetch_request :=
  {| f_url := base ++ url; f_method := js "GET"; f_headers := []; f_body := NoBody |}.

Lemma get_request base url : startsWith url (js "/api/") = true ->
  make_request base (Url url) (get_options no_options) = inl (api_request base url).
Proof. intros H. unfold make_request. destruct base as [|u b]; [|rewrite H]; reflexivity. Qed.

(** The client gets the value the server wrote. *)
Lemma get_written net base url r j :
  startsWith url (js "/api/") = true -> net (api_request base url) = inl r -> writeJSON r j -> j <> JNull ->
  get net base url no_options = inl (DJson j).
Proof.
  intros Hu Hn (Hs & Hb & Ht & Hl & u & t & Htext & Hv & Hp) Hj. unfold get, customFetch.
  rewrite get_request by done. rewrite Hn. unfold response_ok. rewrite Hs. cbn [negb Z.leb Z.compare Pos.compare Pos.compare_cont andb].
  unfold parseSuccessBody, hasNoBody. rewrite Hb, Hs, (bool_decide_eq_false_2 _ Hl).
  change (bool_decide (f_method _ = _)) with false. change (bool_decide (200 ∈ NO_BODY_STATUS)) with false. cbn [orb].
  unfold inferResponseType, getMediaType. cbn [responseType get_options no_options]. rewrite Ht.
  change (isJsonMediaType _) with true. unfold parseJsonBody. rewrite Htext. cbn [stripBom].
  rewrite (proj2 (Z.eqb_neq u 0xFEFF)) by lia.
  destruct (trim (u :: t)) eqn:E; [by apply trim_visible in E; [|apply visible_not_ws]|]. rewrite Hp. by destruct j.
Qed.

Lemma search_url_api s : startsWith (getSearchUrl {| search_q := s |}) (js "/api/") = true.
Proof. unfold getSearchUrl, with_params. by destruct (params_text _). Qed.

(** C23. Searching without a filter opens the page of what the node knows: the
    server gets the trimmed text whatever its characters, classifies it, and the
    box goes to that block, transaction or address without a message. The box's
    "Not Found" is never shown, as the server calls every other text an address. *)
Theorem search_navigates (Call : rpc -> json + jsstr) (net : fetch_request -> response + jsstr) (base : jsstr)
    (b : search_box) (r : response) :
  let s := trim (query b) in
  filter_by b = FAll -> s <> [] -> Forall unit_ok s ->
  net (api_request base (getSearchUrl {| search_q := s |})) = inl r ->
  writeJSON r (handleSearch Call (query_text (getSearchUrl {| search_q := s |}))) ->
  handleSearchBox net base b = finish b (page_of_kind (kind_of Call (utf8_encode s)) ++ s) (toasts b).
Proof.
  intros s Hf Hs Hu Hn Hw. rewrite search_query_text in Hw.
  destruct (handleSearch_kind Call s Hs Hu) as (fs & E & Ht). rewrite E in Hw.
  unfold handleSearchBox. rewrite Hf. fold s. destruct s as [|u s'] eqn:Es; [done|]. rewrite <- Es in *.
  unfold search. rewrite (get_written net base _ r (JObj fs)); [|apply search_url_api|done..].
  cbn [result_type]. rewrite Ht. unfold page_of_kind, kind_of.
  destruct (match ParseInt _ with Some h => _ | None => _ end); [done|].
  destruct (match Call (getrawtransaction _) with inl _ => _ | inr _ => _ end); [done|].
  by destruct (match Call (getblock _ _) with inl _ => _ | inr _ => _ end).
Qed.

(** A node with one block, and the server in front of it. *)
Definition sample_node (c : rpc) : json + jsstr :=
  match c with
  | getblockhash h => if h =? 7 then inl (JStr (js "00ab")) else inr (js "Block height out of range")
  | getblock x _ => if bool_decide (x = js "00ab") then inl (JObj [(js "height", JNum 7)]) else inr (js "Block not found")
  | getrawtransaction _ => inr (js "No such mempool or blockchain transaction")
  end.

Definition sample_site (q : fetch_request) : response + jsstr :=
  inl {| status := 200; statusText := js "OK"; response_url := []; body_null := false; has_blob := true;
         response_headers := [(js "content-type", js "application/json")];
         text := inl (stringify (handleSearch sample_node (query_text (f_url q))) ++ [10]) |}.

Definition typed (t : jsstr) : search_box :=
  {| query := t; filter_by := FAll; isSearching := false; location := js "/"; toasts := [] |}.

Lemma search_navigates_witness :
  location (handleSearchBox sample_site [] (typed (js " +7 "))) = js "/block/+7"
  /\ location (handleSearchBox sample_site [] (typed (js "a&b=c"))) = js "/address/a&b=c".
Proof.
  split.
  - erewrite (search_navigates sample_node sample_site [] (typed (js " +7 "))); [vm_compute; reflexivity|reflexivity| | |reflexivity|].
    + intros E. vm_compute in E. discriminate E.
    + apply (bool_decide_unpack _). vm_compute. exact I.
    + repeat (split; [vm_compute; first [reflexivity|intros E; discriminate E]|]). by eexists _, _; split; [vm_compute; reflexivity|split; [lia|vm_compute; reflexivity]].
  - erewrite (search_navigates sample_node sample_site [] (typed (js "a&b=c"))); [vm_compute; reflexivity|reflexivity| | |reflexivity|].
    + intros E. vm_compute in E. discriminate E.
    + apply (bool_decide_unpack _). vm_compute. exact I.
    + repeat (split; [vm_compute; first [reflexivity|intros E; discriminate E]|]). by eexists _, _; split; [vm_compute; reflexivity|split; [lia|vm_compute; reflexivity]].
Defined.

(** ** Opening the block *)

Definition plain_id (q : jsstr) : bool := forallb (fun u => negb ((u =? 47) || (u =? 63))) q.

Lemma last_segment sep a q : Forall (fun u => u <> sep) q -> last (split_on sep (a ++ sep :: q)) = Some q.
Proof. intros Hq. by rewrite split_app, (split_none sep q), last_snoc. Qed.

Lemma block_path q : plain_id q = true ->
  default [] (last (split_on 47 (path_of (getGetBlockByNumberUrl q)))) = q.
Proof.
  intros Hq. unfold plain_id in Hq. rewrite forallb_forall in Hq. unfold getGetBlockByNumberUrl.
  rewrite path_plain by (vm_compute; reflexivity). rewrite <- (app_nil_r q) at 1. rewrite path_plain.
  2: { unfold plain. apply forallb_forall. intros u Hu. specialize (Hq u Hu). lia. }
  cbn [path_of]. rewrite app_nil_r.
  change (js "/api/blockchain/blocks/" ++ q) with (js "/api/blockchain/blocks" ++ 47 :: q).
  rewrite last_segment; [done|]. apply Forall_forall. intros u Hu%list_elem_of_In. specialize (Hq u Hu). lia.
Qed.

(** A search that leads to a block page leads to one the server can fill: with a
    node that has the blocks it names, the page's own request for the same text is
    answered with the block. *)
Lemma search_block_opens (Call : rpc -> json + jsstr) (q : jsstr) :
  (forall h raw, Call (getblockhash h) = inl raw -> exists fs, Call (getblock (utf8_encode (go_string raw)) (Some 2)) = inl (JObj fs)) ->
  (forall x raw, Call (getblock x None) = inl raw -> exists fs, Call (getblock x (Some 2)) = inl (JObj fs)) ->
  Forall (fun u => 0 <= u < 0x80) q -> plain_id q = true ->
  (forall h, ParseInt q = Some h -> exists raw, Call (getblockhash h) = inl raw) ->
  kind_of Call (utf8_encode q) = js "block" ->
  exists fs, handleBlockByHeight Call (path_of (getGetBlockByNumberUrl q)) = JObj fs.
Proof.
  intros Hh Hb Ha Hq Hp. rewrite utf8_ascii by done. unfold kind_of, handleBlockByHeight. rewrite block_path by done.
  destruct (ParseInt q) as [h|].
  - destruct (Hp h eq_refl) as [raw Hr]. intros _. rewrite Hr. destruct (Hh h raw Hr) as [fs ->]. by exists fs.
  - destruct (Call (getrawtransaction q)); [done|].
    destruct (Call (getblock q None)) as [raw|] eqn:E; [|done]. intros _. destruct (Hb q raw E) as [fs ->]. by exists fs.
Qed.
