(* ===== verification/ExplorerPages.v ===== *)
(** * Pages of a block and of a transaction

    What src/website/src/pages/BlockDetail.tsx and TransactionDetail.tsx make of the
    answer of their query, and what the server's handlers (src/api/main.go) give
    them: the node's own documents. *)

From S2P Require Import Prelude JsText Amounts Numbers Bytes Utf8 Json Vault Mnemonic Endpoints Store Api MobileRoutes CustomFetch ApiClient Explorer.
Local Open Scope Z_scope.

(** ** Values *)

Definition data_val (d : data) : val :=
  match d with DNull => VNull | DJson j => to_val j | DText t => VStr t | DBlob => VObj [] end.

(** [v.toLocaleString] is there to be called. *)
Definition callable (v : val) : bool :=
  match v with
  | VUndef | VNull => false
  | VObj fs => match vlookup fs (js "toLocaleString") with VUndef => true | _ => false end
  | _ => true
  end.

(** React renders texts, numbers and lists of them; an object throws. *)
Fixpoint renders (v : val) : bool :=
  match v with
  | VArr l => forallb renders l
  | VObj _ => false
  | _ => true
  end.

(** A page that was loaded; an exception while it is drawn reaches the error
    boundary. *)
Inductive page (A : Type) := NotFound | Shown (a : A) | Crashed.
Arguments NotFound {A}.
Arguments Shown {A} a.
Arguments Crashed {A}.

Definition loaded {A} (o : outcome) (draw : val -> page A) : page A :=
  match o with
  | inr _ => NotFound
  | inl d => if vtruthy (data_val d) then draw (data_val d) else NotFound
  end.

(** ** BlockDetail *)

(** A row of the block's transactions. *)
Record row_shown := { r_hash : val; r_from : option val; r_to : option val; r_value : val; r_fee : val }.

Record block_shown := {
  bs_number : val; bs_transactionCount : val; bs_validator : option val; bs_hash : val;
  bs_parent : option val; bs_size : val; bs_gasUsed : val; bs_gasLimit : option val; bs_rows : list row_shown
}.

(** [truncateHash(hash, start, end)]; [None] when it throws: a value that is
    neither a text nor a list has no [slice]. *)
Definition truncateHash (hash : val) (start end' : nat) : option val :=
  if negb (vtruthy hash) then Some (VStr []) else
  match hash with
  | VStr t => Some (if (length t <=? start + end')%nat then hash else VStr (take start t ++ js "..." ++ drop (length t - end') t))
  | VArr l => Some (if (length l <=? start + end')%nat then hash
                    else VStr (val_text (VArr (take start l)) ++ js "..." ++ val_text (VArr (drop (length l - end') l))))
  | _ => None
  end.

(** What is drawn in a row; [None] when a part of it throws. *)
Definition drawn (v : option val) : option val := match v with Some v => if renders v then Some v else None | None => None end.

Definition block_row (tx : val) : option row_shown :=
  match tx with VUndef | VNull => None | _ =>
    let p := vprop tx in
    hash ← drawn (truncateHash (p (js "hash")) 10 6);
    from ← (if is_text (p (js "from")) (js "coinbase") then Some None else Some <$> drawn (truncateHash (p (js "from")) 6 4));
    to ← (if vtruthy (p (js "to")) then Some <$> drawn (truncateHash (p (js "to")) 6 4) else Some None);
    value ← drawn (Some (p (js "value")));
    fee ← drawn (Some (p (js "fee")));
    Some {| r_hash := hash; r_from := from; r_to := to; r_value := value; r_fee := fee |}
  end.

(** [transactions && transactions.length > 0 ? transactions.map(...) : ...]; only a
    list has [map]. *)
Definition block_rows (transactions : val) : option (list row_shown) :=
  match transactions with
  | VArr l => mapM block_row l
  | VStr (_ :: _) => None
  | VObj fs => if vpositive (vlookup fs (js "length")) then None else Some []
  | _ => Some []
  end.

Definition BlockDetail (o : outcome) : page block_shown :=
  loaded o (fun block =>
    let p := vprop block in
    let validator := if vtruthy (p (js "validator")) then Some (p (js "validator")) else None in
    let parent := if vpositive (p (js "number")) then Some (p (js "parentHash")) else None in
    let gasLimit := if vpositive (p (js "gasLimit")) then Some (p (js "gasLimit")) else None in
    if renders (p (js "number")) && callable (p (js "number")) && renders (p (js "transactionCount"))
       && renders (default VNull validator) && renders (p (js "hash")) && renders (default VNull parent)
       && callable (p (js "size")) && callable (p (js "gasUsed"))
    then match block_rows (p (js "transactions")) with
         | Some rows =>
             Shown {| bs_number := p (js "number"); bs_transactionCount := p (js "transactionCount"); bs_validator := validator;
                      bs_hash := p (js "hash"); bs_parent := parent; bs_size := p (js "size"); bs_gasUsed := p (js "gasUsed");
                      bs_gasLimit := gasLimit; bs_rows := rows |}
         | None => Crashed
         end
    else Crashed).

(** ** TransactionDetail *)

Inductive tx_status := Success | Failed | Pending.

Record tx_shown := {
  ts_hash : val; ts_status : tx_status; ts_block : val; ts_from : option val; ts_to : option val; ts_value : val;
  ts_fee : val; ts_blockHash : option val; ts_gasUsed : option val; ts_gasPrice : option val; ts_nonce : option val;
  ts_data : option val
}.

Definition status_label (v : val) : tx_status :=
  if is_text v (js "success") then Success else if is_text v (js "failed") then Failed else Pending.

(** [v && ...]: shown when it counts as true. *)
Definition when_truthy (v : val) : option val := if vtruthy v then Some v else None.
(** [v !== undefined && ...] *)
Definition when_defined (v : val) : option val := match v with VUndef => None | v => Some v end.

Definition TransactionDetail (o : outcome) : page tx_shown :=
  loaded o (fun tx =>
    let p := vprop tx in
    let from := if is_text (p (js "from")) (js "coinbase") then None else Some (p (js "from")) in
    let data := if is_text (p (js "data")) (js "0x") then None else when_truthy (p (js "data")) in
    let gasUsed := when_defined (p (js "gasUsed")) in
    let nonce := when_defined (p (js "nonce")) in
    if renders (p (js "hash")) && renders (p (js "blockNumber")) && renders (default VNull from)
       && renders (default VNull (when_truthy (p (js "to")))) && renders (p (js "value")) && renders (p (js "fee"))
       && renders (default VNull (when_truthy (p (js "blockHash")))) && callable (default (VStr []) gasUsed)
       && renders (default VNull (when_truthy (p (js "gasPrice")))) && callable (default (VStr []) nonce)
       && renders (default VNull data)
    then Shown {| ts_hash := p (js "hash"); ts_status := status_label (p (js "status")); ts_block := p (js "blockNumber");
                  ts_from := from; ts_to := when_truthy (p (js "to")); ts_value := p (js "value"); ts_fee := p (js "fee");
                  ts_blockHash := when_truthy (p (js "blockHash")); ts_gasUsed := gasUsed;
                  ts_gasPrice := when_truthy (p (js "gasPrice")); ts_nonce := nonce; ts_data := data |}
    else Crashed).

(** The server's answer for a transaction. *)
Definition handleTxByHash (Call : rpc -> json + jsstr) (path : list Z) : json :=
  let txHash := default [] (last (split_on 47 path)) in
  match Call (getrawtransaction txHash) with
  | inr e => go_error e
  | inl txRaw => go_map txRaw
  end.

(** ** What the pages show of the node's documents *)

Lemma field_missing fs k : field fs k = None -> Forall (fun f => f.1 <> k) fs.
Proof.
  induction fs as [|[k' v] fs IH]; [constructor|]. cbn [field]. destruct (field fs k); [done|].
  case_bool_decide; [done|]. intros _. constructor; auto.
Qed.

Lemma vlookup_absent fs k : Forall (fun f => f.1 <> k) fs -> vlookup fs k = VUndef.
Proof. induction 1 as [|[k' v] fs Hk _ IH]; [done|]. cbn [vlookup]. by rewrite bool_decide_eq_false_2. Qed.

(** A document without a property is a value without it. *)
Lemma missing_prop fs k : field fs k = None -> vprop (to_val (JObj fs)) k = VUndef.
Proof.
  intros H%field_missing. cbn [to_val vprop]. apply vlookup_absent, Forall_reverse, Forall_map. exact H.
Qed.

Lemma object_truthy fs : vtruthy (data_val (DJson (JObj fs))) = true.
Proof. done. Qed.

(** A block without a number crashes the page. *)
Lemma block_without_number fs : field fs (js "number") = None -> BlockDetail (inl (DJson (JObj fs))) = Crashed.
Proof.
  intros H. unfold BlockDetail, loaded. rewrite object_truthy. cbn [data_val]. rewrite (missing_prop fs _ H).
  by rewrite andb_false_r.
Qed.

Lemma transaction_pending fs : field fs (js "status") = None ->
  match TransactionDetail (inl (DJson (JObj fs))) with Shown t => ts_status t = Pending | NotFound => False | Crashed => True end.
Proof.
  intros H. unfold TransactionDetail, loaded. rewrite object_truthy. cbn [data_val].
  destruct (_ && _); [|done]. cbn [ts_status]. by rewrite (missing_prop fs _ H).
Qed.

Lemma block_url_api q : startsWith (getGetBlockByNumberUrl q) (js "/api/") = true.
Proof. reflexivity. Qed.

Lemma tx_url_api q : startsWith (getGetTransactionByHashUrl q) (js "/api/") = true.
Proof. reflexivity. Qed.

(** An answer of the handlers: an object, or nothing. *)
Lemma go_map_cases j : go_map j = JNull \/ exists fs, j = JObj fs /\ go_map j = JObj fs.
Proof. destruct j; eauto. Qed.

Section Node.
Variable Call : rpc -> json + jsstr.
(** The documents of the node: a block has no "number" and a transaction no
    "status" among its properties. *)
Hypothesis blocks_unnumbered : forall x v fs, Call (getblock x v) = inl (JObj fs) -> field fs (js "number") = None.
Hypothesis transactions_unmarked : forall x fs, Call (getrawtransaction x) = inl (JObj fs) -> field fs (js "status") = None.

Lemma block_answer path :
  handleBlockByHeight Call path = JNull
  \/ exists fs, handleBlockByHeight Call path = JObj fs /\ field fs (js "number") = None.
Proof.
  unfold handleBlockByHeight. set (h := default [] _).
  assert (forall c x v, c = Call (getblock x v) ->
    let a := match c with inr e => go_error e | inl raw => go_map raw end in
    a = JNull \/ exists fs, a = JObj fs /\ field fs (js "number") = None) as Hb.
  { intros c x v ->. destruct (Call (getblock x v)) as [raw|e] eqn:E; cbn zeta; [|right; by eexists].
    destruct (go_map_cases raw) as [-> |(fs & -> & ->)]; [by left|right; eauto]. }
  destruct (ParseInt h) as [n|]; [|by apply (Hb _ _ _ eq_refl)].
  destruct (Call (getblockhash n)); [by apply (Hb _ _ _ eq_refl)|right; by eexists].
Qed.

Lemma tx_answer path :
  handleTxByHash Call path = JNull
  \/ exists fs, handleTxByHash Call path = JObj fs /\ field fs (js "status") = None.
Proof.
  unfold handleTxByHash. set (h := default [] _). destruct (Call (getrawtransaction h)) as [raw|e] eqn:E; [|right; by eexists].
  destruct (go_map_cases raw) as [-> |(fs & -> & ->)]; [by left|right; eauto].
Qed.
End Node.

(** The block page cannot show a block of this server: the handler passes on the
    node's document, which calls the height "height", and the page asks for
    "number". Whatever is looked up, a block, an unknown height or a hash, the page
    ends in the error boundary, except when the answer is null and the page says
    "Block Not Found". *)
Theorem block_page_crashes (Call : rpc -> json + jsstr) (net : fetch_request -> response + jsstr) (base q : jsstr)
    (r : response) :
  (forall x v fs, Call (getblock x v) = inl (JObj fs) -> field fs (js "number") = None) ->
  net (api_request base (getGetBlockByNumberUrl q)) = inl r ->
  writeJSON r (handleBlockByHeight Call (path_of (getGetBlockByNumberUrl q))) ->
  handleBlockByHeight Call (path_of (getGetBlockByNumberUrl q)) <> JNull ->
  BlockDetail (getBlockByNumber net base q no_options) = Crashed.
Proof.
  intros Hc Hn Hw Hj. destruct (block_answer Call Hc (path_of (getGetBlockByNumberUrl q))) as [H|(fs & H & Hf)]; [done|].
  rewrite H in Hw. unfold getBlockByNumber.
  rewrite (get_written net base _ r (JObj fs)); [|apply block_url_api|done..]. by apply block_without_number.
Qed.

(** The same of a transaction: confirmed or unknown, the page never says "Not
    Found", "Success" or "Failed" about an object it was given. *)
Lemma transaction_page_pending (Call : rpc -> json + jsstr) (net : fetch_request -> response + jsstr) (base q : jsstr)
    (r : response) :
  (forall x fs, Call (getrawtransaction x) = inl (JObj fs) -> field fs (js "status") = None) ->
  net (api_request base (getGetTransactionByHashUrl q)) = inl r ->
  writeJSON r (handleTxByHash Call (path_of (getGetTransactionByHashUrl q))) ->
  handleTxByHash Call (path_of (getGetTransactionByHashUrl q)) <> JNull ->
  match TransactionDetail (getTransactionByHash net base q no_options) with
  | Shown t => ts_status t = Pending | NotFound => False | Crashed => True
  end.
Proof.
  intros Hc Hn Hw Hj. destruct (tx_answer Call Hc (path_of (getGetTransactionByHashUrl q))) as [H|(fs & H & Hf)]; [done|].
  rewrite H in Hw. unfold getTransactionByHash.
  rewrite (get_written net base _ r (JObj fs)); [|apply tx_url_api|done..]. by apply transaction_pending.
Qed.

(** The one block of [sample_node], served for its page. *)
Definition sample_block_site (q : fetch_request) : response + jsstr :=
  inl {| status := 200; statusText := js "OK"; response_url := []; body_null := false; has_blob := true;
         response_headers := [(js "content-type", js "application/json")];
         text := inl (stringify (handleBlockByHeight sample_node (path_of (f_url q))) ++ [10]) |}.

Lemma block_page_crashes_witness :
  BlockDetail (getBlockByNumber sample_block_site [] (js "7") no_options) = Crashed
  /\ handleBlockByHeight sample_node (path_of (getGetBlockByNumberUrl (js "7"))) = JObj [(js "height", JNum 7)].
Proof.
  split; [|vm_compute; reflexivity].
  apply (block_page_crashes sample_node sample_block_site [] (js "7")
    (match sample_block_site (api_request [] (getGetBlockByNumberUrl (js "7"))) with inl r => r | inr _ => sample_response end)).
  - intros x v fs. cbn [sample_node]. case_bool_decide; [|done]. intros [= <-]. vm_compute. reflexivity.
  - reflexivity.
  - repeat (split; [vm_compute; first [reflexivity|intros E; discriminate E]|]).
    eexists _, _; split; [vm_compute; reflexivity|split; [lia|vm_compute; reflexivity]].
  - intros E. vm_compute in E. discriminate E.
Defined.
