(* ===== verification/DexWallet.v ===== *)
(** * The archived exchange: connecting, deposits and withdrawals

    [useDexWallet] and [DepositWithdrawModal] of
    src/dex-archive/dex/src/pages/DEX.tsx. The exchange's server is a parameter: a
    function of its own state and of the request. DexLedger.v puts the server's
    ledger in its place. *)

From S2P Require Import Prelude JsText Amounts Numbers Utf8 Json Vault Store Api.
Local Open Scope Z_scope.

(** What [useState] holds. *)
Record WalletState := {
  isConnected : bool; l1Address : jsstr; l1BalanceGrd : val; l1Type : jsstr;
  address : val; balanceGrd : val; assets : val; loading : bool
}.

Definition ZERO : val := VNum (of_Z 0).

Definition disconnected : WalletState :=
  {| isConnected := false; l1Address := []; l1BalanceGrd := ZERO; l1Type := []; address := VStr []; balanceGrd := ZERO;
     assets := VArr []; loading := false |}.

Definition with_loading (b : bool) (w : WalletState) : WalletState :=
  {| isConnected := isConnected w; l1Address := l1Address w; l1BalanceGrd := l1BalanceGrd w; l1Type := l1Type w;
     address := address w; balanceGrd := balanceGrd w; assets := assets w; loading := b |}.

Section Page.
Context {K : KV} {S : Type}.
(** The server's answer to a request, and its next state. *)
Variable server : http_request -> S -> S * http_reply.
(** [API_BASE] *)
Variable API_BASE : jsstr.

(** The page's [localStorage], its state, and the server; [sent] is what went out. *)
Record dex := { local : kv; ui : WalletState; srv : S; sent : list http_request }.

Definition D (A : Type) : Type := dex -> dex * (A + jsstr).
Definition dret {A} (a : A) : D A := fun w => (w, inl a).
Definition dthrow {A} (e : jsstr) : D A := fun w => (w, inr e).
Definition dbind {A B} (m : D A) (k : A -> D B) : D B :=
  fun w => match m w with (w', inl a) => k a w' | (w', inr e) => (w', inr e) end.
Definition dtry {A} (m : D A) (h : jsstr -> D A) : D A :=
  fun w => match m w with (w', inr e) => h e w' | r => r end.
Local Notation "'let!' x := m 'in' k" := (dbind m (fun x => k)) (at level 10, x pattern, m at level 100, k at level 200).
Local Notation "m ;;! k" := (dbind m (fun _ => k)) (at level 100, right associativity).

Definition localGet (k : jsstr) : D (option jsstr) := fun w => (w, inl (getItem (local w) k)).
Definition localSet (k v : jsstr) : D unit :=
  fun w => ({| local := setItem (local w) k v; ui := ui w; srv := srv w; sent := sent w |}, inl tt).
Definition localRemove (k : jsstr) : D unit :=
  fun w => ({| local := removeItem (local w) k; ui := ui w; srv := srv w; sent := sent w |}, inl tt).
Definition setWallet (f : WalletState -> WalletState) : D unit :=
  fun w => ({| local := local w; ui := f (ui w); srv := srv w; sent := sent w |}, inl tt).

(** [fetch(url, init).then(r => r.json())]: the status does not matter. *)
Definition fetch_json (q : http_request) : D val :=
  fun w => let '(s, r) := server q (srv w) in
           ({| local := local w; ui := ui w; srv := s; sent := sent w ++ [q] |},
            match r with Rejected e => inr e | Response _ _ _ j => j end).

(** [v.k] *)
Definition prop (v : val) (k : jsstr) : D val :=
  match v with VUndef | VNull => dthrow (js "TypeError") | _ => dret (vprop v k) end.

Definition get_json (path : jsstr) : D val :=
  fetch_json {| h_path := API_BASE ++ path; h_method := js "GET"; h_body := None |}.
Definition post_json (path : jsstr) (body : val) : D val :=
  fetch_json {| h_path := API_BASE ++ path; h_method := js "POST"; h_body := Some body |}.

(** ** useDexWallet *)

Definition fetchBalance (addr : jsstr) : D val := get_json (js "/api/dex/wallet/connect?address=" ++ addr).

Definition trading_key (l1Addr : jsstr) : jsstr := js "garuda_dex_trading_" ++ l1Addr.

(** The awaits of [connectWithL1]: the account of the L1 address, kept or created. *)
Definition trading_account (l1Addr type : jsstr) : D (option WalletState) :=
  let! l1Info := fetchBalance l1Addr in
  let! bal := prop l1Info (js "balance_grd") in
  let! known := localGet (trading_key l1Addr) in
  let! account :=
    match known with
    | Some ((_ :: _) as a) => let! info := fetchBalance a in dret (VStr a, info)
    | _ =>
        let! res := post_json (js "/api/dex/wallet/create")
                      (VObj [(js "label", VStr (js "trading-" ++ take 12 l1Addr))]) in
        let! a := prop res (js "address") in
        (if vtruthy a then localSet (trading_key l1Addr) (val_text a) else dret tt) ;;!
        dret (a, res)
    end in
  let '(tradingAddr, tradingInfo) := account in
  if vtruthy tradingAddr && vtruthy tradingInfo then
    let! b := prop tradingInfo (js "balance_grd") in
    let! l := prop tradingInfo (js "assets") in
    dret (Some {| isConnected := true; l1Address := l1Addr; l1BalanceGrd := vor bal ZERO; l1Type := type;
                  address := tradingAddr; balanceGrd := vor b ZERO; assets := if vtruthy l then l else VArr [];
                  loading := false |})
  else dret None.

(** What [connectWithL1] does when the account is there. *)
Definition connected (l1Addr type : jsstr) (r : option WalletState) : D unit :=
  match r with
  | Some w =>
      setWallet (fun _ => w) ;;!
      localSet (js "garuda_dex_connected") (js "true") ;;!
      localSet (js "garuda_dex_l1") l1Addr ;;!
      localSet (js "garuda_dex_l1_type") type
  | None => setWallet (with_loading false)
  end.

Definition connectWithL1 (l1Addr type : jsstr) : D unit :=
  setWallet (with_loading true) ;;!
  dtry (let! r := trading_account l1Addr type in connected l1Addr type r) (fun _ => setWallet (with_loading false)).

(** [connect]: the account the server made is both; its address is a text. [random]
    [Math.random().toString(36).slice(2, 10)]. *)
Definition connect (random : jsstr) : D unit :=
  setWallet (with_loading true) ;;!
  dtry (let! res := post_json (js "/api/dex/wallet/create") (VObj [(js "label", VStr (js "user-" ++ random))]) in
        let! a := prop res (js "address") in
        if vtruthy a then connectWithL1 (val_text a) (js "node") else setWallet (with_loading false))
       (fun _ => setWallet (with_loading false)).

Definition disconnect : D unit := setWallet (fun _ => disconnected) ;;! localRemove (js "garuda_dex_connected").

Definition connectWithAddress (addr : jsstr) : D unit := connectWithL1 addr (js "address").

(** A promise that is settled, whichever way. *)
Definition settle {A} (m : D A) : D (A + jsstr) := fun w => let '(w', r) := m w in (w', inl r).
Definition unsettle {A} (r : A + jsstr) : D A := match r with inl a => dret a | inr e => dthrow e end.

(** [refreshBalance] of a page drawn with the state [wallet]; both requests of
    [Promise.all] go out. *)
Definition refreshBalance (wallet : WalletState) : D unit :=
  if negb (vtruthy (address wallet)) then dret tt else
  dtry (let! r1 := settle (fetchBalance (val_text (address wallet))) in
        let! r2 := settle (match l1Address wallet with [] => dret VNull | a => fetchBalance a end) in
        let! tradingInfo := unsettle r1 in
        let! l1Info := unsettle r2 in
        let! c := prop tradingInfo (js "connected") in
        if vtruthy c then
          let! b := prop tradingInfo (js "balance_grd") in
          let! l := prop tradingInfo (js "assets") in
          setWallet (fun prev =>
            {| isConnected := isConnected prev; l1Address := l1Address prev;
               l1BalanceGrd := vor (vprop l1Info (js "balance_grd")) (l1BalanceGrd prev); l1Type := l1Type prev;
               address := address prev; balanceGrd := vor b (balanceGrd prev);
               assets := if vtruthy l then l else assets prev; loading := loading prev |})
        else dret tt)
       (fun _ => dret tt).

(** ** Deposits and withdrawals *)

(** [window.garuda.sendTransaction], when the extension is there. *)
Variable provider : option (val -> D val).

(** [{status: "ok", ...res}] *)
Definition ok_with (res : val) : val :=
  VObj (foldl (fun fs f => put fs f.1 f.2) [(js "status", VStr (js "ok"))] (spread res)).

Definition INVALID : val := VObj [(js "error", VStr (js "Invalid"))].

(** [!wallet.l1Address || !wallet.address || amount <= 0] *)
Definition invalid (wallet : WalletState) (amount : double) : bool :=
  match l1Address wallet with [] => true | _ => false end || negb (vtruthy (address wallet)) || dle amount (of_Z 0).

(** The error of a rejected transaction: [err?.message || "Transaksi ditolak"]. *)
Definition refused (e : jsstr) : val :=
  VObj [(js "error", VStr (match e with [] => js "Transaksi ditolak" | _ => e end))].

(** The rest of a server call: the balance is read again when it went through. *)
Definition settled (wallet : WalletState) (res : val) : D val :=
  let! st := prop res (js "status") in
  (if is_text st (js "ok") then refreshBalance wallet else dret tt) ;;! dret res.

Definition deposit (wallet : WalletState) (amount : double) : D val :=
  if invalid wallet amount then dret INVALID else
  let at_server :=
    let! res := post_json (js "/api/dex/deposit")
      (VObj [(js "from_address", VStr (l1Address wallet)); (js "to_address", address wallet); (js "amount", VNum amount)]) in
    settled wallet res in
  match provider with
  | Some sendTransaction =>
      if bool_decide (l1Type wallet = js "extension") then
        dtry (let! res := sendTransaction
                (VObj [(js "from", VStr (l1Address wallet)); (js "to", address wallet); (js "amount", VNum amount);
                       (js "kind", VStr (js "deposit"))]) in
              refreshBalance wallet ;;! dret (ok_with res))
             (fun e => dret (refused e))
      else at_server
  | None => at_server
  end.

Definition withdraw (wallet : WalletState) (amount : double) : D val :=
  if invalid wallet amount then dret INVALID else
  let! res := post_json (js "/api/dex/withdraw")
    (VObj [(js "from_address", address wallet); (js "to_address", VStr (l1Address wallet)); (js "amount", VNum amount)]) in
  settled wallet res.

(** The effect that reconnects when the page opens. *)
Definition reconnect : D unit :=
  let! was := localGet (js "garuda_dex_connected") in
  let! savedL1 := localGet (js "garuda_dex_l1") in
  let! savedType := localGet (js "garuda_dex_l1_type") in
  match savedL1 with
  | Some ((_ :: _) as a) =>
      if bool_decide (was = Some (js "true"))
      then connectWithL1 a (match savedType with Some ((_ :: _) as t) => t | _ => js "address" end) else dret tt
  | _ => dret tt
  end.

(** ** DepositWithdrawModal *)

Record modal := { m_deposit : bool; m_amount : jsstr; m_pending : bool; m_result : option (bool * jsstr); m_toasts : list jsstr }.

Definition with_result (m : modal) (amount : jsstr) (r : option (bool * jsstr)) (toasts : list jsstr) : modal :=
  {| m_deposit := m_deposit m; m_amount := amount; m_pending := false; m_result := r; m_toasts := toasts |}.

Definition maxAmount (m : modal) (wallet : WalletState) : val :=
  if m_deposit m then l1BalanceGrd wallet else balanceGrd wallet.

(** [parseFloat(amount) || 0] *)
Definition parsedAmount (m : modal) : double :=
  let x := parseFloat (m_amount m) in if dsign x =? 0 then of_Z 0 else x.

Definition verb (m : modal) : jsstr := if m_deposit m then js "Deposit" else js "Withdraw".

(** [v || d] *)
Definition or_text (v : val) (d : jsstr) : val := if vtruthy v then v else VStr d.

(** [txid ? ` TX: ${txid.slice(0, 16)}...` : ""]; what has no [slice] throws. *)
Definition tx_note (txid : val) : D jsstr :=
  match txid with
  | VStr ((_ :: _) as t) => dret (js " TX: " ++ take 16 t ++ js "...")
  | VArr l => dret (js " TX: " ++ val_text (VArr (take 16 l)) ++ js "...")
  | v => if vtruthy v then dthrow (js "TypeError") else dret []
  end.

(** [handleExecute] *)
Definition handleExecute (m : modal) (wallet : WalletState) : D modal :=
  let x := parsedAmount m in
  if dle x (of_Z 0) then dret m
  else if dlt (to_number (maxAmount m wallet)) x
  then dret {| m_deposit := m_deposit m; m_amount := m_amount m; m_pending := m_pending m; m_result := m_result m;
               m_toasts := m_toasts m ++ [js "Saldo Tidak Cukup"] |}
  else
    dtry (let! res := (if m_deposit m then deposit wallet x else withdraw wallet x) in
          let! st := prop res (js "status") in
          if is_text st (js "ok") || vtruthy (vprop res (js "connected"))
          then let! note := tx_note (vprop res (js "txid")) in
               dret (with_result m []
                 (Some (true, verb m ++ [32] ++ fixed_text 8 x ++ js " GRD berhasil." ++ note))
                 (m_toasts m ++ [verb m ++ js " Berhasil"]))
          else dret (with_result m (m_amount m)
                       (Some (false, val_text (or_text (vprop res (js "error")) (js "Gagal")))) (m_toasts m)))
         (fun _ => dret (with_result m (m_amount m) (Some (false, js "Gagal menghubungi server")) (m_toasts m))).
End Page.

(** ** Runs *)

Section Runs.
Context {K : KV} {S : Type}.

Lemma dbind_run {A B} (m : D (S := S) A) (k : A -> D B) w w' a : m w = (w', inl a) -> dbind m k w = k a w'.
Proof. unfold dbind. by intros ->. Qed.

Lemma dtry_run {A} (m : D (S := S) A) h w w' a : m w = (w', inl a) -> dtry m h w = (w', inl a).
Proof. unfold dtry. by intros ->. Qed.

Lemma settle_run {A} (m : D (S := S) A) w w' a : m w = (w', inl a) -> settle m w = (w', inl (inl a)).
Proof. unfold settle. by intros ->. Qed.

(** What goes out is never taken back. *)
Definition sends {A} (m : D (S := S) A) : Prop := forall w, exists qs, sent (m w).1 = sent w ++ qs.

Lemma sends_quiet {A} (m : D (S := S) A) : (forall w, sent (m w).1 = sent w) -> sends m.
Proof. intros H w. exists []. by rewrite H, app_nil_r. Qed.

Lemma sends_bind {A B} (m : D (S := S) A) (k : A -> D B) : sends m -> (forall a, sends (k a)) -> sends (dbind m k).
Proof.
  intros Hm Hk w. unfold dbind. destruct (Hm w) as [qs E]. destruct (m w) as [w' [a|e]]; cbn [fst] in *; [|by exists qs].
  destruct (Hk a w') as [qs' E']. exists (qs ++ qs'). by rewrite E', E, app_assoc.
Qed.

Lemma sends_try {A} (m : D (S := S) A) h : sends m -> (forall e, sends (h e)) -> sends (dtry m h).
Proof.
  intros Hm Hh w. unfold dtry. destruct (Hm w) as [qs E]. destruct (m w) as [w' [a|e]]; cbn [fst] in *; [by exists qs|].
  destruct (Hh e w') as [qs' E']. exists (qs ++ qs'). by rewrite E', E, app_assoc.
Qed.

Lemma sends_settle {A} (m : D (S := S) A) : sends m -> sends (settle m).
Proof. intros Hm w. unfold settle. destruct (Hm w) as [qs E]. destruct (m w). by exists qs. Qed.

Lemma sends_fetch server q : sends (fetch_json server q).
Proof. intros w. unfold fetch_json. destruct (server q (srv w)). by eexists. Qed.

Lemma sends_prop v k : sends (prop v k).
Proof. apply sends_quiet. intros w. by destruct v. Qed.

Lemma sends_unsettle {A} (r : A + jsstr) : sends (unsettle r).
Proof. apply sends_quiet. intros w. by destruct r. Qed.

Lemma sends_refresh server base wallet : sends (refreshBalance server base wallet).
Proof.
  unfold refreshBalance. destruct (negb _); [by apply sends_quiet|]. apply sends_try; [|intros; by apply sends_quiet].
  apply sends_bind; [apply sends_settle, sends_fetch|intros r1].
  apply sends_bind; [apply sends_settle; destruct (l1Address wallet); [by apply sends_quiet|apply sends_fetch]|intros r2].
  repeat (apply sends_bind; [apply sends_unsettle || apply sends_prop|intros ?]).
  destruct (vtruthy _); [|by apply sends_quiet].
  repeat (apply sends_bind; [apply sends_prop|intros ?]). by apply sends_quiet.
Qed.

Lemma sends_note v : sends (tx_note v).
Proof. apply sends_quiet. intros w. destruct v as [| |[]| |[|]| |]; try done; cbn; by repeat case_match. Qed.
End Runs.
