(* ===== verification/DexLedger.v ===== *)
(** * The exchange's ledger

    The server's side of src/dex-archive/dex: the balances of trading accounts and
    what is locked of L1 addresses (src/api/main.go, [dexLedger]), its deposit,
    withdrawal and wallet handlers, and the page of DexWallet.v in front of it. The
    node is a parameter: on-chain balances, the assets of an address, and the answer
    to a new account. *)

From stdpp Require Import gmap.
From S2P Require Import Prelude JsText Amounts Numbers Utf8 Json Vault Mnemonic Endpoints Store Api MobileRoutes CustomFetch ApiClient Explorer DexWallet.
Local Open Scope Z_scope.

Record ledger := { trading : gmap jsstr double; locked : gmap jsstr double; l1ToTrading : gmap jsstr jsstr }.

Definition getDexTradingBalance (L : ledger) (a : jsstr) : double := default (of_Z 0) (trading L !! a).
Definition getL1LockedBalance (L : ledger) (a : jsstr) : double := default (of_Z 0) (locked L !! a).

(** A string and a number of the decoded body. *)
Definition body_string (body : val) (k : jsstr) : jsstr := match vprop body k with VStr s => s | _ => [] end.
Definition body_float (body : val) (k : jsstr) : double := match vprop body k with VNum (Fin x) => Fin x | _ => of_Z 0 end.

Definition answer (v : val) : http_reply := Response 200 [] None (inl v).
Definition failure (t : jsstr) : val := VObj [(js "error", VStr t)].

Section Handlers.
(** [getL1OnChainBalance] *)
Variable onChain : jsstr -> double.
(** The assets of an address, the legacy wallet and a new account. *)
Variable assets_of : jsstr -> val.
Variable legacy : val.
Variable create : val -> val.

(** [onChain - locked], at least 0. *)
Definition available (L : ledger) (a : jsstr) : double :=
  let x := dsub (onChain a) (getL1LockedBalance L a) in if dlt x (of_Z 0) then of_Z 0 else x.

Definition is_zero (x : double) : bool := dle x (of_Z 0) && dle (of_Z 0) x.

Definition getWalletInfo (L : ledger) (addr : jsstr) : val :=
  let tradingBal := getDexTradingBalance L addr in
  let displayBal := if dlt (of_Z 0) tradingBal && is_zero (onChain addr) then tradingBal else available L addr in
  VObj [(js "connected", VBool true); (js "address", VStr addr); (js "balance_grd", VNum displayBal);
        (js "onchain_grd", VNum (onChain addr)); (js "locked_grd", VNum (getL1LockedBalance L addr));
        (js "trading_grd", VNum tradingBal); (js "assets", assets_of addr)].

Definition add_to (m : gmap jsstr double) (a : jsstr) (x : double) : gmap jsstr double :=
  <[a := dadd (default (of_Z 0) (m !! a)) x]> m.

Definition MISSING : jsstr := js "from_address, to_address, dan amount wajib diisi".

(** The reads of [handleDexDeposit], before it takes the lock. *)
Definition deposit_check (L : ledger) (body : val) : val + (jsstr * jsstr * double) :=
  let from := body_string body (js "from_address") in
  let to := body_string body (js "to_address") in
  let amount := body_float body (js "amount") in
  if bool_decide (from = []) || bool_decide (to = []) || dle amount (of_Z 0) then inl (failure MISSING) else
  let avail := dsub (onChain from) (getL1LockedBalance L from) in
  if dlt avail amount then inl (failure (js "Saldo L1 tidak cukup. Tersedia: " ++ go_fixed 4 avail ++ js " GRD"))
  else inr (from, to, amount).

(** What it does under the lock. *)
Definition deposit_commit (L : ledger) (from to : jsstr) (amount : double) : ledger :=
  {| locked := add_to (locked L) from amount; trading := add_to (trading L) to amount;
     l1ToTrading := <[from := to]> (l1ToTrading L) |}.

Definition handleDexDeposit (L : ledger) (body : val) : ledger * val :=
  match deposit_check L body with
  | inl e => (L, e)
  | inr (from, to, amount) =>
      let L' := deposit_commit L from to amount in
      (L', VObj [(js "status", VStr (js "ok")); (js "deposited", VNum amount);
                 (js "balance_grd", VNum (getDexTradingBalance L' to));
                 (js "l1_available", VNum (dsub (onChain from) (getL1LockedBalance L' from)))])
  end.

Definition withdraw_check (L : ledger) (body : val) : val + (jsstr * jsstr * double) :=
  let from := body_string body (js "from_address") in
  let to := body_string body (js "to_address") in
  let amount := body_float body (js "amount") in
  if bool_decide (from = []) || bool_decide (to = []) || dle amount (of_Z 0) then inl (failure MISSING) else
  let bal := getDexTradingBalance L from in
  if dlt bal amount then inl (failure (js "Saldo trading tidak cukup. Tersedia: " ++ go_fixed 4 bal ++ js " GRD"))
  else inr (from, to, amount).

Definition withdraw_commit (L : ledger) (from to : jsstr) (amount : double) : ledger :=
  let rest := dsub (getL1LockedBalance L to) amount in
  {| trading := <[from := dsub (getDexTradingBalance L from) amount]> (trading L);
     locked := <[to := if dlt rest (of_Z 0) then of_Z 0 else rest]> (locked L); l1ToTrading := l1ToTrading L |}.

Definition handleDexWithdraw (L : ledger) (body : val) : ledger * val :=
  match withdraw_check L body with
  | inl e => (L, e)
  | inr (from, to, amount) =>
      let L' := withdraw_commit L from to amount in
      (L', VObj [(js "status", VStr (js "ok")); (js "withdrawn", VNum amount);
                 (js "balance_grd", VNum (getDexTradingBalance L' from));
                 (js "l1_available", VNum (dsub (onChain to) (getL1LockedBalance L' to)))])
  end.

Definition handleDexWalletConnect (L : ledger) (url : jsstr) : val :=
  match Get (ParseQuery (query_text url)) (js "address") with
  | [] => legacy
  | addr => getWalletInfo L addr
  end.

Definition POST_ONLY : http_reply := Response 405 (js "Method Not Allowed") (Some (js "POST only")) (inr (js "SyntaxError")).

(** The routes of the exchange. *)
Definition dex_server (q : http_request) (L : ledger) : ledger * http_reply :=
  let path := path_of (h_path q) in
  let body := default VUndef (h_body q) in
  let post (h : ledger -> val -> ledger * val) :=
    if bool_decide (h_method q = js "POST") then let '(L', v) := h L body in (L', answer v) else (L, POST_ONLY) in
  if bool_decide (path = js "/api/dex/wallet/connect") then (L, answer (handleDexWalletConnect L (h_path q)))
  else if bool_decide (path = js "/api/dex/wallet/create") then (L, answer (create body))
  else if bool_decide (path = js "/api/dex/deposit") then post handleDexDeposit
  else if bool_decide (path = js "/api/dex/withdraw") then post handleDexWithdraw
  else (L, Rejected (js "no route")).
End Handlers.

(** ** Runs of the page *)

Definition alnum (u : Z) : bool := ((48 <=? u) && (u <=? 57)) || ((65 <=? u) && (u <=? 90)) || ((97 <=? u) && (u <=? 122)).
(** Addresses are letters and digits. *)
Definition plain_address (a : jsstr) : bool := negb (bool_decide (a = [])) && forallb alnum a.

Lemma plain_apart a sep : plain_address a = true -> alnum sep = false -> Forall (fun u => u <> sep) a.
Proof.
  intros [_ Ha]%andb_true_iff Hs. rewrite forallb_forall in Ha. apply Forall_forall.
  intros u Hu%list_elem_of_In ->. specialize (Ha sep Hu). congruence.
Qed.

Lemma unescape_plain a : plain_address a = true -> QueryUnescape a = Some a.
Proof.
  intros [_ Ha]%andb_true_iff. induction a as [|u a IH]; [done|]. cbn [forallb] in Ha.
  apply andb_true_iff in Ha as [Hu Ha]. cbn [QueryUnescape]. unfold alnum in Hu.
  rewrite (proj2 (Z.eqb_neq u 37)), (proj2 (Z.eqb_neq u 43)) by lia. by rewrite IH.
Qed.

Lemma query_address a : plain_address a = true ->
  Get (ParseQuery (query_text (js "/api/dex/wallet/connect?address=" ++ a))) (js "address") = a.
Proof.
  intros Ha. change (query_text _) with (js "address" ++ [61] ++ a).
  assert (forall sep, sep = 38 \/ sep = 59 -> Forall (fun u => u <> sep) (js "address" ++ [61] ++ a)) as Hs.
  { intros sep Hsep. rewrite !Forall_app.
    split_and_all; [destruct Hsep as [-> | ->]; apply (bool_decide_unpack _); vm_compute; exact I..|].
    apply plain_apart; [done|]. by destruct Hsep as [-> | ->]. }
  unfold ParseQuery. rewrite split_none by auto. cbn [omap list_omap]. unfold query_pair.
  destruct (js "address" ++ [61] ++ a) as [|z l] eqn:E; [discriminate E|]. rewrite <- E in *. clear z l E.
  assert (existsb (Z.eqb 59) (js "address" ++ [61] ++ a) = false) as ->.
  { apply not_true_iff_false. rewrite existsb_exists. intros (u & Hu & <-%Z.eqb_eq).
    specialize (Hs 59 (or_intror eq_refl)). rewrite Forall_forall in Hs. by apply (Hs 59); [apply list_elem_of_In|]. }
  rewrite cut_at by (apply (bool_decide_unpack _); vm_compute; exact I).
  change (QueryUnescape (js "address")) with (Some (js "address")). by rewrite unescape_plain.
Qed.

Section Runs.
Context {K : KV} {L : KVLaws K}.
Variable onChain : jsstr -> double.
Variable assets_of : jsstr -> val.
Variable legacy : val.
Variable create : val -> val.
Variable provider : option (val -> D (S := ledger) val).

Abbreviation server := (dex_server onChain assets_of legacy create).
Abbreviation info := (getWalletInfo onChain assets_of).

(** The page after requests that changed the server. *)
Definition went (w : dex (S := ledger)) (s : ledger) (qs : list http_request) : dex (S := ledger) :=
  {| local := local w; ui := ui w; srv := s; sent := sent w ++ qs |}.

Definition balance_request (a : jsstr) : http_request :=
  {| h_path := js "/api/dex/wallet/connect?address=" ++ a; h_method := js "GET"; h_body := None |}.

Lemma run_info s a k w : prop (S := ledger) (info s a) k w = (w, inl (vprop (info s a) k)).
Proof. done. Qed.

Lemma info_connected s a : vtruthy (vprop (info s a) (js "connected")) = true.
Proof. done. Qed.

Lemma run_balance a w : plain_address a = true ->
  fetchBalance server [] a w = (went w (srv w) [balance_request a], inl (info (srv w) a)).
Proof.
  intros Ha. unfold fetchBalance, get_json, fetch_json. cbn [app].
  change (dex_server _ _ _ _ _ (srv w)) with
    (srv w, answer (handleDexWalletConnect onChain assets_of legacy (srv w) (js "/api/dex/wallet/connect?address=" ++ a))).
  unfold handleDexWalletConnect. rewrite query_address by done. destruct a as [|u a]; [done|]. reflexivity.
Qed.

(** The state after the balances were read again. *)
Definition refreshed (s : ledger) (A T : jsstr) (prev : WalletState) : WalletState :=
  {| isConnected := isConnected prev; l1Address := l1Address prev;
     l1BalanceGrd := vprop (info s A) (js "balance_grd"); l1Type := l1Type prev; address := address prev;
     balanceGrd := vprop (info s T) (js "balance_grd");
     assets := if vtruthy (assets_of T) then assets_of T else assets prev; loading := loading prev |}.

Lemma run_refresh wallet A T w :
  plain_address A = true -> plain_address T = true -> l1Address wallet = A -> address wallet = VStr T ->
  refreshBalance server [] wallet w
  = ({| local := local w; ui := refreshed (srv w) A T (ui w); srv := srv w;
        sent := sent w ++ [balance_request T; balance_request A] |}, inl tt).
Proof.
  intros HA HT El Ea. unfold refreshBalance. rewrite Ea, El. destruct T as [|t T']; [done|]. cbn [vtruthy negb val_text].
  destruct A as [|a A']; [done|]. apply dtry_run.
  erewrite dbind_run by by apply settle_run, run_balance. erewrite dbind_run by by apply settle_run, run_balance.
  do 2 erewrite dbind_run by reflexivity. erewrite dbind_run by apply run_info.
  rewrite info_connected. do 2 erewrite dbind_run by apply run_info.
  unfold setWallet, went. cbn [local ui srv sent]. by rewrite <- app_assoc.
Qed.

Definition deposit_body (A T : jsstr) (x : double) : val :=
  VObj [(js "from_address", VStr A); (js "to_address", VStr T); (js "amount", VNum x)].
Definition withdraw_body (T A : jsstr) (x : double) : val :=
  VObj [(js "from_address", VStr T); (js "to_address", VStr A); (js "amount", VNum x)].

Definition post_request (path : jsstr) (body : val) : http_request :=
  {| h_path := path; h_method := js "POST"; h_body := Some body |}.

Lemma run_post_deposit body w :
  post_json server [] (js "/api/dex/deposit") body w
  = (went w (handleDexDeposit onChain (srv w) body).1 [post_request (js "/api/dex/deposit") body],
     inl (handleDexDeposit onChain (srv w) body).2).
Proof.
  unfold post_json, fetch_json.
  change (server _ (srv w)) with (let '(s, v) := handleDexDeposit onChain (srv w) body in (s, answer v)).
  by destruct (handleDexDeposit onChain (srv w) body).
Qed.

Lemma run_post_withdraw body w :
  post_json server [] (js "/api/dex/withdraw") body w
  = (went w (handleDexWithdraw onChain (srv w) body).1 [post_request (js "/api/dex/withdraw") body],
     inl (handleDexWithdraw onChain (srv w) body).2).
Proof.
  unfold post_json, fetch_json.
  change (server _ (srv w)) with (let '(s, v) := handleDexWithdraw onChain (srv w) body in (s, answer v)).
  by destruct (handleDexWithdraw onChain (srv w) body).
Qed.

(** An amount the handlers accept passes the page's own test. *)
Lemma valid_amount wallet A T x :
  plain_address A = true -> plain_address T = true -> l1Address wallet = A -> address wallet = VStr T ->
  dle x (of_Z 0) = false -> invalid wallet x = false.
Proof. intros HA HT El Ea Hx. unfold invalid. rewrite El, Ea, Hx. by destruct A, T. Qed.

Lemma check_amount (s : ledger) A T x y : deposit_check onChain s (deposit_body A T x) = inr y -> y = (A, T, x) -> dle x (of_Z 0) = false.
Proof.
  unfold deposit_check. cbn [body_string]. destruct (_ || _) eqn:E; [done|]. destruct (dlt _ _); [done|]. intros [= <-] Hy.
  apply orb_false_iff in E as [_ E]. injection Hy as Hx. by rewrite Hx in E.
Qed.

(** A call the server accepted: the balances are read again. *)
Lemma run_settled wallet A T fs w :
  plain_address A = true -> plain_address T = true -> l1Address wallet = A -> address wallet = VStr T ->
  vlookup fs (js "status") = VStr (js "ok") ->
  exists qs, settled server [] wallet (VObj fs) w
  = ({| local := local w; ui := refreshed (srv w) A T (ui w); srv := srv w; sent := qs |}, inl (VObj fs)).
Proof.
  intros HA HT El Ea Hs. unfold settled. erewrite dbind_run by reflexivity. cbn [vprop]. rewrite Hs.
  change (is_text _ _) with true. cbn match. eexists. erewrite dbind_run; [reflexivity|]. by apply run_refresh.
Qed.

Lemma run_deposit A T x w :
  let wallet := ui w in
  plain_address A = true -> plain_address T = true -> l1Address wallet = A -> address wallet = VStr T ->
  provider = None \/ l1Type wallet <> js "extension" ->
  deposit_check onChain (srv w) (deposit_body A T x) = inr (A, T, x) ->
  let s := deposit_commit (srv w) A T x in
  exists v qs, deposit server [] provider wallet x w
  = ({| local := local w; ui := refreshed s A T (ui w); srv := s; sent := qs |}, inl v).
Proof.
  intros wallet HA HT El Ea Hp Hc s. unfold deposit.
  rewrite (valid_amount wallet A T) by (try done; by eapply check_amount).
  assert (exists v qs, (dbind (post_json server [] (js "/api/dex/deposit")
      (VObj [(js "from_address", VStr (l1Address wallet)); (js "to_address", address wallet); (js "amount", VNum x)]))
      (fun res => settled server [] wallet res)) w
    = ({| local := local w; ui := refreshed s A T (ui w); srv := s; sent := qs |}, inl v)) as (v & qs & H).
  { rewrite El, Ea. fold (deposit_body A T x). erewrite dbind_run by apply run_post_deposit.
    unfold handleDexDeposit. rewrite Hc. cbn [fst snd]. fold s. eexists.
    edestruct (run_settled wallet A T) as [qs ->]; [done..|reflexivity|]. by exists qs. }
  exists v, qs. destruct provider as [f|]; [|exact H]. destruct Hp as [?|Hp]; [done|].
  rewrite bool_decide_eq_false_2 by done. exact H.
Qed.

Lemma run_withdraw A T x w :
  let wallet := ui w in
  plain_address A = true -> plain_address T = true -> l1Address wallet = A -> address wallet = VStr T ->
  dle x (of_Z 0) = false -> withdraw_check (srv w) (withdraw_body T A x) = inr (T, A, x) ->
  let s := withdraw_commit (srv w) T A x in
  exists v qs, withdraw server [] wallet x w
  = ({| local := local w; ui := refreshed s A T (ui w); srv := s; sent := qs |}, inl v)
    /\ vprop v (js "status") = VStr (js "ok").
Proof.
  intros wallet HA HT El Ea Hx Hc s. unfold withdraw. rewrite (valid_amount wallet A T) by done.
  rewrite El, Ea. fold (withdraw_body T A x). erewrite dbind_run by apply run_post_withdraw.
  unfold handleDexWithdraw. rewrite Hc. cbn [fst snd]. fold s. eexists.
  edestruct (run_settled wallet A T) as [qs ->]; [done..|reflexivity|]. by exists qs.
Qed.

(** The state of a page connected to a known account. *)
Definition reconnected (s : ledger) (A T type : jsstr) : WalletState :=
  {| isConnected := true; l1Address := A; l1BalanceGrd := vprop (info s A) (js "balance_grd"); l1Type := type;
     address := VStr T; balanceGrd := vprop (info s T) (js "balance_grd");
     assets := if vtruthy (assets_of T) then assets_of T else VArr []; loading := false |}.

Lemma run_connect_known A T type w :
  plain_address A = true -> plain_address T = true -> getItem (local w) (trading_key A) = Some T ->
  exists l, connectWithL1 server [] A type w
  = ({| local := l; ui := reconnected (srv w) A T type; srv := srv w;
        sent := sent w ++ [balance_request A; balance_request T] |}, inl tt)
    /\ getItem l (trading_key A) = Some T.
Proof.
  intros HA HT Hk. destruct T as [|t T']; [done|].
  unfold connectWithL1. erewrite dbind_run by reflexivity. eexists. split.
  - apply dtry_run. erewrite dbind_run.
    2: { unfold trading_account. erewrite dbind_run by by apply run_balance. erewrite dbind_run by apply run_info.
         erewrite dbind_run by reflexivity. cbn [local went]. rewrite Hk.
         erewrite dbind_run. 2: { erewrite dbind_run by by apply run_balance. reflexivity. }
         cbn match. change (vtruthy (VStr (t :: T')) && vtruthy (info _ (t :: T'))) with true. cbn match.
         do 2 erewrite dbind_run by apply run_info. reflexivity. }
    unfold connected. do 3 erewrite dbind_run by reflexivity. unfold localSet, reconnected. cbn [local ui srv sent went].
    rewrite <- app_assoc. reflexivity.
  - rewrite !get_set_ne; [done|intros E; vm_compute in E; discriminate E..].
Qed.

(** What the server is asked for a new account. *)
Definition label_body (A : jsstr) : val := VObj [(js "label", VStr (js "trading-" ++ take 12 A))].

Lemma run_connect_new A T type w fs :
  plain_address A = true -> T <> [] -> getItem (local w) (trading_key A) = None ->
  create (label_body A) = VObj fs -> vlookup fs (js "address") = VStr T ->
  exists u l qs, connectWithL1 server [] A type w = ({| local := l; ui := u; srv := srv w; sent := qs |}, inl tt)
  /\ address u = VStr T /\ isConnected u = true
  /\ getItem l (trading_key A) = Some T /\ getItem l (js "garuda_dex_connected") = Some (js "true")
  /\ getItem l (js "garuda_dex_l1") = Some A /\ getItem l (js "garuda_dex_l1_type") = Some type.
Proof.
  intros HA HT Hk Hc Hf. destruct T as [|t T']; [done|].
  unfold connectWithL1. erewrite dbind_run by reflexivity. eexists _, _, _. split.
  - apply dtry_run. erewrite dbind_run.
    2: { unfold trading_account. erewrite dbind_run by by apply run_balance. erewrite dbind_run by apply run_info.
         erewrite dbind_run by reflexivity. cbn [local went]. rewrite Hk.
         erewrite dbind_run.
         2: { erewrite dbind_run.
              2: { unfold post_json, fetch_json.
                   change (server _ (srv _)) with (srv w, answer (create (label_body A))). rewrite Hc. reflexivity. }
              erewrite dbind_run by reflexivity. cbn [vprop]. rewrite Hf. change (vtruthy (VStr (t :: T'))) with true.
              cbn match. erewrite dbind_run by reflexivity. reflexivity. }
         cbn match. change (vtruthy (VStr (t :: T')) && vtruthy (VObj fs)) with true. cbn match.
         do 2 erewrite dbind_run by reflexivity. reflexivity. }
    unfold connected. do 3 erewrite dbind_run by reflexivity. reflexivity.
  - cbn [address isConnected local]. split_and_all; try done;
      repeat first [rewrite get_set by done | rewrite get_set_ne by (intros E; vm_compute in E; discriminate E)]; done.
Qed.
End Runs.

(** A deposit the server credits never shows on the page when the trading
    address holds coins on chain, which it does from its creation: the ledger's
    balance of the account grows by the amount, the balance the page shows stays
    what it was, and a withdrawal of more than that is refused before any request. *)
Theorem deposit_stays_hidden {K : KV} {L : KVLaws K} (onChain : jsstr -> double) (assets_of : jsstr -> val) (legacy : val)
    (create : val -> val) (provider : option (val -> D val)) (A T : jsstr) (x : double) (w : dex) :
  let server := dex_server onChain assets_of legacy create in
  let shown s := vprop (getWalletInfo onChain assets_of s T) (js "balance_grd") in
  plain_address A = true -> plain_address T = true -> A <> T ->
  l1Address (ui w) = A -> address (ui w) = VStr T -> provider = None \/ l1Type (ui w) <> js "extension" ->
  is_zero (onChain T) = false -> balanceGrd (ui w) = shown (srv w) ->
  deposit_check onChain (srv w) (deposit_body A T x) = inr (A, T, x) ->
  let w' := (deposit server [] provider (ui w) x w).1 in
  getDexTradingBalance (srv w') T = dadd (getDexTradingBalance (srv w) T) x
  /\ balanceGrd (ui w') = balanceGrd (ui w)
  /\ forall m, m_deposit m = false -> dlt (to_number (balanceGrd (ui w))) (parsedAmount m) = true ->
       (handleExecute server [] provider m (ui w') w').1 = w'.
Proof.
  intros server shown HA HT Hne El Ea Hp Hz Hb Hc w'.
  destruct (run_deposit onChain assets_of legacy create provider A T x w HA HT El Ea Hp Hc) as (v & qs & E).
  assert (w' = {| local := local w; ui := refreshed onChain assets_of (deposit_commit (srv w) A T x) A T (ui w);
                  srv := deposit_commit (srv w) A T x; sent := qs |}) as -> by (unfold w', server; by rewrite E).
  assert (shown (deposit_commit (srv w) A T x) = shown (srv w)) as Hs.
  { unfold shown, getWalletInfo. rewrite Hz, !andb_false_r. cbn [vprop]. unfold available, getL1LockedBalance, deposit_commit.
    cbn [locked]. unfold add_to. by rewrite lookup_insert_ne. }
  assert (balanceGrd (refreshed onChain assets_of (deposit_commit (srv w) A T x) A T (ui w)) = balanceGrd (ui w)) as Hu
    by (rewrite Hb; exact Hs).
  cbn [srv ui]. split_and_all; [|exact Hu|].
  - unfold getDexTradingBalance at 1, deposit_commit, add_to. cbn [trading]. by rewrite lookup_insert_eq.
  - intros m Hm Hlt. unfold handleExecute, maxAmount. rewrite Hm, Hu, Hlt.
    by destruct (dle (parsedAmount m) (of_Z 0)).
Qed.

(** Withdrawals name no owner: whoever's browser has a foreign trading account
    on record for its own L1 address connects to that account, and its withdrawal
    is carried out, debiting the account and releasing the coins locked for the
    asker's address. *)
Theorem withdraw_needs_no_owner {K : KV} {L : KVLaws K} (onChain : jsstr -> double) (assets_of : jsstr -> val) (legacy : val)
    (create : val -> val) (V M type : jsstr) (x : num) (w : dex) :
  let server := dex_server onChain assets_of legacy create in
  plain_address V = true -> plain_address M = true -> getItem (local w) (trading_key M) = Some V ->
  dle (Fin x) (of_Z 0) = false -> dlt (getDexTradingBalance (srv w) V) (Fin x) = false ->
  let w1 := (connectWithL1 server [] M type w).1 in
  let '(w2, r) := withdraw server [] (ui w1) (Fin x) w1 in
  (exists v, r = inl v /\ vprop v (js "status") = VStr (js "ok"))
  /\ getDexTradingBalance (srv w2) V = dsub (getDexTradingBalance (srv w) V) (Fin x)
  /\ getL1LockedBalance (srv w2) M
     = (let rest := dsub (getL1LockedBalance (srv w) M) (Fin x) in if dlt rest (of_Z 0) then of_Z 0 else rest).
Proof.
  intros server HV HM Hk Hx Hb w1.
  destruct (run_connect_known onChain assets_of legacy create M V type w HM HV Hk) as (l & E & _).
  assert (w1 = {| local := l; ui := reconnected onChain assets_of (srv w) M V type; srv := srv w;
                  sent := sent w ++ [balance_request M; balance_request V] |}) as E1 by (unfold w1, server; by rewrite E).
  destruct (run_withdraw onChain assets_of legacy create M V (Fin x) w1) as (v & qs & E2 & Hv);
    [exact HM|exact HV|by rewrite E1|by rewrite E1|exact Hx| |].
  { rewrite E1. unfold withdraw_check. cbn [srv]. change (body_string _ (js "from_address")) with V.
    change (body_string _ (js "to_address")) with M. change (body_float _ _) with (Fin x). rewrite Hx, Hb.
    destruct V, M; done. }
  unfold server. rewrite E2, E1. cbn [srv]. split_and_all; [by eexists| |].
  - unfold getDexTradingBalance at 1. cbn [withdraw_commit trading]. by rewrite lookup_insert_eq.
  - unfold getL1LockedBalance at 1. cbn [withdraw_commit locked]. by rewrite lookup_insert_eq.
Qed.

(** C24. The trading account of an L1 address is kept: after a connection that made
    the account, a page opened later in the same browser reconnects to the same
    address, asking the server for two balances and for no new account; after
    [disconnect] a new page stays disconnected. *)
Theorem reconnect_keeps_account {K : KV} {L : KVLaws K} (onChain : jsstr -> double) (assets_of : jsstr -> val) (legacy : val)
    (create : val -> val) (A T type : jsstr) (fs : list (jsstr * val)) (w : dex) :
  let server := dex_server onChain assets_of legacy create in
  let reopened w := {| local := local w; ui := disconnected; srv := srv w; sent := [] |} in
  plain_address A = true -> plain_address T = true -> type <> [] -> getItem (local w) (trading_key A) = None ->
  create (label_body A) = VObj fs -> vlookup fs (js "address") = VStr T ->
  let w1 := (connectWithL1 server [] A type w).1 in
  let w2 := (reconnect server [] (reopened w1)).1 in
  ui w2 = reconnected onChain assets_of (srv w) A T type
  /\ sent w2 = [balance_request A; balance_request T]
  /\ ui (reconnect server [] (reopened (disconnect w1).1)).1 = disconnected.
Proof.
  intros server reopened HA HT Hty Hk Hc Hf w1 w2.
  destruct (run_connect_new onChain assets_of legacy create A T type w fs) as (u & l & qs & E & _ & _ & G1 & G2 & G3 & G4);
    [done|by destruct T|done..|].
  assert (w1 = {| local := l; ui := u; srv := srv w; sent := qs |}) as E1 by (unfold w1, server; by rewrite E).
  destruct (run_connect_known onChain assets_of legacy create A T type (reopened w1)) as (l2 & E2 & _);
    [done|done|by rewrite E1|].
  assert (reconnect server [] (reopened w1) = connectWithL1 server [] A type (reopened w1)) as R.
  { unfold reconnect. do 3 erewrite dbind_run by reflexivity. unfold reopened. rewrite E1. cbn [local]. rewrite G2, G3, G4.
    destruct A as [|a A']; [done|]. destruct type as [|t ty]; [done|]. by rewrite bool_decide_eq_true_2. }
  unfold w2. rewrite R. unfold server. rewrite E2. split_and_all; [by rewrite E1|done|].
  unfold reconnect. do 3 erewrite dbind_run by reflexivity. unfold reopened, disconnect, dbind. rewrite E1.
  cbn [setWallet localRemove fst local]. rewrite get_remove. by repeat case_match.
Qed.

(** Two users of a server whose node knows two funded addresses. *)
Definition sample_chain (a : jsstr) : double :=
  if bool_decide (a = js "grdA") then of_Z 10 else if bool_decide (a = js "grdT") then of_Z 1 else of_Z 0.

Definition sample_dex (l1 : jsstr) (s : ledger) : dex (K := map_kv) (S := ledger) :=
  {| local := <[trading_key l1 := js "grdT"]> ∅; srv := s; sent := [];
     ui := reconnected sample_chain (fun _ => VArr []) s l1 (js "grdT") (js "address") |}.

Definition empty_ledger : ledger := {| trading := ∅; locked := ∅; l1ToTrading := ∅ |}.

Lemma deposit_stays_hidden_witness :
  let server := dex_server sample_chain (fun _ => VArr []) VNull (fun v => v) in
  let w := sample_dex (js "grdA") empty_ledger in
  let w' := (deposit (K := map_kv) server [] None (ui w) (of_Z 5) w).1 in
  getDexTradingBalance (srv w') (js "grdT") = dadd (of_Z 0) (of_Z 5) /\ balanceGrd (ui w') = VNum (of_Z 1).
Proof.
  intros server w w'.
  pose proof (deposit_stays_hidden (K := map_kv) (L := map_kv_laws) sample_chain (fun _ => VArr []) VNull (fun v => v) None
    (js "grdA") (js "grdT") (of_Z 5) w) as T. cbv zeta in T.
  destruct T as (T1 & T2 & _);
    [vm_compute; reflexivity|vm_compute; reflexivity|intros E; vm_compute in E; discriminate E|reflexivity|reflexivity
    |by left|vm_compute; reflexivity|vm_compute; reflexivity|vm_compute; reflexivity|].
  split; [exact T1|]. unfold w', server. rewrite T2. vm_compute. reflexivity.
Defined.

Lemma withdraw_needs_no_owner_witness :
  let server := dex_server sample_chain (fun _ => VArr []) VNull (fun v => v) in
  let s := deposit_commit empty_ledger (js "grdA") (js "grdT") (of_Z 5) in
  let w1 := (connectWithL1 server [] (js "grdM") (js "address") (sample_dex (js "grdM") s)).1 in
  let '(w2, r) := withdraw server [] (ui w1) (of_Z 5) w1 in
  getDexTradingBalance (srv w2) (js "grdT") = dsub (dadd (of_Z 0) (of_Z 5)) (of_Z 5).
Proof.
  intros server s w1.
  pose proof (withdraw_needs_no_owner (K := map_kv) (L := map_kv_laws) sample_chain (fun _ => VArr []) VNull (fun v => v)
    (js "grdT") (js "grdM") (js "address") {| mant := 5629499534213120; expo := -50 |} (sample_dex (js "grdM") s)) as T.
  cbv zeta in T. change (Fin {| mant := 5629499534213120; expo := -50 |}) with (of_Z 5) in T.
  unfold w1, server. destruct (withdraw _ _ _ _ _) as [w2 r]. destruct T as (_ & T & _);
    [vm_compute; reflexivity|vm_compute; reflexivity|vm_compute; reflexivity|vm_compute; reflexivity|vm_compute; reflexivity|].
  rewrite T. vm_compute. reflexivity.
Defined.

Lemma reconnect_keeps_account_witness :
  let create := fun _ => VObj [(js "address", VStr (js "grdT"))] in
  let server := dex_server sample_chain (fun _ => VArr []) VNull create in
  let fresh : dex (K := map_kv) := {| local := ∅; ui := disconnected; srv := empty_ledger; sent := [] |} in
  let w1 := (connectWithL1 server [] (js "grdA") (js "address") fresh).1 in
  address (ui (reconnect server [] {| local := local w1; ui := disconnected; srv := srv w1; sent := [] |}).1) = VStr (js "grdT").
Proof.
  intros create server fresh w1.
  pose proof (reconnect_keeps_account (K := map_kv) (L := map_kv_laws) sample_chain (fun _ => VArr []) VNull create
    (js "grdA") (js "grdT") (js "address") [(js "address", VStr (js "grdT"))] fresh) as T. cbv zeta in T.
  destruct T as (T & _);
    [vm_compute; reflexivity|vm_compute; reflexivity|intros E; vm_compute in E; discriminate E|vm_compute; reflexivity
    |reflexivity|vm_compute; reflexivity|].
  unfold w1, server. rewrite T. reflexivity.
Defined.

(** Two deposits that are checked before either is entered both pass: together they
    lock more than the address has on chain. *)
Lemma deposits_race :
  let a := deposit_body (js "grdA") (js "grdT") (of_Z 10) in
  let b := deposit_body (js "grdA") (js "grdU") (of_Z 10) in
  match deposit_check sample_chain empty_ledger a, deposit_check sample_chain empty_ledger b with
  | inr (f, t, x), inr (f', t', x') =>
      let s := deposit_commit (deposit_commit empty_ledger f t x) f' t' x' in
      dlt (sample_chain (js "grdA")) (getL1LockedBalance s (js "grdA")) = true
      /\ getDexTradingBalance s (js "grdT") = getDexTradingBalance s (js "grdU")
  | _, _ => False
  end.
Proof. vm_compute. split; reflexivity. Qed.
