(* ===== verification/DexTrade.v ===== *)
(** * The archived exchange: swaps and orders

    [SwapPage] of src/dex-archive/dex/src/pages/DEX.tsx and the order form of
    src/dex-archive/dex/src/components/dex/OrderForm.tsx, over the page and server of
    DexWallet.v. *)

From stdpp Require Import gmap.
From S2P Require Import Prelude JsText Amounts Numbers Locale Utf8 Json Vault Store Api P2P Market MarketList DexWallet.
Local Open Scope Z_scope.

Record Stock := { s_symbol : jsstr; s_name : jsstr; s_assetId : jsstr; s_tipe : jsstr; s_price : double }.

Definition GRD : jsstr := js "GRD".

(** [x || 0] *)
Definition or_zero (x : double) : double := if dsign x =? 0 then of_Z 0 else x.

Section Swap.
Variable onChainStocks : list Stock.

Definition find_stock (sym : jsstr) : option Stock := List.find (fun s => bool_decide (s_symbol s = sym)) onChainStocks.

(** ** Rates *)

Definition getPrice (sym : jsstr) (stock : option Stock) : double :=
  if bool_decide (sym = GRD) then of_Z 1 else
  match stock with
  | Some s =>
      if bool_decide (s_tipe s = js "STABLECOIN")
      then if dlt (of_Z 0) (s_price s) then s_price s else parseFloat (js "0.001")
      else or_zero (s_price s)
  | None => of_Z 0
  end.

Definition getRate (from to : jsstr) : double :=
  let toPriceGrd := getPrice to (find_stock to) in
  if dle toPriceGrd (of_Z 0) && dle (of_Z 0) toPriceGrd then of_Z 0
  else ddiv (getPrice from (find_stock from)) toPriceGrd.

(** ** The page *)

Record swap_page := {
  fromToken : jsstr; toToken : jsstr; slippage : double; customSlippage : jsstr; tokenPicker : option bool;
  amount : double; swap_toasts : list jsstr
}.

Definition swap_start : swap_page :=
  {| fromToken := GRD;
     toToken := match List.find (fun s => bool_decide (s_tipe s = js "STABLECOIN")) onChainStocks with
                | Some s => match s_symbol s with [] => GRD | t => t end
                | None => GRD
                end;
     slippage := parseFloat (js "0.5"); customSlippage := []; tokenPicker := None; amount := of_Z 0; swap_toasts := [] |}.

Definition with_tokens (p : swap_page) (from to : jsstr) (picker : option bool) (a : double) : swap_page :=
  {| fromToken := from; toToken := to; slippage := slippage p; customSlippage := customSlippage p; tokenPicker := picker;
     amount := a; swap_toasts := swap_toasts p |}.

Definition handleSwapTokens (p : swap_page) : swap_page :=
  with_tokens p (toToken p) (fromToken p) (tokenPicker p) (or_zero (dmul (amount p) (getRate (fromToken p) (toToken p)))).

(** The picker is open for the token paid ([Some true]) or for the one received. *)
Definition handleSelectToken (symbol : jsstr) (p : swap_page) : swap_page :=
  if bool_decide (tokenPicker p = Some true)
  then with_tokens p symbol (if bool_decide (symbol = toToken p) then fromToken p else toToken p) None (amount p)
  else with_tokens p (if bool_decide (symbol = fromToken p) then toToken p else fromToken p) symbol None (amount p).

Definition with_slippage (p : swap_page) (s : double) (t : jsstr) : swap_page :=
  {| fromToken := fromToken p; toToken := toToken p; slippage := s; customSlippage := t; tokenPicker := tokenPicker p;
     amount := amount p; swap_toasts := swap_toasts p |}.

Definition handleCustomSlippage (text : jsstr) (p : swap_page) : swap_page :=
  let parsed := parseFloat text in
  with_slippage p (if dlt (of_Z 0) parsed && dle parsed (of_Z 50) then parsed else slippage p) text.

Definition SLIPPAGE_PRESETS : list double := map parseFloat [js "0.1"; js "0.5"; js "1.0"; js "3.0"].

(** ** Executing *)

Context {K : KV} {S : Type}.
Variable server : http_request -> S -> S * http_reply.
Variable API_BASE : jsstr.

Local Notation "'let!' x := m 'in' k" := (dbind m (fun x => k)) (at level 10, x pattern, m at level 100, k at level 200).
Local Notation "m ;;! k" := (dbind m (fun _ => k)) (at level 100, right associativity).

Definition swap_body (direction assetId : jsstr) (swapAmount : double) (address : val) (price : double) : val :=
  VObj [(js "direction", VStr direction); (js "asset_id", VStr assetId); (js "amount", VNum swapAmount);
        (js "address", address); (js "price", VNum price)].

Definition doSwap (wallet : WalletState) (direction assetId : jsstr) (swapAmount price : double) : D (S := S) val :=
  post_json server API_BASE (js "/api/dex/swap") (swap_body direction assetId swapAmount (address wallet) price).

Definition with_toast (p : swap_page) (t : jsstr) : swap_page :=
  {| fromToken := fromToken p; toToken := toToken p; slippage := slippage p; customSlippage := customSlippage p;
     tokenPicker := tokenPicker p; amount := amount p; swap_toasts := swap_toasts p ++ [t] |}.

(** After a swap went through: a message, the amount cleared, the balance read
    again. *)
Definition finished (wallet : WalletState) (p : swap_page) (t : jsstr) : D (S := S) swap_page :=
  refreshBalance server API_BASE wallet ;;! dret (with_tokens (with_toast p t) (fromToken p) (toToken p) (tokenPicker p) (of_Z 0)).

(** [res.trades_matched > 0] *)
Definition matched (res : val) : bool := vpositive (vprop res (js "trades_matched")).

Definition bid (s : Stock) (slippageMult : double) : double := dmul (s_price s) (dadd (of_Z 1) slippageMult).
Definition ask (s : Stock) (slippageMult : double) : double := dmul (s_price s) (dsub (of_Z 1) slippageMult).

Definition handleExecuteSwap (wallet : WalletState) (p : swap_page) : D (S := S) swap_page :=
  if negb (isConnected wallet) then dret (with_toast p (js "Wallet belum terhubung")) else
  let slippageMult := ddiv (slippage p) (of_Z 100) in
  dtry
    (if bool_decide (fromToken p = GRD) then
       match find_stock (toToken p) with
       | None => dret (with_toast p (js "Token tidak ditemukan"))
       | Some stock =>
           let! res := doSwap wallet (js "buy") (s_assetId stock) (amount p) (bid stock slippageMult) in
           let! e := prop res (js "error") in
           if vtruthy e then dret (with_toast p (js "Swap Gagal"))
           else finished wallet p (if matched res then js "Swap Berhasil!" else js "Order Pending")
       end
     else if bool_decide (toToken p = GRD) then
       match find_stock (fromToken p) with
       | None => dret (with_toast p (js "Token tidak ditemukan"))
       | Some stock =>
           let! res := doSwap wallet (js "sell") (s_assetId stock) (dfloor (amount p)) (ask stock slippageMult) in
           let! e := prop res (js "error") in
           if vtruthy e then dret (with_toast p (js "Swap Gagal"))
           else finished wallet p (if matched res then js "Swap Berhasil!" else js "Order Pending")
       end
     else
       match find_stock (fromToken p), find_stock (toToken p) with
       | Some fromStock, Some toStock =>
           let! res1 := doSwap wallet (js "sell") (s_assetId fromStock) (dfloor (amount p)) (ask fromStock slippageMult) in
           let! e1 := prop res1 (js "error") in
           if vtruthy e1 then dret (with_toast p (js "Swap Gagal (jual " ++ fromToken p ++ js ")")) else
           let grdAmount := dmul (amount p) (s_price fromStock) in
           let! res2 := doSwap wallet (js "buy") (s_assetId toStock) grdAmount (bid toStock slippageMult) in
           let! e2 := prop res2 (js "error") in
           if vtruthy e2 then dret (with_toast p (js "Swap Gagal (beli " ++ toToken p ++ js ")"))
           else finished wallet p (if matched res2 then js "Swap Berhasil! (via GRD)" else js "Order Pending")
       | _, _ => dret (with_toast p (js "Token tidak ditemukan"))
       end)
    (fun _ => dret (with_toast p (js "Swap Gagal"))).
End Swap.

(** ** The order form *)

Record order_form := {
  f_buy : bool; f_limit : bool; f_amount : jsstr; limitPrice : jsstr; pctValue : Z; form_toasts : list jsstr
}.

Definition qty (f : order_form) : double := or_zero (parseFloat (f_amount f)).

Definition price (f : order_form) (basePrice : double) : double :=
  if f_limit f then (let x := parseFloat (limitPrice f) in if dsign x =? 0 then basePrice else x) else basePrice.

(** What the form shows under "Order Value" and "Order Size". *)
Definition orderValue (f : order_form) (basePrice : double) : double :=
  if f_buy f then qty f else dmul (qty f) (price f basePrice).
Definition orderSize (f : order_form) (basePrice : double) : double :=
  if f_buy f then (if dlt (of_Z 0) (price f basePrice) then ddiv (qty f) (price f basePrice) else of_Z 0) else qty f.

Definition with_amount (f : order_form) (t : jsstr) (pct : Z) : order_form :=
  {| f_buy := f_buy f; f_limit := f_limit f; f_amount := t; limitPrice := limitPrice f; pctValue := pct;
     form_toasts := form_toasts f |}.

(** [handlePctChange]: a share of the balance, in GRD for a purchase and in tokens
    for a sale. *)
Definition handlePctChange (available : double) (pct : Z) (f : order_form) : order_form :=
  if pct =? 0 then with_amount f [] pct else
  let maxAmount := dmul available (ddiv (of_Z pct) (of_Z 100)) in
  with_amount f (if dlt (of_Z 0) maxAmount then fixed_text (if f_buy f then 8 else 4) maxAmount else []) pct.

(** The buttons of the two sides; the effect clears the amount when the side
    changes. *)
Definition setSide (buy : bool) (f : order_form) : order_form :=
  if Bool.eqb buy (f_buy f) then f else
  {| f_buy := buy; f_limit := f_limit f; f_amount := []; limitPrice := limitPrice f; pctValue := 0;
     form_toasts := form_toasts f |}.

Definition form_toast (f : order_form) (t : jsstr) : order_form :=
  {| f_buy := f_buy f; f_limit := f_limit f; f_amount := f_amount f; limitPrice := limitPrice f; pctValue := pctValue f;
     form_toasts := form_toasts f ++ [t] |}.

Definition side_text (f : order_form) : jsstr := if f_buy f then js "buy" else js "sell".

(** The form after an order went through. *)
Definition placed (f : order_form) : order_form :=
  {| f_buy := f_buy f; f_limit := f_limit f; f_amount := []; limitPrice := []; pctValue := 0;
     form_toasts := form_toasts f ++ [(if f_buy f then js "Buy" else js "Sell") ++ js " Order Berhasil"] |}.

Section Orders.
Context {K : KV} {S : Type}.
Variable server : http_request -> S -> S * http_reply.
Variable API_BASE : jsstr.
(** [window.garuda.placeOrder] *)
Variable provider : option (val -> D (S := S) val).

Local Notation "'let!' x := m 'in' k" := (dbind m (fun x => k)) (at level 10, x pattern, m at level 100, k at level 200).
Local Notation "m ;;! k" := (dbind m (fun _ => k)) (at level 100, right associativity).

(** [fetch(...)] whose status is looked at: [res.ok] and [res.json()]. *)
Definition post_ok (path : jsstr) (body : val) : D (S := S) (bool * val) :=
  fun w =>
    let q := {| h_path := API_BASE ++ path; h_method := js "POST"; h_body := Some body |} in
    let '(s, r) := server q (srv w) in
    ({| local := local w; ui := ui w; srv := s; sent := sent w ++ [q] |},
     match r with
     | Rejected e => inr e
     | Response st _ _ (inl v) => inl ((200 <=? st) && (st <=? 299), v)
     | Response _ _ _ (inr e) => inr e
     end).

Definition order_body (f : order_form) (assetId : jsstr) (orderAmount orderPrice : double) (address : val) : val :=
  VObj [(js "order_type", VStr (if f_limit f then js "limit" else js "market")); (js "side", VStr (side_text f));
        (js "asset_id", VStr assetId); (js "amount", VNum orderAmount); (js "price", VNum orderPrice);
        (js "address", address)].

(** [handleExecute] of the form. *)
Definition handleOrder (wallet : WalletState) (assetId : jsstr) (basePrice : double) (f : order_form) : D (S := S) order_form :=
  if negb (isConnected wallet) || bool_decide (assetId = []) || dle (qty f) (of_Z 0) then dret f
  else if f_limit f && (bool_decide (limitPrice f = []) || dle (parseFloat (limitPrice f)) (of_Z 0))
  then dret (form_toast f (js "Harga Diperlukan")) else
  let orderPrice := if f_limit f then parseFloat (limitPrice f) else price f basePrice in
  let orderAmount := dfloor (qty f) in
  if dle orderAmount (of_Z 0) then dret (form_toast f (js "Jumlah Invalid")) else
  let at_server :=
    dtry (let! res := post_ok (js "/api/dex/order") (order_body f assetId orderAmount orderPrice (address wallet)) in
          let! e := prop res.2 (js "error") in
          if res.1 && negb (vtruthy e)
          then tx_note (vprop res.2 (js "txid")) ;;! refreshBalance server API_BASE wallet ;;! dret (placed f)
          else dret (form_toast f (js "Order Gagal")))
         (fun _ => dret (form_toast f (js "Error"))) in
  match provider with
  | Some placeOrder =>
      if bool_decide (l1Type wallet = js "extension") then
        dtry (let! data := placeOrder (VObj [(js "assetId", VStr assetId); (js "side", VStr (side_text f));
                (js "price", VNum orderPrice); (js "amount", VNum orderAmount); (js "address", address wallet)]) in
              tx_note (vprop data (js "txid")) ;;! refreshBalance server API_BASE wallet ;;! dret (placed f))
             (fun _ => dret (form_toast f (js "Order Gagal")))
      else at_server
  | None => at_server
  end.

(** ** Cancelling *)

(** [handleCancel] of the list of open orders. *)
Definition handleCancel (wallet : WalletState) (orderId : jsstr) (orders : list val) : D (S := S) (list val) :=
  dtry (let! res := post_json server API_BASE (js "/api/dex/order/cancel")
                      (VObj [(js "order_id", VStr orderId); (js "address", address wallet)]) in
        let! st := prop res (js "status") in
        dret (if is_text st (js "ok") then List.filter (fun o => negb (is_text (vprop o (js "order_id")) orderId)) orders
              else orders))
       (fun _ => dret orders).
End Orders.

(** ** The swap page stays usable *)

(** What the user does on the page. *)
Inductive swap_step (stocks : list Stock) (p : swap_page) : swap_page -> Prop :=
| st_pick (from : bool) : swap_step stocks p (with_tokens p (fromToken p) (toToken p) (Some from) (amount p))
| st_select sym : swap_step stocks p (handleSelectToken sym p)
| st_swap : swap_step stocks p (handleSwapTokens stocks p)
| st_amount a : swap_step stocks p (with_tokens p (fromToken p) (toToken p) (tokenPicker p) a)
| st_custom t : swap_step stocks p (handleCustomSlippage t p)
| st_preset s : s ∈ SLIPPAGE_PRESETS -> swap_step stocks p (with_slippage p s []).

Inductive swap_reachable (stocks : list Stock) : swap_page -> Prop :=
| sr_start : swap_reachable stocks (swap_start stocks)
| sr_step p p' : swap_reachable stocks p -> swap_step stocks p p' -> swap_reachable stocks p'.

Definition slippage_ok (s : double) : bool := dlt (of_Z 0) s && dle s (of_Z 50).

Lemma presets_ok s : s ∈ SLIPPAGE_PRESETS -> slippage_ok s = true.
Proof.
  intros H%list_elem_of_In. assert (forallb slippage_ok SLIPPAGE_PRESETS = true) as F by (vm_compute; reflexivity).
  rewrite forallb_forall in F. by apply F.
Qed.


Definition sample_idr : Stock :=
  {| s_symbol := js "IDR"; s_name := js "Rupiah"; s_assetId := js "a1"; s_tipe := js "STABLECOIN"; s_price := parseFloat (js "0.001") |}.
Definition sample_bbca : Stock :=
  {| s_symbol := js "BBCA"; s_name := js "Bank"; s_assetId := js "a2"; s_tipe := js "SAHAM"; s_price := of_Z 10 |}.
Definition sample_stocks : list Stock := [sample_idr; sample_bbca].


(** ** A swap through GRD *)

Section Routed.
Context {K : KV} {S : Type}.
Variable server : http_request -> S -> S * http_reply.

Definition swap_request (direction assetId : jsstr) (x : double) (a : val) (p : double) : http_request :=
  {| h_path := js "/api/dex/swap"; h_method := js "POST"; h_body := Some (swap_body direction assetId x a p) |}.

Lemma run_doSwap wallet direction assetId x y (w : dex) s st t b v :
  server (swap_request direction assetId x (address wallet) y) (srv w) = (s, Response st t b (inl v)) ->
  doSwap server [] wallet direction assetId x y w
  = ({| local := local w; ui := ui w; srv := s; sent := sent w ++ [swap_request direction assetId x (address wallet) y] |}, inl v).
Proof.
  intros H. unfold doSwap, post_json, fetch_json. cbn [app]. unfold swap_request in *. by rewrite H.
Qed.

Lemma run_object fs k (w : dex (K := K) (S := S)) : prop (VObj fs) k w = (w, inl (vlookup fs k)).
Proof. done. Qed.
End Routed.

(** A swap of one token for another sells the whole units of the amount but buys
    for the value of the whole amount, and when the purchase is refused the sale
    stays: two requests go out, none takes the first back, and the page reports the
    second one. *)
Theorem routed_swap_half_done {K : KV} {S : Type} (server : http_request -> S -> S * http_reply) (stocks : list Stock)
    (wallet : WalletState) (p : swap_page) (w : dex) (a b : Stock) (s1 s2 : S) (fs1 fs2 : list (jsstr * val))
    (st1 st2 : Z) (t1 t2 : jsstr) (x1 x2 : option jsstr) :
  let m := ddiv (slippage p) (of_Z 100) in
  let sell := swap_request (js "sell") (s_assetId a) (dfloor (amount p)) (address wallet) (ask a m) in
  let buy := swap_request (js "buy") (s_assetId b) (dmul (amount p) (s_price a)) (address wallet) (bid b m) in
  isConnected wallet = true -> fromToken p <> GRD -> toToken p <> GRD ->
  find_stock stocks (fromToken p) = Some a -> find_stock stocks (toToken p) = Some b ->
  server sell (srv w) = (s1, Response st1 t1 x1 (inl (VObj fs1))) -> vtruthy (vlookup fs1 (js "error")) = false ->
  server buy s1 = (s2, Response st2 t2 x2 (inl (VObj fs2))) -> vtruthy (vlookup fs2 (js "error")) = true ->
  handleExecuteSwap stocks server [] wallet p w
  = ({| local := local w; ui := ui w; srv := s2; sent := sent w ++ [sell; buy] |},
     inl (with_toast p (js "Swap Gagal (beli " ++ toToken p ++ js ")"))).
Proof.
  intros m sell buy Hc Hf Ht Ha Hb H1 E1 H2 E2. unfold handleExecuteSwap. rewrite Hc. cbn [negb].
  rewrite (bool_decide_eq_false_2 _ Hf), (bool_decide_eq_false_2 _ Ht), Ha, Hb. apply dtry_run.
  erewrite dbind_run by (eapply run_doSwap; exact H1). erewrite dbind_run by apply run_object. rewrite E1.
  erewrite dbind_run by (eapply run_doSwap; exact H2). erewrite dbind_run by apply run_object. rewrite E2.
  cbn [local ui srv sent]. by rewrite <- app_assoc.
Qed.

(** A server that sells and does not buy, as it logs what it is asked. *)
Definition one_way (q : http_request) (s : list http_request) : list http_request * http_reply :=
  (s ++ [q], Response 200 [] None (inl (VObj (match h_body q with
     | Some b => if is_text (vprop b (js "direction")) (js "sell") then [] else [(js "error", VStr (js "no peg"))]
     | None => []
     end)))).

Lemma routed_swap_half_done_witness :
  let wallet := {| isConnected := true; l1Address := js "A"; l1BalanceGrd := ZERO; l1Type := js "address";
                   address := VStr (js "T"); balanceGrd := ZERO; assets := VArr []; loading := false |} in
  let p := with_tokens (swap_start sample_stocks) (js "BBCA") (js "IDR") None (parseFloat (js "1.5")) in
  let w : dex (K := map_kv) := {| local := ∅; ui := wallet; srv := []; sent := [] |} in
  let m := ddiv (slippage p) (of_Z 100) in
  sent (handleExecuteSwap sample_stocks one_way [] wallet p w).1
  = [swap_request (js "sell") (js "a2") (of_Z 1) (VStr (js "T")) (ask sample_bbca m);
     swap_request (js "buy") (js "a1") (of_Z 15) (VStr (js "T")) (bid sample_idr m)].
Proof.
  intros wallet p w m.
  set (sell := swap_request (js "sell") (js "a2") (of_Z 1) (VStr (js "T")) (ask sample_bbca m)).
  set (buy := swap_request (js "buy") (js "a1") (of_Z 15) (VStr (js "T")) (bid sample_idr m)).
  rewrite (routed_swap_half_done one_way sample_stocks wallet p w sample_bbca sample_idr
    [sell] [sell; buy] [] [(js "error", VStr (js "no peg"))] 200 200 [] [] None None);
    try (vm_compute; reflexivity); intros E; vm_compute in E; discriminate E.
Defined.

(** ** The unit of an order *)

Lemma whole_amount n : 0 < n < 2 ^ 51 ->
  dle (of_Z n) (of_Z 0) = false /\ or_zero (of_Z n) = of_Z n /\ dfloor (of_Z n) = of_Z n.
Proof.
  intros Hn. pose proof (of_Z_pos n Hn) as Hp. destruct (of_Z_exact n Hn) as (x & Ex & En & Hd).
  assert (0 < mant x) as Hm.
  { unfold frac_n in En. pose proof (Z.pow_pos_nonneg 2 (expo x)). destruct (Z.ltb_spec (expo x) 0); nia. }
  split_and_all.
  - rewrite Ex in *. unfold dlt in Hp. change (of_Z 0) with (Fin {| mant := 0; expo := 0 |}) in *. by apply negb_true_iff in Hp.
  - unfold or_zero. rewrite Ex. cbn [dsign]. by rewrite (proj2 (Z.eqb_neq _ _)) by lia.
  - unfold dfloor. rewrite Ex at 1. unfold math_floor. rewrite En, Z.div_mul by lia. done.
Qed.

Definition order_request (f : order_form) (assetId : jsstr) (x y : double) (a : val) : http_request :=
  {| h_path := js "/api/dex/order"; h_method := js "POST"; h_body := Some (order_body f assetId x y a) |}.

(** The order is the first thing that goes out. *)
Lemma order_sent {K : KV} {S : Type} (server : http_request -> S -> S * http_reply) path body (k : bool * val -> D order_form)
    (h : jsstr -> D order_form) (w : dex) :
  (forall r, sends (k r)) -> (forall e, sends (h e)) ->
  exists qs, sent (dtry (dbind (post_ok server [] path body) k) h w).1
  = sent w ++ {| h_path := path; h_method := js "POST"; h_body := Some body |} :: qs.
Proof.
  intros Hk Hh. unfold dtry, dbind, post_ok. cbn [app]. destruct (server _ (srv w)) as [s r].
  set (w1 := {| local := local w; ui := ui w; srv := s; sent := _ |}).
  assert (forall (m : D (S := S) order_form), sends m -> exists qs, sent (m w1).1
    = sent w ++ {| h_path := path; h_method := js "POST"; h_body := Some body |} :: qs) as Hs.
  { intros m Hm. destruct (Hm w1) as [qs ->]. exists qs. cbn [sent w1]. by rewrite <- app_assoc. }
  destruct r as [e|st t b [v|e]]; [by apply (Hs (h e))| |by apply (Hs (h e))].
  apply (Hs (dtry (k _) h)). by apply sends_try.
Qed.

(** A purchase is typed in GRD and ordered in tokens: for a whole amount typed
    into a market purchase the form shows that value in GRD and its size at the
    price, but the order it sends asks for that many tokens at the price, so it is
    for the shown value times the price. *)
Theorem buy_order_in_wrong_unit {K : KV} {S : Type} (server : http_request -> S -> S * http_reply) (wallet : WalletState)
    (assetId : jsstr) (basePrice : double) (f : order_form) (n : Z) (w : dex) :
  isConnected wallet = true -> assetId <> [] -> f_buy f = true -> f_limit f = false ->
  f_amount f = to_string 10 n -> 0 < n < 2 ^ 51 -> dlt (of_Z 0) basePrice = true ->
  orderValue f basePrice = of_Z n /\ orderSize f basePrice = ddiv (of_Z n) basePrice
  /\ exists qs, sent (handleOrder server [] None wallet assetId basePrice f w).1
     = sent w ++ order_request f assetId (of_Z n) basePrice (address wallet) :: qs.
Proof.
  intros Hc Ha Hb Hl Ht Hn Hp. destruct (whole_amount n Hn) as (W1 & W2 & W3).
  assert (qty f = of_Z n) as Hq by (unfold qty; rewrite Ht, parse_printed_integer by lia; exact W2).
  unfold handleOrder, orderValue, orderSize, price. rewrite Hc, Hb, Hl, Hq, Hp, W1, W3, W1, (bool_decide_eq_false_2 _ Ha).
  split_and_all; [done..|]. cbn [negb orb andb]. apply order_sent; [|by intros; apply sends_quiet].
  intros [ok v]. apply sends_bind; [apply sends_prop|intros e]. destruct (_ && _); [|by apply sends_quiet].
  apply sends_bind; [apply sends_note|intros _]. apply sends_bind; [apply sends_refresh|intros _]. by apply sends_quiet.
Qed.

Lemma buy_order_in_wrong_unit_witness :
  let wallet := {| isConnected := true; l1Address := js "A"; l1BalanceGrd := ZERO; l1Type := js "address";
                   address := VStr (js "T"); balanceGrd := VNum (of_Z 100); assets := VArr []; loading := false |} in
  let f := {| f_buy := true; f_limit := false; f_amount := js "100"; limitPrice := []; pctValue := 0; form_toasts := [] |} in
  orderSize f (of_Z 5) = of_Z 20
  /\ exists qs, sent (handleOrder (K := map_kv) one_way [] None wallet (js "a2") (of_Z 5) f
                        {| local := ∅; ui := wallet; srv := []; sent := [] |}).1
     = order_request f (js "a2") (of_Z 100) (of_Z 5) (VStr (js "T")) :: qs.
Proof.
  intros wallet f.
  destruct (buy_order_in_wrong_unit (K := map_kv) one_way wallet (js "a2") (of_Z 5) f 100
    {| local := ∅; ui := wallet; srv := []; sent := [] |}) as (_ & T1 & T2);
    [reflexivity|intros E; discriminate E|reflexivity|reflexivity|reflexivity|lia|vm_compute; reflexivity|].
  split; [rewrite T1; vm_compute; reflexivity|exact T2].
Defined.
