(* ===== verification/SwapTab.v ===== *)
(** * The swap tab of the mobile application

    [TabSwap] of src/mobile/app/beranda.tsx: the list of tokens, the effect that
    fetches the rate of a pair, the balances, and what the tab shows and confirms.
    [handleConfirm] is in Send.v. *)

From stdpp Require Import gmap.
From S2P Require Import Prelude JsText Amounts Numbers Locale Bytes Mnemonic Keys Tx Coins Utf8 Json Vault Store WalletStorage WalletProofs Api Pages PagesProofs Send SendProofs P2P Market MarketList.
Local Open Scope Z_scope.
Local Open Scope io_scope.

Record swap_token := { k_assetId : jsstr; k_symbol : jsstr; k_name : jsstr; k_tipe : tipe }.

Definition GRD_TOKEN : swap_token :=
  {| k_assetId := js "native-grd"; k_symbol := js "GRD"; k_name := js "Garuda Coin"; k_tipe := NATIVE |}.

Definition to_token (t : swap_token) : token := {| t_assetId := k_assetId t; t_tipe := k_tipe t |}.

Section Calls.
Context {K : KV}.

(** [v?.[0]] *)
Definition first_of (v : val) : val := match v with VArr (x :: _) => x | VStr (u :: _) => VStr [u] | _ => VUndef end.

(** [p > 1000 ? p / 1e8 : p]: a price in units is read as one in GRD. *)
Definition toGrd (p : double) : double := if dlt (of_Z 1000) p then ddiv p (of_Z 100000000) else p.

(** [getAssetPrice]: the middle of the book, or its only side; prices are numbers. *)
Definition getAssetPrice (assetId : jsstr) : IO double :=
  try (let! ob := apiGet (js "/api/blockchain/orderbook/" ++ assetId) in
       let best side := toGrd (to_number (vor (vprop (first_of (vprop ob side)) (js "price")) (VNum (of_Z 0)))) in
       let bestAsk := best (js "asks") in
       let bestBid := best (js "bids") in
       ret (if dlt (of_Z 0) bestAsk && dlt (of_Z 0) bestBid then ddiv (dadd bestAsk bestBid) (of_Z 2)
            else if dsign bestAsk =? 0 then bestBid else bestAsk))
      (fun _ => ret (of_Z 0)).

Definition text_value (v : val) : jsstr := match v with VStr s => s | _ => [] end.

Definition entry_token (k : tipe) (e : AssetEntry) : swap_token :=
  {| k_assetId := text_value (e_assetId e); k_symbol := text_value (e_symbol e); k_name := text_value (e_name e); k_tipe := k |}.

(** The effect that loads the tokens. *)
Definition load_tokens : IO (list swap_token) :=
  let! sc := try getStablecoinList (fun _ => ret []) in
  let! pegged := try getPeggedStablecoinList (fun _ => ret []) in
  let! st := try getStockList (fun _ => ret []) in
  ret (map (entry_token STABLECOIN) sc ++ map (entry_token STABLECOIN_PEGGED) pegged ++ map (entry_token SAHAM) st).

(** The symbol the oracle knows a pegged token by. *)
Definition oracle_symbol (t : swap_token) : jsstr :=
  match k_tipe t, k_symbol t with
  | STABLECOIN_PEGGED, u :: s => if u =? 112 then s else u :: s
  | _, s => s
  end.

(** The request of the rate effect for the token of a pair. *)
Definition fetch_rate (t : swap_token) : IO double :=
  match k_tipe t with
  | STABLECOIN | STABLECOIN_PEGGED =>
      try (let! r := getStablecoinPegRate (k_assetId t) (Some (oracle_symbol t)) in ret (to_number r)) (fun _ => ret (of_Z 0))
  | _ => try (getAssetPrice (k_assetId t)) (fun _ => ret (of_Z 0))
  end.

(** The balance of an asset: the first entry with its identifier. *)
Fixpoint asset_balance (l : list val) (assetId : jsstr) : val :=
  match l with
  | [] => VNum (of_Z 0)
  | a :: l => if is_text (vprop a (js "asset_id")) assetId then vprop a (js "balance") else asset_balance l assetId
  end.

(** The effect that reads the balances of the pair. *)
Definition pair_balances (walletAddress : jsstr) (grdBalance : double) (pay : swap_token) (receive : option swap_token)
    : IO (val * val) :=
  match walletAddress with
  | [] => ret (VNum grdBalance, VNum (of_Z 0))
  | _ =>
      let native t := bool_decide (k_tipe t = NATIVE) in
      try (let! info := getDexWalletInfo walletAddress in
           let bal_of t := if native t then ret (VNum grdBalance) else
             match vprop info (js "assets") with
             | VArr l => ret (asset_balance l (k_assetId t))
             | _ => throw (js "TypeError")
             end in
           let! p := bal_of pay in
           let! r := match receive with None => ret (VNum grdBalance) | Some t => bal_of t end in
           ret (p, r))
          (fun _ => ret (if native pay then VNum grdBalance else VNum (of_Z 0), VNum (of_Z 0)))
  end.
End Calls.

(** ** The tab *)

(** [inflight] holds the tokens whose rate has been asked for, oldest first. *)
Record tab := {
  allTokens : list swap_token; payToken : swap_token; receiveToken : option swap_token; payAmount : jsstr;
  rate : double; rateLoading : bool; inflight : list swap_token
}.

Definition tab_start : tab :=
  {| allTokens := []; payToken := GRD_TOKEN; receiveToken := None; payAmount := js "1"; rate := of_Z 0;
     rateLoading := false; inflight := [] |}.

(** The token of a pair whose price is its rate. *)
Definition nonGrd (pay : swap_token) (receive : option swap_token) : option swap_token :=
  match receive with
  | None => None
  | Some r => if bool_decide (k_tipe pay <> NATIVE) then Some pay else if bool_decide (k_tipe r <> NATIVE) then Some r else None
  end.

(** The rate effect of the pair that is set. *)
Definition rate_effect (t : tab) : tab :=
  match receiveToken t with
  | None => t
  | Some _ =>
      match nonGrd (payToken t) (receiveToken t) with
      | None => {| allTokens := allTokens t; payToken := payToken t; receiveToken := receiveToken t; payAmount := payAmount t;
                   rate := of_Z 1; rateLoading := rateLoading t; inflight := inflight t |}
      | Some k => {| allTokens := allTokens t; payToken := payToken t; receiveToken := receiveToken t; payAmount := payAmount t;
                     rate := rate t; rateLoading := true; inflight := inflight t ++ [k] |}
      end
  end.

(** Set the pair; the effect runs when one of the identifiers changed. *)
Definition set_pair (pay : swap_token) (receive : option swap_token) (amount : jsstr) (t : tab) : tab :=
  let t' := {| allTokens := allTokens t; payToken := pay; receiveToken := receive; payAmount := amount; rate := rate t;
               rateLoading := rateLoading t; inflight := inflight t |} in
  if bool_decide (k_assetId pay = k_assetId (payToken t)
                  /\ (k_assetId <$> receive) = (k_assetId <$> receiveToken t)) then t' else rate_effect t'.

Definition tokens_loaded (l : list swap_token) (t : tab) : tab :=
  let t := {| allTokens := l; payToken := payToken t; receiveToken := receiveToken t; payAmount := payAmount t; rate := rate t;
              rateLoading := rateLoading t; inflight := inflight t |} in
  match l with [] => t | k :: _ => set_pair (payToken t) (Some k) (payAmount t) t end.

(** Picking a token in either list, and the button that turns the pair around. *)
Definition pick_pay (k : swap_token) (t : tab) : tab := set_pair k (receiveToken t) (js "1") t.
Definition pick_receive (k : swap_token) (t : tab) : tab := set_pair (payToken t) (Some k) (js "1") t.
Definition handleSwapDir (t : tab) : tab :=
  match receiveToken t with None => t | Some r => set_pair r (Some (payToken t)) (js "1") t end.

(** The answer to the [i]-th outstanding request. *)
Definition rate_arrives (i : nat) (r : double) (t : tab) : tab :=
  {| allTokens := allTokens t; payToken := payToken t; receiveToken := receiveToken t; payAmount := payAmount t;
     rate := r; rateLoading := false; inflight := delete i (inflight t) |}.

(** ** What the tab shows *)

Definition receiveAmt (t : tab) : double :=
  let qty := qty_of (payAmount t) in
  match receiveToken t with
  | Some r =>
      if dlt (of_Z 0) (rate t) then
        match bool_decide (k_tipe (payToken t) = NATIVE), bool_decide (k_tipe r = NATIVE) with
        | true, false => ddiv qty (rate t)
        | false, true => dmul qty (rate t)
        | _, _ => qty
        end
      else of_Z 0
  | None => of_Z 0
  end.

Definition canSwap (pending : bool) (walletAddress : jsstr) (t : tab) : bool :=
  negb pending && negb (bool_decide (walletAddress = [])) && dlt (of_Z 0) (qty_of (payAmount t)) && dlt (of_Z 0) (rate t)
  && bool_decide (is_Some (receiveToken t)).

(** The confirmation of what the tab holds. *)
Definition confirm {K : KV} {C : Crypto} (walletAddress : jsstr) (t : tab) : IO ui :=
  handleConfirm (to_token (payToken t)) (to_token <$> receiveToken t) (payAmount t) (rate t) walletAddress.

(** ** Rates that arrive in order *)

(** Picks name a token of the list or GRD: only GRD is native. *)
Definition token_ok (k : swap_token) : bool := Bool.eqb (bool_decide (k_tipe k = NATIVE)) (bool_decide (k_assetId k = js "native-grd")).

(** What happens on the tab when the server prices a token by [f] and answers in
    order. *)
Inductive tab_step (f : jsstr -> double) (t : tab) : tab -> Prop :=
| ts_loaded l : forallb token_ok l = true -> tab_step f t (tokens_loaded l t)
| ts_pay k : token_ok k = true -> tab_step f t (pick_pay k t)
| ts_receive k : token_ok k = true -> tab_step f t (pick_receive k t)
| ts_turn : tab_step f t (handleSwapDir t)
| ts_type a : tab_step f t (set_pair (payToken t) (receiveToken t) a t)
| ts_answer k ks : inflight t = k :: ks -> tab_step f t (rate_arrives 0 (f (k_assetId k)) t).

Inductive tab_reachable (f : jsstr -> double) : tab -> Prop :=
| tr_start : tab_reachable f tab_start
| tr_step t t' : tab_reachable f t -> tab_step f t t' -> tab_reachable f t'.

(** The pair's token has been priced, or its request is the last one out. *)
Definition rate_inv (f : jsstr -> double) (t : tab) : Prop :=
  token_ok (payToken t) = true /\ (forall r, receiveToken t = Some r -> token_ok r = true)
  /\ forall k, nonGrd (payToken t) (receiveToken t) = Some k ->
       (inflight t = [] /\ rate t = f (k_assetId k)) \/ (k_assetId <$> last (inflight t)) = Some (k_assetId k).

Lemma same_native a b : token_ok a = true -> token_ok b = true -> k_assetId a = k_assetId b ->
  (k_tipe a = NATIVE <-> k_tipe b = NATIVE).
Proof.
  unfold token_ok. intros Ha%eqb_prop Hb%eqb_prop E. rewrite E in Ha. rewrite <- Hb in Ha.
  by repeat case_bool_decide.
Qed.

Lemma set_pair_inv f pay receive amount t :
  rate_inv f t -> token_ok pay = true -> (forall r, receive = Some r -> token_ok r = true) ->
  rate_inv f (set_pair pay receive amount t).
Proof.
  intros (I1 & I2 & I3) Hp Hr. unfold set_pair. case_bool_decide as E.
  - destruct E as [E1 E2]. split; [done|]. split; [done|]. cbn [payToken receiveToken inflight rate]. intros k Hk.
    assert (exists k', nonGrd (payToken t) (receiveToken t) = Some k' /\ k_assetId k' = k_assetId k) as (k' & Hk' & <-); [|by apply I3].
    unfold nonGrd in *. destruct receive as [r|]; [|done]. destruct (receiveToken t) as [r'|] eqn:Er; [|done].
    injection E2 as E2. pose proof (same_native _ _ Hp I1 E1) as S1. pose proof (same_native _ _ (Hr _ eq_refl) (I2 _ eq_refl) E2) as S2.
    rewrite (bool_decide_ext _ (k_tipe pay <> NATIVE)) by (by rewrite S1).
    rewrite (bool_decide_ext (k_tipe r' <> NATIVE) (k_tipe r <> NATIVE)) by (by rewrite S2).
    repeat case_bool_decide; simplify_eq; eauto.
  - unfold rate_effect. cbn [receiveToken payToken]. destruct receive as [r|].
    2: { split; [done|]. split; [done|]. by intros k. }
    destruct (nonGrd pay (Some r)) as [k|] eqn:Ek; (split; [done|]); (split; [done|]); cbn [payToken receiveToken inflight rate].
    + rewrite Ek. intros k' [= <-]. right. by rewrite last_snoc.
    + rewrite Ek. by intros k'.
Qed.

Lemma step_inv f t t' : rate_inv f t -> tab_step f t t' -> rate_inv f t'.
Proof.
  intros I Hs. pose proof I as (I1 & I2 & I3). destruct Hs as [l Hl|k Hk|k Hk| |a|k ks Hi].
  - unfold tokens_loaded. destruct l as [|k l]; [done|]. cbn [forallb] in Hl. apply andb_true_iff in Hl as [Hk _].
    apply set_pair_inv; [done..|]. by intros r [= <-].
  - by apply set_pair_inv.
  - apply set_pair_inv; [done..|]. by intros r [= <-].
  - unfold handleSwapDir. destruct (receiveToken t) as [r|] eqn:Er; [|done]. apply set_pair_inv; [done|auto|]. by intros r' [= <-].
  - by apply set_pair_inv.
  - split; [done|]. split; [done|]. cbn [payToken receiveToken inflight rate rate_arrives]. rewrite Hi. cbn [delete list_delete].
    intros k' Hk'. destruct (I3 k' Hk') as [[Hn _]|Hl]; [by rewrite Hi in Hn|]. rewrite Hi in Hl.
    destruct ks as [|k2 ks]; [left; split; [done|]|right; done]. cbn in Hl. by injection Hl as ->.
Qed.

Definition stock (id : jsstr) : swap_token := {| k_assetId := id; k_symbol := id; k_name := id; k_tipe := SAHAM |}.

(** C28. When the answers arrive in the order of the requests, the tab ends up with
    the rate of the pair it shows: once nothing is outstanding, the rate is the
    server's price of the pair's token. *)
Theorem rate_settles (f : jsstr -> double) (t : tab) (k : swap_token) :
  tab_reachable f t -> inflight t = [] -> nonGrd (payToken t) (receiveToken t) = Some k -> rate t = f (k_assetId k).
Proof.
  intros Hr Hi Hk. assert (rate_inv f t) as (_ & _ & I).
  { clear Hi Hk. induction Hr as [|t t' _ IH Hs]; [|by eapply step_inv]. split; [done|]. split; [done|]. by intros. }
  destruct (I k Hk) as [[_ H]|H]; [done|]. by rewrite Hi in H.
Qed.

Lemma rate_settles_witness :
  let f := fun id => if bool_decide (id = js "B") then of_Z 7 else of_Z 2 in
  let t := rate_arrives 0 (of_Z 7) (rate_arrives 0 (of_Z 2) (pick_receive (stock (js "B")) (tokens_loaded [stock (js "A")] tab_start))) in
  rate t = f (js "B").
Proof.
  intros f t. apply (rate_settles f t (stock (js "B"))); [|reflexivity|reflexivity].
  eapply tr_step; [eapply tr_step; [eapply tr_step; [eapply tr_step; [apply tr_start|]|]|]|].
  - apply (ts_loaded f tab_start [stock (js "A")]). reflexivity.
  - apply (ts_receive f _ (stock (js "B"))). reflexivity.
  - apply (ts_answer f _ (stock (js "A")) [stock (js "B")]). reflexivity.
  - apply (ts_answer f _ (stock (js "B")) []). reflexivity.
Defined.

(** ** Rates of another pair *)

Section Stale.
Context {K : KV} {L : KVLaws K} {C : Crypto}.

(** The button works with the rate of the pair before: after another stock is
    picked to be sold, its rate is still being fetched but the tab can confirm, and
    the order for the new stock carries the price of the old one. *)
Theorem stale_rate_confirmed (t : tab) (b r : swap_token) (walletAddress : jsstr) (W : world K) (v : val) :
  receiveToken t = Some r -> k_tipe r = NATIVE -> k_tipe b = SAHAM -> k_assetId b <> k_assetId (payToken t) ->
  walletAddress <> [] -> dlt (of_Z 0) (rate t) = true -> head (replies W) = Some (ok v) ->
  let t' := pick_pay b t in
  rateLoading t' = true /\ last (inflight t') = Some b /\ canSwap false walletAddress t' = true
  /\ confirm walletAddress t' W
     = (asked (post_req W (js "/api/dex/order") (order_params (js "sell") (k_assetId b) (of_Z 1) (rate t) walletAddress)) W,
        inl (Alert (js "Berhasil") (js "Swap berhasil! Saldo diperbarui."))).
Proof.
  intros Hr Hn Hb Hne Hw Hp Hv t'.
  assert (t' = {| allTokens := allTokens t; payToken := b; receiveToken := Some r; payAmount := js "1"; rate := rate t;
                  rateLoading := true; inflight := inflight t ++ [b] |}) as ->.
  { unfold t', pick_pay, set_pair. rewrite bool_decide_eq_false_2 by (intros [E _]; done). rewrite Hr. unfold rate_effect.
    cbn [receiveToken payToken nonGrd]. rewrite (bool_decide_eq_true_2 (k_tipe b <> NATIVE)) by (by rewrite Hb). done. }
  cbn [rateLoading inflight]. rewrite last_snoc. split_and_all; [done..| |].
  - unfold canSwap. cbn [rate payAmount receiveToken]. rewrite Hp, (bool_decide_eq_false_2 _ Hw).
    rewrite (bool_decide_eq_true_2 (is_Some _)) by eauto. vm_compute. reflexivity.
  - unfold confirm, handleConfirm. cbn [payToken receiveToken payAmount rate fmap option_fmap option_map].
    rewrite (bool_decide_eq_false_2 _ Hw). change (dle (qty_of (js "1")) (of_Z 0)) with false.
    assert (dle (rate t) (of_Z 0) = false) as ->.
    { destruct (rate t); [done| |]; unfold dlt in Hp; by apply negb_true_iff. }
    cbn [orb]. apply try_inl. unfold confirm_body. cbn [to_token t_tipe t_assetId]. rewrite Hb, Hn. unfold dexPlaceOrder.
    by erewrite bind_inl; [|erewrite bind_inl; [|by apply post_run]].
Qed.

(** ** Buying a stock *)

(** A payment to the reserve from classical coins alone. *)
Lemma pay_reserve_classical quantum sat walletAddress (W : world K) (w : StoredWallet) (key : DerivedKey) (qv cv bv : val)
    (cs : list coin) (rest : list http_reply) (hex : jsstr) :
  let qa := q_address (deriveQuantumKey (mnemonic w) 0) in
  let sel := (select (sat + FEE) (map by_amount cs) [] 0).1 in
  holds W w -> wallet_good w -> deriveKey (mnemonic w) 0 = Some key -> replies W = ok qv :: ok cv :: ok bv :: rest ->
  coins_of qv = Some [] -> coins_of cv = Some cs -> cs <> [] -> sat + FEE <= total (map by_amount cs) ->
  buildAndSignTx sel ([pay CBDC_RESERVE sat] ++ change_out walletAddress (total sel - (sat + FEE))) (privateKey key) (publicKey key)
  = Some hex ->
  pay_reserve quantum (Some sat) walletAddress W
  = (asked (broadcast_req W hex) (asked (get_req W (utxo_path walletAddress)) (asked (get_req W (utxo_path qa)) W)), inl tt).
Proof.
  intros qa sel Hh Hg Hk Hrep Hq Hc Hcn Hsuf Hhex. unfold pay_reserve.
  rewrite (bind_inl _ _ _ _ _ (need_wallet_run W w Hh Hg)), (bind_inl _ _ _ _ _ (derive_run _ _ _ W Hk)). cbv zeta. fold qa.
  rewrite (bind_inl _ _ _ _ _ (try_inl _ _ _ _ _ (coins_run qa W qv [] ltac:(by rewrite Hrep) Hq))).
  set (W1 := asked (get_req W (utxo_path qa)) W).
  rewrite (bind_inl _ _ _ _ _ (coins_run walletAddress W1 cv cs ltac:(unfold W1, asked; cbn; by rewrite Hrep) Hc)).
  set (W2 := asked (get_req W1 (utxo_path walletAddress)) W1).
  rewrite bool_decide_eq_false_2 by tauto. unfold reserve_coins. cbn [map].
  rewrite (bool_decide_eq_true_2 (@nil UTXO = [])) by done. cbn [negb].
  destruct (select_reaches (sat + FEE) (map by_amount cs) Hsuf) as (n & Esel & Hge).
  assert (sel = take n (map by_amount cs)) as Hsel by (unfold sel; by rewrite Esel). rewrite <- Hsel in Esel, Hge.
  assert ((total sel <? sat + FEE) = false) as Hlt by (apply Z.ltb_ge; lia).
  rewrite Esel, Hlt. cbn [andb]. rewrite Hlt, Hhex. unfold sign_io.
  rewrite (bind_inl _ _ _ _ _ (eq_refl : ret hex W2 = (W2, inl hex))). unfold broadcastTx.
  by rewrite (bind_inl _ _ _ _ _ (post_run _ _ W2 bv ltac:(unfold W2, W1, asked; cbn; by rewrite Hrep))).
Qed.

(** A purchase of a stock pays the typed amount times the rate: with the amount
    read as GRD on the tab, which shows the tokens that many GRD buy, the payment
    that is broadcast is for amount times rate GRD and the order is for as many
    tokens as GRD were typed. *)
Theorem stock_purchase_pays_product (t : tab) (r : swap_token) (walletAddress : jsstr) (W : world K) (w : StoredWallet)
    (key : DerivedKey) (sat : Z) (qv cv bv ov : val) (cs : list coin) (rest : list http_reply) (hex : jsstr) :
  let qty := qty_of (payAmount t) in
  let sel := (select (sat + FEE) (map by_amount cs) [] 0).1 in
  let outs := [pay CBDC_RESERVE sat] ++ change_out walletAddress (total sel - (sat + FEE)) in
  k_tipe (payToken t) = NATIVE -> receiveToken t = Some r -> k_tipe r = SAHAM ->
  canSwap false walletAddress t = true -> units_round (dmul qty (rate t)) = Some sat ->
  holds W w -> wallet_good w -> deriveKey (mnemonic w) 0 = Some key ->
  replies W = ok qv :: ok cv :: ok bv :: ok ov :: rest -> coins_of qv = Some [] -> coins_of cv = Some cs -> cs <> [] ->
  sat + FEE <= total (map by_amount cs) ->
  buildAndSignTx sel outs (privateKey key) (publicKey key) = Some hex ->
  receiveAmt t = ddiv qty (rate t)
  /\ exists W', confirm walletAddress t W = (W', inl (Alert (js "Berhasil") (js "Swap berhasil! Saldo diperbarui.")))
     /\ requests W' = requests W
          ++ [get_req W (utxo_path (q_address (deriveQuantumKey (mnemonic w) 0))); get_req W (utxo_path walletAddress);
              broadcast_req W hex;
              post_req W (js "/api/dex/order") (order_params (js "buy") (k_assetId r) qty (rate t) walletAddress)].
Proof.
  intros qty sel outs Hn Hr Hs Hcan Hsat Hh Hg Hk Hrep Hq Hc Hcn Hsuf Hhex.
  unfold canSwap in Hcan. fold qty in Hcan. rewrite !andb_true_iff in Hcan. destruct Hcan as [[[[_ Hw%negb_true_iff] Hqp] Hrp] _].
  assert (forall d, dlt (of_Z 0) d = true -> dle d (of_Z 0) = false) as Hpos.
  { intros [| |d] Hd; [done| |]; unfold dlt in Hd; by apply negb_true_iff. }
  split.
  { unfold receiveAmt. rewrite Hr, Hrp, Hn, Hs. done. }
  eexists. split.
  - unfold confirm, handleConfirm. rewrite Hr. cbn [fmap option_fmap option_map]. fold qty.
    rewrite Hw, (Hpos _ Hqp), (Hpos _ Hrp). cbn [orb]. apply try_inl. unfold confirm_body. cbn [to_token t_tipe t_assetId].
    rewrite Hn, Hs, Hsat. erewrite bind_inl; [reflexivity|].
    erewrite bind_inl; [|by eapply (pay_reserve_classical _ _ _ W w key qv cv bv cs (ok ov :: rest) hex)].
    unfold dexPlaceOrder. erewrite bind_inl; [reflexivity|]. apply (post_run _ _ _ ov).
    unfold asked. cbn. by rewrite Hrep.
  - unfold asked. cbn [requests]. by rewrite <- !app_assoc.
Qed.
End Stale.

Lemma stale_rate_confirmed_witness :
  let t := {| allTokens := []; payToken := stock (js "A"); receiveToken := Some GRD_TOKEN; payAmount := js "1"; rate := of_Z 9;
              rateLoading := false; inflight := [] |} in
  let W := online sample_wallet [VObj []] in
  requests (confirm (C := toy) (js "grd1q") (pick_pay (stock (js "B")) t) W).1
  = [post_req W (js "/api/dex/order") (order_params (js "sell") (js "B") (of_Z 1) (of_Z 9) (js "grd1q"))].
Proof.
  intros t W.
  destruct (stale_rate_confirmed (C := toy) t (stock (js "B")) GRD_TOKEN (js "grd1q") W (VObj [])) as (_ & _ & _ & E);
    [reflexivity|reflexivity|reflexivity|intros E; discriminate E|intros E; discriminate E|vm_compute; reflexivity|reflexivity|].
  rewrite E. reflexivity.
Defined.

Definition purchase : tab :=
  {| allTokens := []; payToken := GRD_TOKEN; receiveToken := Some (stock (js "B")); payAmount := js "0.0005"; rate := of_Z 2;
     rateLoading := false; inflight := [] |}.

Definition purchase_hex : jsstr :=
  let sel := (select (100000 + FEE) (map by_amount sample_coins) [] 0).1 in
  default [] (buildAndSignTx (C := toy) sel ([pay CBDC_RESERVE 100000] ++ change_out (js "grd1q") (total sel - (100000 + FEE)))
    (privateKey (sample_key 0)) (publicKey (sample_key 0))).

Lemma stock_purchase_pays_product_witness :
  let W := online sample_wallet [VArr []; VArr [sample_coin]; VObj []; VObj []] in
  receiveAmt purchase = ddiv (qty_of (js "0.0005")) (of_Z 2)
  /\ exists W', confirm (C := toy) (js "grd1q") purchase W = (W', inl (Alert (js "Berhasil") (js "Swap berhasil! Saldo diperbarui.")))
     /\ nth_error (requests W') 2 = Some (broadcast_req W purchase_hex).
Proof.
  intros W.
  destruct (stock_purchase_pays_product (C := toy) purchase (stock (js "B")) (js "grd1q") W sample_wallet (sample_key 0) 100000
    (VArr []) (VArr [sample_coin]) (VObj []) (VObj []) sample_coins [] purchase_hex) as (E1 & W' & E2 & E3);
    [reflexivity|reflexivity|reflexivity|vm_compute; reflexivity|vm_compute; reflexivity|apply online_holds|apply sample_good
    |vm_compute; reflexivity|reflexivity|reflexivity|vm_compute; reflexivity|intros E; discriminate E|vm_compute; intros E; discriminate E
    |vm_compute; reflexivity|].
  split; [exact E1|]. exists W'. split; [exact E2|]. by rewrite E3.
Defined.
