(* ===== verification/Issuance.v ===== *)
(** * Issuing stock tokens on the website

    The wizard of src/website/src/pages/PenerbitanSaham.tsx as a page, as the
    requests of its submission and as a system in which the two interleave, and the
    placeholder wallet of src/website/src/hooks/use-wallet.ts. *)

From stdpp Require Import relations gmap.
From S2P Require Import Prelude JsText Amounts Numbers Utf8 Json Vault Store Api MarketList.
Local Open Scope Z_scope.
Local Open Scope io_scope.

(** ** The placeholder wallet *)

Record mock_wallet := { mw_connected : bool; mw_address : option jsstr; mw_balance : Z }.

Definition MOCK_KEY : jsstr := js "garuda_wallet_connected".
Definition mock_off : mock_wallet := {| mw_connected := false; mw_address := None; mw_balance := 0 |}.
Definition mock_on : mock_wallet := {| mw_connected := true; mw_address := Some (js "0x71C...976F"); mw_balance := 15000000 |}.

(** The effect on mount, [connect] and [disconnect], over [localStorage]. *)
Definition useWallet {K : KV} (local : kv) : mock_wallet :=
  if bool_decide (getItem local MOCK_KEY = Some (js "true")) then mock_on else mock_off.
Definition mock_connect {K : KV} (local : kv) : kv * mock_wallet := (setItem local MOCK_KEY (js "true"), mock_on).
Definition mock_disconnect {K : KV} (local : kv) : kv * mock_wallet := (setItem local MOCK_KEY (js "false"), mock_off).

(** ** The wizard *)

(** The fields of the first step; a chosen file stands for its name. *)
Record info := {
  tokenName : jsstr; tokenSymbol : jsstr; companyName : jsstr; sektor : jsstr; website : jsstr;
  socialX : jsstr; socialIG : jsstr; socialYT : jsstr; socialFB : jsstr; socialLI : jsstr; socialTT : jsstr;
  doc1File : option jsstr; doc2File : option jsstr
}.

Record issue := {
  i_step : Z; i_info : info; totalSupply : double; pricePerToken : double; presaleAllocation : double;
  doc1Url : option val; doc2Url : option val; isSubmitting : bool; i_toasts : list jsstr
}.

Definition no_info : info :=
  {| tokenName := []; tokenSymbol := []; companyName := []; sektor := []; website := []; socialX := []; socialIG := [];
     socialYT := []; socialFB := []; socialLI := []; socialTT := []; doc1File := None; doc2File := None |}.

Definition issue_start : issue :=
  {| i_step := 1; i_info := no_info; totalSupply := of_Z 1000000; pricePerToken := of_Z 100; presaleAllocation := of_Z 30;
     doc1Url := None; doc2Url := None; isSubmitting := false; i_toasts := [] |}.

Definition PRESALE_FEE_PCT : double := of_Z 2.
Definition presaleTokens (p : issue) : double := dfloor (dmul (totalSupply p) (ddiv (presaleAllocation p) (of_Z 100))).
Definition presaleRaise (p : issue) : double := dmul (presaleTokens p) (pricePerToken p).
Definition platformFee (p : issue) : double := dmul (presaleRaise p) (ddiv PRESALE_FEE_PCT (of_Z 100)).

Definition names_ok (p : issue) : bool :=
  (3 <=? length (tokenName (i_info p)))%nat && (2 <=? length (tokenSymbol (i_info p)))%nat
  && (3 <=? length (companyName (i_info p)))%nat.
Definition supply_ok (p : issue) : bool := dlt (of_Z 0) (totalSupply p) && dlt (of_Z 0) (pricePerToken p).
Definition allocation_ok (p : issue) : bool := dle (of_Z 10) (presaleAllocation p) && dle (presaleAllocation p) (of_Z 80).

Definition canProceed (p : issue) : bool :=
  if i_step p =? 1 then names_ok p else if i_step p =? 2 then supply_ok p
  else if i_step p =? 3 then allocation_ok p else true.

Definition with_step (n : Z) (p : issue) : issue :=
  {| i_step := n; i_info := i_info p; totalSupply := totalSupply p; pricePerToken := pricePerToken p;
     presaleAllocation := presaleAllocation p; doc1Url := doc1Url p; doc2Url := doc2Url p;
     isSubmitting := isSubmitting p; i_toasts := i_toasts p |}.

(** The buttons below a step. *)
Definition next_step (p : issue) : issue := if (i_step p <? 4) && canProceed p then with_step (i_step p + 1) p else p.
Definition back_step (p : issue) : issue := if (1 <? i_step p) && (i_step p <? 5) then with_step (i_step p - 1) p else p.

(** [Math.max(m, x)] *)
Definition at_least (m : Z) (x : double) : double := if dle x (of_Z m) then of_Z m else x.

Definition with_numbers (supply price allocation : double) (p : issue) : issue :=
  {| i_step := i_step p; i_info := i_info p; totalSupply := supply; pricePerToken := price;
     presaleAllocation := allocation; doc1Url := doc1Url p; doc2Url := doc2Url p;
     isSubmitting := isSubmitting p; i_toasts := i_toasts p |}.

Definition set_supply (x : double) (p : issue) : issue :=
  if i_step p =? 2 then with_numbers x (pricePerToken p) (presaleAllocation p) p else p.
Definition type_supply (t : jsstr) : issue -> issue := set_supply (at_least 1 (number_of_text t)).
Definition less_supply (p : issue) : issue := set_supply (at_least 100000 (dsub (totalSupply p) (of_Z 100000))) p.
Definition more_supply (p : issue) : issue := set_supply (dadd (totalSupply p) (of_Z 100000)) p.
Definition type_price (t : jsstr) (p : issue) : issue :=
  if i_step p =? 2 then with_numbers (totalSupply p) (at_least 1 (number_of_text t)) (presaleAllocation p) p else p.
Definition type_allocation (t : jsstr) (p : issue) : issue :=
  if i_step p =? 3 then with_numbers (totalSupply p) (pricePerToken p) (number_of_text t) p else p.

(** Any change of the first step's fields; the symbol is put in upper case and cut to 5. *)
Definition edit_info (toUpperCase : jsstr -> jsstr) (i : info) (p : issue) : issue :=
  if i_step p =? 1 then
    {| i_step := 1;
       i_info := {| tokenName := tokenName i; tokenSymbol := take 5 (toUpperCase (tokenSymbol i)); companyName := companyName i;
                    sektor := sektor i; website := website i; socialX := socialX i; socialIG := socialIG i;
                    socialYT := socialYT i; socialFB := socialFB i; socialLI := socialLI i; socialTT := socialTT i;
                    doc1File := doc1File i; doc2File := doc2File i |};
       totalSupply := totalSupply p; pricePerToken := pricePerToken p; presaleAllocation := presaleAllocation p;
       doc1Url := doc1Url p; doc2Url := doc2Url p; isSubmitting := isSubmitting p; i_toasts := i_toasts p |}
  else p.

(** ** Submission *)

(** What [handleSubmit] sets on the page, in order, while it runs. *)
Inductive update := SetDoc1Url (u : val) | SetDoc2Url (u : val) | Created | FailedToSave.

Definition CREATED : jsstr := js "Token Saham Berhasil Dibuat!".

Definition update_page (u : update) (p : issue) : issue :=
  let set step u1 u2 busy toasts :=
    {| i_step := step; i_info := i_info p; totalSupply := totalSupply p; pricePerToken := pricePerToken p;
       presaleAllocation := presaleAllocation p; doc1Url := u1; doc2Url := u2; isSubmitting := busy; i_toasts := toasts |} in
  match u with
  | SetDoc1Url u => set (i_step p) (Some u) (doc2Url p) (isSubmitting p) (i_toasts p)
  | SetDoc2Url u => set (i_step p) (doc1Url p) (Some u) (isSubmitting p) (i_toasts p)
  | Created => set 5 (doc1Url p) (doc2Url p) false (i_toasts p ++ [CREATED])
  | FailedToSave => set (i_step p) (doc1Url p) (doc2Url p) false (i_toasts p ++ [js "Error"])
  end.

(** The button that submits: on the fourth step, with a connected wallet. *)
Definition can_submit (connected : bool) (p : issue) : bool := (i_step p =? 4) && connected && negb (isSubmitting p).

Section Submit.
Context {K : KV}.

Definition post (path : jsstr) (body : val) : IO http_reply :=
  let! r := fetch {| h_path := path; h_method := js "POST"; h_body := Some body |} in
  match r with Rejected e => throw e | _ => ret r end.

Definition reply_json (r : http_reply) : IO val :=
  match r with Response _ _ _ (inl v) => ret v | Response _ _ _ (inr e) | Rejected e => throw e end.

(** [uploadDoc]: the URL of the pinned file, if the server gives one. *)
Definition uploadDoc (symbol file slot : jsstr) : IO (option (val * jsstr)) :=
  let! r := post (js "/api/asset/doc/" ++ symbol ++ [47] ++ slot) (VObj [(js "file", VStr file)]) in
  let! res := reply_json r in
  let! u := vfield res (js "ipfs_url") in
  ret (if vtruthy u then Some (u, file) else None).

Definition upload_chosen (symbol : jsstr) (file : option jsstr) (slot : jsstr) : IO (option (val * jsstr)) :=
  match file with Some f => uploadDoc symbol f slot | None => ret None end.

(** [d?.url ?? url ?? ""] and [d?.name ?? file?.name ?? ""] *)
Definition doc_url (d : option (val * jsstr)) (url : option val) : val :=
  match d with Some (u, _) => u | None => default (VStr []) url end.
Definition doc_name (d : option (val * jsstr)) (file : option jsstr) : val :=
  VStr (match d with Some (_, n) => n | None => default [] file end).

Definition metadata_body (p : issue) (d1 d2 : option (val * jsstr)) : val :=
  let i := i_info p in
  VObj [(js "sector", VStr (sektor i)); (js "website", VStr (website i)); (js "social_x", VStr (socialX i));
        (js "social_ig", VStr (socialIG i)); (js "social_yt", VStr (socialYT i)); (js "social_fb", VStr (socialFB i));
        (js "social_li", VStr (socialLI i)); (js "social_tt", VStr (socialTT i));
        (js "doc1_url", doc_url d1 (doc1Url p)); (js "doc1_name", doc_name d1 (doc1File i));
        (js "doc2_url", doc_url d2 (doc2Url p)); (js "doc2_name", doc_name d2 (doc2File i))].

Definition metadata_path (p : issue) : jsstr := js "/api/asset/metadata/" ++ tokenSymbol (i_info p).

Definition url_updates (d1 d2 : option (val * jsstr)) : list update :=
  match d1 with Some (u, _) => [SetDoc1Url u] | None => [] end ++ match d2 with Some (u, _) => [SetDoc2Url u] | None => [] end.

(** [handleSubmit], of the page [p] it was created in. *)
Definition handleSubmit (p : issue) : IO (list update) :=
  let i := i_info p in
  try (let! d1 := upload_chosen (tokenSymbol i) (doc1File i) (js "doc1") in
       let! d2 := upload_chosen (tokenSymbol i) (doc2File i) (js "doc2") in
       let us := url_updates d1 d2 in
       try (let! _ := post (metadata_path p) (metadata_body p d1 d2) in ret (us ++ [Created]))
           (fun _ => ret (us ++ [FailedToSave])))
      (fun _ => ret [FailedToSave]).
End Submit.

(** ** The wizard as a system *)

(** The page, the wallet, and the page whose submission is running. *)
Record wizard := { w_page : issue; w_connected : bool; running : option issue }.

Definition on_page (f : issue -> issue) (w : wizard) : wizard :=
  {| w_page := f (w_page w); w_connected := w_connected w; running := running w |}.

Definition busy (p : issue) : issue :=
  {| i_step := i_step p; i_info := i_info p; totalSupply := totalSupply p; pricePerToken := pricePerToken p;
     presaleAllocation := presaleAllocation p; doc1Url := doc1Url p; doc2Url := doc2Url p;
     isSubmitting := true; i_toasts := i_toasts p |}.

Definition ends (u : update) : bool := match u with Created | FailedToSave => true | _ => false end.

(** What the user does, and the updates of a running submission. The buttons that
    go back and the fields stay enabled while it runs. *)
Inductive wizard_step (toUpperCase : jsstr -> jsstr) : wizard -> wizard -> Prop :=
| WInfo i w : wizard_step toUpperCase w (on_page (edit_info toUpperCase i) w)
| WSupply t w : wizard_step toUpperCase w (on_page (type_supply t) w)
| WLess w : wizard_step toUpperCase w (on_page less_supply w)
| WMore w : wizard_step toUpperCase w (on_page more_supply w)
| WPrice t w : wizard_step toUpperCase w (on_page (type_price t) w)
| WAllocation t w : wizard_step toUpperCase w (on_page (type_allocation t) w)
| WNext w : wizard_step toUpperCase w (on_page next_step w)
| WBack w : wizard_step toUpperCase w (on_page back_step w)
| WConnect w : wizard_step toUpperCase w {| w_page := w_page w; w_connected := true; running := running w |}
| WSubmit w : can_submit (w_connected w) (w_page w) = true ->
    wizard_step toUpperCase w {| w_page := busy (w_page w); w_connected := w_connected w; running := Some (w_page w) |}
| WUpdate u q w : running w = Some q ->
    wizard_step toUpperCase w {| w_page := update_page u (w_page w); w_connected := w_connected w;
                                 running := if ends u then None else running w |}.

Definition form_ok (p : issue) : bool := names_ok p && supply_ok p && allocation_ok p.

(** The steps before the last were passed with valid fields. *)
Definition wizard_inv (w : wizard) : Prop :=
  let p := w_page w in
  1 <= i_step p <= 5
  /\ (2 <= i_step p <= 4 -> names_ok p = true) /\ (3 <= i_step p <= 4 -> supply_ok p = true)
  /\ (i_step p = 4 -> allocation_ok p = true)
  /\ match running w with Some q => form_ok q = true /\ i_step q = 4 /\ isSubmitting p = true | None => True end.

Lemma wizard_inv_start c : wizard_inv {| w_page := issue_start; w_connected := c; running := None |}.
Proof. unfold wizard_inv. cbn. repeat split; lia. Qed.

(** The checks read only their own fields. *)
Lemma checks_same p p' :
  i_info p' = i_info p -> totalSupply p' = totalSupply p -> pricePerToken p' = pricePerToken p ->
  presaleAllocation p' = presaleAllocation p ->
  names_ok p' = names_ok p /\ supply_ok p' = supply_ok p /\ allocation_ok p' = allocation_ok p.
Proof. unfold names_ok, supply_ok, allocation_ok. by intros -> -> -> ->. Qed.

(** A change of one step's fields is made at that step only. *)
Lemma edit_inv w p' : let p := w_page w in
  i_step p' = i_step p -> isSubmitting p' = isSubmitting p ->
  (2 <= i_step p -> i_info p' = i_info p) ->
  (3 <= i_step p -> totalSupply p' = totalSupply p /\ pricePerToken p' = pricePerToken p) ->
  (4 <= i_step p -> presaleAllocation p' = presaleAllocation p) ->
  wizard_inv w -> wizard_inv {| w_page := p'; w_connected := w_connected w; running := running w |}.
Proof.
  intros p Es Eb Hi Hn Ha (H1 & H2 & H3 & H4 & H5). fold p in H1, H2, H3, H4, H5.
  unfold wizard_inv. cbn [w_page running]. rewrite Es, Eb. split; [done|]. split; [|split; [|split; [|done]]]; intros Hs.
  - unfold names_ok. rewrite Hi by lia. by apply H2.
  - unfold supply_ok. destruct Hn as [-> ->]; [lia|]. by apply H3.
  - unfold allocation_ok. rewrite Ha by lia. by apply H4.
Qed.

(** An edit that is enabled at step [n]. *)
Ltac edit_at := apply edit_inv; match goal with |- context [if ?b then _ else _] => destruct b eqn:Hstep end; try done; cbn; lia.

Lemma edits_inv up w w' :
  (exists i, w' = on_page (edit_info up i) w) \/ (exists x, w' = on_page (set_supply x) w)
  \/ (exists t, w' = on_page (type_price t) w) \/ (exists t, w' = on_page (type_allocation t) w) ->
  wizard_inv w -> wizard_inv w'.
Proof.
  intros [[i ->]|[[x ->]|[[t ->]|[t ->]]]];
    unfold on_page, edit_info, set_supply, type_price, type_allocation; edit_at.
Qed.

Lemma next_inv w : wizard_inv w -> wizard_inv (on_page next_step w).
Proof.
  intros Hw. pose proof Hw as (H1 & H2 & H3 & H4 & H5). unfold on_page, next_step.
  destruct (_ && _) eqn:E; [|by destruct w]. apply andb_true_iff in E as [E1 E2]. apply Z.ltb_lt in E1.
  destruct (checks_same (w_page w) (with_step (i_step (w_page w) + 1) (w_page w))) as (C1 & C2 & C3); [done..|].
  unfold wizard_inv. cbn [w_page running]. rewrite C1, C2, C3. cbn [with_step i_step isSubmitting].
  unfold canProceed in E2. revert E2. repeat case_match; intros E2; repeat split; intros; try done;
    try first [lia | apply H2; lia | apply H3; lia | by apply H5]; lia.
Qed.

Lemma back_inv w : wizard_inv w -> wizard_inv (on_page back_step w).
Proof.
  intros Hw. pose proof Hw as (H1 & H2 & H3 & H4 & H5). unfold on_page, back_step.
  destruct (_ && _) eqn:E; [|by destruct w]. apply andb_true_iff in E as [E1%Z.ltb_lt E2%Z.ltb_lt].
  destruct (checks_same (w_page w) (with_step (i_step (w_page w) - 1) (w_page w))) as (C1 & C2 & C3); [done..|].
  unfold wizard_inv. cbn [w_page running]. rewrite C1, C2, C3. cbn [with_step i_step isSubmitting].
  split; [lia|]. split; [intros; apply H2; lia|]. split; [intros; apply H3; lia|]. split; [lia|done].
Qed.

Lemma submit_inv w : can_submit (w_connected w) (w_page w) = true -> wizard_inv w ->
  wizard_inv {| w_page := busy (w_page w); w_connected := w_connected w; running := Some (w_page w) |}.
Proof.
  intros [[Hs _]%andb_true_iff _]%andb_true_iff (H1 & H2 & H3 & H4 & _). apply Z.eqb_eq in Hs.
  destruct (checks_same (w_page w) (busy (w_page w))) as (C1 & C2 & C3); [done..|].
  unfold wizard_inv, form_ok. cbn [w_page running]. rewrite C1, C2, C3. cbn [busy i_step isSubmitting].
  rewrite H2, H3, H4 by lia. repeat split; lia.
Qed.

Lemma update_inv u q w : running w = Some q -> wizard_inv w ->
  wizard_inv {| w_page := update_page u (w_page w); w_connected := w_connected w; running := if ends u then None else running w |}.
Proof.
  intros Hq (H1 & H2 & H3 & H4 & H5). rewrite Hq in H5 |- *.
  destruct (checks_same (w_page w) (update_page u (w_page w))) as (C1 & C2 & C3); [by destruct u..|].
  unfold wizard_inv. cbn [w_page running]. rewrite C1, C2, C3.
  destruct u; cbn [ends update_page i_step isSubmitting]; repeat split; intros; try lia; tauto.
Qed.

Lemma wizard_inv_step up w w' : wizard_step up w w' -> wizard_inv w -> wizard_inv w'.
Proof.
  intros []; try (by apply (edits_inv up); eauto 6).
  - by apply next_inv.
  - by apply back_inv.
  - done.
  - by apply submit_inv.
  - by eapply update_inv.
Qed.

Lemma wizard_inv_rtc up w w' : rtc (wizard_step up) w w' -> wizard_inv w -> wizard_inv w'.
Proof. induction 1 as [|a b c Hab _ IH]; [done|]. intros Ha. by eapply IH, wizard_inv_step. Qed.

(** ** What a submission asks for *)

Section Asks.
Context {K : KV}.
Variable P : http_request -> Prop.

(** Every request a computation adds satisfies [P]. *)
Definition asks {A} (m : IO A) : Prop := forall W : world K, exists qs, requests (m W).1 = requests W ++ qs /\ Forall P qs.

Lemma asks_ret {A} (a : A) : asks (ret a).
Proof. intros W. exists []. by rewrite app_nil_r. Qed.

Lemma asks_throw {A} e : asks (throw (A := A) e).
Proof. intros W. exists []. by rewrite app_nil_r. Qed.

Lemma asks_after {A B} (m : IO A) (m' : IO B) (W W1 : world K) x : asks m -> asks m' -> m W = (W1, x) ->
  exists qs, requests (m' W1).1 = requests W ++ qs /\ Forall P qs.
Proof.
  intros Hm Hm' E. destruct (Hm W) as (q1 & R1 & F1), (Hm' W1) as (q2 & R2 & F2). rewrite E in R1. cbn [fst] in R1.
  exists (q1 ++ q2). rewrite R2, R1, <- app_assoc. split; [done|]. by apply Forall_app.
Qed.

Lemma asks_bind {A B} (m : IO A) (k : A -> IO B) : asks m -> (forall a, asks (k a)) -> asks (bind m k).
Proof.
  intros Hm Hk W. unfold bind. destruct (m W) as [W1 [a|e]] eqn:E; [by apply (asks_after m _ W W1 (inl a))|].
  pose proof (Hm W) as H. by rewrite E in H.
Qed.

Lemma asks_try {A} (m : IO A) h : asks m -> (forall e, asks (h e)) -> asks (try m h).
Proof.
  intros Hm Hk W. unfold try. destruct (m W) as [W1 [a|e]] eqn:E; [|by apply (asks_after m _ W W1 (inr e))].
  pose proof (Hm W) as H. by rewrite E in H.
Qed.

Lemma asks_fetch q : P q -> asks (fetch q).
Proof. intros Hq W. exists [q]. unfold fetch. destruct (replies W); cbn; auto using Forall_cons, Forall_nil. Qed.

Lemma asks_post path body : P {| h_path := path; h_method := js "POST"; h_body := Some body |} -> asks (post path body).
Proof. intros H. apply asks_bind; [by apply asks_fetch|]. intros []; [apply asks_throw|apply asks_ret]. Qed.
End Asks.

Create HintDb asking.
#[export] Hint Resolve asks_ret asks_throw asks_bind asks_try asks_fetch asks_post : asking.

Definition to_asset_store (q : http_request) : Prop := exists t, h_path q = js "/api/asset/" ++ t.

Lemma asks_upload {K : KV} symbol file slot : asks to_asset_store (upload_chosen (K := K) symbol file slot).
Proof.
  destruct file as [f|]; cbn [upload_chosen]; [|apply asks_ret]. unfold uploadDoc.
  apply asks_bind; [apply asks_post; by eexists|]. intros r. apply asks_bind.
  { destruct r as [|? ? ? []]; cbn [reply_json]; auto with asking. }
  intros v. apply asks_bind; [destruct v; cbn [vfield]; auto with asking|]. auto with asking.
Qed.

Lemma asks_submit {K : KV} p : asks to_asset_store (handleSubmit (K := K) p).
Proof.
  unfold handleSubmit. apply asks_try; [|auto with asking].
  apply asks_bind; [apply asks_upload|]. intros d1. apply asks_bind; [apply asks_upload|]. intros d2.
  apply asks_try; [|auto with asking]. apply asks_bind; [|auto with asking].
  apply asks_post. by eexists.
Qed.

Definition metadata_req (q : issue) : http_request :=
  {| h_path := metadata_path q; h_method := js "POST"; h_body := Some (metadata_body q None None) |}.


Definition sample_info : info :=
  {| tokenName := js "Garuda Saham"; tokenSymbol := js "GRDS"; companyName := js "PT Garuda"; sektor := []; website := [];
     socialX := []; socialIG := []; socialYT := []; socialFB := []; socialLI := []; socialTT := [];
     doc1File := None; doc2File := None |}.

Definition sample_page : issue := next_step (next_step (next_step (edit_info id sample_info issue_start))).
Definition sample_wizard : wizard := {| w_page := busy sample_page; w_connected := true; running := Some sample_page |}.

Lemma sample_submits : rtc (wizard_step id) {| w_page := issue_start; w_connected := true; running := None |} sample_wizard.
Proof.
  eapply rtc_l; [apply (WInfo id sample_info)|]. do 3 (eapply rtc_l; [apply WNext|]).
  eapply rtc_l; [apply WSubmit; vm_compute; reflexivity|]. apply rtc_refl.
Qed.

Definition offline : world map_kv :=
  {| web := true; secure := ∅; async := ∅; replies := [Response 500 [] None (inr (js "SyntaxError"))]; requests := []; clock := 0 |}.

