(* ===== verification/Presale.v ===== *)
(** * Buying stock tokens in a presale

    The wallet, the countdown and the purchase form of
    src/website/src/pages/IPOSaham.tsx, and the server's [handleBuyPresale]
    (src/api/main.go). The two nodes the server calls are parameters. *)

From stdpp Require Import gmap.
From S2P Require Import Prelude JsText Amounts Numbers Utf8 Json Vault Store Api MarketList CustomFetch ApiClient Explorer DexWallet DexLedger Issuance.
Local Open Scope Z_scope.
Local Open Scope io_scope.

(** ** The server *)

(** The calls of the handler, by node. *)
Inductive call :=
| buypresale (asset : jsstr) (amount : Z) (buyer : jsstr)
| sendtoaddress (address : jsstr) (amount : double)
| generatetoaddress (blocks : Z) (address : jsstr).

(** An [int64] of the decoded body; a number that is not one leaves the field 0. *)
Definition body_int (body : val) (k : jsstr) : Z :=
  match vprop body k with
  | VNum (Fin x) =>
      let n := frac_n x / frac_d x in
      if (n * frac_d x =? frac_n x) && (- 2 ^ 63 <=? n) && (n <? 2 ^ 63) then n else 0
  | _ => 0
  end.

Section Server.
(** [cbdcNode.Call] and [publicNode.Call]: a result or the text of an error. *)
Variable cbdcNode : call -> val + jsstr.
Variable publicNode : call -> val + jsstr.

Definition grd_transfer (creator : jsstr) (cost : double) (resp : list (jsstr * val)) : list (jsstr * val) :=
  match publicNode (sendtoaddress creator cost) with
  | inr e => put (put resp (js "grd_transfer") (VStr (js "failed"))) (js "grd_transfer_error") (VStr e)
  | inl r => put (put (put (put resp (js "grd_transfer") (VStr (js "ok")))
                   (js "grd_transfer_txid") (VStr (match r with VStr t => t | _ => [] end)))
                   (js "grd_sent") (VNum cost)) (js "grd_to") (VStr creator)
  end.

(** The calls it makes and its answer; storing in the nil map of a result that is
    not an object is a panic, after which the connection is closed. *)
Definition handleBuyPresale (body : val) : list call * http_reply :=
  let asset := body_string body (js "asset_id") in
  let amount := body_int body (js "token_amount") in
  let buyer := body_string body (js "buyer_address") in
  if bool_decide (asset = []) || (amount <=? 0) || bool_decide (buyer = []) then ([], answer (failure (js "Missing required fields")))
  else
    let buy := buypresale asset amount buyer in
    match cbdcNode buy with
    | inr e => ([buy], answer (failure e))
    | inl result =>
        let mine := generatetoaddress 1 buyer in
        match result with
        | VObj resp =>
            let cost := body_float result (js "cost_grd") in
            let creator := body_string result (js "creator_address") in
            if dlt (of_Z 0) cost && negb (bool_decide (creator = [])) then
              ([buy; sendtoaddress creator cost; mine],
               answer (VObj (put (grd_transfer creator cost resp) (js "status_api") (VStr (js "ok")))))
            else ([buy; mine], answer (VObj (put resp (js "status_api") (VStr (js "ok")))))
        | _ => ([buy; mine], Rejected (js "connection closed"))
        end
    end.
End Server.

(** ** The page *)

Record ipo_wallet := { p_connected : bool; p_address : val; p_balance : val; p_assets : val }.

Definition ipo_start : ipo_wallet :=
  {| p_connected := false; p_address := VStr []; p_balance := VNum (of_Z 0); p_assets := VArr [] |}.

Record presale := { asset_id : jsstr; p_symbol : jsstr; price_grd : double; tokens_for_sale : double; tokens_sold : double }.

Inductive purchase := BuyError (t : val) | Bought (tokens : val) (cost : val).

Record buy_form := { b_amount : jsstr; b_pending : bool; b_result : option purchase; b_refreshed : nat }.

Definition buy_qty (f : buy_form) : double := of_Z (default 0 (parseInt (b_amount f) 10)).
Definition cost (s : presale) (f : buy_form) : double := dmul (buy_qty f) (price_grd s).
Definition remaining (s : presale) : double := dsub (tokens_for_sale s) (tokens_sold s).
Definition canAfford (w : ipo_wallet) (s : presale) (f : buy_form) : bool :=
  p_connected w && dle (cost s f) (to_number (p_balance w)).
Definition validQty (s : presale) (f : buy_form) : bool := dlt (of_Z 0) (buy_qty f) && dle (buy_qty f) (remaining s).

(** The button that buys is enabled. *)
Definition can_buy (w : ipo_wallet) (s : presale) (f : buy_form) : bool :=
  negb (b_pending f) && validQty s f && canAfford w s f.

Section Page.
Context {K : KV}.

Definition get_wallet : IO val :=
  let! r := fetch {| h_path := js "/api/dex/wallet/connect"; h_method := js "GET"; h_body := None |} in reply_json r.

Definition assets_or (v : val) : val := if vtruthy v then v else VArr [].

Definition connectWallet (w : ipo_wallet) : IO ipo_wallet :=
  try (let! res := get_wallet in
       let! c := vfield res (js "connected") in
       ret (if vtruthy c then {| p_connected := true; p_address := vprop res (js "address");
                                 p_balance := vprop res (js "balance_grd"); p_assets := assets_or (vprop res (js "assets")) |}
            else w))
      (fun _ => ret w).

Definition refreshWallet (w : ipo_wallet) : IO ipo_wallet :=
  try (let! res := get_wallet in
       let! c := vfield res (js "connected") in
       ret (if vtruthy c then {| p_connected := p_connected w; p_address := p_address w;
                                 p_balance := vprop res (js "balance_grd"); p_assets := assets_or (vprop res (js "assets")) |}
            else w))
      (fun _ => ret w).

Definition buy_body (w : ipo_wallet) (s : presale) (f : buy_form) : val :=
  VObj [(js "asset_id", VStr (asset_id s)); (js "token_amount", VNum (buy_qty f)); (js "buyer_address", p_address w)].

(** [handleBuy]; the number of refreshes counts [wallet.refreshBalance(); onSuccess()]. *)
Definition handleBuy (w : ipo_wallet) (s : presale) (f : buy_form) : IO buy_form :=
  if negb (p_connected w) || negb (validQty s f) then ret f else
  let done amount r n := {| b_amount := amount; b_pending := false; b_result := Some r; b_refreshed := n |} in
  try (let! r := post (js "/api/dex/presale/buy") (buy_body w s f) in
       let! data := reply_json r in
       let! e := vfield data (js "error") in
       if vtruthy e then ret (done (b_amount f) (BuyError e) (b_refreshed f)) else
       let or v d := if vtruthy v then v else VNum d in
       ret (done [] (Bought (or (vprop data (js "tokens_bought")) (buy_qty f)) (or (vprop data (js "cost_grd")) (cost s f)))
                 (S (b_refreshed f))))
      (fun _ => ret (done (b_amount f) (BuyError (VStr (js "Gagal menghubungi server"))) (b_refreshed f))).
End Page.

(** ** The countdown *)

(** Days, hours, minutes and seconds; [None] is "Berakhir". *)
Definition CountdownTimer (endTimestamp now : Z) : option (Z * Z * Z * Z) :=
  let remaining := Z.max 0 (endTimestamp - now) in
  if remaining <=? 0 then None
  else Some (remaining / 86400, (remaining mod 86400) / 3600, (remaining mod 3600) / 60, remaining mod 60).

(** The countdown shows the time that is left, each part in its range. *)
Lemma countdown_exact (endTimestamp now : Z) :
  match CountdownTimer endTimestamp now with
  | None => endTimestamp <= now
  | Some (d, h, m, s) => d * 86400 + h * 3600 + m * 60 + s = endTimestamp - now
      /\ 0 <= d /\ 0 <= h < 24 /\ 0 <= m < 60 /\ 0 <= s < 60
  end.
Proof.
  unfold CountdownTimer. destruct (_ <=? 0) eqn:E; [lia|].
  rewrite Z.max_r by lia. set (r := endTimestamp - now) in *.
  pose proof (Z.mod_mod_divide r 86400 3600 ltac:(by exists 24)) as E1.
  pose proof (Z.mod_mod_divide r 3600 60 ltac:(by exists 60)) as E2.
  assert (0 < r) by lia. rewrite <- E2, <- E1. clear E1 E2. Z.to_euclidean_division_equations. lia.
Qed.

(** ** A purchase *)

Lemma transfer_keeps node creator cost m k : startsWith k (js "grd_") = false ->
  vlookup (grd_transfer node creator cost m) k = vlookup m k.
Proof.
  intros Hk. unfold grd_transfer. destruct (node _); rewrite !lookup_put; repeat (case_bool_decide; [subst k; vm_compute in Hk; discriminate|]); done.
Qed.

Lemma body_int_exact fs k n : 0 < n < 2 ^ 51 -> vlookup fs k = VNum (of_Z n) -> body_int (VObj fs) k = n.
Proof.
  intros Hn E. unfold body_int, vprop. rewrite E. destruct (of_Z_exact n Hn) as (x & -> & Ex & Hx).
  rewrite Ex, Z.div_mul by lia. rewrite Z.eqb_refl. cbn [andb]. by rewrite (proj2 (Z.leb_le (- 2 ^ 63) n)), (proj2 (Z.ltb_lt n (2 ^ 63))) by lia.
Qed.

Section Purchase.
Variables (cbdcNode publicNode : call -> val + jsstr).
Variables (w : ipo_wallet) (s : presale) (f : buy_form) (n : Z) (addr creator : jsstr) (c : num) (fields : list (jsstr * val)).
(** The amount is a whole number, and the node records the purchase and names its
    cost and the creator of the token. *)
Definition recorded : Prop :=
  parseInt (b_amount f) 10 = Some n /\ 0 < n < 2 ^ 51 /\ asset_id s <> [] /\ p_address w = VStr addr /\ addr <> []
  /\ cbdcNode (buypresale (asset_id s) n addr) = inl (VObj fields)
  /\ vtruthy (vlookup fields (js "error")) = false
  /\ vlookup fields (js "cost_grd") = VNum (Fin c) /\ dlt (of_Z 0) (Fin c) = true
  /\ vlookup fields (js "creator_address") = VStr creator /\ creator <> [].

Lemma purchase_served : recorded ->
  handleBuyPresale cbdcNode publicNode (buy_body w s f)
  = ([buypresale (asset_id s) n addr; sendtoaddress creator (Fin c); generatetoaddress 1 addr],
     answer (VObj (put (grd_transfer publicNode creator (Fin c) fields) (js "status_api") (VStr (js "ok"))))).
Proof.
  intros (Hn & Hr & Ha & Hw & Hd & Hc & _ & Hcost & Hpos & Hcr & Hne). unfold handleBuyPresale.
  assert (body_int (buy_body w s f) (js "token_amount") = n) as ->.
  { apply body_int_exact; [done|]. unfold buy_qty. by rewrite Hn. }
  change (body_string (buy_body w s f) (js "asset_id")) with (asset_id s).
  assert (body_string (buy_body w s f) (js "buyer_address") = addr) as -> by (unfold body_string; cbn; by rewrite Hw).
  rewrite (bool_decide_eq_false_2 (asset_id s = [])), (bool_decide_eq_false_2 (addr = [])) by done.
  rewrite (proj2 (Z.leb_gt n 0)) by lia. cbn [orb]. rewrite Hc. unfold body_float, body_string, vprop. rewrite Hcost, Hcr, Hpos.
  by rewrite (bool_decide_eq_false_2 (creator = [])).
Qed.

End Purchase.

Definition sample_fields : list (jsstr * val) :=
  [(js "tokens_bought", VNum (of_Z 10)); (js "cost_grd", VNum (of_Z 5)); (js "creator_address", VStr (js "grd1creator"))].
Definition recording_node (q : call) : val + jsstr := match q with buypresale _ _ _ => inl (VObj sample_fields) | _ => inl VNull end.
Definition empty_node (q : call) : val + jsstr := inr (js "Insufficient funds").

Definition sample_buyer : ipo_wallet :=
  {| p_connected := true; p_address := VStr (js "grd1buyer"); p_balance := VNum (of_Z 100); p_assets := VArr [] |}.
Definition sample_presale : presale :=
  {| asset_id := js "id1"; p_symbol := js "GRDS"; price_grd := ddiv (of_Z 1) (of_Z 2); tokens_for_sale := of_Z 1000; tokens_sold := of_Z 0 |}.
Definition sample_buy : buy_form := {| b_amount := js "10"; b_pending := false; b_result := None; b_refreshed := 0 |}.
Definition five : num := match of_Z 5 with Fin x => x | _ => {| mant := 0; expo := 0 |} end.

Lemma sample_recorded : recorded recording_node sample_buyer sample_presale sample_buy 10 (js "grd1buyer") (js "grd1creator") five sample_fields.
Proof. repeat split; done. Qed.

Definition answered (r : http_reply) : world map_kv :=
  {| web := true; secure := ∅; async := ∅; replies := [r]; requests := []; clock := 0 |}.

