(* ===== verification/Toast.v ===== *)
(** * Toasts of the website

    src/website/src/hooks/use-toast.ts: one list of toasts outside React, a reducer
    with the removal timers as its side effect, and the listeners that show it. *)

From S2P Require Import Prelude JsText.
Local Open Scope Z_scope.

Definition TOAST_LIMIT : nat := 1.
Definition TOAST_REMOVE_DELAY : Z := 1000000.
Definition MAX_SAFE_INTEGER : Z := 9007199254740991.

Section Toast.
(** Title, description, action and the other properties of a toast. *)
Variable P : Type.

Record ToasterToast := { t_id : jsstr; t_open : bool; t_props : P }.

(** [Partial<ToasterToast>]: the properties present replace those of the toast. *)
Record partial_toast := { u_id : jsstr; u_open : option bool; u_props : P -> P }.

Inductive Action :=
| ADD_TOAST (toast : ToasterToast)
| UPDATE_TOAST (toast : partial_toast)
| DISMISS_TOAST (toastId : option jsstr)
| REMOVE_TOAST (toastId : option jsstr).

(** The module's state: [toastTimeouts] holds the removal timers with the instant
    they are due, [views] what each listener was last given. *)
Record module_state := {
  toasts : list ToasterToast;
  toastTimeouts : list (jsstr * Z);
  count : Z;
  time : Z;
  listeners : list nat;
  views : list (nat * list ToasterToast)
}.

Definition genId (s : module_state) : jsstr * Z :=
  let c := (count s + 1) mod MAX_SAFE_INTEGER in (to_string 10 c, c).

Definition has_timeout (ts : list (jsstr * Z)) (id : jsstr) : bool := existsb (fun t => bool_decide (t.1 = id)) ts.

Definition addToRemoveQueue (now : Z) (ts : list (jsstr * Z)) (toastId : jsstr) : list (jsstr * Z) :=
  if has_timeout ts toastId then ts else ts ++ [(toastId, now + TOAST_REMOVE_DELAY)].

Definition set_open (t : ToasterToast) (b : bool) : ToasterToast :=
  {| t_id := t_id t; t_open := b; t_props := t_props t |}.

(** The toasts and the timers after an action. *)
Definition reducer (now : Z) (l : list ToasterToast) (ts : list (jsstr * Z)) (a : Action)
    : list ToasterToast * list (jsstr * Z) :=
  match a with
  | ADD_TOAST t => (take TOAST_LIMIT (t :: l), ts)
  | UPDATE_TOAST u =>
      (map (fun t => if bool_decide (t_id t = u_id u)
                     then {| t_id := u_id u; t_open := default (t_open t) (u_open u); t_props := u_props u (t_props t) |}
                     else t) l, ts)
  | DISMISS_TOAST toastId =>
      let ts := match toastId with
                | Some ((_ :: _) as id) => addToRemoveQueue now ts id
                | _ => foldl (fun ts t => addToRemoveQueue now ts (t_id t)) ts l
                end in
      (map (fun t => if bool_decide (Some (t_id t) = toastId \/ toastId = None) then set_open t false else t) l, ts)
  | REMOVE_TOAST None => ([], ts)
  | REMOVE_TOAST (Some id) => (List.filter (fun t => negb (bool_decide (t_id t = id))) l, ts)
  end.

Definition dispatch (s : module_state) (a : Action) : module_state :=
  let '(l, ts) := reducer (time s) (toasts s) (toastTimeouts s) a in
  {| toasts := l; toastTimeouts := ts; count := count s; time := time s; listeners := listeners s;
     views := map (fun v => if bool_decide (v.1 ∈ listeners s) then (v.1, l) else v) (views s) |}.

(** [toast(props)] *)
Definition toast (s : module_state) (props : P) : module_state * jsstr :=
  let '(id, c) := genId s in
  let s := {| toasts := toasts s; toastTimeouts := toastTimeouts s; count := c; time := time s;
              listeners := listeners s; views := views s |} in
  (dispatch s (ADD_TOAST {| t_id := id; t_open := true; t_props := props |}), id).

(** The timer of [id] runs: it forgets itself and removes the toast. *)
Definition fire (s : module_state) (id : jsstr) : module_state :=
  dispatch {| toasts := toasts s; toastTimeouts := List.filter (fun t => negb (bool_decide (t.1 = id))) (toastTimeouts s);
              count := count s; time := time s; listeners := listeners s; views := views s |}
    (REMOVE_TOAST (Some id)).

(** [useToast] of the component [n]: its first state, and the effect that adds it
    to the listeners and removes it again. *)
Definition mount (s : module_state) (n : nat) : module_state :=
  {| toasts := toasts s; toastTimeouts := toastTimeouts s; count := count s; time := time s;
     listeners := listeners s ++ [n]; views := (n, toasts s) :: List.filter (fun v => negb (v.1 =? n)%nat) (views s) |}.

Definition unmount (s : module_state) (n : nat) : module_state :=
  {| toasts := toasts s; toastTimeouts := toastTimeouts s; count := count s; time := time s;
     listeners := List.filter (fun m => negb (m =? n)%nat) (listeners s); views := views s |}.

Definition at_time (s : module_state) (t : Z) : module_state :=
  {| toasts := toasts s; toastTimeouts := toastTimeouts s; count := count s; time := t; listeners := listeners s;
     views := views s |}.

(** ** Every interleaving *)

Definition toast_boot : module_state :=
  {| toasts := []; toastTimeouts := []; count := 0; time := 0; listeners := []; views := [] |}.

(** Time passes up to the next timer that is due. *)
Inductive toast_step (s : module_state) : module_state -> Prop :=
| toast_new props : toast_step s (toast s props).1
| toast_update u : u_open u <> Some false -> toast_step s (dispatch s (UPDATE_TOAST u))
| toast_dismiss id : id <> [] -> toast_step s (dispatch s (DISMISS_TOAST (Some id)))
| toast_dismiss_all : toast_step s (dispatch s (DISMISS_TOAST None))
| toast_fire id due : In (id, due) (toastTimeouts s) -> due <= time s -> toast_step s (fire s id)
| toast_wait t : time s <= t -> (forall id due, In (id, due) (toastTimeouts s) -> t <= due) -> toast_step s (at_time s t)
| toast_mount n : toast_step s (mount s n)
| toast_unmount n : toast_step s (unmount s n).

Inductive toast_reachable : module_state -> Prop :=
| toast_start : toast_reachable toast_boot
| toast_next s s' : toast_reachable s -> toast_step s s' -> toast_reachable s'.

Record toast_inv (s : module_state) : Prop := {
  ti_limit : (length (toasts s) <= TOAST_LIMIT)%nat;
  ti_closed : forall t, In t (toasts s) -> t_open t = false -> exists due, In (t_id t, due) (toastTimeouts s);
  ti_timers : NoDup (map fst (toastTimeouts s));
  ti_due : forall id due, In (id, due) (toastTimeouts s) -> time s <= due <= time s + TOAST_REMOVE_DELAY
}.

Lemma has_timeout_spec ts id : has_timeout ts id = true <-> exists due, In (id, due) ts.
Proof.
  unfold has_timeout. rewrite existsb_exists. split.
  - intros ([i d] & Hin & E). apply bool_decide_eq_true in E. cbn in E. subst. eauto.
  - intros [due H]. exists (id, due). split; [done|]. by apply bool_decide_eq_true.
Qed.

Lemma queue_spec now ts id :
  (exists due, In (id, due) (addToRemoveQueue now ts id))
  /\ (forall x, In x ts -> In x (addToRemoveQueue now ts id))
  /\ (forall x, In x (addToRemoveQueue now ts id) -> In x ts \/ x = (id, now + TOAST_REMOVE_DELAY))
  /\ (NoDup (map fst ts) -> NoDup (map fst (addToRemoveQueue now ts id))).
Proof.
  unfold addToRemoveQueue. destruct (has_timeout ts id) eqn:E.
  { apply has_timeout_spec in E. auto. }
  split; [eexists; apply in_or_app; right; by left|]. split; [intros x Hx; apply in_or_app; by left|]. split.
  - intros x Hx. apply in_app_or in Hx as [Hx|[<-|[]]]; auto.
  - intros Hn. rewrite map_app. apply NoDup_app. split; [done|]. split; [|apply NoDup_singleton].
    intros x Hx Hx'. apply list_elem_of_singleton in Hx' as ->. apply list_elem_of_In, in_map_iff in Hx as ([i d] & E' & Hin).
    cbn in E'. subst. assert (has_timeout ts id = true); [apply has_timeout_spec; eauto|congruence].
Qed.

Lemma queue_all now (l : list ToasterToast) ts :
  let ts' := foldl (fun ts t => addToRemoveQueue now ts (t_id t)) ts l in
  (forall t, In t l -> exists due, In (t_id t, due) ts')
  /\ (forall x, In x ts -> In x ts')
  /\ (forall x, In x ts' -> In x ts \/ x.2 = now + TOAST_REMOVE_DELAY)
  /\ (NoDup (map fst ts) -> NoDup (map fst ts')).
Proof.
  revert ts. induction l as [|t l IH]; intros ts; cbn [foldl]; [split; [done|auto]|].
  destruct (IH (addToRemoveQueue now ts (t_id t))) as (H1 & H2 & H3 & H4).
  destruct (queue_spec now ts (t_id t)) as ([d Q1] & Q2 & Q3 & Q4). split; [|split; [|split]]; auto.
  - intros t' [<-|Ht']; [exists d|]; auto.
  - intros x Hx. destruct (H3 x Hx) as [Hx'|Hx']; [|by right]. destruct (Q3 x Hx') as [?| ->]; auto.
Qed.

Lemma inv_dispatch s a l ts :
  toast_inv s -> reducer (time s) (toasts s) (toastTimeouts s) a = (l, ts) ->
  (length l <= TOAST_LIMIT)%nat ->
  (forall t, In t l -> t_open t = false -> exists due, In (t_id t, due) ts) ->
  NoDup (map fst ts) -> (forall x, In x ts -> In x (toastTimeouts s) \/ x.2 = time s + TOAST_REMOVE_DELAY) ->
  toast_inv (dispatch s a).
Proof.
  intros Hs E Hl Hc Hn Hd. unfold dispatch. rewrite E. split; cbn; try done.
  intros id due Hin. destruct (Hd _ Hin) as [H|H]; [by apply (ti_due s Hs id)|]. cbn in H. unfold TOAST_REMOVE_DELAY in *. lia.
Qed.

Lemma inv_toast s props : toast_inv s -> toast_inv (toast s props).1.
Proof.
  intros Hs. unfold toast, genId. cbn [fst].
  eapply inv_dispatch; [by destruct Hs|reflexivity|rewrite length_take; lia| |apply Hs|auto].
  intros t [<-|[]]. done.
Qed.

Lemma inv_update s u : toast_inv s -> u_open u <> Some false -> toast_inv (dispatch s (UPDATE_TOAST u)).
Proof.
  intros Hs Hu. eapply inv_dispatch; [done|reflexivity| | | |]; try apply Hs; auto.
  - rewrite length_map. apply Hs.
  - intros t Hin Ho. apply in_map_iff in Hin as (t0 & <- & Hin). destruct (bool_decide _) eqn:E.
    + apply bool_decide_eq_true in E. cbn [t_open t_id] in *. rewrite <- E. apply (ti_closed s Hs); [done|].
      destruct (u_open u) as [[]|]; done.
    + by apply (ti_closed s Hs).
Qed.

Lemma inv_dismiss s (o : option jsstr) : toast_inv s -> o <> Some [] -> toast_inv (dispatch s (DISMISS_TOAST o)).
Proof.
  intros Hs Ho. eapply inv_dispatch; [done|reflexivity| | | |]; cbn [fst snd].
  - rewrite length_map. apply Hs.
  - intros t Hin Hc. apply in_map_iff in Hin as (t0 & <- & Hin).
    assert (t_id (if bool_decide (Some (t_id t0) = o \/ o = None) then set_open t0 false else t0) = t_id t0) as ->
      by by destruct (bool_decide _).
    destruct o as [[|u id]|]; [done| |by apply queue_all].
    destruct (queue_spec (time s) (toastTimeouts s) (u :: id)) as ([d Q1] & Q2 & _).
    destruct (bool_decide _) eqn:E.
    + apply bool_decide_eq_true in E as [[= ->]|?]; [eauto|done].
    + destruct (ti_closed s Hs t0 Hin Hc) as [d' H]. eauto.
  - destruct o as [[|u id]|]; [done|apply queue_spec, Hs|apply queue_all, Hs].
  - intros x Hx. destruct o as [[|u id]|]; [done| |by apply queue_all in Hx].
    apply queue_spec in Hx as [?| ->]; auto.
Qed.

Lemma fire_timers s id x :
  In x (List.filter (fun t => negb (bool_decide (t.1 = id))) (toastTimeouts s)) <-> In x (toastTimeouts s) /\ x.1 <> id.
Proof. rewrite filter_In, negb_true_iff, bool_decide_eq_false. done. Qed.

Lemma inv_fire s id : toast_inv s -> toast_inv (fire s id).
Proof.
  intros Hs. unfold fire, dispatch. cbn [reducer]. split; cbn [toasts toastTimeouts time].
  - etransitivity; [|apply Hs]. apply filter_length_le.
  - intros t Hin Ho. apply filter_In in Hin as [Hin E]. apply negb_true_iff, bool_decide_eq_false in E.
    destruct (ti_closed s Hs t Hin Ho) as [d H]. exists d. by apply fire_timers.
  - pose proof (ti_timers s Hs) as Hn. clear Hs. induction (toastTimeouts s) as [|x ts IH]; [done|].
    cbn [map] in Hn. apply NoDup_cons in Hn as [H1 H2]. cbn [List.filter]. destruct (negb _); [|auto].
    cbn [map]. constructor; [|auto]. intros H. apply H1. apply list_elem_of_In, in_map_iff in H as (y & Ey & Hy).
    apply filter_In in Hy as [Hy _]. rewrite <- Ey. by apply list_elem_of_In, in_map.
  - intros i d H. apply fire_timers in H as [H _]. by apply (ti_due s Hs i).
Qed.

Lemma toast_reachable_inv s : toast_reachable s -> toast_inv s.
Proof.
  induction 1 as [|s s' _ Hs Hst]; [split; cbn; (done || lia || constructor)|]. destruct Hst.
  - by apply inv_toast.
  - by apply inv_update.
  - apply inv_dismiss; congruence.
  - by apply inv_dismiss.
  - by apply inv_fire.
  - destruct Hs as [H1 H2 H3 H4]. split; try done. cbn. intros id due Hin. specialize (H4 id due Hin). specialize (H0 id due Hin).
    unfold TOAST_REMOVE_DELAY in *. lia.
  - by destruct Hs.
  - by destruct Hs.
Qed.

(** Under every interleaving of new, updated and dismissed toasts, timers and
    components there is at most one toast; one that was closed has a removal timer
    that is due within [TOAST_REMOVE_DELAY], no toast has two, and when the timer
    runs the toast is gone. *)
Theorem closed_toast_is_removed (s : module_state) :
  toast_reachable s ->
  (length (toasts s) <= 1)%nat /\ NoDup (map fst (toastTimeouts s))
  /\ forall t, In t (toasts s) -> t_open t = false ->
     (exists due, In (t_id t, due) (toastTimeouts s) /\ time s <= due <= time s + TOAST_REMOVE_DELAY)
     /\ forall t', In t' (toasts (fire s (t_id t))) -> t_id t' <> t_id t.
Proof.
  intros H. pose proof (toast_reachable_inv s H) as Hs. split; [apply Hs|]. split; [apply Hs|].
  intros t Hin Ho. split.
  - destruct (ti_closed s Hs t Hin Ho) as [d Hd]. exists d. split; [done|]. by apply (ti_due s Hs (t_id t)).
  - intros t' Ht'. unfold fire, dispatch in Ht'. cbn in Ht'. apply filter_In in Ht' as [_ E].
    by apply negb_true_iff, bool_decide_eq_false in E.
Qed.
End Toast.

Lemma closed_toast_is_removed_witness :
  exists s, toast_reachable unit s /\ (exists t, In t (toasts unit s) /\ t_open unit t = false)
    /\ NoDup (map fst (toastTimeouts unit s)).
Proof.
  pose (s1 := (toast unit (toast_boot unit) tt).1).
  pose (s2 := dispatch unit s1 (DISMISS_TOAST unit (Some (js "1")))).
  assert (toast_reachable unit s2) as H.
  { eapply toast_next; [eapply toast_next; [apply toast_start|apply (toast_new unit _ tt)]|]. by apply toast_dismiss. }
  exists s2. split; [exact H|]. split; [|apply (closed_toast_is_removed unit s2 H)].
  eexists. split; [left; reflexivity|reflexivity].
Defined.
