(* ===== verification/BlockStream.v ===== *)
(** * The website's block stream

    src/website/src/hooks/use-block-stream.ts: an [EventSource] that is opened on
    mount and again after errors, updates the cached statistics and throttles the
    reload of the lists. The events of the browser arrive in any order. *)

From S2P Require Import Prelude JsText Amounts Numbers Utf8 Json.
Local Open Scope Z_scope.

Definition MAX_RETRIES : Z := 3.

(** [sources] are the event sources that are not closed, [retryTimers] the
    pending [setTimeout(connect, 3000)], [stats] the cached statistics, and
    [reloads] the instants the lists were invalidated, the last one first. *)
Record stream_state := {
  eventSourceRef : option nat;
  sources : list nat;
  created : nat;
  retriesRef : Z;
  lastInvalidateRef : Z;
  retryTimers : list Z;
  stats : option (list (jsstr * json));
  reloads : list Z;
  mounted : bool;
  now : Z
}.

Definition with_source (s : stream_state) (ref : option nat) (l : list nat) (c : nat) (retries : Z) (ts : list Z) : stream_state :=
  {| eventSourceRef := ref; sources := l; created := c; retriesRef := retries; lastInvalidateRef := lastInvalidateRef s;
     retryTimers := ts; stats := stats s; reloads := reloads s; mounted := mounted s; now := now s |}.

(** [supported]: the constructor of [EventSource] does not throw. *)
Definition connect (supported : bool) (s : stream_state) : stream_state :=
  match eventSourceRef s with
  | Some _ => s
  | None =>
      if MAX_RETRIES <=? retriesRef s then s
      else if negb supported then s
      else with_source s (Some (created s)) (created s :: sources s) (S (created s)) (retriesRef s) (retryTimers s)
  end.

Definition onopen (s : stream_state) : stream_state :=
  with_source s (eventSourceRef s) (sources s) (created s) 0 (retryTimers s).

(** [{ ...old, key: value }]; a value that is [undefined] is left out. *)
Definition put_field (fs : list (jsstr * json)) (key : jsstr) (v : option json) : list (jsstr * json) :=
  List.filter (fun f => negb (bool_decide (f.1 = key))) fs ++ match v with Some v => [(key, v)] | None => [] end.

Definition new_block (s : stream_state) (number : option json) : stream_state :=
  let again := 1000 <? now s - lastInvalidateRef s in
  {| eventSourceRef := eventSourceRef s; sources := sources s; created := created s; retriesRef := retriesRef s;
     lastInvalidateRef := if again then now s else lastInvalidateRef s; retryTimers := retryTimers s;
     stats := (fun old => put_field (put_field old (js "latestBlock") number) (js "totalTransactions") number) <$> stats s;
     reloads := if again then now s :: reloads s else reloads s; mounted := mounted s; now := now s |}.

(** A text that is not JSON, or has no [type], is a heartbeat. *)
Definition onmessage (data : jsstr) (s : stream_state) : stream_state :=
  match json_parse data with
  | Some (JObj fs) =>
      match field fs (js "type") with
      | Some (JStr t) => if bool_decide (t = js "new_block") then new_block s (field fs (js "number")) else s
      | _ => s
      end
  | _ => s
  end.

Definition close (i : nat) (l : list nat) : list nat := List.filter (fun j => negb (j =? i)%nat) l.

Definition onerror (i : nat) (s : stream_state) : stream_state :=
  let r := retriesRef s + 1 in
  with_source s None (close i (sources s)) (created s) r
    (if r <? MAX_RETRIES then retryTimers s ++ [now s + 3000] else retryTimers s).

(** The effect's cleanup: the source is closed, a pending timer is not. *)
Definition cleanup (s : stream_state) : stream_state :=
  {| eventSourceRef := None; sources := match eventSourceRef s with Some i => close i (sources s) | None => sources s end;
     created := created s; retriesRef := retriesRef s; lastInvalidateRef := lastInvalidateRef s;
     retryTimers := retryTimers s; stats := stats s; reloads := reloads s; mounted := false; now := now s |}.

Definition retry (supported : bool) (s : stream_state) : stream_state :=
  connect supported (with_source s (eventSourceRef s) (sources s) (created s) (retriesRef s) (drop 1 (retryTimers s))).

Definition others (s : stream_state) (st : option (list (jsstr * json))) (t : Z) : stream_state :=
  {| eventSourceRef := eventSourceRef s; sources := sources s; created := created s; retriesRef := retriesRef s;
     lastInvalidateRef := lastInvalidateRef s; retryTimers := retryTimers s; stats := st; reloads := reloads s;
     mounted := mounted s; now := t |}.

(** The hook before its effect runs, at an instant of the clock. *)
Definition stream_boot (t : Z) : stream_state :=
  {| eventSourceRef := None; sources := []; created := 0; retriesRef := 0; lastInvalidateRef := 0; retryTimers := [];
     stats := None; reloads := []; mounted := true; now := t |}.

(** ** Every order of events *)

Inductive stream_step (s : stream_state) : stream_state -> Prop :=
| ev_open i : In i (sources s) -> stream_step s (onopen s)
| ev_message i data : In i (sources s) -> stream_step s (onmessage data s)
| ev_error i : In i (sources s) -> stream_step s (onerror i s)
| ev_timer b d ts : retryTimers s = d :: ts -> d <= now s -> stream_step s (retry b s)
| ev_unmount : mounted s = true -> stream_step s (cleanup s)
| ev_others st t : now s <= t -> stream_step s (others s st t).

Inductive stream_reachable : stream_state -> Prop :=
| stream_mount t b : 0 <= t -> stream_reachable (connect b (stream_boot t))
| stream_next s s' : stream_reachable s -> stream_step s s' -> stream_reachable s'.

(** Two reloads are more than a second apart. *)
Fixpoint spaced (l : list Z) : Prop :=
  match l with a :: ((b :: _) as l) => b + 1000 < a /\ spaced l | _ => True end.

Record stream_inv (s : stream_state) : Prop := {
  si_ref : sources s = match eventSourceRef s with Some i => [i] | None => [] end;
  si_timers : (length (sources s) + length (retryTimers s) <= 1)%nat;
  si_retries : 0 <= retriesRef s <= MAX_RETRIES;
  si_gone : retriesRef s = MAX_RETRIES -> sources s = [] /\ retryTimers s = [];
  si_last : reloads s = [] \/ exists l, reloads s = lastInvalidateRef s :: l;
  si_spaced : spaced (reloads s)
}.

Lemma inv_connect b s :
  stream_inv s -> retryTimers s = [] -> stream_inv (connect b s).
Proof.
  intros Hs Ht. unfold connect. destruct (eventSourceRef s) as [i|] eqn:E; [exact Hs|].
  destruct (Z.leb_spec MAX_RETRIES (retriesRef s)); [exact Hs|]. destruct b; [|exact Hs].
  destruct Hs as [H1 H2 H3 H4 H5 H6]. rewrite E in H1. split; cbn; try done.
  - by rewrite H1.
  - rewrite H1, Ht. cbn. lia.
  - lia.
Qed.

Lemma close_only i : close i [i] = [].
Proof. unfold close. cbn. by rewrite Nat.eqb_refl. Qed.

Lemma inv_error i s : stream_inv s -> In i (sources s) -> stream_inv (onerror i s).
Proof.
  intros [H1 H2 H3 H4 H5 H6] Hi. unfold onerror. destruct (eventSourceRef s) as [k|] eqn:E; rewrite H1 in *; [|done].
  destruct Hi as [-> |[]]. cbn [length] in H2. destruct (retryTimers s) as [|d ts] eqn:Et; [|cbn in H2; lia].
  assert (retriesRef s <> MAX_RETRIES) by (intros Hr; by destruct (H4 Hr)).
  split; cbn [with_source eventSourceRef sources retryTimers retriesRef reloads lastInvalidateRef];
    rewrite ?H1, ?Et, ?close_only; try done.
  - destruct (retriesRef s + 1 <? MAX_RETRIES); cbn; lia.
  - unfold MAX_RETRIES in *. lia.
  - intros Hr. split; [done|]. destruct (Z.ltb_spec (retriesRef s + 1) MAX_RETRIES); [lia|done].
Qed.

Lemma inv_block s n : stream_inv s -> stream_inv (new_block s n).
Proof.
  intros [H1 H2 H3 H4 H5 H6]. split; try done; cbn.
  - destruct (Z.ltb_spec 1000 (now s - lastInvalidateRef s)); [right; eauto|done].
  - destruct (Z.ltb_spec 1000 (now s - lastInvalidateRef s)); [|done]. destruct H5 as [E|[l E]]; rewrite E in *; [done|].
    split; [lia|done].
Qed.

Lemma stream_reachable_inv s : stream_reachable s -> stream_inv s.
Proof.
  induction 1 as [t b Ht|s s' _ Hs Hst].
  { apply inv_connect; [|done]. split; cbn; auto; unfold MAX_RETRIES; lia. }
  destruct Hst as [i Hi|i data Hi|i Hi|b d ts Et Hd|Hm|st t Ht].
  - destruct Hs as [H1 H2 H3 H4 H5 H6]. split; try done; cbn; unfold MAX_RETRIES; lia.
  - unfold onmessage. repeat case_match; try done. by apply inv_block.
  - by apply inv_error.
  - destruct Hs as [H1 H2 H3 H4 H5 H6]. rewrite Et in *. cbn [length] in H2.
    destruct (eventSourceRef s) eqn:E; rewrite H1 in *; [cbn in H2; lia|]. destruct ts; [|cbn in H2; lia].
    apply inv_connect; [|cbn; by rewrite Et].
    split; cbn [with_source eventSourceRef sources retryTimers retriesRef reloads lastInvalidateRef];
      rewrite ?H1, ?Et, ?E; (done || (cbn; lia)).
  - destruct Hs as [H1 H2 H3 H4 H5 H6]. split; cbn; try done.
    + destruct (eventSourceRef s); rewrite H1; [apply close_only|done].
    + destruct (eventSourceRef s); rewrite H1 in *; rewrite ?close_only; cbn in *; lia.
    + intros Hr. destruct (H4 Hr) as [E1 E2]. split; [|done].
      destruct (eventSourceRef s); rewrite H1 in *; [apply close_only|done].
  - by destruct Hs.
Qed.

(** C38. Whatever the order of events, the hook has at most one open connection or
    pending retry, three failures in a row end it for good, and two reloads of the
    lists are more than a second apart. *)
Theorem stream_bounded (s : stream_state) :
  stream_reachable s ->
  (length (sources s) + length (retryTimers s) <= 1)%nat /\ 0 <= retriesRef s <= MAX_RETRIES
  /\ (retriesRef s = MAX_RETRIES -> sources s = [] /\ retryTimers s = []) /\ spaced (reloads s).
Proof. intros H. destruct (stream_reachable_inv s H) as [_ H2 H3 H4 _ H6]. auto. Qed.

Lemma stream_bounded_witness :
  exists s, stream_reachable s /\ retriesRef s = MAX_RETRIES /\ sources s = [].
Proof.
  pose (e1 := onerror 0 (connect true (stream_boot 0))).
  pose (e2 := onerror 1 (retry true (others e1 None 3000))).
  pose (e3 := onerror 2 (retry true (others e2 None 6000))).
  assert (stream_reachable e3) as H.
  { eapply stream_next; [|apply (ev_error _ 2); by left].
    eapply stream_next; [|eapply (ev_timer _ true); [reflexivity|apply Z.leb_le; reflexivity]].
    eapply stream_next; [|apply ev_others, Z.leb_le; reflexivity].
    eapply stream_next; [|apply (ev_error _ 1); by left].
    eapply stream_next; [|eapply (ev_timer _ true); [reflexivity|apply Z.leb_le; reflexivity]].
    eapply stream_next; [|apply ev_others, Z.leb_le; reflexivity].
    eapply stream_next; [|apply (ev_error _ 0); by left]. by apply stream_mount. }
  exists e3. split; [exact H|]. split; [reflexivity|]. apply (stream_bounded e3 H). reflexivity.
Defined.

(** The cleanup does not cancel a pending retry: a component that is gone opens a
    connection that nothing closes. *)
Lemma stream_reopened_after_unmount :
  exists s, stream_reachable s /\ mounted s = false /\ sources s = [1%nat].
Proof.
  exists (retry true (others (cleanup (onerror 0 (connect true (stream_boot 0)))) None 3000)).
  split; [|done]. eapply stream_next; [|eapply (ev_timer _ true); [reflexivity|apply Z.leb_le; reflexivity]].
  eapply stream_next; [|apply ev_others, Z.leb_le; reflexivity]. eapply stream_next; [|by apply ev_unmount].
  eapply stream_next; [|apply (ev_error _ 0); by left]. by apply stream_mount.
Qed.
