(* ===== verification/QrCode.v ===== *)
(** * The QR generator

    [generateQR] of [mobile/utils/qrcode.ts], phase by phase. A thrown
    exception is [None]. *)

From S2P Require Import Prelude JsText ReedSolomon QrMatrix.
Local Open Scope Z_scope.

(** ** Version and capacity *)

Definition group_sum (gs : list (Z * Z)) : Z := foldl (fun s '(n, d) => s + n * d) 0 gs.

Definition info (ver : Z) : option ECInfo := mjoin (ECCM !! Z.to_nat ver).

(** [Math.ceil((4 + 8 + 8 * len + 4) / 8)] *)
Definition need (len : Z) : Z := - ((- (4 + 8 + 8 * len + 4)) / 8).

(** The loop that selects the version; at most seven turns. *)
Fixpoint select_version (fuel : nat) (ver need : Z) : option Z :=
  match fuel with
  | O => None
  | S fuel =>
      if ver <? Z.of_nat (length ECCM) - 1 then
        i ← info ver;
        if need <=? group_sum (groups i) then Some ver
        else select_version fuel (ver + 1) need
      else Some ver
  end.

Definition qr_size (ver : Z) : Z := 17 + 4 * ver.

(** ** Function patterns and the reserved modules *)

Definition fill (r0 r1 c0 c1 : Z) : list (Z * Z * Z) :=
  r ← upto r0 r1; c ← upto c0 c1; [(r, c, 1)].

(** The stores of the timing loop into [mat] and into [res]. *)
Definition timing_mat (size : Z) : list (Z * Z * Z) :=
  i ← upto 8 (size - 8);
  let v := if i mod 2 =? 0 then 1 else 0 in [(6, i, v); (i, 6, v)].

Definition timing_res (size : Z) : list (Z * Z * Z) :=
  i ← upto 8 (size - 8); [(6, i, 1); (i, 6, 1)].

(** The alignment loop over the centres not in a finder area. *)
Definition align_step (size : Z) (st : mat * mat) (p : Z * Z) : option (mat * mat) :=
  let '(m, res) := st in
  let '(cy, cx) := p in
  if inFinderArea cy cx size then Some (m, res)
  else
    m ← placeAlign m cy cx;
    res ← mwrites res (fill (cy - 2) (cy + 3) (cx - 2) (cx + 3));
    Some (m, res).

Fixpoint align_loop (size : Z) (st : mat * mat) (ps : list (Z * Z)) : option (mat * mat) :=
  match ps with
  | [] => Some st
  | p :: ps => st ← align_step size st p; align_loop size st ps
  end.

(** Everything before the data: the matrix with its function patterns and the
    matrix of the reserved modules. *)
Definition setup_patterns (ver : Z) : option (mat * mat) :=
  let size := qr_size ver in
  m ← placeFinder (mkMat size) 0 0;
  m ← placeFinder m 0 (size - 7);
  m ← placeFinder m (size - 7) 0;
  res ← mwrites (mkMat size)
          (fill 0 9 0 9 ++ fill 0 9 (size - 8) size ++ fill (size - 8) size 0 9);
  m ← mwrites m (timing_mat size);
  res ← mwrites res (timing_res size);
  let ap := default [] (ALIGNCTR !! Z.to_nat ver) in
  '(m, res) ← align_loop size (m, res) (cy ← ap; cx ← ap; [(cy, cx)]);
  m ← mset m (4 * ver + 9) 8 1;
  res ← mset res (4 * ver + 9) 8 1;
  Some (m, res).

(** ** Data encoding *)

(** The low eight bits of [b], the highest first. *)
Definition bits8 (b : Z) : list Z := map (fun i => (b >>. i) &. 1) (reverse (upto 0 8)).
Arguments bits8 : simpl never.

(** [for (let i = 0; i < 4 && bits.length < maxBits; i++) bits.push(0)] *)
Fixpoint terminator (n : nat) (maxBits : Z) (bits : list Z) : list Z :=
  match n with
  | O => bits
  | S n => if Z.of_nat (length bits) <? maxBits then terminator n maxBits (bits ++ [0]) else bits
  end.

(** [while (bits.length % 8) bits.push(0)]; at most seven turns. *)
Fixpoint byte_align (fuel : nat) (bits : list Z) : list Z :=
  match fuel with
  | O => bits
  | S fuel => if Z.of_nat (length bits) mod 8 =? 0 then bits else byte_align fuel (bits ++ [0])
  end.

(** The padding codewords; each turn adds eight bits. *)
Fixpoint padding (fuel : nat) (pi maxBits : Z) (bits : list Z) : list Z :=
  match fuel with
  | O => bits
  | S fuel =>
      if Z.of_nat (length bits) <? maxBits
      then padding fuel (pi + 1) maxBits (bits ++ bits8 (if pi mod 2 =? 0 then 0xEC else 0x11))
      else bits
  end.

Definition encode_bits (bytes : list Z) (cap : Z) : list Z :=
  let len := Z.of_nat (length bytes) in
  let bits := [0; 1; 0; 0] ++ bits8 len ++ concat (map bits8 bytes) in
  let maxBits := cap * 8 in
  let bits := terminator 4 maxBits bits in
  let bits := byte_align 8 bits in
  padding (Z.to_nat maxBits) 0 maxBits bits.

(** The byte at the front of [bits]; a missing bit counts as zero. *)
Definition pack8 (bits : list Z) : Z :=
  foldl (fun b j => (b <<. 1) |. default 0 (bits !! j)) 0 (seq 0 8).

(** [for (let i = 0; i < bits.length; i += 8)] *)
Fixpoint pack_bytes (fuel : nat) (bits : list Z) : list Z :=
  match fuel, bits with
  | S fuel, _ :: _ => pack8 bits :: pack_bytes fuel (drop 8 bits)
  | _, _ => []
  end.

Definition data_bytes (bits : list Z) : list Z := pack_bytes (length bits) bits.

(** ** Error correction and interleaving *)

Record block := { d : list Z; e : list Z }.

(** [dataBytes.slice(di, di + nd)] *)
Definition slice (l : list Z) (i j : Z) : list Z := take (Z.to_nat (j - i)) (drop (Z.to_nat i) l).

Fixpoint group_blocks (nb : nat) (nd ecLen : Z) (data : list Z) (di : Z) : list block * Z :=
  match nb with
  | O => ([], di)
  | S nb =>
      let dd := slice data di (di + nd) in
      let blk := {| d := dd; e := rsEncode dd (Z.to_nat ecLen) |} in
      let '(bs, di) := group_blocks nb nd ecLen data (di + nd) in
      (blk :: bs, di)
  end.

Fixpoint make_blocks (gs : list (Z * Z)) (ecLen : Z) (data : list Z) (di : Z) : list block :=
  match gs with
  | [] => []
  | (nb, nd) :: gs =>
      let '(bs, di) := group_blocks (Z.to_nat nb) nd ecLen data di in
      bs ++ make_blocks gs ecLen data di
  end.

Definition interleave (blocks : list block) : list Z :=
  let maxD := max_list (map (fun b => length (d b)) blocks) in
  let maxE := match blocks with [] => 0%nat | b :: _ => length (e b) end in
  (i ← seq 0 maxD; b ← blocks; match d b !! i with Some x => [x] | None => [] end)
  ++ (i ← seq 0 maxE; b ← blocks; match e b !! i with Some x => [x] | None => [] end).

Definition final_bits (fb : list Z) (ver : Z) : list Z :=
  concat (map bits8 fb) ++ replicate (Z.to_nat (default 0 (REMBITS !! Z.to_nat ver))) 0.

(** ** Placement of the data bits *)

(** The modules in the order the placement loop visits them: pairs of columns
    from the right, alternately upwards and downwards. *)
Fixpoint zigzag (fuel : nat) (col : Z) (upward : bool) (size : Z) : list (Z * Z) :=
  match fuel with
  | O => []
  | S fuel =>
      if 0 <? col then
        let col := if col =? 6 then col - 1 else col in
        (ri ← upto 0 size;
         let r := if upward then size - 1 - ri else ri in
         cd ← upto 0 2; [(r, col - cd)])
        ++ zigzag fuel (col - 2) (negb upward) size
      else []
  end.

Definition visit_order (size : Z) : list (Z * Z) := zigzag (Z.to_nat size) (size - 1) true size.

Fixpoint place_bits (res m : mat) (bits : list Z) (bi : nat) (cs : list (Z * Z)) : option mat :=
  match cs with
  | [] => Some m
  | (r, c) :: cs =>
      x ← mget res r c;
      if x =? 0 then
        m ← mset m r c (default 0 (bits !! bi));
        place_bits res m bits (S bi) cs
      else place_bits res m bits bi cs
  end.

(** ** Masks *)

Definition maskFns (mask r c : Z) : bool :=
  match mask with
  | 0 => (r + c) mod 2 =? 0
  | 1 => r mod 2 =? 0
  | 2 => c mod 3 =? 0
  | 3 => (r + c) mod 3 =? 0
  | 4 => (r / 2 + c / 3) mod 2 =? 0
  | 5 => (r * c) mod 2 + (r * c) mod 3 =? 0
  | 6 => ((r * c) mod 2 + (r * c) mod 3) mod 2 =? 0
  | _ => ((r + c) mod 2 + (r * c) mod 3) mod 2 =? 0
  end.

(** The matrix a mask would give, built to be scored. *)
Definition masked (size : Z) (res m : mat) (mask : Z) : option mat :=
  mwrites (mkMat size)
    (map (fun '(r, c) =>
       (r, c, if at_ res r c =? 0
              then at_ m r c ^. (if maskFns mask r c then 1 else 0) else at_ m r c))
     (cells size)).

(** The mask loop; the best score so far is [None] before the first turn,
    where the source has [Infinity]. *)
Fixpoint mask_loop (size : Z) (res m : mat) (masks : list Z)
    (best : Z * option Z) : option (Z * option Z) :=
  match masks with
  | [] => Some best
  | mask :: masks =>
      mm ← masked size res m mask;
      let sc := penaltyScore mm in
      let better := match best.2 with None => true | Some b => sc <? b end in
      mask_loop size res m masks (if better then (mask, Some sc) else best)
  end.

Fixpoint apply_mask (res m : mat) (mask : Z) (cs : list (Z * Z)) : option mat :=
  match cs with
  | [] => Some m
  | (r, c) :: cs =>
      if (at_ res r c =? 0) && maskFns mask r c
      then m ← mset m r c (at_ m r c ^. 1); apply_mask res m mask cs
      else apply_mask res m mask cs
  end.

(** ** The generator *)

(** The matrix before masking: patterns and data bits. *)
Definition unmasked (bytes : list Z) : option (Z * mat * mat) :=
  ver ← select_version 8 1 (need (Z.of_nat (length bytes)));
  i ← info ver;
  '(m, res) ← setup_patterns ver;
  let bits := encode_bits bytes (group_sum (groups i)) in
  let blocks := make_blocks (groups i) (ec i) (data_bytes bits) 0 in
  m ← place_bits res m (final_bits (interleave blocks) ver) 0 (visit_order (qr_size ver));
  Some (ver, m, res).

Definition generateQR (text : jsstr) : option (list (list bool)) :=
  '(ver, m, res) ← unmasked (utf8_encode text);
  let size := qr_size ver in
  '(bestMask, _) ← mask_loop size res m (upto 0 8) (0, None);
  m ← apply_mask res m bestMask (cells size);
  m ← placeFormat m bestMask ver;
  Some (map (fun r => map (fun c => at_ m r c =? 1) (upto 0 size)) (upto 0 size)).
