(* ===== verification/QrDecode.v ===== *)
(** * Reading a QR code as the standard prescribes

    A reader for symbols of versions 1 to 7 at level M, written from ISO/IEC
    18004 and not from the generator: function modules, module order, masks,
    format information, block structure and byte mode. It accepts a symbol only
    when every block is a codeword. *)

From S2P Require Import Prelude GF256 ReedSolomon.
Local Open Scope Z_scope.

Abbreviation symbol := (list (list bool)).

Definition module_at (q : symbol) (r c : Z) : option bool :=
  if (r <? 0) || (c <? 0) then None else q !! Z.to_nat r ≫= (.!! Z.to_nat c).

Definition down (n : Z) : list Z := reverse (seqZ 0 n).

(** ** Function modules *)

(** Centres of the alignment patterns. *)
Definition iso_centres (ver : Z) : list Z :=
  match ver with
  | 2 => [6; 18] | 3 => [6; 22] | 4 => [6; 26] | 5 => [6; 30] | 6 => [6; 34] | 7 => [6; 22; 38]
  | _ => []
  end.

Definition in_alignment (ver r c : Z) : bool :=
  let n := 17 + 4 * ver in
  let cs := iso_centres ver in
  existsb (fun y => existsb (fun x =>
    negb (((y =? 6) && (x =? 6)) || ((y =? 6) && (x =? n - 7)) || ((y =? n - 7) && (x =? 6)))
    && (Z.abs (r - y) <=? 2) && (Z.abs (c - x) <=? 2)) cs) cs.

(** Finder patterns with their separators and the format information, timing
    patterns, alignment patterns, and from version 7 on the version
    information. *)
Definition iso_function (ver r c : Z) : bool :=
  let n := 17 + 4 * ver in
  ((r <? 9) && (c <? 9)) || ((r <? 9) && (n - 8 <=? c)) || ((n - 8 <=? r) && (c <? 9))
  || (r =? 6) || (c =? 6) || in_alignment ver r c
  || ((7 <=? ver) && (((r <? 6) && (n - 11 <=? c)) || ((n - 11 <=? r) && (c <? 6)))).

(** ** Order of the data modules *)

(** The right column of each pair, from the right edge, the timing column
    skipped. *)
Definition iso_columns (n : Z) : list Z :=
  map (fun k => n - 1 - 2 * k) (seqZ 0 ((n - 7) / 2)) ++ [5; 3; 1].

Definition iso_order (n : Z) : list (Z * Z) :=
  concat (imap (fun k x =>
    concat (map (fun r => [(r, x); (r, x - 1)])
      (if Nat.even k then down n else seqZ 0 n))) (iso_columns n)).

Definition iso_cells (ver : Z) : list (Z * Z) :=
  filter (fun p => iso_function ver p.1 p.2 = false) (iso_order (17 + 4 * ver)).

(** ** Masks and format information *)

Definition iso_mask (mask i j : Z) : bool :=
  match mask with
  | 0 => (i + j) mod 2 =? 0
  | 1 => i mod 2 =? 0
  | 2 => j mod 3 =? 0
  | 3 => (i + j) mod 3 =? 0
  | 4 => (i / 2 + j / 3) mod 2 =? 0
  | 5 => (i * j) mod 2 + (i * j) mod 3 =? 0
  | 6 => ((i * j) mod 2 + (i * j) mod 3) mod 2 =? 0
  | 7 => ((i + j) mod 2 + (i * j) mod 3) mod 2 =? 0
  | _ => false
  end.

(** Remainder of a binary polynomial of degree at most [9 + n] modulo the
    generator [0x537] of the BCH (15,5) code. *)
Fixpoint bch_rem (n : nat) (a : Z) : Z :=
  match n with
  | O => a
  | S n => bch_rem n (if Z.testbit a (10 + Z.of_nat n)
                      then Z.lxor a (Z.shiftl 0x537 (Z.of_nat n)) else a)
  end.

(** The 15 bits for level M, whose indicator is 00. *)
Definition iso_format (mask : Z) : Z :=
  let data := Z.shiftl mask 10 in
  Z.lxor (Z.lor data (bch_rem 5 data)) 0x5412.

(** Positions of bits 14 to 0 around the top left finder pattern. *)
Definition format_cells_1 : list (Z * Z) :=
  [(8,0);(8,1);(8,2);(8,3);(8,4);(8,5);(8,7);(8,8);(7,8);(5,8);(4,8);(3,8);(2,8);(1,8);(0,8)].

(** The second copy: bits 14 to 8 up from the bottom edge, bits 7 to 0 to the
    right edge. *)
Definition format_cells_2 (n : Z) : list (Z * Z) :=
  map (fun k => (n - 1 - k, 8)) (seqZ 0 7) ++ map (fun k => (8, n - 8 + k)) (seqZ 0 8).

Definition be_value (bits : list Z) : Z := foldl (fun acc b => 2 * acc + b) 0 bits.

Definition read_modules (q : symbol) (cs : list (Z * Z)) : option (list Z) :=
  mapM (fun p => b ← module_at q p.1 p.2; Some (Z.b2z b)) cs.

Definition read_format (q : symbol) (cs : list (Z * Z)) : option Z :=
  bits ← read_modules q cs;
  list_find (fun mask => iso_format mask = be_value bits) (seqZ 0 8) ≫= fun x => Some x.2.

(** ** Codewords *)

Definition read_data (q : symbol) (mask : Z) (cs : list (Z * Z)) : option (list Z) :=
  mapM (fun p => b ← module_at q p.1 p.2;
                 Some (Z.b2z (xorb b (iso_mask mask p.1 p.2)))) cs.

Fixpoint read_bytes (n : nat) (bits : list Z) : list Z :=
  match n with
  | O => []
  | S n => be_value (take 8 bits) :: read_bytes n (drop 8 bits)
  end.

(** Blocks, data and check codewords per block at level M. *)
Definition iso_blocks (ver : Z) : option (nat * nat * nat) :=
  match ver with
  | 1 => Some (1, 16, 10)%nat | 2 => Some (1, 28, 16)%nat | 3 => Some (1, 44, 26)%nat
  | 4 => Some (2, 32, 18)%nat | 5 => Some (2, 43, 24)%nat | 6 => Some (4, 27, 16)%nat
  | 7 => Some (4, 31, 18)%nat | _ => None
  end.

(** The [j]th of [nb] interleaved blocks of [n] codewords. *)
Definition deinterleave (nb n : nat) (cw : list Z) (j : nat) : list Z :=
  map (fun i => cw !!! (i * nb + j)%nat) (seq 0 n).

Definition syndromes_zero (necc : nat) (w : list Z) : bool :=
  forallb (fun k => eval w (alpha k) =? 0) (seq 0 necc).

(** ** Byte mode *)

Definition to_bits (b : Z) : list Z := map (fun i => Z.b2z (Z.testbit b i)) (down 8).

(** Mode 0100, an 8-bit count, and that many bytes. *)
Definition parse_bits (bits : list Z) : option (list Z) :=
  let len := Z.to_nat (be_value (take 8 (drop 4 bits))) in
  if (be_value (take 4 bits) =? 4) && bool_decide (12 + 8 * len <= length bits)%nat
  then Some (read_bytes len (drop 12 bits)) else None.

(** The text of the data bits: codewords, blocks, their check, and the bytes. *)
Definition decode_stream (nb nd ne : nat) (bits : list Z) : option (list Z) :=
  let cw := read_bytes (nb * (nd + ne)) bits in
  let datas := map (deinterleave nb nd cw) (seq 0 nb) in
  let eccs := map (deinterleave nb ne (drop (nb * nd) cw)) (seq 0 nb) in
  if forallb (syndromes_zero ne) (zip_with (++) datas eccs)
  then parse_bits (concat (map to_bits (concat datas))) else None.

Definition decodeQR (q : symbol) : option (list Z) :=
  let n := Z.of_nat (length q) in
  let ver := (n - 17) / 4 in
  if negb (n =? 17 + 4 * ver) then None else
  '(nb, nd, ne) ← iso_blocks ver;
  mask ← read_format q format_cells_1;
  bits ← read_data q mask (iso_cells ver);
  decode_stream nb nd ne bits.
