(* ===== verification/QrProofs.v ===== *)
(** * The QR generator against the reader

    Every text that fits a version up to 6 is read back from the symbol the
    generator draws for it. *)

From S2P Require Import Prelude GF256 JsText ReedSolomon QrMatrix QrCode QrDecode.
Local Open Scope Z_scope.

Definition bit_ok (b : Z) : Prop := b = 0 \/ b = 1.

#[export] Instance bit_ok_dec b : Decision (bit_ok b).
Proof. unfold bit_ok. apply _. Defined.

(** ** Bytes and bits *)

Lemma length_bits8 b : length (bits8 b) = 8%nat.
Proof. done. Qed.

Lemma all_bytes_bool (f : Z -> bool) b : byte_ok b -> all_bytes f = true -> f b = true.
Proof. intros Hb H. by apply (all_bytes_spec f). Qed.

Lemma bits8_to_bits b : byte_ok b -> bits8 b = to_bits b.
Proof.
  intros Hb. apply (bool_decide_unpack _).
  rewrite (all_bytes_bool (fun b => bool_decide (bits8 b = to_bits b)) b Hb); [done|].
  by vm_compute.
Qed.

Lemma be_value_bits8 b : byte_ok b -> be_value (bits8 b) = b.
Proof.
  intros Hb. apply Z.eqb_eq.
  rewrite (all_bytes_bool (fun b => be_value (bits8 b) =? b) b Hb); [done|]. by vm_compute.
Qed.

Lemma bits8_bit b : Forall bit_ok (bits8 b).
Proof.
  unfold bits8. apply Forall_forall. intros x (i & -> & _)%list_elem_of_fmap. unfold bit_ok, js_and.
  change (int32 1) with (2 ^ 1 - 1). rewrite land_ones_mod by lia.
  pose proof (Z.mod_pos_bound (int32 (b >>. i)) (2 ^ 1)). lia.
Qed.

Lemma concat_bits8_bit l : Forall bit_ok (concat (map bits8 l)).
Proof. induction l; cbn [map concat]; [by constructor|]. apply Forall_app. auto using bits8_bit. Qed.

Lemma length_concat_bits8 l : length (concat (map bits8 l)) = (8 * length l)%nat.
Proof. induction l; cbn [map concat length]; [done|]. rewrite length_app, length_bits8. lia. Qed.

Lemma bits8_pack8 bits rest :
  length bits = 8%nat -> Forall bit_ok bits -> bits8 (pack8 (bits ++ rest)) = bits /\ byte_ok (pack8 (bits ++ rest)).
Proof.
  intros Hlen Hb. do 8 (destruct bits as [|? bits]; [done|]). destruct bits; [|done].
  rewrite !Forall_cons in Hb. unfold bit_ok in Hb.
  destruct Hb as ([-> | ->] & [-> | ->] & [-> | ->] & [-> | ->] & [-> | ->] & [-> | ->] & [-> | ->] & [-> | ->] & _);
    (split; [vm_compute; reflexivity | vm_compute; split; congruence]).
Qed.

Lemma pack_bytes_spec n fuel bits :
  length bits = (8 * n)%nat -> (n <= fuel)%nat -> Forall bit_ok bits ->
  concat (map bits8 (pack_bytes fuel bits)) = bits /\
  length (pack_bytes fuel bits) = n /\ bytes_ok (pack_bytes fuel bits).
Proof.
  revert fuel bits. induction n as [|n IH]; intros fuel bits Hlen Hf Hb.
  { destruct bits; [|done]. destruct fuel; split_and_all; done || constructor. }
  destruct fuel as [|fuel]; [lia|]. destruct bits as [|b bits]; [done|].
  cbn [pack_bytes map concat]. set (l := b :: bits) in *.
  rewrite <- (take_drop 8 l) in Hb. apply Forall_app in Hb as [Ht Hd].
  destruct (bits8_pack8 (take 8 l) (drop 8 l)) as [H1 H2]; [llen|done|].
  rewrite take_drop in H1, H2. rewrite H1.
  destruct (IH fuel (drop 8 l)) as (H3 & H4 & H5); [llen|lia|done|].
  rewrite H3. split_and_all; [apply take_drop | cbn [length]; lia | by constructor].
Qed.

Lemma data_bytes_spec n bits :
  length bits = (8 * n)%nat -> Forall bit_ok bits ->
  concat (map bits8 (data_bytes bits)) = bits /\
  length (data_bytes bits) = n /\ bytes_ok (data_bytes bits).
Proof. intros. apply pack_bytes_spec; (done || lia). Qed.

Lemma read_bytes_concat l rest :
  bytes_ok l -> read_bytes (length l) (concat (map bits8 l) ++ rest) = l.
Proof.
  induction 1 as [|b l Hb Hl IH]; [done|]. simpl length. cbn [map concat read_bytes].
  rewrite <- app_assoc, take_app_length', drop_app_length' by done.
  by rewrite be_value_bits8, IH.
Qed.

(** ** The bit stream *)

(** The padding codewords the loop appends. *)
Fixpoint pads (n : nat) (pi : Z) : list Z :=
  match n with
  | O => []
  | S n => (if pi mod 2 =? 0 then 0xEC else 0x11) :: pads n (pi + 1)
  end.

Lemma length_pads n pi : length (pads n pi) = n.
Proof. revert pi. induction n; intros; simpl; auto. Qed.

Lemma padding_spec n fuel pi maxBits bits :
  Z.of_nat (length bits) + 8 * Z.of_nat n = maxBits -> (n <= fuel)%nat ->
  padding fuel pi maxBits bits = bits ++ concat (map bits8 (pads n pi)).
Proof.
  revert fuel pi bits. induction n as [|n IH]; intros fuel pi bits Hlen Hf.
  { rewrite app_nil_r. destruct fuel; simpl; [done|]. by destruct (Z.ltb_spec (Z.of_nat (length bits)) maxBits); [lia|]. }
  destruct fuel as [|fuel]; [lia|]. cbn [padding pads map concat].
  destruct (Z.ltb_spec (Z.of_nat (length bits)) maxBits); [|lia].
  rewrite IH; [by rewrite app_assoc | rewrite length_app, length_bits8; lia | lia].
Qed.

Lemma terminator_full n maxBits bits :
  Z.of_nat (length bits) + Z.of_nat n <= maxBits ->
  terminator n maxBits bits = bits ++ replicate n 0.
Proof.
  revert bits. induction n as [|n IH]; intros bits H; simpl; [by rewrite app_nil_r|].
  destruct (Z.ltb_spec (Z.of_nat (length bits)) maxBits); [|lia].
  rewrite IH by llen. rewrite <- app_assoc. done.
Qed.

Lemma byte_align_aligned fuel bits :
  Z.of_nat (length bits) mod 8 = 0 -> byte_align fuel bits = bits.
Proof. intros H. destruct fuel; simpl; [done|]. by rewrite H. Qed.

Definition header (bytes : list Z) : list Z :=
  [0; 1; 0; 0] ++ bits8 (Z.of_nat (length bytes)) ++ concat (map bits8 bytes).

(** When the bytes fit, the stream is mode, count, bytes, terminator and
    padding, and it fills the capacity exactly. *)
Lemma encode_bits_fits bytes cap :
  Z.of_nat (length bytes) + 2 <= cap ->
  encode_bits bytes cap =
    header bytes ++ [0; 0; 0; 0] ++ concat (map bits8 (pads (Z.to_nat cap - length bytes - 2) 0)).
Proof.
  intros Hfit. unfold encode_bits. fold (header bytes).
  assert (length (header bytes) = 12 + 8 * length bytes)%nat as Hh.
  { unfold header. rewrite !length_app, length_bits8, length_concat_bits8. simpl. lia. }
  rewrite terminator_full by (rewrite Hh; lia). cbn [replicate].
  assert (length (header bytes ++ [0; 0; 0; 0]) = (8 * (length bytes + 2))%nat) as Hl
    by (rewrite length_app, Hh; simpl; lia).
  rewrite byte_align_aligned.
  2:{ rewrite Hl, Nat2Z.inj_mul. rewrite Z.mul_comm. apply Z.mod_mul. lia. }
  rewrite (padding_spec (Z.to_nat cap - length bytes - 2)) by (rewrite ?Hl; lia).
  by rewrite app_assoc.
Qed.

Lemma encode_bits_shape bytes cap :
  Z.of_nat (length bytes) + 2 <= cap ->
  length (encode_bits bytes cap) = (8 * Z.to_nat cap)%nat /\ Forall bit_ok (encode_bits bytes cap).
Proof.
  intros Hfit. rewrite encode_bits_fits by done. split.
  - unfold header. rewrite !length_app, length_bits8, !length_concat_bits8, length_pads. simpl. lia.
  - unfold header. rewrite !Forall_app. split_and_all; auto using bits8_bit, concat_bits8_bit.
    all: repeat constructor; unfold bit_ok; lia.
Qed.

(** Reading the stream back. *)
Lemma parse_header bytes rest :
  bytes_ok bytes -> (length bytes < 256)%nat -> parse_bits (header bytes ++ rest) = Some bytes.
Proof.
  intros Hb Hlen. unfold header, parse_bits. rewrite <- !app_assoc.
  rewrite (take_app_length' [0;1;0;0]), !(drop_app_length' [0;1;0;0]) by done.
  rewrite take_app_length' by done. rewrite be_value_bits8 by (unfold byte_ok; lia).
  change (be_value [0;1;0;0] =? 4) with true. cbn [andb].
  rewrite bool_decide_true.
  2:{ rewrite !length_app, length_bits8, length_concat_bits8. simpl. lia. }
  rewrite Nat2Z.id. f_equal.
  rewrite (app_assoc [0;1;0;0]), drop_app_length' by (rewrite length_app, length_bits8; done).
  by apply read_bytes_concat.
Qed.

(** ** Blocks *)

Definition mk_block (ecLen : Z) (dd : list Z) : block :=
  {| d := dd; e := rsEncode dd (Z.to_nat ecLen) |}.

(** The data split in [nb] parts of [nd]. *)
Fixpoint parts (nb nd : nat) (data : list Z) : list (list Z) :=
  match nb with
  | O => []
  | S nb => take nd data :: parts nb nd (drop nd data)
  end.

Lemma length_parts nb nd data : length (parts nb nd data) = nb.
Proof. revert data. induction nb; intros; simpl; auto. Qed.

Lemma concat_parts nb nd data :
  length data = (nb * nd)%nat -> concat (parts nb nd data) = data.
Proof.
  revert data. induction nb as [|nb IH]; intros data Hl; simpl.
  - by destruct data.
  - rewrite IH by llen. apply take_drop.
Qed.

Lemma parts_lengths nb nd data :
  length data = (nb * nd)%nat -> Forall (fun p => length p = nd) (parts nb nd data).
Proof.
  revert data. induction nb as [|nb IH]; intros data Hl; simpl; constructor; [llen|].
  apply IH. llen.
Qed.

Lemma parts_ok nb nd data : bytes_ok data -> Forall (fun p => bytes_ok p) (parts nb nd data).
Proof.
  revert data. induction nb as [|nb IH]; intros data Hd; simpl; constructor.
  - by apply Forall_take.
  - apply IH. by apply Forall_drop.
Qed.

Lemma group_blocks_parts nb nd ecLen data di :
  0 <= nd -> 0 <= di ->
  group_blocks nb nd ecLen data di =
    (map (mk_block ecLen) (parts nb (Z.to_nat nd) (drop (Z.to_nat di) data)), di + Z.of_nat nb * nd).
Proof.
  intros Hnd. revert di. induction nb as [|nb IH]; intros di Hdi; simpl.
  { f_equal. lia. }
  rewrite IH by lia. unfold mk_block, slice. replace (di + nd - di) with nd by lia.
  rewrite drop_drop, Z2Nat.inj_add by lia. f_equal. lia.
Qed.

Lemma make_blocks_parts nb nd ecLen data :
  0 <= nb -> 0 <= nd ->
  make_blocks [(nb, nd)] ecLen data 0 =
    map (mk_block ecLen) (parts (Z.to_nat nb) (Z.to_nat nd) data).
Proof.
  intros. cbn [make_blocks]. rewrite group_blocks_parts by lia. cbn [make_blocks].
  rewrite app_nil_r. done.
Qed.

(** ** Interleaving *)

(** Row [i] of the blocks: the [i]th codeword of each. *)
Definition rows (ls : list (list Z)) (n : nat) : list Z :=
  concat (map (fun i => map (fun l => l !!! i) ls) (seq 0 n)).

Lemma length_rows ls n : length (rows ls n) = (n * length ls)%nat.
Proof.
  unfold rows. induction n as [|n IH]; [done|].
  rewrite seq_S, map_app, concat_app, length_app, IH. simpl. rewrite length_app, length_map. simpl. lia.
Qed.

Lemma rows_lookup ls n i j :
  (i < n)%nat -> (j < length ls)%nat ->
  rows ls n !!! (i * length ls + j)%nat = (ls !!! j) !!! i.
Proof.
  intros Hi Hj. unfold rows. revert i Hi. induction n as [|n IH]; intros i Hi; [lia|].
  rewrite seq_S, map_app, concat_app. fold (rows ls n).
  destruct (decide (i < n)%nat) as [Hlt|].
  - rewrite lookup_total_app. rewrite decide_True; [by apply IH|]. rewrite length_rows. nia.
  - assert (i = n) as -> by lia. rewrite lookup_total_app. rewrite decide_False by (rewrite length_rows; nia).
    rewrite length_rows. replace (n * length ls + j - n * length ls)%nat with j by lia.
    simpl. rewrite app_nil_r. apply list_lookup_total_correct. rewrite list_lookup_fmap.
    by rewrite (list_lookup_lookup_total_lt ls j Hj).
Qed.

Lemma deinterleave_rows ls n j rest :
  Forall (fun l => length l = n) ls -> (j < length ls)%nat ->
  deinterleave (length ls) n (rows ls n ++ rest) j = ls !!! j.
Proof.
  intros Hf Hj. unfold deinterleave.
  assert (length (ls !!! j) = n) as Hl.
  { rewrite Forall_lookup in Hf. eapply Hf. by apply list_lookup_lookup_total_lt. }
  apply list_eq_total; [by llen|]. intros i Hi. llen.
  rewrite lookup_total_map_seq by done. rewrite lookup_total_app.
  rewrite decide_True by (rewrite length_rows; nia). by apply rows_lookup.
Qed.

Lemma deinterleave_all ls n rest :
  Forall (fun l => length l = n) ls ->
  map (deinterleave (length ls) n (rows ls n ++ rest)) (seq 0 (length ls)) = ls.
Proof.
  intros Hf. apply list_eq_same_length with (length ls); rewrite ?length_map, ?length_seq; [done..|].
  intros j x y Hj Hx Hy. rewrite list_lookup_fmap, lookup_seq_lt in Hx by done.
  injection Hx as <-. simpl. rewrite deinterleave_rows by done. by apply list_lookup_total_correct.
Qed.


Lemma bind_concat {A B} (f : A -> list B) (l : list A) : l ≫= f = concat (map f l).
Proof. induction l; [done|]. cbn [map concat]. by rewrite <- IHl. Qed.

(** A bind over the positions of blocks that all have them is their rows. *)
Lemma bind_rows {A} (f : A -> list Z) (bs : list A) n :
  Forall (fun b => length (f b) = n) bs ->
  (i ← seq 0 n; b ← bs; match f b !! i with Some x => [x] | None => [] end) = rows (map f bs) n.
Proof.
  intros Hf. unfold rows. rewrite bind_concat. f_equal. apply map_ext_in.
  intros i Hi%list_elem_of_In%elem_of_seq. rewrite map_map, bind_concat.
  induction Hf as [|b bs Hb Hf IH]; [done|]. simpl. rewrite IH.
  by rewrite (list_lookup_lookup_total_lt (f b) i) by lia.
Qed.

Lemma max_list_const n ns : ns <> [] -> Forall (fun m => m = n) ns -> max_list ns = n.
Proof.
  intros Hne Hf. rewrite Forall_forall in Hf. apply Hf. by apply max_list_elem_of.
Qed.

Lemma interleave_rows bs nd ne :
  bs <> [] -> Forall (fun b => length (d b) = nd) bs -> Forall (fun b => length (e b) = ne) bs ->
  interleave bs = rows (map d bs) nd ++ rows (map e bs) ne.
Proof.
  intros Hne Hd He. unfold interleave.
  rewrite (max_list_const nd).
  - replace (match bs with [] => 0%nat | b :: _ => length (e b) end) with ne
      by (destruct bs; [done | by apply Forall_cons in He as [-> _]]).
    by rewrite (bind_rows d), (bind_rows e).
  - by destruct bs.
  - by rewrite Forall_map.
Qed.

Lemma blocks_facts nb nd ne data :
  (ne <= 510)%nat -> length data = (nb * nd)%nat -> bytes_ok data ->
  let bs := map (mk_block (Z.of_nat ne)) (parts nb nd data) in
  length bs = nb /\ map d bs = parts nb nd data /\
  Forall (fun b => length (d b) = nd) bs /\ Forall (fun b => length (e b) = ne) bs /\
  Forall (fun b => bytes_ok (d b)) bs /\ Forall (fun b => bytes_ok (e b)) bs.
Proof.
  intros Hne Hl Hd bs. pose proof (parts_lengths nb nd data Hl) as HL. pose proof (parts_ok nb nd data Hd) as HO.
  unfold bs. rewrite !Forall_map, map_map. split_and_all; try done.
  - by rewrite length_map, length_parts.
  - cbn. apply map_id.
  - eapply Forall_impl; [exact HO|]. intros p Hp. cbn. rewrite Nat2Z.id. by apply length_rsEncode.
  - eapply Forall_impl; [exact HO|]. intros p Hp. cbn. rewrite Nat2Z.id. by apply rsEncode_ok.
Qed.

Lemma rows_ok ls n : Forall (fun l => bytes_ok l) ls -> Forall (fun l => length l = n) ls ->
  bytes_ok (rows ls n).
Proof.
  intros Ho Hl. unfold rows. apply Forall_concat, Forall_map, Forall_forall. intros i Hi%elem_of_seq.
  apply Forall_map, Forall_forall. intros l Hin. rewrite Forall_forall in Ho, Hl.
  apply Forall_lookup_total; [by apply Ho|]. rewrite Hl by done. lia.
Qed.

Lemma syndromes_block ne p :
  (ne <= 510)%nat -> bytes_ok p -> syndromes_zero ne (p ++ rsEncode p ne) = true.
Proof.
  intros Hne Hp. unfold syndromes_zero. apply forallb_forall.
  intros k Hk%list_elem_of_In%elem_of_seq. apply Z.eqb_eq, rsEncode_is_codeword; (done || lia).
Qed.

(** The bits the generator places for [bytes]. *)
Definition stream (nb nd ne : nat) (bytes : list Z) (ver : Z) : list Z :=
  let cap := Z.of_nat (nb * nd) in
  final_bits (interleave (map (mk_block (Z.of_nat ne))
    (parts nb nd (data_bytes (encode_bits bytes cap))))) ver.

Section Stream.
Context (nb nd ne : nat) (bytes : list Z).
Hypothesis Hnb : (0 < nb)%nat.
Hypothesis Hne : (ne <= 510)%nat.
Hypothesis Hfit : (length bytes + 2 <= nb * nd)%nat.

Let data := data_bytes (encode_bits bytes (Z.of_nat (nb * nd))).
Let bs := map (mk_block (Z.of_nat ne)) (parts nb nd data).

Lemma stream_data :
  concat (map bits8 data) = encode_bits bytes (Z.of_nat (nb * nd)) /\
  length data = (nb * nd)%nat /\ bytes_ok data.
Proof.
  destruct (encode_bits_shape bytes (Z.of_nat (nb * nd))) as [Hl Hb]; [lia|].
  apply data_bytes_spec; [|done]. rewrite Hl. lia.
Qed.

Lemma stream_codewords :
  interleave bs = rows (map d bs) nd ++ rows (map e bs) ne /\
  length (interleave bs) = (nb * (nd + ne))%nat /\ bytes_ok (interleave bs).
Proof.
  destruct stream_data as (_ & Hdl & Hdo).
  destruct (blocks_facts nb nd ne data) as (Hlen & _ & Hd & He & Hdb & Heb); [done..|].
  fold bs in Hlen, Hd, He, Hdb, Heb.
  assert (interleave bs = rows (map d bs) nd ++ rows (map e bs) ne) as ->.
  { apply interleave_rows; [|done..]. intros H. rewrite H in Hlen. simpl in Hlen. lia. }
  split_and_all; [done| |].
  - rewrite length_app, !length_rows, !length_map, Hlen. lia.
  - apply Forall_app; split; apply rows_ok; by rewrite Forall_map.
Qed.

Lemma stream_shape ver :
  length (stream nb nd ne bytes ver)
    = (8 * (nb * (nd + ne)) + Z.to_nat (default 0%Z (REMBITS !! Z.to_nat ver)))%nat /\
  Forall bit_ok (stream nb nd ne bytes ver).
Proof.
  destruct stream_codewords as (_ & Hl & _). unfold stream, final_bits. fold data. fold bs.
  rewrite length_app, length_concat_bits8, length_replicate, Hl. split; [done|].
  apply Forall_app; split; [apply concat_bits8_bit | apply Forall_replicate; by left].
Qed.

Hypothesis Hok : bytes_ok bytes.
Hypothesis Hlen256 : (length bytes < 256)%nat.

Lemma decode_stream_spec ver :
  decode_stream nb nd ne (stream nb nd ne bytes ver) = Some bytes.
Proof.
  destruct stream_data as (Hbits & Hdl & Hdo).
  destruct stream_codewords as (Hrows & Hcl & Hco).
  destruct (blocks_facts nb nd ne data) as (Hlen & Hmd & Hd & He & Hdb & Heb); [done..|].
  fold bs in Hlen, Hmd, Hd, He, Hdb, Heb.
  unfold decode_stream, stream, final_bits. fold data. fold bs.
  replace (nb * (nd + ne))%nat with (length (interleave bs)). rewrite read_bytes_concat by done.
  rewrite Hrows. rewrite drop_app_length' by (rewrite length_rows, length_map, Hlen; lia).
  assert (forall rest, map (deinterleave nb nd (rows (map d bs) nd ++ rest)) (seq 0 nb) = map d bs) as ->.
  { intros rest. rewrite <- Hlen at 1 2. rewrite <- (length_map d bs).
    apply deinterleave_all. by rewrite Forall_map. }
  assert (map (deinterleave nb ne (rows (map e bs) ne)) (seq 0 nb) = map e bs) as ->.
  { rewrite <- Hlen at 1 2. rewrite <- (length_map e bs), <- (app_nil_r (rows _ _)).
    apply deinterleave_all. by rewrite Forall_map. }
  rewrite Hmd, concat_parts by done.
  assert (map to_bits data = map bits8 data) as ->.
  { apply map_ext_in. intros b Hb%list_elem_of_In. rewrite Forall_forall in Hdo.
    symmetry. by apply bits8_to_bits, Hdo. }
  rewrite Hbits, encode_bits_fits by lia. rewrite parse_header by done.
  assert (forallb (syndromes_zero ne) (zip_with (++) (parts nb nd data) (map e bs)) = true) as ->; [|done].
  unfold bs. clear Hrows Hcl Hco Hlen Hmd Hd He Hdb Heb.
  pose proof (parts_ok nb nd data Hdo) as HO. induction HO as [|p ps Hp HO IH]; [done|].
  cbn [map zip_with forallb mk_block e]. rewrite IH, Nat2Z.id, syndromes_block by done. done.
Qed.
End Stream.
