(* ===== verification/QrSymbol.v ===== *)
(** * The symbol the generator draws

    Placement, masking and format information on the module matrix, and the
    facts about each version that are checked by computation. *)

From stdpp Require Import gmap.
From S2P Require Import Prelude GF256 JsText ReedSolomon QrMatrix QrCode QrDecode QrProofs.
Local Open Scope Z_scope.

(** ** Distinctness of long lists of positions *)

Fixpoint nodupb (seen : gmap (Z * Z) unit) (l : list (Z * Z)) : bool :=
  match l with
  | [] => true
  | p :: l => match seen !! p with Some _ => false | None => nodupb (<[p := tt]> seen) l end
  end.

Lemma nodupb_spec seen l :
  nodupb seen l = true -> NoDup l /\ forall p, p ∈ l -> seen !! p = None.
Proof.
  revert seen. induction l as [|p l IH]; intros seen H; simpl in H.
  { split; [constructor|]. intros p Hp. by apply not_elem_of_nil in Hp. }
  destruct (seen !! p) eqn:E; [done|]. destruct (IH _ H) as [Hnd Hs]. split.
  - constructor; [|done]. intros Hin. apply Hs in Hin. by rewrite lookup_insert_eq in Hin.
  - intros p' [->|Hin]%elem_of_cons; [done|]. apply Hs in Hin.
    destruct (decide (p = p')) as [->|]; [by rewrite lookup_insert_eq in Hin|].
    by rewrite lookup_insert_ne in Hin.
Qed.

(** ** Placement *)

(** The modules that receive data bits, in the order of the visit. *)
Definition free_cells (res : mat) (size : Z) : list (Z * Z) :=
  filter (fun p => mget res p.1 p.2 = Some 0) (visit_order size).

Fixpoint bit_writes (bits : list Z) (bi : nat) (cs : list (Z * Z)) : list (Z * Z * Z) :=
  match cs with
  | [] => []
  | p :: cs => (p, default 0 (bits !! bi)) :: bit_writes bits (S bi) cs
  end.

Lemma bit_writes_fst bits bi cs : map fst (bit_writes bits bi cs) = cs.
Proof. revert bi. induction cs; intros; simpl; [done|]. by f_equal. Qed.

Lemma bit_writes_lookup bits bi cs k p :
  cs !! k = Some p -> (p, default 0 (bits !! (bi + k)%nat)) ∈ bit_writes bits bi cs.
Proof.
  revert bi k. induction cs as [|q cs IH]; intros bi [|k] H; simpl in *; try done.
  - injection H as ->. rewrite Nat.add_0_r. left.
  - right. replace (bi + S k)%nat with (S bi + k)%nat by lia. by apply IH.
Qed.

Lemma place_bits_writes res m bits bi cs :
  Forall (fun p => is_Some (mget res p.1 p.2)) cs ->
  place_bits res m bits bi cs =
    mwrites m (bit_writes bits bi (filter (fun p => mget res p.1 p.2 = Some 0) cs)).
Proof.
  intros Hf. revert m bi. induction Hf as [|[r c] cs [x Hx] Hf IH]; intros m bi; [done|].
  cbn [place_bits]. simpl in Hx. rewrite filter_cons. cbn [fst snd]. rewrite Hx. cbn [mbind option_bind].
  destruct (Z.eqb_spec x 0) as [->|Hne].
  - rewrite decide_True by done. cbn [bit_writes mwrites].
    destruct (mset m r c _); simpl; [apply IH | done].
  - rewrite decide_False by congruence. apply IH.
Qed.

(** ** Masking *)

Lemma apply_mask_modify res m mask cs :
  apply_mask res m mask cs =
    mmodify m (filter (fun p => (at_ res p.1 p.2 =? 0) && maskFns mask p.1 p.2 = true) cs)
      (fun _ _ x => x ^. 1).
Proof.
  revert m. induction cs as [|[r c] cs IH]; intros m; [done|]. cbn [apply_mask].
  rewrite filter_cons. cbn [fst snd].
  destruct ((at_ res r c =? 0) && maskFns mask r c).
  - rewrite decide_True by done. cbn [mmodify]. destruct (mset m r c _); simpl; [apply IH | done].
  - rewrite decide_False by done. apply IH.
Qed.

Lemma apply_mask_spec n res m mask : square n m ->
  exists m', apply_mask res m mask (cells n) = Some m' /\ square n m' /\
    forall r c, in_range n (r, c) ->
      at_ m' r c = if (at_ res r c =? 0) && maskFns mask r c then uint8 (at_ m r c ^. 1) else at_ m r c.
Proof.
  intros Hsq. rewrite apply_mask_modify.
  set (cs := filter _ (cells n)).
  assert (forall r c, (r, c) ∈ cs <-> ((at_ res r c =? 0) && maskFns mask r c = true /\ in_range n (r, c))) as Hcs.
  { intros r c. unfold cs. rewrite list_elem_of_filter, elem_of_cells. done. }
  destruct (mmodify_square n m cs (fun _ _ x => x ^. 1)) as (m' & Hm & Hsq' & Hw & Hk); [done| | |].
  - apply Forall_forall. intros [r c] H. by apply Hcs.
  - apply NoDup_filter, NoDup_cells.
  - exists m'. split_and_all; [done..|]. intros r c Hr.
    destruct ((at_ res r c =? 0) && maskFns mask r c) eqn:E.
    + apply Hw. by apply Hcs.
    + apply Hk; [done|]. rewrite Hcs. intros [H _]. congruence.
Qed.

Lemma masked_total n res m mask : 0 <= n -> exists mm, masked n res m mask = Some mm /\ square n mm.
Proof.
  intros Hn. unfold masked.
  destruct (mwrites_square n (mkMat n) (map (fun '(r, c) =>
       (r, c, if at_ res r c =? 0
              then at_ m r c ^. (if maskFns mask r c then 1 else 0) else at_ m r c))
     (cells n))) as (mm & -> & Hsq & _); [by apply mkMat_square| | |by exists mm].
  - apply Forall_map, Forall_forall. intros [r c] H. by apply elem_of_cells.
  - rewrite map_map. erewrite map_ext, map_id; [apply NoDup_cells|]. by intros [].
Qed.

(** The penalty of the matrix a mask gives. *)
Definition mask_score (size : Z) (res m : mat) (mask : Z) : Z :=
  default 0 (penaltyScore <$> masked size res m mask).

(** What the mask loop knows after the masks below [k]. *)
Definition best_upto (score : Z -> Z) (k : Z) (best : Z * option Z) : Prop :=
  0 <= best.1 < k /\ best.2 = Some (score best.1) /\
  (forall j, 0 <= j < k -> score best.1 <= score j) /\
  (forall j, 0 <= j < best.1 -> score best.1 < score j).

Lemma mask_loop_step size res m k n best : 0 <= size -> 0 < k ->
  best_upto (mask_score size res m) k best ->
  exists best', mask_loop size res m (seqZ k (Z.of_nat n)) best = Some best' /\
    best_upto (mask_score size res m) (k + Z.of_nat n) best'.
Proof.
  intros Hs. revert k best. induction n as [|n IH]; intros k best Hk Hb.
  { exists best. rewrite Z.add_0_r. done. }
  rewrite seqZ_cons by lia. cbn [mask_loop].
  replace (Z.pred (Z.of_nat (S n))) with (Z.of_nat n) by lia.
  replace (k + Z.of_nat (S n)) with (Z.succ k + Z.of_nat n) by lia.
  destruct (masked_total size res m k Hs) as (mm & Hmm & _). rewrite Hmm. cbn [mbind option_bind].
  assert (penaltyScore mm = mask_score size res m k) as Hsc by (unfold mask_score; by rewrite Hmm).
  destruct Hb as (Hr & Hs2 & Hmin & Hfirst). rewrite Hs2, Hsc. apply IH; [lia|].
  destruct (Z.ltb_spec (mask_score size res m k) (mask_score size res m best.1)) as [Hlt|Hge]; unfold best_upto; simpl.
  - split_and_all; [lia..|done| |].
    + intros j Hj. destruct (decide (j = k)) as [->|]; [lia|]. specialize (Hmin j). lia.
    + intros j Hj. specialize (Hmin j). lia.
  - split_and_all; [lia..|done| |].
    + intros j Hj. destruct (decide (j = k)) as [->|]; [lia|]. apply Hmin. lia.
    + done.
Qed.

Lemma mask_loop_spec size res m : 0 <= size ->
  exists best, mask_loop size res m (upto 0 8) (0, None) = Some best /\
    best_upto (mask_score size res m) 8 best.
Proof.
  intros Hs. change (upto 0 8) with (0 :: seqZ 1 (Z.of_nat 7)). cbn [mask_loop].
  destruct (masked_total size res m 0 Hs) as (mm & Hmm & _). rewrite Hmm. cbn [mbind option_bind].
  apply (mask_loop_step size res m 1 7); [lia..|].
  unfold best_upto, mask_score. simpl. rewrite Hmm. simpl. split_and_all; [lia..|done| |].
  - intros j Hj. replace j with 0 by lia. rewrite Hmm. simpl. lia.
  - lia.
Qed.

(** ** Output *)

Definition output (size : Z) (m : mat) : list (list bool) :=
  map (fun r => map (fun c => at_ m r c =? 1) (upto 0 size)) (upto 0 size).

Lemma lookup_upto n i : 0 <= i < n -> upto 0 n !! Z.to_nat i = Some i.
Proof. intros H. unfold upto. rewrite lookup_seqZ_lt by lia. f_equal. lia. Qed.

Lemma module_at_output n m r c :
  in_range n (r, c) -> module_at (output n m) r c = Some (at_ m r c =? 1).
Proof.
  intros [Hr Hc]. simpl in *. unfold module_at, output.
  destruct (Z.ltb_spec r 0), (Z.ltb_spec c 0); try lia. simpl.
  rewrite list_lookup_fmap, lookup_upto by done. simpl.
  by rewrite list_lookup_fmap, lookup_upto.
Qed.

Lemma length_output n m : 0 <= n -> Z.of_nat (length (output n m)) = n.
Proof. intros. unfold output, upto. rewrite length_map, length_seqZ. lia. Qed.

(** ** Facts about the versions, by computation *)

#[export] Instance square_dec n m : Decision (square n m).
Proof. unfold square. apply _. Defined.

(** The patterns are drawn without an error, the visit stays inside the symbol
    and meets no module twice, and the format information only overwrites
    reserved modules, none of them twice. *)
Definition version_checks (ver : Z) : bool :=
  let size := qr_size ver in
  match setup_patterns ver with
  | None => false
  | Some (m, res) =>
      bool_decide (square size m) && bool_decide (square size res)
      && bool_decide (Forall (in_range size) (visit_order size))
      && nodupb ∅ (visit_order size)
      && bool_decide (Forall (fun p => in_range size p /\ at_ res p.1 p.2 = 1)
                        (map fst (format_writes size 0 ver)))
      && nodupb ∅ (map fst (format_writes size 0 ver))
  end.

Lemma versions_checked : forallb version_checks (seqZ 1 7) = true.
Proof. vm_compute. reflexivity. Qed.

(** Up to version 6 the modules that receive data are those of the standard, in
    its order, and their number is that of the codewords and remainder bits. *)
Definition layout_checks (ver : Z) : bool :=
  match setup_patterns ver, iso_blocks ver with
  | Some (_, res), Some (nb, nd, ne) =>
      bool_decide (free_cells res (qr_size ver) = iso_cells ver)
      && bool_decide (length (iso_cells ver)
           = (8 * (nb * (nd + ne)) + Z.to_nat (default 0%Z (REMBITS !! Z.to_nat ver)))%nat)
  | _, _ => false
  end.

Lemma layouts_checked : forallb layout_checks (seqZ 1 6) = true.
Proof. vm_compute. reflexivity. Qed.

Lemma forallb_seqZ (f : Z -> bool) n k :
  forallb f (seqZ 1 n) = true -> 1 <= k <= n -> f k = true.
Proof.
  intros H Hk. rewrite forallb_forall in H. apply H, list_elem_of_In, elem_of_seqZ. lia.
Qed.

Lemma format_writes_fst n mask ver : map fst (format_writes n mask ver) = map fst (format_writes n 0 ver).
Proof. reflexivity. Qed.

Record version_facts (ver : Z) (m res : mat) : Prop := {
  vf_setup : setup_patterns ver = Some (m, res);
  vf_m : square (qr_size ver) m;
  vf_res : square (qr_size ver) res;
  vf_visit : Forall (in_range (qr_size ver)) (visit_order (qr_size ver));
  vf_nodup : NoDup (visit_order (qr_size ver));
  vf_format : forall mask, Forall (fun p => in_range (qr_size ver) p /\ at_ res p.1 p.2 = 1)
                (map fst (format_writes (qr_size ver) mask ver));
  vf_format_nodup : forall mask, NoDup (map fst (format_writes (qr_size ver) mask ver)) }.

Lemma version_ok ver : 1 <= ver <= 7 -> exists m res, version_facts ver m res.
Proof.
  intros Hv. pose proof (forallb_seqZ _ 7 ver versions_checked Hv) as H. unfold version_checks in H.
  destruct (setup_patterns ver) as [[m res]|] eqn:E; [|done].
  rewrite !andb_true_iff in H. destruct H as [[[[[H1 H2] H3] H4] H5] H6].
  apply bool_decide_eq_true in H1, H2, H3, H5. apply nodupb_spec in H4 as [H4 _], H6 as [H6 _].
  exists m, res. constructor; try done.
Qed.

Lemma mget_at m r c x : mget m r c = Some x -> at_ m r c = x.
Proof. unfold at_. by intros ->. Qed.

Lemma square_mget n m r c : square n m -> in_range n (r, c) -> mget m r c = Some (at_ m r c).
Proof.
  intros Hsq [Hr Hc]. simpl in *. destruct (square_lookup n m r Hsq Hr) as (row & Hrow & Hlen).
  unfold at_, mget. destruct (Z.ltb_spec r 0), (Z.ltb_spec c 0); try lia. simpl. rewrite Hrow. simpl.
  destruct (lookup_lt_is_Some_2 row (Z.to_nat c)) as [x Hx]; [lia|]. by rewrite Hx.
Qed.

(** ** The drawn symbol

    What the phases after the bit stream produce: the symbol holds the masked
    data bits on the free modules and the format information of the mask. *)
Section Symbol.
Context (ver : Z) (m res : mat) (bits : list Z).
Hypothesis Hver : 1 <= ver <= 7.
Hypothesis F : version_facts ver m res.
Hypothesis Hbits : Forall bit_ok bits.

Let size := qr_size ver.
Let free := free_cells res size.

Lemma size_pos : 0 <= size.
Proof. unfold size, qr_size. lia. Qed.

Lemma free_ok : Forall (in_range size) free /\ NoDup free.
Proof.
  destruct F. split; [|by apply NoDup_filter]. apply Forall_forall.
  intros p [_ Hp]%list_elem_of_filter. rewrite Forall_forall in vf_visit0. by apply vf_visit0.
Qed.

Lemma placed : exists m1, place_bits res m bits 0 (visit_order size) = Some m1 /\ square size m1 /\
  forall k p, free !! k = Some p -> at_ m1 p.1 p.2 = default 0 (bits !! k).
Proof.
  destruct free_ok as [Hr Hnd]. destruct F.
  rewrite place_bits_writes.
  2:{ eapply Forall_impl; [exact vf_visit0|]. intros [r c] H. by rewrite (square_mget size). }
  destruct (mwrites_square size m (bit_writes bits 0 free)) as (m1 & H1 & Hsq & Hw & _); [done| | |].
  - apply Forall_forall. intros w Hw. rewrite Forall_forall in Hr. apply Hr.
    rewrite <- (bit_writes_fst bits 0 free). apply list_elem_of_fmap. eauto.
  - by rewrite bit_writes_fst.
  - exists m1. split_and_all; [done..|]. intros k [r c] Hk. simpl.
    rewrite (Hw r c (default 0 (bits !! k))).
    + apply uint8_small. destruct (bits !! k) as [b|] eqn:E; simpl; [|auto with garuda].
      rewrite Forall_lookup in Hbits. destruct (Hbits _ _ E) as [-> | ->]; unfold byte_ok; lia.
    + apply (bit_writes_lookup bits 0 free k (r, c) Hk).
Qed.

Lemma free_reserved p : p ∈ free -> at_ res p.1 p.2 = 0.
Proof. intros [H _]%list_elem_of_filter. by apply mget_at. Qed.

Lemma drawn : exists m1 best m2 m3,
  place_bits res m bits 0 (visit_order size) = Some m1 /\
  mask_loop size res m1 (upto 0 8) (0, None) = Some best /\
  best_upto (mask_score size res m1) 8 best /\
  apply_mask res m1 best.1 (cells size) = Some m2 /\
  placeFormat m2 best.1 ver = Some m3 /\
  (forall k p, free !! k = Some p ->
     at_ m3 p.1 p.2 = if maskFns best.1 p.1 p.2 then Z.lxor (default 0 (bits !! k)) 1
                      else default 0 (bits !! k)) /\
  (forall r c v, (r, c, v) ∈ format_writes size best.1 ver -> at_ m3 r c = uint8 v).
Proof.
  destruct placed as (m1 & Hm1 & Hsq1 & Hd).
  destruct (mask_loop_spec size res m1 size_pos) as (best & Hbest & Hspec).
  destruct (apply_mask_spec size res m1 best.1 Hsq1) as (m2 & Hm2 & Hsq2 & Hmask).
  assert (Z.of_nat (length m2) = size) as Hl2 by apply Hsq2.
  destruct free_ok as [Hr Hnd]. pose proof (vf_format _ _ _ F best.1) as Hff.
  destruct (mwrites_square size m2 (format_writes size best.1 ver)) as (m3 & Hm3 & Hsq3 & Hw & Hk); [done| | |].
  { apply Forall_forall. intros w Hw. rewrite Forall_forall in Hff. apply Hff.
    apply list_elem_of_fmap. eauto. }
  { apply F. }
  exists m1, best, m2, m3.
  split_and_all; [exact Hm1|exact Hbest|exact Hspec|exact Hm2| | |exact Hw].
  { unfold placeFormat. rewrite Hl2. exact Hm3. }
  intros k [r c] Hkp. specialize (Hd k _ Hkp). cbn [fst snd] in *.
  assert ((r, c) ∈ free) as Hin by by eapply list_elem_of_lookup_2.
  pose proof (free_reserved _ Hin) as Hres. cbn [fst snd] in Hres.
  rewrite Forall_forall in Hr. specialize (Hr _ Hin).
  rewrite Hk; [|done|].
  2:{ intros Hf. rewrite Forall_forall in Hff. apply Hff in Hf as [_ Hf]. cbn [fst snd] in Hf. congruence. }
  rewrite Hmask by done. rewrite Hres, Hd. cbn [Z.eqb andb].
  assert (bit_ok (default 0 (bits !! k))) as Hb.
  { destruct (bits !! k) as [b|] eqn:E; simpl; [|by left]. rewrite Forall_lookup in Hbits. eauto. }
  destruct (maskFns best.1 r c); [|done]. by destruct Hb as [-> | ->].
Qed.
End Symbol.
