(* ===== verification/QrTheorems.v ===== *)
(** * Properties of the QR generator *)

From S2P Require Import Prelude GF256 JsText ReedSolomon QrMatrix QrCode QrDecode QrProofs QrSymbol.
Local Open Scope Z_scope.

(** ** Choice of the version *)

Definition version_for (n : Z) : Z :=
  if n <=? 16 then 1 else if n <=? 28 then 2 else if n <=? 44 then 3
  else if n <=? 64 then 4 else if n <=? 86 then 5 else if n <=? 108 then 6 else 7.

Lemma need_eq len : need len = len + 2.
Proof. unfold need. Z.to_euclidean_division_equations. lia. Qed.

Lemma select_version_for n : select_version 8 1 n = Some (version_for n).
Proof.
  trans (if n <=? 16 then Some 1 else if n <=? 28 then Some 2 else if n <=? 44 then Some 3
         else if n <=? 64 then Some 4 else if n <=? 86 then Some 5 else if n <=? 108 then Some 6
         else Some 7); [reflexivity|].
  unfold version_for. zbool; done.
Qed.

Lemma version_for_range n : 1 <= version_for n <= 7.
Proof. unfold version_for. zbool; lia. Qed.

(** The table of the source has the block structure of the standard. *)
Lemma info_blocks ver : 1 <= ver <= 7 -> exists i nb nd ne,
  info ver = Some i /\ iso_blocks ver = Some (nb, nd, ne) /\
  groups i = [(Z.of_nat nb, Z.of_nat nd)] /\ ec i = Z.of_nat ne /\
  (0 < nb)%nat /\ (ne <= 510)%nat /\ group_sum (groups i) = Z.of_nat (nb * nd) /\
  (ver <= 6 -> (nb * nd <= 108)%nat).
Proof.
  intros H. assert (ver = 1 \/ ver = 2 \/ ver = 3 \/ ver = 4 \/ ver = 5 \/ ver = 6 \/ ver = 7) as Hc by lia.
  repeat destruct Hc as [->|Hc]; [..|subst ver];
    do 4 eexists; split_and_all; try reflexivity; simpl; lia.
Qed.

Lemma version_for_fits len i :
  0 <= len -> len + 2 <= 124 -> info (version_for (len + 2)) = Some i -> len + 2 <= group_sum (groups i).
Proof.
  intros H0 Hl. unfold version_for. zbool; intros [= <-]; cbn; lia.
Qed.

(** ** The whole generator *)

(** The block structure that the version for [len] bytes has. *)
Record plan (bytes : list Z) (ver : Z) (nb nd ne : nat) (i : ECInfo) (m res : mat) : Prop := {
  pl_ver : ver = version_for (Z.of_nat (length bytes) + 2);
  pl_range : 1 <= ver <= 7;
  pl_info : info ver = Some i;
  pl_blocks : iso_blocks ver = Some (nb, nd, ne);
  pl_groups : groups i = [(Z.of_nat nb, Z.of_nat nd)];
  pl_ec : ec i = Z.of_nat ne;
  pl_nb : (0 < nb)%nat;
  pl_ne : (ne <= 510)%nat;
  pl_cap : group_sum (groups i) = Z.of_nat (nb * nd);
  pl_facts : version_facts ver m res }.

Lemma plan_exists bytes : exists ver nb nd ne i m res, plan bytes ver nb nd ne i m res.
Proof.
  set (ver := version_for (Z.of_nat (length bytes) + 2)).
  assert (1 <= ver <= 7) as Hr by apply version_for_range.
  destruct (info_blocks ver Hr) as (i & nb & nd & ne & H1 & H2 & H3 & H4 & H5 & H6 & H7 & _).
  destruct (version_ok ver Hr) as (m & res & F).
  exists ver, nb, nd, ne, i, m, res. constructor; done.
Qed.

(** The bits placed, whether the bytes fit or not. *)
Lemma unmasked_plan bytes ver nb nd ne i m res : plan bytes ver nb nd ne i m res ->
  unmasked bytes = (m1 ← place_bits res m (stream nb nd ne bytes ver) 0 (visit_order (qr_size ver));
                    Some (ver, m1, res)).
Proof.
  intros []. unfold unmasked. rewrite need_eq, select_version_for, <- pl_ver0. cbn [mbind option_bind].
  rewrite pl_info0. cbn [mbind option_bind]. rewrite (vf_setup _ _ _ pl_facts0). cbn [mbind option_bind].
  rewrite pl_cap0, pl_groups0, pl_ec0. rewrite make_blocks_parts by lia.
  rewrite !Nat2Z.id. done.
Qed.

Lemma stream_bits nb nd ne bytes ver : Forall bit_ok (stream nb nd ne bytes ver).
Proof.
  unfold stream, final_bits. apply Forall_app. split; [apply concat_bits8_bit|].
  apply Forall_replicate. by left.
Qed.

(** The generator always draws a symbol, and what is on it. *)
Lemma generateQR_drawn text : exists ver nb nd ne i m res best m1 m3,
  plan (utf8_encode text) ver nb nd ne i m res /\
  unmasked (utf8_encode text) = Some (ver, m1, res) /\
  generateQR text = Some (output (qr_size ver) m3) /\
  best_upto (mask_score (qr_size ver) res m1) 8 best /\
  (forall k p, free_cells res (qr_size ver) !! k = Some p ->
     at_ m3 p.1 p.2 = if maskFns best.1 p.1 p.2
       then Z.lxor (default 0 (stream nb nd ne (utf8_encode text) ver !! k)) 1
       else default 0 (stream nb nd ne (utf8_encode text) ver !! k)) /\
  (forall r c v, (r, c, v) ∈ format_writes (qr_size ver) best.1 ver -> at_ m3 r c = uint8 v).
Proof.
  destruct (plan_exists (utf8_encode text)) as (ver & nb & nd & ne & i & m & res & P).
  destruct (drawn ver m res (stream nb nd ne (utf8_encode text) ver) (pl_range _ _ _ _ _ _ _ _ P) (pl_facts _ _ _ _ _ _ _ _ P)
    (stream_bits _ _ _ _ _)) as (m1 & best & m2 & m3 & H1 & H2 & H3 & H4 & H5 & H6 & H7).
  exists ver, nb, nd, ne, i, m, res, best, m1, m3.
  assert (unmasked (utf8_encode text) = Some (ver, m1, res)) as Hu.
  { rewrite (unmasked_plan _ _ _ _ _ _ _ _ P), H1. done. }
  split_and_all; [exact P|exact Hu| |exact H3|exact H6|exact H7].
  unfold generateQR. rewrite Hu. cbn [mbind option_bind]. rewrite H2. cbn [mbind option_bind].
  destruct best as [b s]. cbn [fst] in *. rewrite H4. cbn [mbind option_bind]. rewrite H5. done.
Qed.

(** ** Reading the symbol back *)

Lemma maskFns_iso mask r c : 0 <= mask < 8 -> maskFns mask r c = iso_mask mask r c.
Proof.
  intros H. assert (mask = 0 \/ mask = 1 \/ mask = 2 \/ mask = 3 \/ mask = 4 \/ mask = 5 \/ mask = 6 \/ mask = 7) as Hc by lia.
  repeat destruct Hc as [->|Hc]; [..|subst mask]; reflexivity.
Qed.

Lemma mapM_total {A B} (f : A -> option B) (g : A -> B) l :
  (forall x, x ∈ l -> f x = Some (g x)) -> mapM f l = Some (map g l).
Proof.
  intros H. induction l as [|x l IH]; [done|]. cbn [mapM map]. rewrite H by left.
  cbn [mbind option_bind]. rewrite IH; [done|]. intros y Hy. apply H. by right.
Qed.

Lemma mapM_lookup {A} (f : A -> option Z) l (bits : list Z) :
  length bits = length l ->
  (forall k x, l !! k = Some x -> f x = bits !! k) -> mapM f l = Some bits.
Proof.
  revert bits. induction l as [|x l IH]; intros [|b bits] Hl H; try done. cbn [mapM].
  rewrite (H 0%nat x) by done. cbn [mbind option_bind lookup list_lookup].
  rewrite (IH bits); [done | by injection Hl |]. intros k y Hy. by apply (H (S k)).
Qed.

(** The written format information holds the bits of the standard around the
    top left finder pattern; those in the second place do not. *)
Definition format_values (ver mask : Z) (cs : list (Z * Z)) : list (option Z) :=
  let ws := format_writes (qr_size ver) mask ver in
  map (fun p => (fun x => x.2.2) <$> list_find (fun w => w.1 = p) ws) cs.

Definition format_checks (ver mask : Z) : bool :=
  match mapM id (format_values ver mask format_cells_1),
        mapM id (format_values ver mask (format_cells_2 (qr_size ver))) with
  | Some b1, Some b2 =>
      forallb (fun b => (b =? 0) || (b =? 1)) (b1 ++ b2)
      && bool_decide (list_find (fun k => iso_format k = be_value b1) (seqZ 0 8)
                      = Some (Z.to_nat mask, mask))
      && bool_decide (list_find (fun k => iso_format k = be_value b2) (seqZ 0 8) = None)
      && bool_decide (Forall (in_range (qr_size ver)) (format_cells_1 ++ format_cells_2 (qr_size ver)))
  | _, _ => false
  end.

Lemma formats_checked :
  forallb (fun ver => forallb (format_checks ver) (seqZ 0 8)) (seqZ 1 7) = true.
Proof. vm_compute. reflexivity. Qed.

Lemma read_written ver mask m3 cs bits :
  (forall r c v, (r, c, v) ∈ format_writes (qr_size ver) mask ver -> at_ m3 r c = uint8 v) ->
  Forall (in_range (qr_size ver)) cs ->
  mapM id (format_values ver mask cs) = Some bits ->
  forallb (fun b => (b =? 0) || (b =? 1)) bits = true ->
  read_modules (output (qr_size ver) m3) cs = Some bits.
Proof.
  intros Hw Hr. revert bits. unfold read_modules, format_values.
  induction Hr as [|[r c] cs Hrc Hr IH]; intros bits Hm Hb.
  { by injection Hm as <-. }
  cbn [map mapM] in Hm. unfold id in Hm at 1.
  destruct (list_find _ _) as [[k [[r' c'] v]]|] eqn:E; [|done]. cbn [fmap option_fmap option_map mbind option_bind snd] in Hm.
  destruct (mapM id _) as [bs|] eqn:E2; [|done]. injection Hm as <-.
  simpl in Hb. apply andb_true_iff in Hb as [Hv Hb].
  apply list_find_Some in E as (Hk & Heq & _). simpl in Heq. injection Heq as -> ->.
  cbn [mapM]. cbn [fst snd]. rewrite module_at_output by done. cbn [mbind option_bind].
  rewrite (IH bs) by done. cbn [mbind option_bind]. f_equal. f_equal.
  rewrite (Hw r c v) by by eapply list_elem_of_lookup_2.
  assert (v = 0 \/ v = 1) as [-> | ->] by lia; done.
Qed.

Lemma read_formats ver mask m3 : 1 <= ver <= 7 -> 0 <= mask < 8 ->
  (forall r c v, (r, c, v) ∈ format_writes (qr_size ver) mask ver -> at_ m3 r c = uint8 v) ->
  read_format (output (qr_size ver) m3) format_cells_1 = Some mask /\
  read_format (output (qr_size ver) m3) (format_cells_2 (qr_size ver)) = None.
Proof.
  intros Hv Hm Hw. pose proof (forallb_seqZ _ 7 ver formats_checked Hv) as H. cbn beta in H.
  rewrite forallb_forall in H. specialize (H mask).
  rewrite <- list_elem_of_In, elem_of_seqZ in H. specialize (H ltac:(lia)). unfold format_checks in H.
  destruct (mapM id (format_values ver mask format_cells_1)) as [b1|] eqn:E1; [|done].
  destruct (mapM id (format_values ver mask (format_cells_2 _))) as [b2|] eqn:E2; [|done].
  rewrite !andb_true_iff, forallb_app, andb_true_iff in H. destruct H as [[[[H1 H2] H3] H4] H5].
  apply bool_decide_eq_true in H3, H4, H5. apply Forall_app in H5 as [H5 H6].
  unfold read_format. rewrite (read_written ver mask m3 _ b1), (read_written ver mask m3 _ b2) by done.
  cbn [mbind option_bind]. rewrite H3, H4. done.
Qed.

(** The data bits a reader takes from the free modules. *)
Lemma read_data_drawn size m3 mask cs bits :
  0 <= mask < 8 -> length bits = length cs -> Forall bit_ok bits -> Forall (in_range size) cs ->
  (forall k p, cs !! k = Some p ->
     at_ m3 p.1 p.2 = if maskFns mask p.1 p.2 then Z.lxor (default 0 (bits !! k)) 1
                      else default 0 (bits !! k)) ->
  read_data (output size m3) mask cs = Some bits.
Proof.
  intros Hm Hl Hb Hr Hd. unfold read_data. apply mapM_lookup; [done|].
  intros k [r c] Hk. pose proof Hk as Hk'. apply Hd in Hk'. cbn [fst snd] in *.
  rewrite module_at_output by (rewrite Forall_lookup in Hr; eauto). cbn [mbind option_bind].
  rewrite Hk', <- maskFns_iso by done.
  destruct (lookup_lt_is_Some_2 bits k) as [b Eb]; [rewrite Hl; by eapply lookup_lt_Some|].
  rewrite Eb. cbn [default from_option]. rewrite Forall_lookup in Hb.
  destruct (Hb _ _ Eb) as [-> | ->]; destruct (maskFns mask r c); done.
Qed.

Lemma layout_ok ver nb nd ne m res :
  1 <= ver <= 6 -> version_facts ver m res -> iso_blocks ver = Some (nb, nd, ne) ->
  free_cells res (qr_size ver) = iso_cells ver /\
  length (iso_cells ver) = (8 * (nb * (nd + ne)) + Z.to_nat (default 0%Z (REMBITS !! Z.to_nat ver)))%nat.
Proof.
  intros Hv F Hb. pose proof (forallb_seqZ _ 6 ver layouts_checked Hv) as H. unfold layout_checks in H.
  rewrite (vf_setup _ _ _ F), Hb in H. apply andb_true_iff in H as [H1 H2].
  by apply bool_decide_eq_true in H1, H2.
Qed.

(** ** Properties *)

(** C9. Round trip: every text of at most 106 UTF-8 bytes is read back, byte for
    byte, from the symbol [generateQR] draws for it, by a reader written from the
    standard that checks the format information, unmasks, de-interleaves and
    accepts only blocks whose syndromes are zero. *)
Theorem generateQR_roundtrip (text : jsstr) :
  Forall unit_ok text -> (length (utf8_encode text) <= 106)%nat ->
  exists q, generateQR text = Some q /\ decodeQR q = Some (utf8_encode text).
Proof.
  intros Ht Hlen.
  destruct (generateQR_drawn text) as (ver & nb & nd & ne & i & m & res & best & m1 & m3 & P & _ & Hg & Hb & Hd & Hf).
  exists (output (qr_size ver) m3). split; [exact Hg|]. destruct P. destruct Hb as (Hmask & _).
  assert (ver <= 6) as H6 by (rewrite pl_ver0; unfold version_for; zbool; lia).
  assert (length (utf8_encode text) + 2 <= nb * nd)%nat as Hfit.
  { pose proof (version_for_fits (Z.of_nat (length (utf8_encode text))) i) as H.
    rewrite <- pl_ver0, pl_cap0 in H. specialize (H ltac:(lia) ltac:(lia) pl_info0). lia. }
  destruct (layout_ok ver nb nd ne m res) as [Hcells Hcount]; [lia|done..|].
  destruct (stream_shape nb nd ne (utf8_encode text) pl_nb0 pl_ne0 Hfit ver) as [Hsl Hsb].
  unfold decodeQR. rewrite length_output by (unfold qr_size; lia).
  assert ((qr_size ver - 17) / 4 = ver) as -> by (unfold qr_size; Z.to_euclidean_division_equations; lia).
  rewrite (proj2 (Z.eqb_eq (qr_size ver) (17 + 4 * ver)) eq_refl). cbn [negb].
  rewrite pl_blocks0. cbn [mbind option_bind].
  destruct (read_formats ver best.1 m3) as [-> _]; [done..|]. cbn [mbind option_bind].
  rewrite (read_data_drawn _ _ _ _ (stream nb nd ne (utf8_encode text) ver)); try done.
  - cbn [mbind option_bind]. apply decode_stream_spec; try done; [by apply utf8_encode_ok | lia].
  - rewrite Hsl, Hcount. done.
  - rewrite <- Hcells. by apply (free_ok ver m res).
  - rewrite <- Hcells. exact Hd.
Qed.

Lemma generateQR_roundtrip_witness :
  exists q, generateQR (js "grd1q0000") = Some q /\ decodeQR q = Some (utf8_encode (js "grd1q0000")).
Proof.
  apply generateQR_roundtrip; [|vm_compute; lia].
  apply (bool_decide_unpack _). vm_compute. done.
Defined.


(** The mask loop finds the first mask of least penalty: the mask it returns
    has a penalty no larger than any of the eight and strictly smaller than every
    mask before it. *)
Theorem mask_loop_minimal (size : Z) (res m : mat) :
  0 <= size -> exists best s,
    mask_loop size res m (upto 0 8) (0, None) = Some (best, Some s) /\
    0 <= best < 8 /\ s = mask_score size res m best /\
    (forall j, 0 <= j < 8 -> s <= mask_score size res m j) /\
    (forall j, 0 <= j < best -> s < mask_score size res m j).
Proof.
  intros Hs. destruct (mask_loop_spec size res m Hs) as ([b s] & H & Hr & Hs2 & Hmin & Hf).
  cbn [fst snd] in *. subst s. exists b, (mask_score size res m b). done.
Qed.

Lemma mask_loop_minimal_witness : exists best s,
  mask_loop 2 (mkMat 2) (mkMat 2) (upto 0 8) (0, None) = Some (best, Some s) /\
  0 <= best < 8 /\ s = mask_score 2 (mkMat 2) (mkMat 2) best /\
  (forall j, 0 <= j < 8 -> s <= mask_score 2 (mkMat 2) (mkMat 2) j) /\
  (forall j, 0 <= j < best -> s < mask_score 2 (mkMat 2) (mkMat 2) j).
Proof. apply mask_loop_minimal. lia. Defined.

(** The second copy of the format information is written wrongly: on every
    symbol the generator draws, the fifteen modules the standard reserves for the
    second copy hold no valid format information, because the vertical part is
    written from the wrong end. *)
Theorem second_format_copy_unreadable (text : jsstr) (q : symbol) :
  generateQR text = Some q -> read_format q (format_cells_2 (Z.of_nat (length q))) = None.
Proof.
  intros Hq.
  destruct (generateQR_drawn text) as (ver & nb & nd & ne & i & m & res & best & m1 & m3 & P & _ & Hg & Hb & _ & Hf).
  rewrite Hg in Hq. injection Hq as <-. destruct P. destruct Hb as (Hmask & _).
  rewrite length_output by (unfold qr_size; lia). by apply (read_formats ver best.1 m3).
Qed.

Lemma second_format_copy_unreadable_witness :
  exists q, generateQR [] = Some q /\ read_format q (format_cells_2 (Z.of_nat (length q))) = None.
Proof.
  destruct (generateQR_drawn []) as (ver & nb & nd & ne & i & m & res & best & m1 & m3 & _ & _ & Hg & _).
  exists (output (qr_size ver) m3). split; [exact Hg|].
  exact (second_format_copy_unreadable [] _ Hg).
Defined.

Lemma version_7_layout :
  match setup_patterns 7 with
  | Some (_, res) =>
      length (filter (fun p => iso_function 7 p.1 p.2 = true) (free_cells res 45)) = 36%nat
  | None => False
  end.
Proof. vm_compute. reflexivity. Qed.

Lemma version_7_sample :
  match generateQR (replicate 107 65) with Some q => decodeQR q = None | None => False end.
Proof. vm_compute. reflexivity. Qed.

(** Version 7 symbols are not readable: the generator does not draw the
    version information the standard requires from version 7 on, and fills the 36
    modules reserved for it with data. The symbol for a text of 107 bytes is
    rejected by the reader. *)
Theorem version_7_unreadable :
  (exists m res, setup_patterns 7 = Some (m, res) /\
     length (filter (fun p => iso_function 7 p.1 p.2 = true) (free_cells res 45)) = 36%nat) /\
  (exists q, generateQR (replicate 107 65) = Some q /\ decodeQR q = None).
Proof.
  split.
  - destruct (version_ok 7) as (m & res & F); [lia|]. exists m, res. split; [apply F|].
    pose proof version_7_layout as H. rewrite (vf_setup _ _ _ F) in H. exact H.
  - pose proof version_7_sample as H. destruct (generateQR_drawn (replicate 107 65))
      as (ver & nb & nd & ne & i & m & res & best & m1 & m3 & _ & _ & Hg & _).
    rewrite Hg in H. exact (ex_intro _ _ (conj Hg H)).
Qed.

(** ** Texts that do not fit *)

Lemma parts_take nb nd data : parts nb nd data = parts nb nd (take (nb * nd) data).
Proof.
  revert data. induction nb as [|nb IH]; intros data; [done|]. cbn [parts]. f_equal.
  - rewrite take_take. f_equal. lia.
  - rewrite (IH (drop nd data)), (IH (drop nd (take (S nb * nd) data))). f_equal.
    rewrite skipn_firstn_comm, take_take. f_equal. lia.
Qed.

Lemma pack8_prefix x0 x1 x2 x3 x4 x5 x6 x7 l :
  pack8 (x0 :: x1 :: x2 :: x3 :: x4 :: x5 :: x6 :: x7 :: l) = pack8 [x0; x1; x2; x3; x4; x5; x6; x7].
Proof. unfold pack8. cbn [seq foldl lookup list_lookup]. reflexivity. Qed.

Lemma pack_bytes_take n a b1 b2 f1 f2 :
  length a = (8 * n)%nat -> (n <= f1)%nat -> (n <= f2)%nat ->
  take n (pack_bytes f1 (a ++ b1)) = take n (pack_bytes f2 (a ++ b2)).
Proof.
  revert a f1 f2. induction n as [|n IH]; intros a f1 f2 Hl H1 H2; [done|].
  destruct f1 as [|f1], f2 as [|f2]; [lia..|].
  do 8 (destruct a as [|? a]; [simpl in Hl; lia|]). cbn [app pack_bytes take drop].
  rewrite (pack8_prefix _ _ _ _ _ _ _ _ (a ++ b1)), (pack8_prefix _ _ _ _ _ _ _ _ (a ++ b2)).
  apply (f_equal (cons _)), IH; simpl in Hl; lia.
Qed.

Lemma byte_align_step n bits :
  Z.of_nat (length bits) mod 8 <> 0 -> byte_align (S n) bits = byte_align n (bits ++ [0]).
Proof. intros H. cbn [byte_align]. by rewrite (proj2 (Z.eqb_neq _ _)). Qed.

(** A stream longer than the capacity only gets its alignment bits. *)
Lemma encode_bits_overflow bytes :
  (123 <= length bytes)%nat -> encode_bits bytes 124 = header bytes ++ [0; 0; 0; 0].
Proof.
  intros Hlen. unfold encode_bits. fold (header bytes).
  assert (length (header bytes) = 12 + 8 * length bytes)%nat as Hh.
  { unfold header. rewrite !length_app, length_bits8, length_concat_bits8. simpl. lia. }
  assert (terminator 4 (124 * 8) (header bytes) = header bytes) as ->.
  { cbn [terminator]. rewrite (proj2 (Z.ltb_ge _ _)); [done|]. lia. }
  assert (byte_align 8 (header bytes) = header bytes ++ [0; 0; 0; 0]) as ->.
  { do 4 (rewrite byte_align_step, <- ?app_assoc; [cbn [app]|rewrite ?length_app, Hh; simpl length;
      Z.to_euclidean_division_equations; lia]).
    apply byte_align_aligned. rewrite length_app, Hh. simpl length.
    Z.to_euclidean_division_equations. lia. }
  destruct (Z.to_nat (124 * 8)); cbn [padding]; [done|].
  rewrite (proj2 (Z.ltb_ge _ _)); [done|]. rewrite length_app, Hh. simpl length. lia.
Qed.

Lemma overflow_parts b1 b2 :
  length b1 = length b2 -> (123 <= length b1)%nat -> take 123 b1 = take 123 b2 ->
  parts 4 31 (data_bytes (encode_bits b1 124)) = parts 4 31 (data_bytes (encode_bits b2 124)).
Proof.
  intros Hl Hlen Ht. rewrite !encode_bits_overflow by lia.
  rewrite parts_take, (parts_take _ _ (data_bytes (header b2 ++ _))). f_equal.
  change (4 * 31)%nat with 124%nat. unfold data_bytes, header.
  rewrite <- (take_drop 123 b1), <- (take_drop 123 b2), Ht, !map_app, !concat_app, <- !app_assoc.
  rewrite !length_app, !length_drop, !length_take, Hl.
  set (h := bits8 _). set (c := concat (map bits8 (take 123 b2))).
  assert (length (([0;1;0;0] ++ h) ++ c) = 996%nat) as Hc.
  { unfold h, c. rewrite !length_app, length_bits8, length_concat_bits8, length_take.
    cbn [length]. lia. }
  pose proof Hc as Hn. rewrite !length_app in Hn.
  rewrite !(app_assoc h), !(app_assoc [0;1;0;0]). rewrite <- (take_drop 992 (([0;1;0;0] ++ h) ++ c)).
  rewrite <- !app_assoc. apply pack_bytes_take; rewrite ?length_take, ?length_app; lia.
Qed.

(** Texts too long for version 7 are cut without an error: two texts of the
    same length, of at least 123 bytes, that agree on their first 123 bytes give
    the same symbol, so what follows is on neither of them. *)
Theorem generateQR_truncates (text1 text2 : jsstr) :
  length (utf8_encode text1) = length (utf8_encode text2) ->
  (123 <= length (utf8_encode text1))%nat ->
  take 123 (utf8_encode text1) = take 123 (utf8_encode text2) ->
  generateQR text1 = generateQR text2.
Proof.
  intros Hl Hlen Ht. unfold generateQR.
  enough (unmasked (utf8_encode text1) = unmasked (utf8_encode text2)) as -> by done.
  unfold unmasked. rewrite !need_eq, !select_version_for, Hl.
  assert (version_for (Z.of_nat (length (utf8_encode text2)) + 2) = 7) as -> by (unfold version_for; zbool; lia).
  cbn [mbind option_bind]. change (info 7) with (Some {| ec := 18; groups := [(4, 31)] |}).
  cbn [mbind option_bind groups ec]. destruct (setup_patterns 7) as [[m res]|]; cbn [mbind option_bind]; [|reflexivity].
  rewrite !make_blocks_parts by lia.
  change (group_sum [(4, 31)]) with 124. change (Z.to_nat 4) with 4%nat. change (Z.to_nat 31) with 31%nat.
  by rewrite (overflow_parts (utf8_encode text1) (utf8_encode text2)).
Qed.

Lemma generateQR_truncates_witness :
  generateQR (replicate 123 65 ++ [66]) = generateQR (replicate 123 65 ++ [67]).
Proof. apply generateQR_truncates; vm_compute; [reflexivity|lia|reflexivity]. Defined.
